(* ===== verification/_CoqProject ===== *)
-Q . S2P
Prelude.v
GoTime.v
Hash.v
GoJson.v
Contracts.v
AuditLog.v
AuditStore.v
Authorization.v
AuthorizationPolicy.v
Adapter.v
RunRepository.v
ExecutorLease.v
RunHistory.v
RunFacts.v
RunSuccess.v
ExecutorHistory.v
RunEngine.v
EngineLogic.v
EngineSafety.v
EngineSuccess.v
EngineWitnesses.v
EngineStartup.v
EngineRequests.v
ExternalExecutor.v
ExecutorSafety.v
ExecutorRecovery.v
ExecutorWitnesses.v
Admission.v
Gate.v
Schedule.v
ScheduleRepository.v
ScheduleLifecycle.v
ScheduleRunner.v
ScheduleSafety.v
ScheduleWitnesses.v
AckRepository.v
AckLifecycle.v
AckService.v
AckSafety.v
AckAdmission.v
AckWitnesses.v
Outbox.v
Operations.v
Dispatch.v
OperationsSafety.v
AlertLife.v
DispatchSafety.v
DispatchProgress.v
OperationsWitnesses.v
