(* ===== verification/Prelude.v ===== *)
(** * The control plane of VegaStack Labs

    This library models and verifies the core of the control plane under
    [src/internal/], a Go program that plans, authorizes and executes changes of
    self-hosted infrastructure: every change is a plan, every plan needs a decision
    and, unless a policy preauthorizes it, the approval of a human, every execution
    is a durable run whose steps go through leases, intents, effects and receipts,
    and everything that is recorded is chained into a tamper-evident audit log.

    ** The program and its files

    - [Prelude], [GoTime], [Hash], [GoJson]: the parts of Go the program relies on.
      Errors and results; int64 with its wrap-around, [time.Time], [time.Duration]
      and RFC 3339; SHA-256 as an interface with an executable instance; the
      output of [encoding/json].
    - [Contracts]: the generated contract types ([generated/contracts_gen.go]) and
      the lifecycle, timing and binding validators
      ([generated/contracts_validate_gen.go]).
    - [AuditLog] ([audit/]): events, their canonical form, the hash chain, its
      verifier, checkpoints. [AuditStore] ([store/audit_intent.go],
      [audit_chain.go]): the transaction every mutation of the store runs in. Its
      business tables are a parameter, which the repositories instantiate.
    - [Authorization] ([authorization/], [identity/], [principal/]): risk of a
      plan, grants, the evaluator of requests, resources of typed workflows.
      [AuthorizationPolicy] states the policy without the evaluator, by tables,
      relations and positions, and proves that the evaluator implements it.
    - [Adapter] ([adapter/types.go]): what the engine hands to an adapter and what
      it accepts back.
    - [RunRepository] ([store/run_repository.go] and its migration): the tables of
      runs, steps, leases, receipts and operations, one definition per method, each
      a business change of [AuditStore]. [ExecutorLease]
      ([store/executor_lease_repository.go] and its migration): the methods through
      which executors outside of the control process claim a step, check in and
      report, over the same tables. [RunHistory] has the calls of both
      repositories as one type, the invariants of the tables and the theorems about
      histories; [RunFacts] states what a call does to single runs and steps, and
      [RunSuccess] what it does to verified ones; [ExecutorHistory] adds the
      receipts of external executors.
    - [RunEngine] ([run/engine.go], [run/state.go]): submission, execution,
      resumption, cancellation, startup and reconciliation, as a state monad over
      the store and the trace. [EngineLogic] is a program logic for it;
      [EngineSafety], [EngineSuccess], [EngineStartup] and [EngineRequests] hold
      the theorems, [EngineWitnesses] a plan of one step to which they are applied.
    - [ExternalExecutor] ([run/external_executor.go], [managed_deployment.go]): the
      service through which executors outside of the control process claim steps,
      check in and report, and which reconciles lost leases. [ExecutorSafety] and
      [ExecutorRecovery] hold its theorems, [ExecutorWitnesses] a run of one step.
    - [Admission] ([run/admission.go]): the gate in front of the engine, and the
      engine behind that gate.
    - [Gate] ([gate/definition.go], [evaluator.go], [proof_registry.go]): the
      readiness gates of a subject and their evaluation.
    - [Schedule] ([schedule/clock.go], [policy.go], [prerequisites.go],
      [runtime.go]), [ScheduleRepository] ([store/schedule_repository.go] and its
      migration), [ScheduleRunner] ([schedule/service.go], [runner.go]): fixed
      schedules, their durable occurrences, and the scheduler that claims and runs
      them. [ScheduleLifecycle] relates the tables to an abstract machine of jobs,
      [ScheduleSafety] has the theorems about the scheduler, [ScheduleWitnesses]
      the histories they are applied to.

    - [AckRepository] ([store/acknowledgement_repository.go] and its migration),
      [AckService] ([acknowledgement/service.go], [types.go]): what a human is
      asked about a plan, the answer, and its consumption by an execution.
      [AckLifecycle] relates the tables to an abstract machine, [AckSafety] has the
      theorems, [AckAdmission] puts the service behind the gate of [Admission],
      [AckWitnesses] evaluates an approval from the request to the activation.
    - [Outbox] ([store/outbox.go], [audit/types.go]): the delivery of the rows of the
      outbox that the writer of [AuditStore] inserts. [Operations]
      ([operations/alerts.go], [store/operations.go] and its migration): the
      evaluation of observations into alerts, the transaction that records an alert,
      its transition and its notification, and the notifications that are due.
      [Dispatch] ([dispatch] of [server/operations_monitoring.go]): the consumer that
      sends them. [AlertLife] has the theorems about alerts, [OperationsSafety] what a
      call does to the tables, [DispatchSafety] and [DispatchProgress] the theorems
      about notifications, [OperationsWitnesses] two sources that fail and recover.

    ** How the code is modelled

    A Go struct is a record with the prefix of its type on the fields, a pointer an
    [option], a method that returns a value or an error a [result], one whose value
    counts on the error path as well a pair. A method that changes the store maps
    the store to an answer and a store. SQL tables are finite maps or lists with the
    keys, unique indexes, foreign keys, checks and triggers of the migrations; a
    column with a canonical document holds the document.

    What the process does not control is an argument: the context, the clock, the
    failing statements, the commit that fails although it became durable ([TxEnv] of
    [AuditStore], [ScheduleEnv] of [ScheduleRepository]); for the engine, the
    service of external executors, the scheduler and the dispatcher of notifications
    the surroundings ([Surroundings], [ExecutorSurroundings], [RunnerSurroundings],
    [DispatchSurroundings]), whose oracles
    are indexed by the number of the interaction, so that a theorem about all
    surroundings covers every behaviour of the outside, failures included. Other
    clients of a store make calls between those of the engine and the scheduler;
    they are events of the trace as well. In [AckService] they are functions on the
    store, bound to the guarantee that every call gives ([AckLifecycle.guarantee]).

    The schema tables behind [ValidateContractJSON] are classes of predicates
    ([RunSchemas], [AdmissionSchemas], [GateSchemas]), except for the schema of
    scheduled policies, which is written out. Ed25519, the registry of adapters, the
    effects and the plan service are parameters.

    ** What the theorems show

    - Safety of execution: the effect of a step that is not idempotent is executed
      at most once, every effect follows its recorded intent, an effect that is
      recorded has a receipt, a step is finished only with the verdict of its own
      verification, a run is successful only when every step is verified, and a
      reconciliation without a replayed transition or another client that moves runs
      leaves nothing running ([EngineSafety], [EngineSuccess], [EngineStartup],
      [RunHistory]).
    - External executors: every claim, renewal, finished step and success of the
      service rests on what it read from the store before (a finished step on its
      lease, active and within its window), whatever fails and whoever else writes; a run is
      successful only when every step is verified; an undisturbed reconciliation
      settles every lost lease ([ExecutorSafety], [ExecutorRecovery]).
    - Authority: the evaluator permits exactly what the policy warrants, the admission
      gate exactly what it is specified to; nothing is recorded for a plan that is not
      preauthorized without a live approval of it ([AuthorizationPolicy], [Admission],
      [EngineRequests]).
    - Approvals: acknowledgements refine the life cycle issued, decided, consumed; an
      approval serves one run, only for the current plan it binds, with the
      authority of its human over everything the plan touches; an activated run has
      spent its approval ([AckSafety], [AckAdmission]).
    - The audit log: the writer is all or nothing, idempotent by intent key, keeps
      the chain well formed under every failure; the verifier accepts exactly the
      linked histories; two accepted histories with one digest agree or exhibit a
      hash collision ([AuditStore], [AuditLog]).
    - Tables: every history of repository calls keeps the tables well formed, moves
      runs and steps along their state machines only, keeps what a run was created
      with, and never changes a recorded result ([RunHistory]). A lease keeps its binding and window, a step is handed
      to an external executor at most once, and a renewal spends its nonce
      ([ExecutorHistory]).
    - Gates: evaluation terminates for every table of definitions, and a gate is
      reported as passed exactly when it passes in the sense of a least predicate
      ([Gate]).
    - Schedules: the repository refines an abstract machine of jobs; a submission is
      guarded by everything an attempt must pass; an attempt is submitted at most
      once and retried only when nothing started ([ScheduleLifecycle],
      [ScheduleSafety]); slots, prerequisites and back-off are what they are meant
      to be within the bounds of a policy ([Schedule]).
    - Notifications: alerts open and close alternately, on the evidence they must have
      ([AlertLife]); whatever fails, a notification is sent only while it is open and
      after every earlier one of its alert was delivered, and rows of the outbox only
      move along their life cycle ([DispatchSafety]); while nothing fails and no other
      client calls the store, and once all notifications are due, they are delivered
      within as many rounds as there are ([DispatchProgress]).
    - Defects: [startup_blocked_by_retention], [requested_cancellation_never_completes],
      [second_interruption_in_one_second_lost], [cancelled_occurrence_executed],
      [cut_short_attempt_blocks_startup], [revoked_evidence_reported_unresolved],
      [denial_for_second_reason_is_lost], [late_receipt_splits_step],
      [late_receipt_reports_conflict], [undue_retry_ends_round] and
      [accepted_backoff_can_be_negative] prove what the code does where it does not
      do what it means to.

    ** Bounds and fuel

    Integers of Go are [Z] with [int64] written where an operation may wrap.
    Recursion is structural, except for the evaluation of gates: [Gate.check] has
    fuel for the depth of the recursion, the entry points pass two more than the
    number of definitions, and [gate_evaluation_terminates] proves that enough.
    The retry loops count down the attempt number they are given. The progress of
    notifications is by the number of open ones, which every round decreases.

    ** Not modelled

    The HTTP interfaces, the command line and the console (input and output); the
    drivers of external processes (Ansible, restic, systemd) and the protocols of
    third-party providers; parsing of configuration files; generation of the
    contract types and the interpreter of their schema table; the repositories of
    the store besides those named above; the mutexes of one process (calls of the
    modelled components are atomic up to their transactions, and interleave with
    those of other clients); [executeSecretStep] of the engine, which delivers
    credentials and is an implementation the surroundings execute; the receipts of
    notification messages of the acknowledgement service; the collection of
    observations and the gate of notifications; planning: the plans that
    are executed are values of the model. *)

From Stdlib Require Export ZArith Lia Ascii.
From stdpp Require Export base option list gmap strings pretty sorting.

(** ** Notations *)

Declare Scope go_scope.
Delimit Scope go_scope with go.
Open Scope Z_scope.

(** [a == b] is Go's [==] on comparable values. *)
Notation "a == b" := (bool_decide (a = b)) (at level 70, no associativity) : go_scope.
Notation "a != b" := (negb (bool_decide (a = b))) (at level 70, no associativity) : go_scope.
Open Scope go_scope.

(** ** Errors

    Every error the modelled code builds is either a stable coded error (the
    packages [run], [store], [failure] and [adapter] each have one, with the
    same [Code()] and [Target()] methods), one of the two sentinel errors of
    [context], or an error without a code. *)

Inductive error :=
| Coded (code target : string)
| Canceled
| DeadlineExceeded
| Plain (message : string).

#[global] Instance error_eq_dec : EqDecision error.
Proof. solve_decision. Defined.

(** [Code(err)]: the stable code, or the empty string. *)
Definition Code (err : option error) : string :=
  match err with
  | Some (Coded code _) => code
  | _ => ""
  end.

(** ** Results

    Code that returns [(value, error)] and whose value is not used when the
    error is set is modelled by [result]. *)

Inductive result (A : Type) :=
| Ok (value : A)
| Err (err : error).
Arguments Ok {A} value.
Arguments Err {A} err.

#[global] Instance result_eq_dec `{EqDecision A} : EqDecision (result A).
Proof. solve_decision. Defined.

#[global] Instance result_ret : MRet result := @Ok.
#[global] Instance result_bind : MBind result := fun _ _ f r =>
  match r with Ok x => f x | Err e => Err e end.
#[global] Instance result_fmap : FMap result := fun _ _ f r =>
  match r with Ok x => Ok (f x) | Err e => Err e end.

Definition is_ok {A} (r : result A) : bool :=
  match r with Ok _ => true | Err _ => false end.

(** [require b e]: the early return [if !b { return e }]. *)
Definition require (b : bool) (e : error) : result unit :=
  if b then Ok tt else Err e.

Definition of_option {A} (e : error) (o : option A) : result A :=
  match o with Some x => Ok x | None => Err e end.

Lemma bind_Ok {A B} (r : result A) (f : A -> result B) (y : B) :
  (r ≫= f) = Ok y <-> exists x, r = Ok x /\ f x = Ok y.
Proof. destruct r; cbn; naive_solver. Qed.

Lemma require_Ok b e u : require b e = Ok u <-> b = true.
Proof. destruct b, u; unfold require; split; congruence. Qed.

Lemma of_option_Ok {A} e (o : option A) x : of_option e o = Ok x <-> o = Some x.
Proof. destruct o; cbn; naive_solver. Qed.

(** The comparison [x == nil] of a pointer *)
Definition isNil {A} (o : option A) : bool := match o with None => true | Some _ => false end.

Lemma isNil_None {A} (o : option A) : isNil o = true -> o = None.
Proof. by destruct o. Qed.

(** ** Computations on a state

    A method that mutates its receiver and may return early with an error: the
    state it leaves behind is kept on the error path. *)

Definition action (S A : Type) : Type := S -> result A * S.

#[global] Instance action_ret {S} : MRet (action S) := fun _ x s => (Ok x, s).
#[global] Instance action_bind {S} : MBind (action S) := fun _ _ f m s =>
  match m s with
  | (Ok x, s') => f x s'
  | (Err e, s') => (Err e, s')
  end.

Definition fail {S A} (e : error) : action S A := fun s => (Err e, s).
Definition gets {S A} (f : S -> A) : action S A := fun s => (Ok (f s), s).
Definition modify {S} (f : S -> S) : action S unit := fun s => (Ok tt, f s).
Definition lift {S A} (r : result A) : action S A := fun s => (r, s).
Definition check {S} (b : bool) (e : error) : action S unit := lift (require b e).

Lemma action_bind_Ok {S A B} (m : action S A) (f : A -> action S B) s y s' :
  (m ≫= f) s = (Ok y, s') <-> exists x s1, m s = (Ok x, s1) /\ f x s1 = (Ok y, s').
Proof. unfold mbind, action_bind. destruct (m s) as [[x|e] s1]; naive_solver. Qed.

Lemma action_bind_Err {S A B} (m : action S A) (f : A -> action S B) s e s' :
  (m ≫= f) s = (Err e, s') <->
  m s = (Err e, s') \/ exists x s1, m s = (Ok x, s1) /\ f x s1 = (Err e, s').
Proof. unfold mbind, action_bind. destruct (m s) as [[x|e'] s1]; naive_solver. Qed.

(** ** Checking a trace event by event *)

Section Along.
Context {S E : Type} (next : S -> E -> S).

(** Each event of the trace passes the check in the state it meets. *)
Fixpoint along (check : S -> E -> bool) (state : S) (trace : list E) : bool :=
  match trace with
  | [] => true
  | event :: rest => check state event && along check (next state event) rest
  end.

Lemma along_spec check state trace : along check state trace = true ->
  forall pre event post, trace = pre ++ event :: post -> check (fold_left next pre state) event = true.
Proof.
  revert state. induction trace as [|x trace IH]; intros state Hc pre event post Htr; [by destruct pre|].
  cbn [along] in Hc. apply andb_true_iff in Hc as [Hx Hc]. destruct pre as [|y pre]; injection Htr as -> Htr; [exact Hx|].
  cbn [fold_left]. eapply IH; [exact Hc|exact Htr].
Qed.

Lemma along_and f g state trace : along (fun s e => f s e && g s e) state trace = true ->
  along f state trace = true /\ along g state trace = true.
Proof.
  revert state. induction trace as [|x trace IH]; intros state Hc; [done|]. cbn [along] in *.
  apply andb_true_iff in Hc as [[-> ->]%andb_true_iff [-> ->]%IH]. done.
Qed.

End Along.

(** ** Strings

    A Go string is a byte string, as is Rocq's [string]. *)

(** [strings.HasPrefix] *)
Fixpoint HasPrefix (s prefix : string) {struct prefix} : bool :=
  match prefix, s with
  | EmptyString, _ => true
  | String p prefix', String c s' => (p == c) && HasPrefix s' prefix'
  | String _ _, EmptyString => false
  end.

(** [s[n:]] *)
Fixpoint drop_string (n : nat) (s : string) : string :=
  match n, s with
  | O, _ => s
  | S n', String _ s' => drop_string n' s'
  | S _, EmptyString => EmptyString
  end.

(** [s[:n]] *)
Fixpoint take_string (n : nat) (s : string) : string :=
  match n, s with
  | O, _ => EmptyString
  | S n', String c s' => String c (take_string n' s')
  | S _, EmptyString => EmptyString
  end.

(** [strings.TrimPrefix] *)
Definition TrimPrefix (s prefix : string) : string :=
  if HasPrefix s prefix then drop_string (String.length prefix) s else s.

(** [strings.Join] *)
Definition Join (sep : string) (parts : list string) : string :=
  String.concat sep parts.

(** The separator ["\x00"] of the digests. *)
Definition nul : string := String "000"%char EmptyString.

Fixpoint all_chars (p : ascii -> bool) (s : string) : bool :=
  match s with
  | EmptyString => true
  | String c s' => p c && all_chars p s'
  end.

Definition between (lo hi c : ascii) : bool :=
  (nat_of_ascii lo <=? nat_of_ascii c)%nat && (nat_of_ascii c <=? nat_of_ascii hi)%nat.

Definition isDigit (c : ascii) : bool := between "0" "9" c.
Definition isLower (c : ascii) : bool := between "a" "z" c.
Definition isUpper (c : ascii) : bool := between "A" "Z" c.
Definition isLowerHex (c : ascii) : bool := isDigit c || between "a" "f" c.

(** The class [[._:-]] of the token patterns. *)
Definition isTokenPunct (c : ascii) : bool :=
  (c == "."%char) || (c == "_"%char) || (c == ":"%char) || (c == "-"%char).

(** [^[a-z][a-z0-9._:-]{0,127}$], the pattern that [store], [authorization],
    [principal] and [adapter] compile under different names. *)
Definition lowerToken (s : string) : bool :=
  match s with
  | EmptyString => false
  | String c rest =>
      isLower c && (String.length rest <=? 127)%nat
      && all_chars (fun x => isLower x || isDigit x || isTokenPunct x) rest
  end.

(** [^sha256:[0-9a-f]{64}$] *)
Definition sha256Digest (s : string) : bool :=
  HasPrefix s "sha256:" && (String.length s =? 71)%nat
  && all_chars isLowerHex (drop_string 7 s).

(** ** List lemmas shared by the components *)

Lemma app_string_cons c s t : String c s +:+ t = String c (s +:+ t).
Proof. reflexivity. Qed.

Lemma all_chars_app p s t : all_chars p (s +:+ t) = all_chars p s && all_chars p t.
Proof.
  induction s as [|c s IH]; [done|].
  rewrite app_string_cons; cbn. by rewrite IH, andb_assoc.
Qed.

Lemma length_app_string s t : String.length (s +:+ t) = (String.length s + String.length t)%nat.
Proof.
  induction s as [|c s IH]; [done|]. rewrite app_string_cons; cbn. by rewrite IH.
Qed.

Lemma String_inv c s t : String c s = String c t -> s = t.
Proof. congruence. Qed.

Lemma app_string_inv_l s t t' : s +:+ t = s +:+ t' -> t = t'.
Proof. induction s as [|c s IH]; [done|]. rewrite !app_string_cons. intros [= H]. auto. Qed.

Lemma app_string_nil_r s : s +:+ "" = s.
Proof. induction s as [|c s IH]; [done|]. by rewrite app_string_cons, IH. Qed.

Lemma app_string_assoc s t u : (s +:+ t) +:+ u = s +:+ (t +:+ u).
Proof. induction s as [|c s IH]; [done|]. by rewrite !app_string_cons, IH. Qed.

Lemma bool_decide_refl {A} `{EqDecision A} (x : A) : (x == x) = true.
Proof. by apply bool_decide_eq_true_2. Qed.

Lemma forallb_Forall {A} (f : A -> bool) l : forallb f l = true <-> Forall (fun x => f x = true) l.
Proof. rewrite forallb_forall, Forall_forall. by setoid_rewrite list_elem_of_In. Qed.

Lemma List_last_default {A} (l : list A) d : List.last l d = default d (last l).
Proof. induction l as [|x [|y l] IH]; [done|done|exact IH]. Qed.

(** ** Automation *)

Create HintDb go.

(** Splits boolean conjunctions, disjunctions and negations among the
    hypotheses and turns decided equalities into equalities. *)
Ltac bool_hyps :=
  repeat match goal with
  | H : _ && _ = true |- _ => apply andb_true_iff in H as [? ?]
  | H : _ || _ = false |- _ => apply orb_false_iff in H as [? ?]
  | H : negb _ = true |- _ => apply negb_true_iff in H
  | H : negb _ = false |- _ => apply negb_false_iff in H
  | H : bool_decide _ = true |- _ => apply bool_decide_eq_true_1 in H
  | H : bool_decide _ = false |- _ => apply bool_decide_eq_false_1 in H
  | H : (_ <? _)%Z = true |- _ => apply Z.ltb_lt in H
  | H : (_ <? _)%Z = false |- _ => apply Z.ltb_ge in H
  | H : (_ <=? _)%Z = true |- _ => apply Z.leb_le in H
  | H : (_ <=? _)%Z = false |- _ => apply Z.leb_gt in H
  end.

(** Unfolds the early returns of a [result] computation that succeeded. *)
Ltac result_hyps :=
  repeat (bool_hyps; match goal with
  | H : (_ ≫= _) = Ok _ |- _ => apply bind_Ok in H as (? & ? & ?)
  | H : require _ _ = Ok _ |- _ => apply require_Ok in H
  | H : of_option _ _ = Ok _ |- _ => apply of_option_Ok in H
  | H : Ok _ = Ok _ |- _ => injection H as H; try subst
  | H : Err _ = Ok _ |- _ => discriminate H
  end).

(** One case analysis on the innermost scrutinee of the goal or of [H]. *)
Ltac split_match :=
  match goal with
  | |- context [match ?x with _ => _ end] =>
      lazymatch x with context [match _ with _ => _ end] => fail | _ => destruct x eqn:? end
  end.
Ltac split_match_in H :=
  match type of H with
  | context [match ?x with _ => _ end] =>
      lazymatch x with context [match _ with _ => _ end] => fail | _ => destruct x eqn:? end
  end.

(** Membership of a literal in a literal list. *)
Ltac in_list := refine (bool_decide_eq_true_1 _ _); vm_compute; reflexivity.

(** ** Delimited strings *)

Definition noChar (c : ascii) (s : string) : bool := all_chars (fun x => x != c) s.

(** A delimiter that occurs in neither prefix splits both strings alike. *)
Lemma split_at_delimiter c s t s' t' :
  noChar c s = true -> noChar c s' = true ->
  s +:+ String c t = s' +:+ String c t' -> s = s' /\ t = t'.
Proof.
  unfold noChar. revert s'. induction s as [|x s IH]; intros [|x' s'] H H' E; cbn in H, H'.
  - change ("" +:+ ?u) with u in E. by injection E.
  - rewrite app_string_cons in E. change ("" +:+ ?u) with u in E. injection E as -> _.
    by rewrite bool_decide_eq_true_2 in H'.
  - rewrite app_string_cons in E. change ("" +:+ ?u) with u in E. injection E as -> _.
    by rewrite bool_decide_eq_true_2 in H.
  - rewrite !app_string_cons in E. injection E as -> E. bool_hyps.
    by destruct (IH s') as [-> ->].
Qed.

Lemma all_chars_impl (p q : ascii -> bool) s :
  (forall c, p c = true -> q c = true) -> all_chars p s = true -> all_chars q s = true.
Proof.
  intros Hpq. induction s as [|c s IH]; cbn; [done|]. intros H; bool_hyps.
  rewrite Hpq by done. by rewrite IH.
Qed.

Lemma Join_cons2 sep x y l : Join sep (x :: y :: l) = x +:+ sep +:+ Join sep (y :: l).
Proof. reflexivity. Qed.

(** Parts without NUL bytes, joined by NUL, can be told apart. *)
Lemma Join_nul_inj l l' :
  Forall (fun s => noChar "000" s = true) l -> Forall (fun s => noChar "000" s = true) l' ->
  length l = length l' -> Join nul l = Join nul l' -> l = l'.
Proof.
  revert l'. induction l as [|x [|y l] IH]; intros [|x' [|y' l']] Hl Hl' Hn E; try discriminate Hn.
  - done.
  - cbn in E. by subst.
  - rewrite !Join_cons2 in E. unfold nul in E. rewrite !app_string_cons in E.
    change ("" +:+ ?u) with u in E. apply Forall_cons in Hl as [Hx Hl]. apply Forall_cons in Hl' as [Hx' Hl'].
    apply split_at_delimiter in E as [-> E]; [|done..]. f_equal. apply IH; auto.
Qed.

(** ** Sorting *)

Section SortedAlike.
Context {A} (R : A -> A -> Prop) `{forall x y, Decision (R x y)} (P : A -> A -> Prop).
Hypothesis P_order : forall x x' y y', P x x' -> P y y' -> R x y <-> R x' y'.

Lemma list_merge_Forall2 l1 l1' l2 l2' :
  Forall2 P l1 l1' -> Forall2 P l2 l2' -> Forall2 P (list_merge R l1 l2) (list_merge R l1' l2').
Proof.
  intros H1. revert l2 l2'. induction H1 as [|x x' l1 l1' Hx H1 IH1]; intros l2 l2' H2; [destruct H2; by constructor|].
  induction H2 as [|y y' l2 l2' Hy H2 IH2]; [by constructor|]. cbn.
  destruct (decide (R x y)) as [D|D], (decide (R x' y')) as [D'|D'];
    try (by destruct (P_order _ _ _ _ Hx Hy); tauto).
  - constructor; [done|]. apply IH1. by constructor.
  - by constructor.
Qed.

Definition stackAlike : list (option (list A)) -> list (option (list A)) -> Prop := Forall2 (option_Forall2 (Forall2 P)).

Lemma merge_list_to_stack_Forall2 st st' l l' : stackAlike st st' -> Forall2 P l l' ->
  stackAlike (merge_list_to_stack R st l) (merge_list_to_stack R st' l').
Proof.
  intros Hs. revert l l'. induction Hs as [|o o' st st' Ho Hs IH]; intros l l' Hl; cbn.
  - by repeat constructor.
  - destruct Ho as [k k' Hk|]; constructor; try done; [constructor|by apply IH, list_merge_Forall2|by constructor].
Qed.

Lemma merge_stack_Forall2 st st' : stackAlike st st' -> Forall2 P (merge_stack R st) (merge_stack R st').
Proof. induction 1 as [|o o' st st' [k k' Hk|] Hs IH]; cbn; [constructor|by apply list_merge_Forall2|done]. Qed.

(** Lists that are pointwise alike, as far as the order can tell, sort alike. *)
Lemma merge_sort_Forall2 l l' : Forall2 P l l' -> Forall2 P (merge_sort R l) (merge_sort R l').
Proof.
  intros Hl. unfold merge_sort. assert (Hs : stackAlike [] []) by constructor. revert Hs.
  generalize (@nil (option (list A))) at 1 3 as st. generalize (@nil (option (list A))) as st'.
  induction Hl as [|x x' l l' Hx Hl IH]; intros st' st Hs; cbn; [by apply merge_stack_Forall2|].
  apply IH, merge_list_to_stack_Forall2; [done|by repeat constructor].
Qed.

End SortedAlike.
