(* ===== verification/GoTime.v ===== *)
(** Machine integers and [time.Time], as the modelled code uses them: int64
    wrap-around, durations in nanoseconds, and the RFC 3339 parser and printer
    of the Go [time] package (civil calendar included). *)

From S2P Require Import Prelude.

(** ** int64 *)

Definition min_int64 : Z := - 2 ^ 63.
Definition max_int64 : Z := 2 ^ 63 - 1.

(** The value an int64 register holds after an operation whose exact result
    is [z]. *)
Definition int64 (z : Z) : Z := (z + 2 ^ 63) mod 2 ^ 64 - 2 ^ 63.

Definition in_int64 (z : Z) : Prop := min_int64 <= z <= max_int64.

Lemma int64_id z : in_int64 z -> int64 z = z.
Proof.
  unfold in_int64, int64, min_int64, max_int64. intros H.
  rewrite Z.mod_small; lia.
Qed.

Lemma int64_range z : in_int64 (int64 z).
Proof.
  unfold in_int64, int64, min_int64, max_int64.
  pose proof (Z.mod_pos_bound (z + 2 ^ 63) (2 ^ 64)). lia.
Qed.

(** ** Durations *)

Definition Nanosecond : Z := 1.
Definition Second : Z := 1000000000.
Definition Hour : Z := 3600 * Second.

(** [time.Duration(n) * time.Second]: the product wraps. *)
Definition seconds (n : Z) : Z := int64 (n * Second).

(** ** Instants

    [ns] counts nanoseconds since the Unix epoch; [zone] is [None] for
    [time.UTC] and otherwise the offset of the location in seconds. *)

Record Time := mkTime { ns : Z; zone : option Z }.

#[global] Instance Time_eq_dec : EqDecision Time.
Proof. solve_decision. Defined.

(** The zero [time.Time]: January 1, year 1, 00:00:00 UTC. *)
Definition zeroTime : Time := mkTime (-62135596800 * Second) None.

Definition IsZero (t : Time) : bool := ns t =? ns zeroTime.
Definition UTC (t : Time) : Time := mkTime (ns t) None.
Definition isUTC (t : Time) : bool := zone t == None.
Definition Before (t u : Time) : bool := ns t <? ns u.
Definition After (t u : Time) : bool := ns u <? ns t.
Definition Equal (t u : Time) : bool := ns t =? ns u.
Definition Add (t : Time) (d : Z) : Time := mkTime (ns t + d) (zone t).

(** [t.Sub(u)] saturates at the ends of the int64 range. *)
Definition Sub (t u : Time) : Z := Z.max min_int64 (Z.min max_int64 (ns t - ns u)).

(** [t.Truncate(time.Second)] *)
Definition TruncateSecond (t : Time) : Time := mkTime (ns t - ns t mod Second) (zone t).

(** ** The proleptic Gregorian calendar *)

Definition isLeap (year : Z) : bool :=
  (year mod 4 =? 0) && (negb (year mod 100 =? 0) || (year mod 400 =? 0)).

Definition daysIn (month year : Z) : Z :=
  if month =? 2 then (if isLeap year then 29 else 28)
  else if (month =? 4) || (month =? 6) || (month =? 9) || (month =? 11) then 30 else 31.

(** Days since the Unix epoch of a civil date, counting years from March. *)
Definition daysFromCivil (year month day : Z) : Z :=
  let y := if month <=? 2 then year - 1 else year in
  let era := y / 400 in
  let yoe := y mod 400 in
  let mp := (month + 9) mod 12 in
  let doy := (153 * mp + 2) / 5 + day - 1 in
  let doe := yoe * 365 + yoe / 4 - yoe / 100 + doy in
  era * 146097 + doe - 719468.

Definition yearOfEra (doe : Z) : Z :=
  (doe - doe / 1460 + doe / 36524 - doe / 146096) / 365.

Definition civilFromDays (days : Z) : Z * Z * Z :=
  let z := days + 719468 in
  let era := z / 146097 in
  let doe := z mod 146097 in
  let yoe := yearOfEra doe in
  let doy := doe - (365 * yoe + yoe / 4 - yoe / 100) in
  let mp := (5 * doy + 2) / 153 in
  let day := doy - (153 * mp + 2) / 5 + 1 in
  let month := if mp <? 10 then mp + 3 else mp - 9 in
  let y := yoe + era * 400 in
  ((if month <=? 2 then y + 1 else y), month, day).

(** The start of a year of the era, counted in days. *)
Definition yearStart (yoe : Z) : Z := 365 * yoe + yoe / 4 - yoe / 100.

(** [lia] after the divisions by constants are turned into equations. *)
Ltac zdiv := Z.div_mod_to_equations; lia.

Lemma yearOfEra_spec doe :
  0 <= doe < 146097 ->
  0 <= yearOfEra doe < 400 /\
  yearStart (yearOfEra doe) <= doe
    < yearStart (yearOfEra doe + 1) + (if yearOfEra doe =? 399 then 1 else 0).
Proof.
  intros H. unfold yearOfEra, yearStart.
  assert (Hb : doe = 146096 \/ exists b, 0 <= b <= 3 /\ doe / 36524 = b /\
            36524 * b <= doe < 36524 * b + 36524) by
    (destruct (Z.eq_dec doe 146096); [by left | right; exists (doe / 36524); zdiv]).
  destruct Hb as [->|(b & B & Eb & D)]; [vm_compute; intuition congruence|].
  replace (doe / 146096) with 0 by zdiv. rewrite Eb; clear Eb.
  assert (1460 * (doe / 1460) <= doe < 1460 * (doe / 1460) + 1460) as Ha by zdiv.
  remember (doe / 1460) as a eqn:E; clear E.
  remember ((doe - a + b - 0) / 365) as y eqn:E.
  assert (365 * y <= doe - a + b < 365 * y + 365) by zdiv. clear E.
  assert (y / 100 = b) as -> by zdiv.
  assert (100 * ((y + 1) / 100) <= y + 1 < 100 * ((y + 1) / 100) + 100) by zdiv.
  remember ((y + 1) / 100) as r eqn:E; clear E.
  destruct (Z.eqb_spec y 399); zdiv.
Qed.

Lemma monthOfYear_spec doy :
  0 <= doy < 366 ->
  let mp := (5 * doy + 2) / 153 in
  0 <= mp < 12 /\
  (153 * mp + 2) / 5 <= doy < (153 * (mp + 1) + 2) / 5.
Proof. intros H; cbv zeta. zdiv. Qed.

(** The civil date of a day number denotes that day again. *)
Lemma daysFromCivil_civilFromDays days :
  let '(year, month, day) := civilFromDays days in
  daysFromCivil year month day = days.
Proof.
  unfold civilFromDays, daysFromCivil.
  set (z := days + 719468).
  assert (Hz : 0 <= z mod 146097 < 146097) by (apply Z.mod_pos_bound; lia).
  assert (Ez : z = z / 146097 * 146097 + z mod 146097) by zdiv.
  remember (z / 146097) as era eqn:E1. remember (z mod 146097) as doe eqn:E2.
  pose proof (yearOfEra_spec doe Hz) as [Hy Hd]. unfold yearStart in Hd.
  remember (yearOfEra doe) as yoe eqn:E3. clear E1 E2 E3 Hz.
  remember (doe - (365 * yoe + yoe / 4 - yoe / 100)) as doy eqn:Edoy.
  assert (0 <= doy < 366) as Hdoy by (destruct (yoe =? 399) eqn:?; zdiv). clear Hd.
  pose proof (monthOfYear_spec doy Hdoy) as [Hm Hmd]; cbv zeta in Hm, Hmd.
  remember ((5 * doy + 2) / 153) as mp eqn:Emp.
  remember (if mp <? 10 then mp + 3 else mp - 9) as month eqn:Em.
  assert ((month + 9) mod 12 = mp) as -> by (destruct (Z.ltb_spec mp 10); zdiv).
  assert ((if month <=? 2 then (if month <=? 2 then yoe + era * 400 + 1 else yoe + era * 400) - 1
           else (if month <=? 2 then yoe + era * 400 + 1 else yoe + era * 400)) = yoe + era * 400) as ->
    by (destruct (month <=? 2); lia).
  assert ((yoe + era * 400) / 400 = era /\ (yoe + era * 400) mod 400 = yoe) as [-> ->] by zdiv.
  clear - Edoy Ez z. subst z. lia.
Qed.

Lemma isLeap_period y k : isLeap (y + k * 400) = isLeap y.
Proof.
  unfold isLeap.
  replace (y + k * 400) with (y + k * 100 * 4) at 1 by lia. rewrite Z.mod_add by lia.
  replace (y + k * 400) with (y + k * 4 * 100) at 1 by lia. rewrite Z.mod_add by lia.
  by rewrite Z.mod_add by lia.
Qed.

(** Evaluates the comparisons between closed integers. *)
Ltac closed_tests :=
  repeat match goal with
  | |- context [?x =? ?y] =>
      let b := eval vm_compute in (x =? y) in
      lazymatch b with true => idtac | false => idtac end; change (x =? y) with b
  | |- context [?x <=? ?y] =>
      let b := eval vm_compute in (x <=? y) in
      lazymatch b with true => idtac | false => idtac end; change (x <=? y) with b
  | |- context [?x <? ?y] =>
      let b := eval vm_compute in (x <? y) in
      lazymatch b with true => idtac | false => idtac end; change (x <? y) with b
  end.

(** Every civil date the calendar produces is a valid date. *)
Lemma civilFromDays_valid days :
  let '(year, month, day) := civilFromDays days in
  1 <= month <= 12 /\ 1 <= day <= daysIn month year.
Proof.
  unfold civilFromDays.
  set (z := days + 719468).
  assert (Hz : 0 <= z mod 146097 < 146097) by (apply Z.mod_pos_bound; lia).
  remember (z / 146097) as era eqn:E1. remember (z mod 146097) as doe eqn:E2.
  pose proof (yearOfEra_spec doe Hz) as [Hy Hd]. unfold yearStart in Hd.
  remember (yearOfEra doe) as yoe eqn:E3. clear E1 E2 E3 Hz.
  remember (doe - (365 * yoe + yoe / 4 - yoe / 100)) as doy eqn:Edoy.
  assert (0 <= doy < 366) as Hdoy by (destruct (yoe =? 399) eqn:?; zdiv).
  assert (doy = 365 -> isLeap (yoe + 1) = true) as Hleap.
  { intros E. unfold isLeap. destruct (Z.eqb_spec yoe 399) as [->|]; [done|].
    repeat match goal with |- context [?x =? ?y] => destruct (Z.eqb_spec x y) end;
      cbn; try done; exfalso; zdiv. }
  pose proof (monthOfYear_spec doy Hdoy) as [Hm Hmd]; cbv zeta in Hm, Hmd.
  remember ((5 * doy + 2) / 153) as mp eqn:Emp.
  assert (mp = 0 \/ mp = 1 \/ mp = 2 \/ mp = 3 \/ mp = 4 \/ mp = 5 \/ mp = 6 \/ mp = 7 \/
          mp = 8 \/ mp = 9 \/ mp = 10 \/ mp = 11) as Hcase by lia.
  clear Hd Edoy Emp.
  unfold daysIn.
  destruct Hcase as [->|[->|[->|[->|[->|[->|[->|[->|[->|[->|[->| ->]]]]]]]]]]];
    closed_tests; cbv iota in *; (split; [lia|]); cbn [orb]; try zdiv.
  replace (yoe + era * 400 + 1) with (yoe + 1 + era * 400) by lia.
  rewrite isLeap_period. destruct (Z.eq_dec doy 365) as [E|E]; [rewrite Hleap by done|];
    [|destruct (isLeap _)]; zdiv.
Qed.

(** ** Printing *)

Definition secondsPerDay : Z := 86400.

Definition digit (d : Z) : ascii := ascii_of_nat (48 + Z.to_nat d).
Definition digitValue (c : ascii) : Z := Z.of_nat (nat_of_ascii c) - 48.

Definition pad2 (n : Z) : string := String (digit (n / 10)) (String (digit (n mod 10)) "").
Definition pad4 (n : Z) : string := pad2 (n / 100) +:+ pad2 (n mod 100).

Fixpoint zeros (n : nat) : string :=
  match n with O => "" | S n' => String "0" (zeros n') end.

(** [appendInt(b, year, 4)] *)
Definition formatYear (year : Z) : string :=
  if (0 <=? year) && (year <=? 9999) then pad4 year
  else (if year <? 0 then "-" else "") +:+
       zeros (4 - String.length (pretty (Z.abs year))) +:+ pretty (Z.abs year).

(** The decimal digits of [n / 10^k], without trailing zeros. *)
Fixpoint fracDigits (k : nat) (n : Z) : string :=
  match k with
  | O => ""
  | S k' =>
      if n =? 0 then ""
      else String (digit (n / 10 ^ Z.of_nat k')) (fracDigits k' (n mod 10 ^ Z.of_nat k'))
  end.

Definition formatZone (z : option Z) : string :=
  match z with
  | None => "Z"
  | Some offset =>
      if offset =? 0 then "Z"
      else
        let minutes := Z.abs offset / 60 in
        (if offset <? 0 then "-" else "+") +:+ pad2 (minutes / 60) +:+ ":" +:+ pad2 (minutes mod 60)
  end.

Definition formatWith (nanos : bool) (t : Time) : string :=
  let local := ns t + from_option id 0 (zone t) * Second in
  let secs := local / Second in
  let sod := secs mod secondsPerDay in
  let '(year, month, day) := civilFromDays (secs / secondsPerDay) in
  formatYear year +:+ "-" +:+ pad2 month +:+ "-" +:+ pad2 day +:+ "T" +:+
  pad2 (sod / 3600) +:+ ":" +:+ pad2 (sod mod 3600 / 60) +:+ ":" +:+ pad2 (sod mod 60) +:+
  (if nanos then (if local mod Second =? 0 then "" else "." +:+ fracDigits 9 (local mod Second)) else "") +:+
  formatZone (zone t).

(** [t.Format(time.RFC3339)] and [t.Format(time.RFC3339Nano)] *)
Definition FormatRFC3339 : Time -> string := formatWith false.
Definition FormatRFC3339Nano : Time -> string := formatWith true.

(** ** Parsing

    [time.Parse] with the RFC 3339 layouts: two-digit fields (the hour may
    have one digit), an optional fraction after a period or a comma whose
    first nine digits count, and a zone that is ["Z"] or [(+|-)hh:mm]. *)

Definition expect (c : ascii) (s : string) : option string :=
  match s with
  | String d s' => if d == c then Some s' else None
  | EmptyString => None
  end.

Definition getnum2 (s : string) : option (Z * string) :=
  match s with
  | String a (String b s') =>
      if isDigit a && isDigit b then Some (10 * digitValue a + digitValue b, s') else None
  | _ => None
  end.

Definition getHour (s : string) : option (Z * string) :=
  match getnum2 s with
  | Some r => Some r
  | None =>
      match s with
      | String a s' => if isDigit a then Some (digitValue a, s') else None
      | EmptyString => None
      end
  end.

Fixpoint spanDigits (s : string) : string * string :=
  match s with
  | String c s' =>
      if isDigit c then let '(ds, rest) := spanDigits s' in (String c ds, rest) else ("", s)
  | EmptyString => ("", "")
  end.

Fixpoint fracValue (k : nat) (s : string) : Z :=
  match k, s with
  | S k', String c s' => digitValue c * 10 ^ Z.of_nat k' + fracValue k' s'
  | _, _ => 0
  end.

Definition getFraction (s : string) : Z * string :=
  match s with
  | String p (String c s') =>
      if ((p == "."%char) || (p == ","%char)) && isDigit c then
        let '(ds, rest) := spanDigits (String c s') in (fracValue 9 ds, rest)
      else (0, s)
  | _ => (0, s)
  end.

Definition getZone (s : string) : option (option Z * string) :=
  match s with
  | String sign s' =>
      if sign == "Z"%char then Some (None, s') else
      '(hours, s1) ← getnum2 s';
      s2 ← expect ":" s1;
      '(minutes, s3) ← getnum2 s2;
      guard (hours <= 24 /\ minutes <= 60);;
      let offset := (hours * 60 + minutes) * 60 in
      if sign == "+"%char then Some (Some offset, s3)
      else if sign == "-"%char then Some (Some (- offset), s3) else None
  | EmptyString => None
  end.

Definition parseRFC3339 (s : string) : option Time :=
  '(century, s) ← getnum2 s;
  '(yy, s) ← getnum2 s;
  let year := 100 * century + yy in
  s ← expect "-" s;
  '(month, s) ← getnum2 s;
  guard (1 <= month <= 12);;
  s ← expect "-" s;
  '(day, s) ← getnum2 s;
  s ← expect "T" s;
  '(hour, s) ← getHour s;
  guard (hour < 24);;
  s ← expect ":" s;
  '(minute, s) ← getnum2 s;
  guard (minute < 60);;
  s ← expect ":" s;
  '(second, s) ← getnum2 s;
  guard (second < 60);;
  let '(nsec, s) := getFraction s in
  '(z, s) ← getZone s;
  guard (s = "" /\ 1 <= day <= daysIn month year);;
  Some (mkTime (((daysFromCivil year month day * secondsPerDay + hour * 3600 + minute * 60 + second)
                 - from_option id 0 z) * Second + nsec) z).

(** [result, _ := time.Parse(time.RFC3339, value)] *)
Definition parseTime (value : string) : Time :=
  default zeroTime (parseRFC3339 value).

Example parse_test :
  parseRFC3339 "2026-09-16T01:10:00Z" = Some (mkTime (1789521000 * Second) None).
Proof. vm_compute. reflexivity. Qed.
Example parse_test_offset :
  parseRFC3339 "2026-09-16T6:40:00.5+05:30" = Some (mkTime (1789521000 * Second + 500000000) (Some 19800)).
Proof. vm_compute. reflexivity. Qed.
Example parse_test_invalid : parseRFC3339 "2026-02-29T00:00:00Z" = None.
Proof. vm_compute. reflexivity. Qed.

(** ** Printing and parsing are inverse *)

(** The four-digit years, the range in which RFC 3339 is defined. *)
Definition fourDigitYear (t : Time) : bool :=
  let '(year, _, _) := civilFromDays (ns t / Second / secondsPerDay) in
  (0 <=? year) && (year <=? 9999).

Lemma digit_spec d : 0 <= d < 10 -> isDigit (digit d) = true /\ digitValue (digit d) = d.
Proof.
  intros H.
  assert (d = 0 \/ d = 1 \/ d = 2 \/ d = 3 \/ d = 4 \/ d = 5 \/ d = 6 \/ d = 7 \/ d = 8 \/ d = 9)
    as Hd by lia.
  destruct Hd as [->|[->|[->|[->|[->|[->|[->|[->|[->| ->]]]]]]]]]; vm_compute; done.
Qed.

Lemma getnum2_pad2 n r : 0 <= n < 100 -> getnum2 (pad2 n +:+ r) = Some (n, r).
Proof.
  intros H. unfold pad2. rewrite !app_string_cons. cbn [getnum2].
  destruct (digit_spec (n / 10)) as [-> ->]; [zdiv|].
  destruct (digit_spec (n mod 10)) as [-> ->]; [zdiv|]. cbn.
  do 2 f_equal. zdiv.
Qed.

Lemma getHour_pad2 n r : 0 <= n < 100 -> getHour (pad2 n +:+ r) = Some (n, r).
Proof. intros H. unfold getHour. by rewrite getnum2_pad2. Qed.

Lemma expect_cons c s : expect c (String c s) = Some s.
Proof. cbn. by rewrite bool_decide_eq_true_2. Qed.

Lemma spanDigits_stop c s : isDigit c = false -> spanDigits (String c s) = ("", String c s).
Proof. intros H. cbn. by rewrite H. Qed.

Lemma fracDigits_span k n c s :
  0 <= n < 10 ^ Z.of_nat k -> isDigit c = false ->
  spanDigits (fracDigits k n +:+ String c s) = (fracDigits k n, String c s)
  /\ fracValue k (fracDigits k n) = n.
Proof.
  revert n. induction k as [|k IH]; intros n Hn Hc.
  { cbn in Hn. replace n with 0 by lia. split; [by apply spanDigits_stop | done]. }
  cbn [fracDigits]. destruct (Z.eqb_spec n 0) as [->|Hn0].
  { split; [by apply spanDigits_stop | done]. }
  rewrite app_string_cons. cbn [spanDigits].
  assert (0 < 10 ^ Z.of_nat k) as Hpos by (apply Z.pow_pos_nonneg; lia).
  rewrite Nat2Z.inj_succ, Z.pow_succ_r in Hn by lia.
  destruct (digit_spec (n / 10 ^ Z.of_nat k)) as [-> Hv].
  { split; [apply Z.div_pos; lia | apply Z.div_lt_upper_bound; lia]. }
  destruct (IH (n mod 10 ^ Z.of_nat k)) as [-> Hf]; [apply Z.mod_pos_bound; lia|done|].
  split; [done|]. cbn [fracValue]. rewrite Hv, Hf.
  rewrite (Z.mul_comm (n / _)). symmetry. apply Z.div_mod. lia.
Qed.

Lemma getFraction_Z : getFraction "Z" = (0, "Z").
Proof. reflexivity. Qed.

Lemma getZone_Z : getZone "Z" = Some (None, "").
Proof. reflexivity. Qed.

Lemma getFraction_fracDigits n :
  0 < n < Second ->
  getFraction ("." +:+ fracDigits 9 n +:+ "Z") = (n, "Z").
Proof.
  intros H. assert (0 <= n < 10 ^ Z.of_nat 9) as Hn by (cbn; unfold Second in H; lia).
  destruct (fracDigits_span 9 n "Z" "" Hn eq_refl) as [Hs Hv].
  remember (fracDigits 9 n) as ds eqn:E.
  assert (exists c s, ds = String c s /\ isDigit c = true) as (c & s & -> & Hc).
  { subst ds. cbn [fracDigits]. destruct (Z.eqb_spec n 0); [lia|].
    eexists _, _. split; [done|]. apply digit_spec.
    split; [apply Z.div_pos; lia | apply Z.div_lt_upper_bound; lia]. }
  change (spanDigits (String c (s +:+ "Z")) = (String c s, "Z")) in Hs.
  change (getFraction (String "." (String c (s +:+ "Z"))) = (n, "Z")).
  unfold getFraction. rewrite Hc, Hs, Hv. done.
Qed.

(** What [time.Format] prints for a UTC instant with a four-digit year parses
    back to the same instant, whole seconds with [time.RFC3339] and every
    nanosecond with [time.RFC3339Nano]. *)
Lemma parse_formatWith nanos t :
  zone t = None -> fourDigitYear t = true ->
  parseRFC3339 (formatWith nanos t) = Some (if nanos then t else TruncateSecond t).
Proof.
  destruct t as [n z]; cbn [zone ns]; intros -> Hy.
  unfold formatWith, fourDigitYear, TruncateSecond in *; cbn [zone ns from_option] in *.
  rewrite Z.mul_0_l, Z.add_0_r.
  remember (n / Second) as secs eqn:Esecs.
  pose proof (daysFromCivil_civilFromDays (secs / secondsPerDay)) as Hinv.
  pose proof (civilFromDays_valid (secs / secondsPerDay)) as Hvalid.
  destruct (civilFromDays (secs / secondsPerDay)) as [[year month] day].
  destruct Hvalid as [Hm Hd].
  assert (Hd31 : daysIn month year <= 31)
    by (unfold daysIn; repeat case_match; lia).
  assert (Hsod : 0 <= secs mod secondsPerDay < 86400) by (apply Z.mod_pos_bound; unfold secondsPerDay; lia).
  remember (secs mod secondsPerDay) as sod eqn:Esod.
  bool_hyps. unfold formatYear, formatZone.
  rewrite (proj2 (andb_true_iff _ _)) by (split; apply Z.leb_le; lia).
  unfold pad4, parseRFC3339. rewrite !app_string_assoc.
  rewrite getnum2_pad2 by zdiv. cbn [mbind option_bind].
  rewrite getnum2_pad2 by zdiv. cbn [mbind option_bind].
  replace (100 * (year / 100) + year mod 100) with year by zdiv.
  repeat (rewrite ?app_string_cons, expect_cons; change ("" +:+ ?x) with x; cbn [mbind option_bind];
    first [rewrite getHour_pad2 by zdiv | rewrite getnum2_pad2 by zdiv]; cbn [mbind option_bind];
    rewrite ?option_guard_True by zdiv; cbn [mbind option_bind]).
  rewrite ?app_string_cons. rewrite Hinv.
  assert (Hn : n = secs * Second + n mod Second) by (unfold Second in *; zdiv).
  assert (Hsecs : secs = secs / secondsPerDay * secondsPerDay + sod)
    by (unfold secondsPerDay in *; zdiv).
  assert (Hfr : 0 <= n mod Second < Second) by (apply Z.mod_pos_bound; unfold Second; lia).
  assert (Hsum : (secs / secondsPerDay * secondsPerDay + sod / 3600 * 3600
                  + sod mod 3600 / 60 * 60 + sod mod 60) = secs) by zdiv.
  destruct nanos.
  - destruct (Z.eqb_spec (n mod Second) 0) as [E0|E0].
    + change ("" +:+ "Z") with "Z". rewrite getFraction_Z, getZone_Z. cbn.
      rewrite option_guard_True by (split; [done|lia]). cbn.
      do 2 f_equal. lia.
    + change (String "." ("" +:+ ?x)) with ("." +:+ x).
      rewrite app_string_assoc, getFraction_fracDigits, getZone_Z by lia. cbn.
      rewrite option_guard_True by (split; [done|lia]). cbn.
      do 2 f_equal. lia.
  - change ("" +:+ "Z") with "Z". rewrite getFraction_Z, getZone_Z. cbn.
    rewrite option_guard_True by (split; [done|lia]). cbn.
    do 2 f_equal. lia.
Qed.
