(* ===== verification/Hash.v ===== *)
(** SHA-256 as an interface and as an executable implementation.

    The components hash through the class [Hasher], so that their theorems
    hold of any hash function with 64 lowercase hexadecimal digits of output;
    the instance [Sha256] is FIPS 180-4 and computes the digests the Go tests
    record; [Checksum] is a cheap stand-in for the evaluation of examples. *)

From S2P Require Import Prelude.

(** [hex.EncodeToString(sha256.Sum256(data))] *)
Class Hasher := {
  hexSum256 : string -> string;
  hexSum256_length data : String.length (hexSum256 data) = 64%nat;
  hexSum256_hex data : all_chars isLowerHex (hexSum256 data) = true
}.

(** ["sha256:" + hex.EncodeToString(sum[:])] *)
Definition hashString `{Hasher} (data : string) : string := "sha256:" +:+ hexSum256 data.

(** The digest of parts joined by NUL, the shape [run.digest] and
    [store.digestParts] share. *)
Definition digestParts `{Hasher} (parts : list string) : string := hashString (Join nul parts).

(** [runprotocol.ID]: the identifier of the run of a plan under a submit key *)
Definition runID `{Hasher} (planID submitKey : string) : string :=
  "run-" +:+ take_string 32 (hexSum256 (Join nul ["run"; planID; submitKey])).

Lemma hashString_digest `{Hasher} data : sha256Digest (hashString data) = true.
Proof.
  unfold sha256Digest, hashString. rewrite length_app_string, hexSum256_length.
  change (drop_string 7 ("sha256:" +:+ ?x)) with x.
  rewrite hexSum256_hex, andb_true_r. reflexivity.
Qed.
#[export] Hint Resolve hashString_digest : go.

(** ** FIPS 180-4 *)

Definition w32 (z : Z) : Z := Z.land z 0xffffffff.
Definition rotr (n x : Z) : Z := w32 (Z.lor (Z.shiftr x n) (Z.shiftl x (32 - n))).
Definition Ch (x y z : Z) : Z := Z.lxor (Z.land x y) (Z.land (Z.lxor x 0xffffffff) z).
Definition Maj (x y z : Z) : Z := Z.lxor (Z.lxor (Z.land x y) (Z.land x z)) (Z.land y z).
Definition Sigma0 (x : Z) : Z := Z.lxor (Z.lxor (rotr 2 x) (rotr 13 x)) (rotr 22 x).
Definition Sigma1 (x : Z) : Z := Z.lxor (Z.lxor (rotr 6 x) (rotr 11 x)) (rotr 25 x).
Definition sigma0 (x : Z) : Z := Z.lxor (Z.lxor (rotr 7 x) (rotr 18 x)) (Z.shiftr x 3).
Definition sigma1 (x : Z) : Z := Z.lxor (Z.lxor (rotr 17 x) (rotr 19 x)) (Z.shiftr x 10).

(** The constants are the first thirty-two bits of the fractional parts of the
    cube roots of the first sixty-four primes, and of the square roots of the
    first eight. *)
Definition isPrime (n : Z) : bool :=
  forallb (fun d => negb (n mod d =? 0)) (seqZ 2 (Z.max 0 (Z.sqrt n - 1))).

Definition primes (bound : Z) : list Z :=
  List.filter isPrime (seqZ 2 (bound - 1)).

(** The integer cube root, one bit after the other. *)
Fixpoint cubeRoot (bit : nat) (n root : Z) : Z :=
  let next := root + 2 ^ Z.of_nat bit in
  let root' := if next * next * next <=? n then next else root in
  match bit with O => root' | S bit' => cubeRoot bit' n root' end.

Definition K256 : list Z := Eval vm_compute in
  map (fun p => cubeRoot 36 (p * 2 ^ 96) 0 mod 2 ^ 32) (primes 311).

Definition H256 : list Z := Eval vm_compute in
  map (fun p => Z.sqrt (p * 2 ^ 64) mod 2 ^ 32) (take 8 (primes 311)).

(** The message schedule, newest word first: each step needs the last sixteen. *)
Fixpoint schedule (n : nat) (ws : list Z) : list Z :=
  match n with
  | O => ws
  | S n' =>
      let w i := nth i ws 0 in
      schedule n' (w32 (sigma1 (w 1%nat) + w 6%nat + sigma0 (w 14%nat) + w 15%nat) :: ws)
  end.

Definition round (st : list Z) (kw : Z * Z) : list Z :=
  match st with
  | [a; b; c; d; e; f; g; h] =>
      let t1 := h + Sigma1 e + Ch e f g + kw.1 + kw.2 in
      let t2 := Sigma0 a + Maj a b c in
      [w32 (t1 + t2); a; b; c; w32 (d + t1); e; f; g]
  | _ => st
  end.

Definition compress (st block : list Z) : list Z :=
  let ws := rev (schedule 48 (rev block)) in
  zip_with (fun x y => w32 (x + y)) st (fold_left round (combine K256 ws) st).

Fixpoint bytes_of (s : string) : list Z :=
  match s with
  | EmptyString => []
  | String c s' => Z.of_nat (nat_of_ascii c) :: bytes_of s'
  end.

Fixpoint words_of (bytes : list Z) : list Z :=
  match bytes with
  | a :: b :: c :: d :: rest => (a * 2 ^ 24 + b * 2 ^ 16 + c * 2 ^ 8 + d) :: words_of rest
  | _ => []
  end.

(** The length in bits as eight bytes, most significant first. *)
Definition length64 (n : Z) : list Z :=
  map (fun i => Z.land (Z.shiftr (8 * n) i) 255) [56; 48; 40; 32; 24; 16; 8; 0].

Definition padded (s : string) : list Z :=
  let n := Z.of_nat (String.length s) in
  bytes_of s ++ [0x80] ++ replicate (Z.to_nat ((55 - n) mod 64)) 0 ++ length64 n.

Fixpoint blocks (fuel : nat) (words : list Z) (st : list Z) : list Z :=
  match fuel, words with
  | O, _ | _, [] => st
  | S fuel', _ => blocks fuel' (drop 16 words) (compress st (take 16 words))
  end.

Definition nibble (n : Z) : ascii :=
  ascii_of_nat (if n <? 10 then 48 + Z.to_nat n else 87 + Z.to_nat n).

Fixpoint hex_digits (k : nat) (n : Z) : string :=
  match k with
  | O => ""
  | S k' => String (nibble (Z.land (Z.shiftr n (4 * Z.of_nat k')) 15)) (hex_digits k' n)
  end.

(** Eight words of hexadecimal, whatever the state. *)
Definition hex_state (st : list Z) : string :=
  let w i := hex_digits 8 (nth i st 0) in
  w 0%nat +:+ w 1%nat +:+ w 2%nat +:+ w 3%nat +:+ w 4%nat +:+ w 5%nat +:+ w 6%nat +:+ w 7%nat.

Definition sha256_hex (s : string) : string :=
  let words := words_of (padded s) in
  hex_state (blocks (length words) words H256).

Lemma nibble_hex n : 0 <= n < 16 -> isLowerHex (nibble n) = true.
Proof.
  intros H.
  assert (Hall : forallb (fun i => isLowerHex (nibble (Z.of_nat i))) (seq 0 16) = true) by (vm_compute; reflexivity).
  eapply forallb_forall in Hall; [|apply (in_seq 16 0 (Z.to_nat n)); lia]. by rewrite Z2Nat.id in Hall by lia.
Qed.

Lemma hex_digits_spec k n :
  String.length (hex_digits k n) = k /\ all_chars isLowerHex (hex_digits k n) = true.
Proof.
  induction k as [|k [IHl IHh]]; cbn; [done|]. rewrite IHl, IHh. split; [done|].
  rewrite nibble_hex; [done|].
  change 15 with (Z.ones 4). rewrite Z.land_ones by lia. apply Z.mod_pos_bound. lia.
Qed.

Lemma hex_state_spec st :
  String.length (hex_state st) = 64%nat /\ all_chars isLowerHex (hex_state st) = true.
Proof.
  unfold hex_state. rewrite !length_app_string, !all_chars_app.
  split; repeat (first [rewrite (proj1 (hex_digits_spec _ _)) | rewrite (proj2 (hex_digits_spec _ _))]);
    reflexivity.
Qed.

#[export] Instance Sha256 : Hasher := {|
  hexSum256 := sha256_hex;
  hexSum256_length s := proj1 (hex_state_spec _);
  hexSum256_hex s := proj2 (hex_state_spec _)
|}.

(** ** A checksum for examples

    Two running sums of the bytes, which tell the few strings of an example
    apart and cost a fraction of SHA-256: the concrete histories of the larger
    components are evaluated with it. It is an instance only where it is named. *)

Fixpoint runningSums (s : string) (a b : Z) : Z * Z :=
  match s with
  | EmptyString => (a, b)
  | String c s' =>
      let a' := w32 (a + Z.of_nat (nat_of_ascii c)) in
      runningSums s' a' (w32 (b + a'))
  end.

Definition Checksum : Hasher := {|
  hexSum256 s := let sums := runningSums s 1 0 in hex_state [0; 0; 0; 0; 0; 0; sums.1; sums.2];
  hexSum256_length s := proj1 (hex_state_spec _);
  hexSum256_hex s := proj2 (hex_state_spec _)
|}.

(** The digest of the empty string ([emptyAuditBinding] of the store) and the
    identifier recorded by the test of [runprotocol.ID]. *)
Example sha256_empty :
  hashString "" = "sha256:e3b0c44298fc1c149afbf4c8996fb92427ae41e4649b934ca495991b7852b855".
Proof. vm_compute. reflexivity. Qed.
Example sha256_run_id :
  runID "plan-1" "key-1" = "run-f0275f3f6438a625ef38332d09f488c6".
Proof. vm_compute. reflexivity. Qed.
