(* ===== verification/GoJson.v ===== *)
(** [json.Marshal] for the structures the digests bind: strings with Go's
    escaping (HTML characters, controls, invalid UTF-8, the two line
    separators), decimal integers, booleans, nulls and objects in field order.
    The lemmas say when an encoding determines the value it encodes. *)

From S2P Require Import Prelude.

(** ** Strings *)

Definition dquote : ascii := "034"%char.
Definition backslash : ascii := "092"%char.

Definition byteAt (s : string) : option Z :=
  match s with String c _ => Some (Z.of_nat (nat_of_ascii c)) | EmptyString => None end.

Definition continuation (lo hi : Z) (s : string) : bool :=
  match byteAt s with Some b => (lo <=? b) && (b <=? hi) | None => false end.

(** The number of continuation bytes when [s] begins with a valid multi-byte
    UTF-8 sequence. *)
Definition utf8Tail (s : string) : option nat :=
  match s with
  | EmptyString => None
  | String c r =>
      let b := Z.of_nat (nat_of_ascii c) in
      let c2 lo hi := continuation lo hi r in
      let c3 := continuation 0x80 0xBF (drop_string 1 r) in
      let c4 := continuation 0x80 0xBF (drop_string 2 r) in
      if (0xC2 <=? b) && (b <=? 0xDF) then if c2 0x80 0xBF then Some 1%nat else None
      else if b =? 0xE0 then if c2 0xA0 0xBF && c3 then Some 2%nat else None
      else if b =? 0xED then if c2 0x80 0x9F && c3 then Some 2%nat else None
      else if (0xE1 <=? b) && (b <=? 0xEF) then if c2 0x80 0xBF && c3 then Some 2%nat else None
      else if b =? 0xF0 then if c2 0x90 0xBF && c3 && c4 then Some 3%nat else None
      else if (0xF1 <=? b) && (b <=? 0xF3) then if c2 0x80 0xBF && c3 && c4 then Some 3%nat else None
      else if b =? 0xF4 then if c2 0x80 0x8F && c3 && c4 then Some 3%nat else None
      else None
  end.

Definition hexDigit (n : nat) : ascii :=
  ascii_of_nat (if (n <? 10)%nat then 48 + n else 87 + n).

(** Go's HTML-safe set: printable ASCII without quote, backslash, [<], [>], [&]. *)
Definition htmlSafe (c : ascii) : bool :=
  between " " "~" c && (c != dquote) && (c != backslash) && (c != "<"%char) && (c != ">"%char)
  && (c != "&"%char) || (c == "127"%char).

Definition escapeAscii (c : ascii) : string :=
  if htmlSafe c then String c ""
  else if (c == dquote) || (c == backslash) then String backslash (String c "")
  else if c == "008"%char then String backslash "b"
  else if c == "012"%char then String backslash "f"
  else if c == "010"%char then String backslash "n"
  else if c == "013"%char then String backslash "r"
  else if c == "009"%char then String backslash "t"
  else String backslash ("u00" +:+ String (hexDigit (nat_of_ascii c / 16)) (String (hexDigit (nat_of_ascii c mod 16)) "")).

(** [skip] continuation bytes are still to be copied ([emit]) or dropped. *)
Fixpoint escape (skip : nat) (emit : bool) (s : string) : string :=
  match s with
  | EmptyString => ""
  | String c r =>
      match skip with
      | S skip' => if emit then String c (escape skip' emit r) else escape skip' emit r
      | O =>
          if (nat_of_ascii c <? 128)%nat then escapeAscii c +:+ escape 0 true r
          else if HasPrefix s (String "226" (String "128" (String "168" ""))) then
            String backslash ("u2028" +:+ escape 2 false r)
          else if HasPrefix s (String "226" (String "128" (String "169" ""))) then
            String backslash ("u2029" +:+ escape 2 false r)
          else match utf8Tail s with
               | Some n => String c (escape n true r)
               | None => String backslash ("ufffd" +:+ escape 0 true r)
               end
      end
  end.

Definition jsonString (s : string) : string :=
  String dquote (escape 0 true s +:+ String dquote "").

Definition jsonInt (z : Z) : string := pretty z.
Definition jsonBool (b : bool) : string := if b then "true" else "false".
Definition jsonOption {A} (f : A -> string) (o : option A) : string :=
  match o with Some x => f x | None => "null" end.

(** ** Objects: the fields in declaration order *)

Fixpoint jsonFields (fields : list (string * string)) : string :=
  match fields with
  | [] => "}"
  | [(k, v)] => jsonString k +:+ String ":" (v +:+ "}")
  | (k, v) :: rest => jsonString k +:+ String ":" (v +:+ String "," (jsonFields rest))
  end.

Definition jsonObject (fields : list (string * string)) : string :=
  String "{" (jsonFields fields).

Definition jsonArray (items : list string) : string :=
  String "[" (Join "," items +:+ "]").

(** ** Injectivity *)

(** Strings whose characters need no escaping encode as themselves in quotes. *)
Lemma escape_safe s : all_chars htmlSafe s = true -> escape 0 true s = s.
Proof.
  induction s as [|c s IH]; cbn [all_chars]; [done|]. intros H; bool_hyps. cbn [escape].
  assert ((nat_of_ascii c <? 128)%nat = true) as ->.
  { clear - H. revert H. destruct c as [[][][][][][][][]]; vm_compute; congruence. }
  unfold escapeAscii. rewrite H, IH by done. reflexivity.
Qed.

Lemma jsonString_safe s :
  all_chars htmlSafe s = true -> jsonString s = String dquote (s +:+ String dquote "").
Proof. intros H. unfold jsonString. by rewrite escape_safe. Qed.

Lemma htmlSafe_noQuote s : all_chars htmlSafe s = true -> noChar dquote s = true.
Proof.
  apply all_chars_impl. intros c. destruct c as [[][][][][][][][]]; vm_compute; congruence.
Qed.

Lemma jsonString_inj s s' t t' :
  all_chars htmlSafe s = true -> all_chars htmlSafe s' = true ->
  jsonString s +:+ t = jsonString s' +:+ t' -> s = s' /\ t = t'.
Proof.
  intros H H' E. rewrite !jsonString_safe in E by done.
  rewrite !app_string_cons, !app_string_assoc, !app_string_cons in E.
  change ("" +:+ ?u) with u in E. injection E as E.
  eapply split_at_delimiter; eauto using htmlSafe_noQuote.
Qed.

(** Decimal integers: digits and a sign. *)
Definition isNumeral (c : ascii) : bool := isDigit c || (c == "-"%char).

Lemma pretty_N_go_numeral x s :
  all_chars isNumeral s = true -> all_chars isNumeral (pretty_N_go x s) = true.
Proof.
  revert s. induction (N.lt_wf_0 x) as [x _ IH]; intros s Hs.
  destruct (decide (0 < x)%N) as [H|H]; [|by replace x with 0%N by lia].
  rewrite pretty_N_go_step by done. apply IH; [by apply N.div_lt|].
  cbn [all_chars]. rewrite Hs, andb_true_r. unfold pretty_N_char.
  repeat case_match; reflexivity.
Qed.

Lemma pretty_N_numeral (n : N) : all_chars isNumeral (pretty n) = true.
Proof.
  unfold pretty, pretty_N. case_decide; [done|]. by apply pretty_N_go_numeral.
Qed.

Lemma jsonInt_numeral z : all_chars isNumeral (jsonInt z) = true.
Proof.
  unfold jsonInt, pretty, pretty_Z.
  destruct z as [|p|p]; [done|apply (pretty_N_numeral (N.pos p))|].
  rewrite app_string_cons. change ("" +:+ ?u) with u. cbn [all_chars].
  apply (pretty_N_numeral (N.pos p)).
Qed.

(** ** Encodings that determine the value they encode

    Every value of an object is followed by a comma or a closing brace;
    [Delimited enc ok] says that the encodings of acceptable values can be told
    apart, and their end found, in front of either. *)

Definition isDelimiter (c : ascii) : bool := (c == ","%char) || (c == "}"%char).

Class Delimited {A} (enc : A -> string) (ok : A -> bool) :=
  delimited x x' c c' t t' :
    isDelimiter c = true -> isDelimiter c' = true -> ok x = true -> ok x' = true ->
    enc x +:+ String c t = enc x' +:+ String c' t' -> x = x' /\ String c t = String c' t'.

(** Strings over an alphabet that excludes the two following characters split alike. *)
Lemma split_at_class (p : ascii -> bool) s s' c c' t t' :
  all_chars p s = true -> all_chars p s' = true -> p c = false -> p c' = false ->
  s +:+ String c t = s' +:+ String c' t' -> s = s' /\ String c t = String c' t'.
Proof.
  revert s'. induction s as [|x s IH]; intros [|x' s'] H H' Hc Hc' E; cbn in H, H'.
  - done.
  - rewrite app_string_cons in E. change ("" +:+ ?u) with u in E. injection E as -> _.
    bool_hyps. congruence.
  - rewrite app_string_cons in E. change ("" +:+ ?u) with u in E. injection E as <- _.
    bool_hyps. congruence.
  - rewrite !app_string_cons in E. injection E as -> E. bool_hyps.
    by destruct (IH s') as [-> ?].
Qed.

Lemma isDelimiter_not_numeral c : isDelimiter c = true -> isNumeral c = false.
Proof. destruct c as [[][][][][][][][]]; vm_compute; congruence. Qed.

#[export] Instance jsonInt_delimited : Delimited jsonInt (fun _ => true).
Proof.
  intros z z' c c' t t' Hc Hc' _ _ E.
  apply (split_at_class isNumeral) in E as [E ->];
    auto using jsonInt_numeral, isDelimiter_not_numeral.
  split; [by apply (inj pretty) in E | done].
Qed.

#[export] Instance jsonString_delimited : Delimited jsonString (all_chars htmlSafe).
Proof. intros s s' c c' t t' _ _ H H' E. by apply jsonString_inj. Qed.

#[export] Instance jsonBool_delimited : Delimited jsonBool (fun _ => true).
Proof.
  intros b b' c c' t t' Hc Hc' _ _ E.
  destruct b, b'; cbn in E; try discriminate E;
    (split; [done|]); by apply app_string_inv_l in E.
Qed.

(** An optional value, when no encoding starts like [null]. *)
Lemma jsonOption_delimited {A} (enc : A -> string) ok :
  (forall x, HasPrefix (enc x) "n" = false) -> (forall x, enc x <> "") ->
  Delimited enc ok -> Delimited (jsonOption enc) (fun o => match o with Some x => ok x | None => true end).
Proof.
  intros Hn He D x x' c c' t t' Hc Hc' Hx Hx' E.
  assert (forall y u, enc y +:+ u <> "null" +:+ String c t /\ enc y +:+ u <> "null" +:+ String c' t') as Hne.
  { intros y u. specialize (Hn y); specialize (He y). destruct (enc y) as [|a r]; [done|].
    rewrite app_string_cons, !(app_string_cons "n"). cbn in Hn.
    split; intros [= -> _]; by destruct r. }
  destruct x as [x|], x' as [x'|]; cbn [jsonOption] in E.
  - by destruct (D x x' c c' t t') as [-> ->].
  - by destruct (Hne x (String c t)) as [_ []].
  - symmetry in E. by destruct (Hne x' (String c' t')) as [[] _].
  - apply app_string_inv_l in E. by split.
Qed.

#[export] Instance jsonOption_string_delimited :
  Delimited (jsonOption jsonString) (fun o => match o with Some s => all_chars htmlSafe s | None => true end).
Proof. by apply jsonOption_delimited; [| |apply _]. Qed.

Lemma jsonInt_head z : HasPrefix (jsonInt z) "n" = false.
Proof.
  pose proof (jsonInt_numeral z) as H. destruct (jsonInt z) as [|c s]; [done|].
  cbn in H |- *. bool_hyps. rewrite andb_false_iff. left.
  apply bool_decide_eq_false_2. by intros <-.
Qed.

Lemma pretty_N_go_nonempty x s : s <> "" -> pretty_N_go x s <> "".
Proof.
  revert s. induction (N.lt_wf_0 x) as [x _ IH]; intros s Hs.
  destruct (decide (0 < x)%N) as [H|H]; [|by replace x with 0%N by lia].
  rewrite pretty_N_go_step by done. by apply IH; [apply N.div_lt|].
Qed.

Lemma jsonInt_nonempty z : jsonInt z <> "".
Proof.
  assert (forall p, pretty (N.pos p) <> "") as H.
  { intros p. unfold pretty, pretty_N. case_decide; [done|].
    rewrite pretty_N_go_step by lia. by apply pretty_N_go_nonempty. }
  destruct z as [|p|p]; [done|apply (H p)|done].
Qed.

#[export] Instance jsonOption_int_delimited : Delimited (jsonOption jsonInt) (fun _ => true).
Proof.
  intros x x' c c' t t' Hc Hc' _ _.
  apply (jsonOption_delimited jsonInt (fun _ => true) jsonInt_head jsonInt_nonempty _ x x'); try done;
    [by destruct x | by destruct x'].
Qed.

(** The fields of an object, one after the other. *)
Lemma jsonFields_app_inj {A} (enc : A -> string) ok `{!Delimited enc ok} k x x' rest rest' t t' :
  ok x = true -> ok x' = true ->
  jsonFields ((k, enc x) :: rest) +:+ t = jsonFields ((k, enc x') :: rest') +:+ t' ->
  x = x' /\ jsonFields rest +:+ t = jsonFields rest' +:+ t'.
Proof.
  intros Hx Hx' E.
  assert (forall y r, exists c u, isDelimiter c = true /\
    jsonFields ((k, enc y) :: r) = jsonString k +:+ String ":" (enc y +:+ String c u) /\
    String c u = match r with [] => "}" | _ => String "," (jsonFields r) end) as Hsplit.
  { intros y [|[k' v'] r]; cbn [jsonFields]; eexists _, _; (split; [|split; reflexivity]); done. }
  destruct (Hsplit x rest) as (c & u & Hc & E1 & Hr), (Hsplit x' rest') as (c' & u' & Hc' & E2 & Hr').
  rewrite E1, E2, !app_string_assoc in E. apply app_string_inv_l in E.
  rewrite !(app_string_cons ":") in E. injection E as E. rewrite !app_string_assoc, !app_string_cons in E.
  apply delimited in E as [-> E]; try done. split; [done|].
  rewrite <- !app_string_cons, Hr, Hr' in E. destruct rest, rest'; cbn [jsonFields];
    first [exact E | (rewrite !app_string_cons in E; injection E as E; exact E)
          | (rewrite !app_string_cons in E; discriminate E)].
Qed.

Lemma jsonFields_inj {A} (enc : A -> string) ok `{!Delimited enc ok} k x x' rest rest' :
  ok x = true -> ok x' = true ->
  jsonFields ((k, enc x) :: rest) = jsonFields ((k, enc x') :: rest') ->
  x = x' /\ jsonFields rest = jsonFields rest'.
Proof.
  intros Hx Hx' E. apply (f_equal (fun s => s +:+ "")) in E.
  apply (jsonFields_app_inj enc ok) in E as [-> E]; [|done..]. by rewrite !app_string_nil_r in E.
Qed.

(** An object of two strings is followed by what follows it. *)
Lemma jsonObject_string2_inj k1 k2 a b a' b' t t' :
  all_chars htmlSafe a = true -> all_chars htmlSafe b = true ->
  all_chars htmlSafe a' = true -> all_chars htmlSafe b' = true ->
  jsonObject [(k1, jsonString a); (k2, jsonString b)] +:+ t =
  jsonObject [(k1, jsonString a'); (k2, jsonString b')] +:+ t' ->
  a = a' /\ b = b' /\ t = t'.
Proof.
  intros ???? E. unfold jsonObject in E. rewrite !app_string_cons in E. apply String_inv in E.
  apply (jsonFields_app_inj jsonString (all_chars htmlSafe)) in E as [-> E]; [|done..].
  apply (jsonFields_app_inj jsonString (all_chars htmlSafe)) in E as [-> E]; [|done..].
  by apply String_inv in E.
Qed.

(** Strips equal fields off two equal objects, substituting the values. *)
Ltac json_fields E :=
  repeat (let F := fresh "F" in eapply jsonFields_inj in E as [F E];
          [try subst | typeclasses eauto
          | first [eassumption | reflexivity | by apply andb_true_iff]..]).

Example jsonString_test :
  jsonString (String "a" (String dquote (String "<" (String "010" "")))) =
  String dquote ("a" +:+ String backslash (String dquote (String backslash ("u003c" +:+ String backslash ("n" +:+ String dquote ""))))).
Proof. vm_compute. reflexivity. Qed.
