(* ===== verification/Contracts.v ===== *)
(** The generated contract types the components exchange (plans, runs, steps,
    leases, receipts, decisions, scheduled jobs) and the binding, transition
    and timing validators of [internal/generated/contracts_validate_gen.go].

    A Go pointer is an [option]. The fields of [Plan] that carry the typed input
    of a workflow no modelled function reads (hosting, service, CI, network
    endpoint and credential presentations) are left out. *)

From S2P Require Import Prelude GoTime Hash.

(** ** Constants of the generated registry *)

Definition PlanValiditySeconds : Z := 1800.
Definition ExecutorLeaseSeconds : Z := 60.
Definition ExecutorCheckInSeconds : Z := 20.

Definition ApprovalRequired := "APPROVAL_REQUIRED".
Definition AuthorizationDenied := "AUTHORIZATION_DENIED".
Definition DependencyUnavailable := "DEPENDENCY_UNAVAILABLE".
Definition ExecutionFailed := "EXECUTION_FAILED".
Definition ExecutionPartial := "EXECUTION_PARTIAL".
Definition InputInvalid := "INPUT_INVALID".
Definition IntegrityFailure := "INTEGRITY_FAILURE".
Definition Interrupted := "INTERRUPTED".
Definition PlanStale := "PLAN_STALE".
Definition PrerequisiteBlocked := "PREREQUISITE_BLOCKED".
Definition RecoveryEpochMismatch := "RECOVERY_EPOCH_MISMATCH".
Definition RecoveryRequired := "RECOVERY_REQUIRED".
Definition ResourceNotFound := "RESOURCE_NOT_FOUND".
Definition StateConflict := "STATE_CONFLICT".

(** ** Plans *)

Record ContractExtension := mkExtension { x_Name : string; x_ValueDigest : string }.

Record PlanOperation := mkPlanOperation {
  op_Sequence : Z;
  op_OperationID : string;
  op_OperationType : string;
  op_AdapterID : string;
  op_ExecutorID : string;
  op_TargetID : string;
  op_InputDigest : string;
  op_ArtifactDigest : string;
  op_Idempotent : bool
}.

Record PlanBinding := mkPlanBinding {
  b_RecoveryEpoch : Z;
  b_PriorStateRevision : Z;
  b_StateRevision : Z;
  b_DeclarationRevision : Z;
  b_ObservationFingerprint : string;
  b_TargetDigest : string;
  b_ReasonDigest : string;
  b_PolicyVersion : string;
  b_ToolVersion : string;
  b_ContractVersion : string
}.

(** The typed inputs of the host workflows that authorization reads. [_JSON] is
    the [json.Marshal] encoding of the whole input, which its digest hashes; of
    the other fields only those that are read appear. *)
Record HostReplacementRequest := mkHostReplacement {
  hr_OldHostID : string;
  hr_NewHostID : string;
  hr_Operation : string;
  hr_RestorationClass : string;
  hr_RecoveryEpoch : Z;
  hr_JSON : string
}.
Record HostAliasClaimRequest := mkHostAliasClaim {
  ha_HostID : string;
  ha_AliasIDs : list string;
  ha_RecoveryEpoch : Z;
  ha_JSON : string
}.
Record HostAdoptionRequest := mkHostAdoption {
  hd_HostID : string;
  hd_RecoveryEpoch : Z;
  hd_JSON : string
}.
Record HostDiscoveryTargetDraftRequest := mkHostDiscoveryTarget {
  ht_Action : string;
  ht_TargetID : string;
  ht_TargetRecoveryEpoch : Z;
  ht_JSON : string
}.
Record HostBaselineScope := mkHostBaselineScope {
  hb_SubjectHostID : string;
  hb_ExecutionHostID : string
}.
(** The parts of a [ControlRecoveryReceiveInput] that name hosts. *)
Record ControlRecoveryReceiveInput := mkRecoveryReceive {
  rv_Schema : string;
  rv_SchemaVersion : string;
  rv_ReplacementOldHostID : string;
  rv_ReplacementNewHostID : string;
  rv_BindingFormerHostID : string;
  rv_BindingReplacementHostID : string
}.
(** [hx_Decoded] is the [ControlRecoveryReceiveInput] whose canonical encoding
    the bytes of the action input are, when there is one. *)
Record HostActionRequest := mkHostAction {
  hx_ActionID : string;
  hx_ActionVersion : string;
  hx_ActionInputDigest : string;
  hx_ActionInput : string;
  hx_Decoded : option ControlRecoveryReceiveInput;
  hx_HostID : string
}.

(** Of the role scope and the access sequence only the presence is read: they
    are represented by their encoding. *)
Record Plan := mkPlan {
  p_PlanID : string;
  p_PlanDigest : string;
  p_DeclarationID : string;
  p_Binding : PlanBinding;
  p_Operations : list PlanOperation;
  p_Status : string;
  p_Risk : string;
  p_AuthorizationBranch : string;
  p_ExecutorMode : string;
  p_ExecutorID : option string;
  p_CreatedAt : string;
  p_ExpiresAt : string;
  p_HostReplacement : option HostReplacementRequest;
  p_HostAliasClaim : option HostAliasClaimRequest;
  p_HostBaselineScope : option HostBaselineScope;
  p_HostAccessAuxiliaryHostIDs : option (list string);
  p_HostAction : option HostActionRequest;
  p_HostAdoption : option HostAdoptionRequest;
  p_HostDiscoveryTarget : option HostDiscoveryTargetDraftRequest;
  p_HostRoleScope : option string;
  p_HostAccessSequence : option string;
  p_Extensions : list ContractExtension
}.

(** The plan with its operations listed anew. *)
Definition withOperations (operations : list PlanOperation) (p : Plan) : Plan :=
  mkPlan (p_PlanID p) (p_PlanDigest p) (p_DeclarationID p) (p_Binding p) operations (p_Status p) (p_Risk p)
    (p_AuthorizationBranch p) (p_ExecutorMode p) (p_ExecutorID p) (p_CreatedAt p) (p_ExpiresAt p)
    (p_HostReplacement p) (p_HostAliasClaim p) (p_HostBaselineScope p) (p_HostAccessAuxiliaryHostIDs p)
    (p_HostAction p) (p_HostAdoption p) (p_HostDiscoveryTarget p) (p_HostRoleScope p)
    (p_HostAccessSequence p) (p_Extensions p).

(** ** Runs *)

Record RunStep := mkRunStep {
  s_Sequence : Z;
  s_OperationID : string;
  s_OperationType : string;
  s_AdapterID : string;
  s_ExecutorID : string;
  s_TargetID : string;
  s_InputDigest : string;
  s_ArtifactDigest : string;
  s_Idempotent : bool;
  s_StepID : string;
  s_Status : string;
  s_EffectState : string
}.

Record Run := mkRun {
  r_RunID : string;
  r_PlanID : string;
  r_PlanDigest : string;
  r_AuthorizationDecisionID : string;
  r_AcknowledgementID : option string;
  r_PolicyVersion : string;
  r_ExecutorMode : string;
  r_ExecutorID : string;
  r_ExecutorBindingDigest : string;
  r_Status : string;
  r_Steps : list RunStep;
  r_CancellationRequested : bool;
  r_RollbackStatus : string;
  r_VerificationStatus : string;
  r_VerificationDigest : option string;
  r_Changed : bool;
  r_StateRevision : Z;
  r_RecoveryEpoch : Z;
  r_CreatedAt : string;
  r_UpdatedAt : string;
  r_Extensions : list ContractExtension
}.

Record ExecutorLease := mkExecutorLease {
  l_LeaseID : string;
  l_PlanID : string;
  l_PlanDigest : string;
  l_RunID : string;
  l_StepID : string;
  l_OperationID : string;
  l_ExecutorID : string;
  l_AdapterID : string;
  l_TargetID : string;
  l_ArtifactDigest : string;
  l_BindingDigest : string;
  l_NonceDigest : string;
  l_RecoveryEpoch : Z;
  l_ClaimedAt : string;
  l_RenewAfter : string;
  l_LeaseExpiresAt : string;
  l_MaximumExpiresAt : string;
  l_Status : string;
  l_Extensions : list ContractExtension
}.

Record ExecutionReceipt := mkExecutionReceipt {
  rc_LeaseID : string;
  rc_PlanID : string;
  rc_PlanDigest : string;
  rc_RunID : string;
  rc_StepID : string;
  rc_OperationID : string;
  rc_ExecutorID : string;
  rc_AdapterID : string;
  rc_TargetID : string;
  rc_ArtifactDigest : string;
  rc_BindingDigest : string;
  rc_NonceDigest : string;
  rc_RecoveryEpoch : Z;
  rc_ReceiptID : string;
  rc_Status : string;
  rc_ResultDigest : string;
  rc_PendingPointID : option string;
  rc_RecordedAt : string;
  rc_Extensions : list ContractExtension
}.

(** ** Decisions, acknowledgements and references *)

Record AuthorizationDecision := mkAuthorizationDecision {
  ad_DecisionID : string;
  ad_PrincipalID : string;
  ad_Action : string;
  ad_TargetID : string;
  ad_Allowed : bool;
  ad_Branch : option string;
  ad_ReasonCode : string;
  ad_GrantRevision : Z;
  ad_RecoveryEpoch : Z;
  ad_PlanDigest : string;
  ad_DecidedAt : string
}.

Record Acknowledgement := mkAcknowledgement {
  ak_PlanID : string;
  ak_PlanDigest : string;
  ak_TargetDigest : string;
  ak_ReasonDigest : string;
  ak_HumanID : string;
  ak_AuthorityID : string;
  ak_NonceDigest : string;
  ak_StateRevision : Z;
  ak_RecoveryEpoch : Z;
  ak_ExpiresAt : string;
  ak_AcknowledgementID : string;
  ak_ProofDigest : string;
  ak_Status : string;
  ak_ReceivedAt : string;
  ak_Extensions : list ContractExtension
}.

Record AcknowledgementRequest := mkAcknowledgementRequest {
  kq_PlanID : string;
  kq_PlanDigest : string;
  kq_TargetDigest : string;
  kq_ReasonDigest : string;
  kq_HumanID : string;
  kq_AuthorityID : string;
  kq_NonceDigest : string;
  kq_StateRevision : Z;
  kq_RecoveryEpoch : Z;
  kq_ExpiresAt : string;
  kq_Extensions : list ContractExtension
}.

Record ApprovalStatus := mkApprovalStatus {
  as_PlanID : string;
  as_PlanDigest : string;
  as_Status : string;
  as_AuthorizationCurrent : bool;
  as_CanApply : bool;
  as_Channel : string;
  as_Owner : string;
  as_StateRevision : Z;
  as_RecoveryEpoch : Z;
  as_ExpiresAt : string;
  as_ObservedAt : string
}.

Record PlanReferenceRequest := mkPlanReference {
  pr_PlanID : string;
  pr_PlanDigest : string;
  pr_RecoveryEpoch : Z;
  pr_IdempotencyKey : string;
  pr_Extensions : list ContractExtension
}.

Record ExecutorClaimRequest := mkExecutorClaim {
  cl_ExecutorID : string;
  cl_PrincipalID : string;
  cl_AdapterID : string;
  cl_RecoveryEpoch : Z;
  cl_NonceDigest : string;
  cl_Extensions : list ContractExtension
}.

Record ExecutorRenewRequest := mkExecutorRenew {
  er_LeaseID : string;
  er_BindingDigest : string;
  er_NonceDigest : string;
  er_RecoveryEpoch : Z;
  er_Extensions : list ContractExtension
}.

Record ExecutionReceiptRequest := mkExecutionReceiptRequest {
  xp_Receipt : ExecutionReceipt;
  xp_ExpectedBindingDigest : string;
  xp_Extensions : list ContractExtension
}.

Record RunReferenceRequest := mkRunReference {
  rr_RunID : string;
  rr_IdempotencyKey : string;
  rr_RecoveryEpoch : Z;
  rr_Extensions : list ContractExtension
}.

(** ** Scheduled jobs *)

Record ScheduledJobPolicy := mkScheduledJobPolicy {
  sp_SchemaVersion : string;
  sp_PolicyID : string;
  sp_Revision : Z;
  sp_DeclarationID : string;
  sp_DeclarationRevision : Z;
  sp_ActionKind : string;
  sp_OperationType : string;
  sp_AdapterID : string;
  sp_ExactSourceIDs : list string;
  sp_ExactSubjectIDs : list string;
  sp_ExactTargetIDs : list string;
  sp_MaximumWork : Z;
  sp_CredentialReferenceIDs : list string;
  sp_GrantRevision : Z;
  sp_StateRevision : Z;
  sp_RecoveryEpoch : Z;
  sp_PolicyVersion : string;
  sp_RetentionRuleDigest : string;
  sp_AnchorAt : string;
  sp_IntervalSeconds : Z;
  sp_WindowSeconds : Z;
  sp_CatchUp : string;
  sp_Concurrency : string;
  sp_MaxAttempts : Z;
  sp_InitialBackoffSeconds : Z;
  sp_MaximumBackoffSeconds : Z;
  sp_ExpiresAt : string;
  sp_Enabled : bool
}.

Record ScheduledJob := mkScheduledJob {
  sj_JobID : string;
  sj_PolicyID : string;
  sj_PolicyRevision : Z;
  sj_ScheduledAt : string;
  sj_Attempt : Z;
  sj_PlanID : option string;
  sj_RunID : option string;
  sj_Status : string;
  sj_ReasonCode : string;
  sj_RecoveryEpoch : Z
}.

(** ** Audit checkpoints *)

Record AuditCheckpoint := mkAuditCheckpoint {
  cp_CheckpointID : string;
  cp_FirstEventID : Z;
  cp_LastEventID : Z;
  cp_ChainDigest : string;
  cp_InstanceID : string;
  cp_FirstSegmentSequence : Z;
  cp_LastSegmentSequence : Z;
  cp_SignerReferenceID : string;
  cp_SignerMaterialVersion : string;
  cp_SignatureDigest : option string;
  cp_PublicKeyID : option string;
  cp_ExportReceiptDigest : option string;
  cp_IndependentReadDigest : option string;
  cp_Status : string;
  cp_PreAnchor : bool;
  cp_RecoveryEpoch : Z
}.

#[global] Instance ContractExtension_eq_dec : EqDecision ContractExtension.
Proof. solve_decision. Defined.
#[global] Instance PlanOperation_eq_dec : EqDecision PlanOperation.
Proof. solve_decision. Defined.
#[global] Instance RunStep_eq_dec : EqDecision RunStep.
Proof. solve_decision. Defined.
#[global] Instance ExecutionReceipt_eq_dec : EqDecision ExecutionReceipt.
Proof. solve_decision. Defined.

(** ** Lifecycle tables *)

Definition RunTransitions : list (string * string) :=
  [("interrupted", "cancelled"); ("interrupted", "running"); ("queued", "cancelled");
   ("queued", "running"); ("running", "failed"); ("running", "interrupted");
   ("running", "partial"); ("running", "succeeded")].

Definition GateEvidenceTransitions : list (string * string) :=
  [("applied", "revoked"); ("draft", "applied"); ("draft", "revoked")].

Definition BackupJobTransitions : list (string * string) :=
  [("pending", "failed"); ("pending", "verified"); ("queued", "failed"); ("queued", "running");
   ("running", "failed"); ("running", "pending"); ("running", "uncertain")].

Definition RestoreTransitions : list (string * string) :=
  [("fenced", "failed"); ("fenced", "restoring"); ("planned", "failed"); ("planned", "fenced");
   ("restoring", "failed"); ("restoring", "uncertain"); ("restoring", "verification-required");
   ("verification-required", "failed"); ("verification-required", "uncertain");
   ("verification-required", "verified")].

Definition ScheduledJobTransitions : list (string * string) :=
  [("queued", "blocked"); ("queued", "cancelled"); ("queued", "failed"); ("queued", "running");
   ("queued", "skipped"); ("retry-wait", "cancelled"); ("retry-wait", "failed");
   ("retry-wait", "running"); ("running", "failed"); ("running", "retry-wait");
   ("running", "succeeded"); ("running", "uncertain")].

Definition ValidateRunTransition (from to : string) : bool :=
  existsb (fun t => (t.1 == from) && (t.2 == to)) RunTransitions.

Definition ValidatePhase5Transition (kind from to : string) : bool :=
  let permits := existsb (fun t => (t.1 == from) && (t.2 == to)) in
  if kind == "gate-evidence" then permits GateEvidenceTransitions
  else if kind == "backup-job" then permits BackupJobTransitions
  else if kind == "restore" then permits RestoreTransitions
  else if kind == "scheduled-job" then permits ScheduledJobTransitions
  else false.

(** ** Binding validators *)

Definition ValidateScheduledJobBinding (policy : ScheduledJobPolicy) (job : ScheduledJob) : bool :=
  negb (negb (sp_Enabled policy) || (length (sp_ExactTargetIDs policy) =? 0)%nat
        || (sp_PolicyID policy != sj_PolicyID job) || (sp_Revision policy != sj_PolicyRevision job)
        || (sp_RecoveryEpoch policy != sj_RecoveryEpoch job)).

Definition ValidatePlanTiming (plan : Plan) : bool :=
  match parseRFC3339 (p_CreatedAt plan), parseRFC3339 (p_ExpiresAt plan) with
  | Some created, Some expires => Equal expires (Add created (seconds PlanValiditySeconds))
  | _, _ => false
  end.

Definition ValidateLeaseTiming (lease : ExecutorLease) : bool :=
  match parseRFC3339 (l_ClaimedAt lease) with
  | None => false
  | Some claimed =>
      match parseRFC3339 (l_RenewAfter lease), parseRFC3339 (l_LeaseExpiresAt lease),
            parseRFC3339 (l_MaximumExpiresAt lease) with
      | Some renew, Some expires, Some maximum =>
          Equal renew (Add claimed (seconds ExecutorCheckInSeconds))
          && Equal expires (Add claimed (seconds ExecutorLeaseSeconds)) && Equal maximum expires
      | _, _, _ => false
      end
  end.

Definition ValidateRenewedLeaseTiming (lease : ExecutorLease) : bool :=
  match parseRFC3339 (l_ClaimedAt lease) with
  | None => false
  | Some claimed =>
      match parseRFC3339 (l_RenewAfter lease), parseRFC3339 (l_LeaseExpiresAt lease),
            parseRFC3339 (l_MaximumExpiresAt lease) with
      | Some renew, Some expires, Some maximum =>
          After renew claimed && Equal expires (Add claimed (seconds ExecutorLeaseSeconds))
          && negb (After renew expires) && Equal maximum expires
      | _, _, _ => false
      end
  end.

(** The step equals the planned operation in every planned field. *)
Definition stepMatchesOperation (operation : PlanOperation) (step : RunStep) : bool :=
  (op_Sequence operation == s_Sequence step) && (op_OperationID operation == s_OperationID step)
  && (op_OperationType operation == s_OperationType step) && (op_ExecutorID operation == s_ExecutorID step)
  && (op_AdapterID operation == s_AdapterID step) && (op_TargetID operation == s_TargetID step)
  && (op_InputDigest operation == s_InputDigest step)
  && (op_ArtifactDigest operation == s_ArtifactDigest step)
  && (op_Idempotent operation == s_Idempotent step).

Definition ValidateExecutorLeaseBinding (plan : Plan) (run : Run) (lease : ExecutorLease) : bool :=
  (p_PlanID plan == r_PlanID run) && (p_PlanID plan == l_PlanID lease)
  && (p_PlanDigest plan == r_PlanDigest run) && (p_PlanDigest plan == l_PlanDigest lease)
  && (b_RecoveryEpoch (p_Binding plan) == r_RecoveryEpoch run)
  && (b_RecoveryEpoch (p_Binding plan) == l_RecoveryEpoch lease)
  && (b_StateRevision (p_Binding plan) == r_StateRevision run)
  && (r_RunID run == l_RunID lease) && (p_ExecutorMode plan == r_ExecutorMode run)
  && (r_ExecutorID run == l_ExecutorID lease) && (r_ExecutorBindingDigest run == l_BindingDigest lease)
  && (if p_ExecutorMode plan == "external" then p_ExecutorID plan == Some (r_ExecutorID run) else true)
  && match filter (fun candidate => s_StepID candidate = l_StepID lease) (r_Steps run) with
     | [step] =>
         match filter (fun operation => op_OperationID operation = l_OperationID lease) (p_Operations plan) with
         | [operation] =>
             stepMatchesOperation operation step
             && (s_ExecutorID step == l_ExecutorID lease) && (s_AdapterID step == l_AdapterID lease)
             && (s_TargetID step == l_TargetID lease) && (s_ArtifactDigest step == l_ArtifactDigest lease)
         | _ => false
         end
     | _ => false
     end.

Definition ValidateExecutionReceiptBinding (lease : ExecutorLease) (receipt : ExecutionReceipt) : bool :=
  (l_LeaseID lease == rc_LeaseID receipt) && (l_PlanID lease == rc_PlanID receipt)
  && (l_PlanDigest lease == rc_PlanDigest receipt) && (l_RunID lease == rc_RunID receipt)
  && (l_StepID lease == rc_StepID receipt) && (l_OperationID lease == rc_OperationID receipt)
  && (l_ExecutorID lease == rc_ExecutorID receipt) && (l_AdapterID lease == rc_AdapterID receipt)
  && (l_TargetID lease == rc_TargetID receipt) && (l_ArtifactDigest lease == rc_ArtifactDigest receipt)
  && (l_BindingDigest lease == rc_BindingDigest receipt) && (l_NonceDigest lease == rc_NonceDigest receipt)
  && (l_RecoveryEpoch lease == rc_RecoveryEpoch receipt).
