(* ===== verification/AuditLog.v ===== *)
(** The audit log of [internal/audit]: bounded event values, the canonical event
    encoding, the hash chain over events, its verifier, checkpoints, and the
    delivery back-off of the outbox. *)

From S2P Require Import Prelude GoTime Hash GoJson Contracts.

(** ** Bounded values (types.go) *)

Definition EventSchema := "vegastack-labs.dev/audit-event".
Definition EventSchemaVersion := "1.0.0".
Definition InitialRetryDelay : Z := 30 * Second.
Definition MaxRetryDelay : Z := Hour.

Record AgentMetadata := mkAgent { ag_Name : string; ag_SessionID : string }.

Record Attribution := mkAttribution {
  at_PrincipalID : string;
  at_PrincipalMethod : string;
  at_ResponsibleHuman : option string;
  at_Agent : option AgentMetadata
}.

Record Target := mkTarget { tg_Kind : string; tg_ID : string }.

Record EventDraft := mkEventDraft {
  d_Type : string;
  d_CorrelationID : string;
  d_CausationID : option Z;
  d_CorrectionOf : option Z;
  d_Attribution : Attribution;
  d_Target : Target;
  d_Before : option string;
  d_After : option string
}.

Record IntentKey := mkIntentKey {
  ik_Scope : string;
  ik_KeyDigest : string;
  ik_RequestDigest : string
}.

Record OutboxRequirement := mkOutboxRequirement { ob_Destination : string; ob_Enabled : bool }.

Record Event := mkEvent {
  e_Schema : string;
  e_SchemaVersion : string;
  e_EventID : Z;
  e_OccurredAt : string;
  e_RecoveryEpoch : Z;
  e_StateRevision : Z;
  e_Type : string;
  e_CorrelationID : string;
  e_CausationID : option Z;
  e_CorrectionOf : option Z;
  e_PrincipalID : string;
  e_PrincipalMethod : string;
  e_HumanID : option string;
  e_AgentName : option string;
  e_AgentSessionID : option string;
  e_AgentSource : option string;
  e_Target : Target;
  e_Before : option string;
  e_After : option string
}.

(** Identifiers of the run, plan and provider object an event belongs to. *)
Record ContextIDs := mkContextIDs {
  cx_RunID : string;
  cx_PlanID : string;
  cx_ProviderNativeID : string
}.

Record ChainLink := mkChainLink {
  k_InstanceID : string;
  k_RecoveryEpoch : Z;
  k_EventID : Z;
  k_SegmentSequence : Z;
  k_PreviousDigest : string;
  k_PayloadDigest : string;
  k_ContextDigest : string;
  k_Context : ContextIDs;
  k_LinkDigest : string;
  k_PreAnchor : bool;
  k_PriorCheckpoint : string;
  k_RecoveryDecision : string
}.

Definition zeroLink : ChainLink :=
  mkChainLink "" 0 0 0 "" "" "" (mkContextIDs "" "" "") "" false "" "".

Definition withLinkDigest (digest : string) (l : ChainLink) : ChainLink :=
  mkChainLink (k_InstanceID l) (k_RecoveryEpoch l) (k_EventID l) (k_SegmentSequence l)
    (k_PreviousDigest l) (k_PayloadDigest l) (k_ContextDigest l) (k_Context l) digest
    (k_PreAnchor l) (k_PriorCheckpoint l) (k_RecoveryDecision l).

Record ChainRange := mkChainRange {
  cn_FirstEventID : Z;
  cn_LastEventID : Z;
  cn_Links : list ChainLink;
  cn_RangeDigest : string
}.

(** [credentialref.Reference] *)
Record Reference := mkReference { cr_ID : string; cr_Consumer : string }.

Record PublicKey := mkPublicKey { pk_ID : string; pk_Bytes : string }.

Record Signature := mkSignature { sg_PublicKeyID : string; sg_Bytes : string; sg_Digest : string }.

Record IndependentCheckpoint := mkIndependentCheckpoint {
  ic_CheckpointID : string;
  ic_InstanceID : string;
  ic_RecoveryEpoch : Z;
  ic_LastEventID : Z;
  ic_LastSequence : Z;
  ic_ChainDigest : string;
  ic_SignerReference : Reference;
  ic_MaterialVersion : string;
  ic_Namespace : string;
  ic_SignedDigest : string;
  ic_Signature : Signature;
  ic_ExportReceipt : string;
  ic_IndependentRead : string
}.

Record LocalResult := mkLocalResult {
  lr_Status : string;
  lr_ReasonCode : string;
  lr_InstanceID : string;
  lr_RecoveryEpoch : Z;
  lr_LocalDigest : string;
  lr_LastSequence : Z;
  lr_PreAnchor : bool;
  lr_LastAnchored : option AuditCheckpoint;
  lr_AnchoredRange : ChainRange;
  lr_Namespace : string
}.

Record VerificationResult := mkVerificationResult {
  vr_Status : string;
  vr_ReasonCode : string;
  vr_LocalDigest : string;
  vr_IndependentDigest : string;
  vr_IndependentMatch : bool;
  vr_LastSequence : Z;
  vr_PreAnchor : bool
}.

#[global] Instance ContextIDs_eq_dec : EqDecision ContextIDs.
Proof. solve_decision. Defined.
#[global] Instance Reference_eq_dec : EqDecision Reference.
Proof. solve_decision. Defined.
#[global] Instance ChainLink_eq_dec : EqDecision ChainLink.
Proof. solve_decision. Defined.
#[global] Instance AgentMetadata_eq_dec : EqDecision AgentMetadata.
Proof. solve_decision. Defined.
#[global] Instance Attribution_eq_dec : EqDecision Attribution.
Proof. solve_decision. Defined.
#[global] Instance Target_eq_dec : EqDecision Target.
Proof. solve_decision. Defined.
#[global] Instance Event_eq_dec : EqDecision Event.
Proof. solve_decision. Defined.

(** [errInvalid] *)
Definition errInvalid : error := Plain "invalid bounded audit value".

(** [^sha256:[0-9a-f]{64}$] *)
Definition ValidFingerprint (value : string) : bool := sha256Digest value.

Definition toLowerAscii (c : ascii) : ascii :=
  if isUpper c then ascii_of_nat (nat_of_ascii c + 32) else c.

Fixpoint toLower (s : string) : string :=
  match s with EmptyString => "" | String c r => String (toLowerAscii c) (toLower r) end.

Definition tokenChar (c : ascii) : bool := isLower c || isUpper c || isDigit c || isTokenPunct c.

(** [tokenPattern]: a letter or digit, then letters, digits and [. _ : -]. *)
Definition tokenPattern (s : string) : bool :=
  match s with
  | EmptyString => false
  | String c r => (isLower c || isUpper c || isDigit c) && all_chars tokenChar r
  end.

Definition secretPrefixes : list string :=
  ["github_pat_"; "ghp_"; "gho_"; "ghu_"; "ghs_"; "ghr_"; "sk-"; "xoxb-"; "xoxp-"; "akia"].

Definition validToken (value : string) (maximum : nat) : bool :=
  negb ((String.length value =? 0)%nat || (maximum <? String.length value)%nat || negb (tokenPattern value))
  && forallb (fun prefix => negb (HasPrefix (toLower value) prefix)) secretPrefixes.

(** The segments of a dotted name. *)
Fixpoint segments (s : string) : list string :=
  match s with
  | EmptyString => [""]
  | String c r =>
      if c == "."%char then "" :: segments r
      else match segments r with
           | seg :: rest => String c seg :: rest
           | [] => [String c ""]
           end
  end.

Definition lowerThen (p : ascii -> bool) (s : string) : bool :=
  match s with EmptyString => false | String c r => isLower c && all_chars p r end.

(** [eventTypePattern]: a lowercase name, then one to five dotted segments that
    start with a lowercase letter and may hold digits and hyphens. *)
Definition eventTypePattern (s : string) : bool :=
  match segments s with
  | first :: rest =>
      lowerThen (fun c => isLower c || isDigit c) first
      && (1 <=? length rest)%nat && (length rest <=? 5)%nat
      && forallb (lowerThen (fun c => isLower c || isDigit c || (c == "-"%char))) rest
  | [] => false
  end.

Definition optionally {A} (p : A -> bool) (o : option A) : bool :=
  match o with Some x => p x | None => true end.

(** [ValidateEventDraft(draft) == nil] *)
Definition ValidateEventDraft (draft : EventDraft) : bool :=
  let a := d_Attribution draft in
  negb (96 <? String.length (d_Type draft))%nat && eventTypePattern (d_Type draft)
  && validToken (d_CorrelationID draft) 128
  && validToken (tg_Kind (d_Target draft)) 64 && validToken (tg_ID (d_Target draft)) 128
  && validToken (at_PrincipalID a) 128 && validToken (at_PrincipalMethod a) 64
  && optionally (fun id => 0 <? id) (d_CausationID draft)
  && optionally (fun id => 0 <? id) (d_CorrectionOf draft)
  && optionally (fun id => validToken id 128) (at_ResponsibleHuman a)
  && optionally (fun g => validToken (ag_Name g) 64 && validToken (ag_SessionID g) 128) (at_Agent a)
  && optionally ValidFingerprint (d_Before draft) && optionally ValidFingerprint (d_After draft).

Definition ValidateIntentKey (key : IntentKey) : bool :=
  validToken (ik_Scope key) 96 && ValidFingerprint (ik_KeyDigest key)
  && ValidFingerprint (ik_RequestDigest key).

Fixpoint distinctDestinations (seen : list string) (rs : list OutboxRequirement) : bool :=
  match rs with
  | [] => true
  | r :: rest =>
      validToken (ob_Destination r) 96 && negb (bool_decide (ob_Destination r ∈ seen))
      && distinctDestinations (ob_Destination r :: seen) rest
  end.

Definition ValidateOutboxRequirements (requirements : list OutboxRequirement) : bool :=
  negb (32 <? length requirements)%nat && distinctDestinations [] requirements.

(** The doubling loop of [RetryDelay]; [n] counts the iterations the loop
    condition [current < attempt] still allows. *)
Fixpoint retryLoop (n : nat) (delay : Z) : Z :=
  match n with
  | O => delay
  | S n' =>
      if delay <? MaxRetryDelay then
        let doubled := int64 (delay * 2) in
        retryLoop n' (if MaxRetryDelay <? doubled then MaxRetryDelay else doubled)
      else delay
  end.

Definition RetryDelay (attempt : Z) : Z :=
  if attempt <=? 0 then 0 else retryLoop (Z.to_nat (attempt - 1)) InitialRetryDelay.

(** ** Canonical events (canonical.go) *)

Definition targetJSON (target : Target) : string :=
  jsonObject [("kind", jsonString (tg_Kind target)); ("id", jsonString (tg_ID target))].

(** [json.Marshal(event)] *)
Definition eventJSON (event : Event) : string :=
  jsonObject
    [("schema", jsonString (e_Schema event)); ("schemaVersion", jsonString (e_SchemaVersion event));
     ("eventId", jsonInt (e_EventID event)); ("occurredAt", jsonString (e_OccurredAt event));
     ("recoveryEpoch", jsonInt (e_RecoveryEpoch event));
     ("stateRevision", jsonInt (e_StateRevision event)); ("type", jsonString (e_Type event));
     ("correlationId", jsonString (e_CorrelationID event));
     ("causationEventId", jsonOption jsonInt (e_CausationID event));
     ("correctionOfEventId", jsonOption jsonInt (e_CorrectionOf event));
     ("principalId", jsonString (e_PrincipalID event));
     ("principalMethod", jsonString (e_PrincipalMethod event));
     ("responsibleHumanPrincipalId", jsonOption jsonString (e_HumanID event));
     ("agentName", jsonOption jsonString (e_AgentName event));
     ("agentSessionId", jsonOption jsonString (e_AgentSessionID event));
     ("agentSource", jsonOption jsonString (e_AgentSource event));
     ("target", targetJSON (e_Target event));
     ("beforeFingerprint", jsonOption jsonString (e_Before event));
     ("afterFingerprint", jsonOption jsonString (e_After event))].

(** The agent fields are all absent, or present and self-reported. *)
Definition agentOfEvent (event : Event) : option (option AgentMetadata) :=
  match e_AgentSource event with
  | None => match e_AgentName event, e_AgentSessionID event with
            | None, None => Some None
            | _, _ => None
            end
  | Some source =>
      match e_AgentName event, e_AgentSessionID event with
      | Some name, Some session => if source == "self-reported" then Some (Some (mkAgent name session)) else None
      | _, _ => None
      end
  end.

Definition draftOfEvent (event : Event) (agent : option AgentMetadata) : EventDraft :=
  mkEventDraft (e_Type event) (e_CorrelationID event) (e_CausationID event) (e_CorrectionOf event)
    (mkAttribution (e_PrincipalID event) (e_PrincipalMethod event) (e_HumanID event) agent)
    (e_Target event) (e_Before event) (e_After event).

Section Digests.
Context `{Hasher}.

Definition CanonicalEvent (event : Event) : result (string * string) :=
  require ((e_Schema event == EventSchema) && (e_SchemaVersion event == EventSchemaVersion)
           && (0 <? e_EventID event) && negb (e_RecoveryEpoch event <? 0)
           && negb (e_StateRevision event <? 0)) errInvalid;;
  when ← of_option errInvalid (parseRFC3339 (e_OccurredAt event));
  require (isUTC when && (FormatRFC3339Nano when == e_OccurredAt event)) errInvalid;;
  agent ← of_option errInvalid (agentOfEvent event);
  require (ValidateEventDraft (draftOfEvent event agent)) errInvalid;;
  let payload := eventJSON event in
  Ok (payload, hashString payload).

Definition EventFromDraft (draft : EventDraft) (id : Z) (occurredAt : Time)
    (recoveryEpoch stateRevision : Z) : result Event :=
  require (ValidateEventDraft draft && (0 <? id) && negb (recoveryEpoch <? 0)
           && negb (stateRevision <? 0) && isUTC occurredAt) errInvalid;;
  let a := d_Attribution draft in
  Ok {|
    e_Schema := EventSchema; e_SchemaVersion := EventSchemaVersion; e_EventID := id;
    e_OccurredAt := FormatRFC3339Nano occurredAt; e_RecoveryEpoch := recoveryEpoch;
    e_StateRevision := stateRevision; e_Type := d_Type draft; e_CorrelationID := d_CorrelationID draft;
    e_CausationID := d_CausationID draft; e_CorrectionOf := d_CorrectionOf draft;
    e_PrincipalID := at_PrincipalID a; e_PrincipalMethod := at_PrincipalMethod a;
    e_HumanID := at_ResponsibleHuman a;
    e_AgentName := ag_Name <$> at_Agent a; e_AgentSessionID := ag_SessionID <$> at_Agent a;
    e_AgentSource := (fun _ => "self-reported") <$> at_Agent a;
    e_Target := d_Target draft; e_Before := d_Before draft; e_After := d_After draft |}.

(** ** The chain (chain.go) *)

Definition chainLinkDomain := "vegastack-labs.dev/audit-chain-link/v1".
Definition contextDomain := "vegastack-labs.dev/audit-chain-context/v1".
Definition genesisDomain := "vegastack-labs.dev/audit-chain-genesis/v1".

Definition hashChainBytes (data : string) : string := hashString data.

Definition contextJSON (ids : ContextIDs) : string :=
  jsonObject
    [("domain", jsonString contextDomain); ("runId", jsonString (cx_RunID ids));
     ("planId", jsonString (cx_PlanID ids)); ("providerNativeId", jsonString (cx_ProviderNativeID ids))].

Definition CanonicalContext (ids : ContextIDs) : result (string * string) :=
  require (forallb (fun value => (value == "") || validToken value 128)
             [cx_RunID ids; cx_PlanID ids; cx_ProviderNativeID ids]) errInvalid;;
  let data := contextJSON ids in
  Ok (data, hashChainBytes data).

(** The fields of a link that its digest binds, in encoding order. *)
Definition linkJSON (link : ChainLink) : string :=
  jsonObject
    [("domain", jsonString chainLinkDomain); ("instanceId", jsonString (k_InstanceID link));
     ("recoveryEpoch", jsonInt (k_RecoveryEpoch link)); ("eventId", jsonInt (k_EventID link));
     ("segmentSequence", jsonInt (k_SegmentSequence link));
     ("previousDigest", jsonString (k_PreviousDigest link));
     ("payloadDigest", jsonString (k_PayloadDigest link));
     ("contextDigest", jsonString (k_ContextDigest link)); ("preAnchor", jsonBool (k_PreAnchor link))].

Definition MakeChainLink (event : Event) (ids : ContextIDs) (instanceID : string) (segmentSequence : Z)
    (previous : string) (preAnchor : bool) : result ChainLink :=
  require (validToken instanceID 128 && (0 <? segmentSequence) && ValidFingerprint previous) errInvalid;;
  payload ← CanonicalEvent event;
  context ← CanonicalContext ids;
  let link := {|
    k_InstanceID := instanceID; k_RecoveryEpoch := e_RecoveryEpoch event; k_EventID := e_EventID event;
    k_SegmentSequence := segmentSequence; k_PreviousDigest := previous; k_PayloadDigest := payload.2;
    k_ContextDigest := context.2; k_Context := ids; k_LinkDigest := ""; k_PreAnchor := preAnchor;
    k_PriorCheckpoint := ""; k_RecoveryDecision := "" |} in
  Ok (withLinkDigest (hashChainBytes (linkJSON link)) link).

Fixpoint rangeOrdered (prior : option Z) (links : list ChainLink) : bool :=
  match links with
  | [] => true
  | link :: rest =>
      ValidFingerprint (k_LinkDigest link) && (0 <? k_EventID link)
      && match prior with Some p => p <? k_EventID link | None => true end
      && rangeOrdered (Some (k_EventID link)) rest
  end.

Definition DigestChainRange (links : list ChainLink) : result string :=
  match links with
  | [] => Err errInvalid
  | first :: _ =>
      require (rangeOrdered None links) errInvalid;;
      Ok (hashChainBytes (jsonObject
        [("domain", jsonString "vegastack-labs.dev/audit-chain-range/v1");
         ("firstEventId", jsonInt (k_EventID first));
         ("lastEventId", jsonInt (k_EventID (List.last links first)));
         ("linkDigests", jsonArray (map (fun link => jsonString (k_LinkDigest link)) links))]))
  end.

(** Invalid bindings yield the zero link. *)
Definition GenesisLink (instanceID : string) (epoch : Z) (priorCheckpoint recoveryDecision : string) : ChainLink :=
  if validToken instanceID 128 && negb (epoch <? 0) && ValidFingerprint priorCheckpoint
     && ValidFingerprint recoveryDecision
  then
    {| k_InstanceID := instanceID; k_RecoveryEpoch := epoch; k_EventID := 0; k_SegmentSequence := 0;
       k_PreviousDigest := ""; k_PayloadDigest := ""; k_ContextDigest := "";
       k_Context := mkContextIDs "" "" ""; k_PreAnchor := false;
       k_PriorCheckpoint := priorCheckpoint; k_RecoveryDecision := recoveryDecision;
       k_LinkDigest := hashChainBytes (jsonObject
         [("domain", jsonString genesisDomain); ("instanceId", jsonString instanceID);
          ("recoveryEpoch", jsonInt epoch); ("priorCheckpoint", jsonString priorCheckpoint);
          ("recoveryDecision", jsonString recoveryDecision)]) |}
  else zeroLink.

(** ** Checkpoints (checkpoint.go) *)

Definition checkpointDomain := "vegastack-labs.dev/audit-checkpoint-signing/v1".

Definition CheckpointBindingDigest (firstEventID lastEventID firstSequence lastSequence : Z)
    (chainDigest instanceID : string) (epoch : Z) (signer : Reference)
    (materialVersion namespace : string) : result string :=
  require ((0 <? firstEventID) && negb (lastEventID <? firstEventID) && (0 <? firstSequence)
           && negb (lastSequence <? firstSequence) && ValidFingerprint chainDigest
           && validToken instanceID 128 && negb (epoch <? 0) && validToken (cr_ID signer) 128
           && validToken (cr_Consumer signer) 128 && validToken materialVersion 128
           && validToken namespace 128) errInvalid;;
  Ok (hashChainBytes (jsonObject
    [("domain", jsonString checkpointDomain); ("instanceId", jsonString instanceID);
     ("recoveryEpoch", jsonInt epoch); ("firstEventId", jsonInt firstEventID);
     ("lastEventId", jsonInt lastEventID); ("firstSegmentSequence", jsonInt firstSequence);
     ("lastSegmentSequence", jsonInt lastSequence); ("chainDigest", jsonString chainDigest);
     ("signerReferenceId", jsonString (cr_ID signer)); ("signerConsumerId", jsonString (cr_Consumer signer));
     ("signerMaterialVersion", jsonString materialVersion); ("exportNamespace", jsonString namespace)])).

Definition CheckpointDigest (chain : ChainRange) (instanceID : string) (epoch : Z) (signer : Reference)
    (materialVersion namespace : string) : result string :=
  match cn_Links chain with
  | [] => Err errInvalid
  | first :: _ =>
      require ((0 <? cn_FirstEventID chain) && negb (cn_LastEventID chain <? cn_FirstEventID chain)
               && ValidFingerprint (cn_RangeDigest chain) && validToken instanceID 128 && negb (epoch <? 0)
               && validToken (cr_ID signer) 128 && validToken (cr_Consumer signer) 128
               && validToken materialVersion 128 && validToken namespace 128) errInvalid;;
      CheckpointBindingDigest (cn_FirstEventID chain) (cn_LastEventID chain) (k_SegmentSequence first)
        (k_SegmentSequence (List.last (cn_Links chain) first)) (cn_RangeDigest chain) instanceID epoch
        signer materialVersion namespace
  end.

Definition SignatureDigest (signature : string) : string := hashChainBytes signature.

(** ** Verification (verify.go) *)

(** The checks of one link against its event and its predecessor; [Some reason]
    is an incident. *)
Definition verifyLink (prior : option ChainLink) (link : ChainLink) (event : Event) : option string :=
  if negb ((k_EventID link == e_EventID event) && (k_RecoveryEpoch link == e_RecoveryEpoch event)
           && (0 <? k_EventID link) && ValidFingerprint (k_PreviousDigest link)
           && ValidFingerprint (k_LinkDigest link))
  then Some "audit-history-binding"
  else match match prior with
             | None => None
             | Some prior =>
                 if k_EventID link != int64 (k_EventID prior + 1) then Some "audit-history-gap"
                 else if k_RecoveryEpoch link == k_RecoveryEpoch prior then
                   if (k_InstanceID link != k_InstanceID prior)
                      || (k_SegmentSequence link != int64 (k_SegmentSequence prior + 1))
                      || (k_PreviousDigest link != k_LinkDigest prior)
                   then Some "audit-history-fork" else None
                 else if (k_RecoveryEpoch link != int64 (k_RecoveryEpoch prior + 1))
                         || (k_SegmentSequence link != 1)
                 then Some "audit-history-epoch" else None
             end with
       | Some reason => Some reason
       | None =>
           if negb match CanonicalEvent event with
                   | Ok (_, payloadDigest) => payloadDigest == k_PayloadDigest link
                   | Err _ => false
                   end
           then Some "audit-history-payload"
           else if negb match CanonicalContext (k_Context link) with
                        | Ok (_, contextDigest) => contextDigest == k_ContextDigest link
                        | Err _ => false
                        end
           then Some "audit-history-context"
           else if negb match MakeChainLink event (k_Context link) (k_InstanceID link)
                                (k_SegmentSequence link) (k_PreviousDigest link) (k_PreAnchor link) with
                        | Ok rebuilt => k_LinkDigest rebuilt == k_LinkDigest link
                        | Err _ => false
                        end
           then Some "audit-history-link"
           else None
       end.

Fixpoint verifyLinks (prior : option ChainLink) (links : list ChainLink) (events : list Event) : option string :=
  match links, events with
  | link :: links', event :: events' =>
      match verifyLink prior link event with
      | Some reason => Some reason
      | None => verifyLinks (Some link) links' events'
      end
  | _, _ => None
  end.

Definition incident (reason : string) : LocalResult * option error :=
  ({| lr_Status := "incident"; lr_ReasonCode := reason; lr_InstanceID := ""; lr_RecoveryEpoch := 0;
      lr_LocalDigest := ""; lr_LastSequence := 0; lr_PreAnchor := false; lr_LastAnchored := None;
      lr_AnchoredRange := mkChainRange 0 0 [] ""; lr_Namespace := "" |}, Some (Plain reason)).

(** One iteration over an anchored checkpoint: the new result, or an incident. *)
Definition verifyCheckpoint (links : list ChainLink) (result : LocalResult) (checkpoint : AuditCheckpoint)
    : LocalResult + string :=
  if cp_Status checkpoint != "anchored" then inl result
  else if (cp_FirstEventID checkpoint <=? 0) || (cp_LastEventID checkpoint <? cp_FirstEventID checkpoint)
          || (Z.of_nat (length links) <? cp_LastEventID checkpoint)
          || (cp_SignatureDigest checkpoint == None) || (cp_ExportReceiptDigest checkpoint == None)
          || (cp_IndependentReadDigest checkpoint == None)
  then inr "audit-checkpoint-invalid"
  else
    let start := Z.to_nat (cp_FirstEventID checkpoint - 1) in
    let end_ := Z.to_nat (cp_LastEventID checkpoint) in
    let rangeLinks := take (end_ - start) (drop start links) in
    let digest := DigestChainRange rangeLinks in
    let first := hd zeroLink rangeLinks in
    let last := List.last rangeLinks zeroLink in
    if (digest != Ok (cp_ChainDigest checkpoint))
       || (k_SegmentSequence first != cp_FirstSegmentSequence checkpoint)
       || (k_SegmentSequence last != cp_LastSegmentSequence checkpoint)
       || (k_InstanceID first != cp_InstanceID checkpoint)
       || (k_RecoveryEpoch first != cp_RecoveryEpoch checkpoint)
    then inr "audit-checkpoint-range"
    else
      if match lr_LastAnchored result with
         | None => true
         | Some anchored => cp_LastEventID anchored <? cp_LastEventID checkpoint
         end
      then inl {| lr_Status := "anchored"; lr_ReasonCode := "local-anchor-valid";
                  lr_InstanceID := lr_InstanceID result; lr_RecoveryEpoch := lr_RecoveryEpoch result;
                  lr_LocalDigest := lr_LocalDigest result; lr_LastSequence := lr_LastSequence result;
                  lr_PreAnchor := cp_PreAnchor checkpoint; lr_LastAnchored := Some checkpoint;
                  lr_AnchoredRange := mkChainRange (cp_FirstEventID checkpoint) (cp_LastEventID checkpoint)
                                        rangeLinks (cp_ChainDigest checkpoint);
                  lr_Namespace := lr_Namespace result |}
      else inl result.

Fixpoint verifyCheckpoints (links : list ChainLink) (result : LocalResult) (checkpoints : list AuditCheckpoint)
    : LocalResult + string :=
  match checkpoints with
  | [] => inl result
  | checkpoint :: rest =>
      match verifyCheckpoint links result checkpoint with
      | inr reason => inr reason
      | inl result' => verifyCheckpoints links result' rest
      end
  end.

Definition VerifyLocal (links : list ChainLink) (events : list Event) (checkpoints : list AuditCheckpoint)
    : LocalResult * option error :=
  match links with
  | [] =>
      if (length events =? 0)%nat
      then ({| lr_Status := "degraded"; lr_ReasonCode := "audit-history-empty"; lr_InstanceID := "";
               lr_RecoveryEpoch := 0; lr_LocalDigest := hashChainBytes ""; lr_LastSequence := 0;
               lr_PreAnchor := false; lr_LastAnchored := None;
               lr_AnchoredRange := mkChainRange 0 0 [] ""; lr_Namespace := "" |}, None)
      else incident "audit-history-gap"
  | first :: _ =>
      if negb (length links =? length events)%nat then incident "audit-history-gap"
      else match verifyLinks None links events with
           | Some reason => incident reason
           | None =>
               let last := List.last links first in
               match verifyCheckpoints links
                       {| lr_Status := "degraded"; lr_ReasonCode := "no-independent-anchor";
                          lr_InstanceID := k_InstanceID last; lr_RecoveryEpoch := k_RecoveryEpoch last;
                          lr_LocalDigest := k_LinkDigest last; lr_LastSequence := k_SegmentSequence last;
                          lr_PreAnchor := k_PreAnchor last; lr_LastAnchored := None;
                          lr_AnchoredRange := mkChainRange 0 0 [] ""; lr_Namespace := "" |} checkpoints with
               | inr reason => incident reason
               | inl result => (result, None)
               end
           end
  end.

(** [ed25519.Verify(publicKey, message, signature)], for keys of 32 bytes *)
Variable ed25519Verify : string -> string -> string -> bool.

Definition CompareIndependent (localResult : LocalResult) (remote : IndependentCheckpoint) (key : PublicKey)
    : VerificationResult * option error :=
  let result := {| vr_Status := lr_Status localResult; vr_ReasonCode := lr_ReasonCode localResult;
                   vr_LocalDigest := lr_LocalDigest localResult; vr_IndependentDigest := "";
                   vr_IndependentMatch := false; vr_LastSequence := lr_LastSequence localResult;
                   vr_PreAnchor := lr_PreAnchor localResult |} in
  let outcome status reason :=
    {| vr_Status := status; vr_ReasonCode := reason; vr_LocalDigest := lr_LocalDigest localResult;
       vr_IndependentDigest := ic_IndependentRead remote; vr_IndependentMatch := false;
       vr_LastSequence := lr_LastSequence localResult; vr_PreAnchor := lr_PreAnchor localResult |} in
  let failed reason := (outcome "incident" reason, Some (Plain reason)) in
  match lr_LastAnchored localResult with
  | None => (result, None)
  | Some cp =>
      if cp_LastEventID cp <? ic_LastEventID remote then failed "independent-checkpoint-ahead"
      else if ic_LastEventID remote <? cp_LastEventID cp
      then (outcome "degraded" "independent-checkpoint-stale", None)
      else
        let reference := mkReference (cp_SignerReferenceID cp) "core.audit.signer" in
        if (ic_CheckpointID remote != cp_CheckpointID cp) || (ic_InstanceID remote != cp_InstanceID cp)
           || (ic_RecoveryEpoch remote != cp_RecoveryEpoch cp)
           || (ic_LastSequence remote != cp_LastSegmentSequence cp)
           || (ic_ChainDigest remote != cp_ChainDigest cp) || (ic_SignerReference remote != reference)
           || (ic_MaterialVersion remote != cp_SignerMaterialVersion cp)
           || ((lr_Namespace localResult != "") && (ic_Namespace remote != lr_Namespace localResult))
           || (Some (ic_ExportReceipt remote) != cp_ExportReceiptDigest cp)
           || (Some (ic_IndependentRead remote) != cp_IndependentReadDigest cp)
           || (sg_PublicKeyID (ic_Signature remote) != pk_ID key)
           || (sg_Digest (ic_Signature remote) != SignatureDigest (sg_Bytes (ic_Signature remote)))
        then failed "independent-checkpoint-conflict"
        else
          match CheckpointBindingDigest (cp_FirstEventID cp) (cp_LastEventID cp) (cp_FirstSegmentSequence cp)
                  (cp_LastSegmentSequence cp) (cp_ChainDigest cp) (cp_InstanceID cp) (cp_RecoveryEpoch cp)
                  reference (cp_SignerMaterialVersion cp) (ic_Namespace remote) with
          | Err _ => failed "independent-signature-invalid"
          | Ok signed =>
              if (signed != ic_SignedDigest remote) || negb (String.length (pk_Bytes key) =? 32)%nat
                 || negb (ed25519Verify (pk_Bytes key) signed (sg_Bytes (ic_Signature remote)))
              then failed "independent-signature-invalid"
              else ({| vr_Status := "anchored"; vr_ReasonCode := "independent-match";
                       vr_LocalDigest := lr_LocalDigest localResult;
                       vr_IndependentDigest := ic_IndependentRead remote; vr_IndependentMatch := true;
                       vr_LastSequence := lr_LastSequence localResult;
                       vr_PreAnchor := lr_PreAnchor localResult |}, None)
          end
  end.

End Digests.

(** ** Lemmas on bounded values *)

Lemma retryLoop_spec n delay :
  0 < delay <= MaxRetryDelay -> retryLoop n delay = Z.min (delay * 2 ^ Z.of_nat n) MaxRetryDelay.
Proof.
  revert delay. induction n as [|n IH]; intros delay Hd; cbn [retryLoop].
  - rewrite Z.mul_1_r. lia.
  - assert (0 < 2 ^ Z.of_nat n) by (apply Z.pow_pos_nonneg; lia).
    rewrite Nat2Z.inj_succ, Z.pow_succ_r by lia. unfold MaxRetryDelay, Hour, Second in *.
    case_match eqn:E; bool_hyps; [|nia].
    rewrite int64_id by (unfold in_int64, min_int64, max_int64; lia).
    case_match eqn:E'; bool_hyps; rewrite IH by lia; nia.
Qed.

Lemma tokenChar_safe c : tokenChar c = true -> htmlSafe c = true.
Proof. destruct c as [[][][][][][][][]]; vm_compute; congruence. Qed.

Lemma validToken_safe s n : validToken s n = true -> all_chars htmlSafe s = true.
Proof.
  unfold validToken, tokenPattern. intros H; bool_hyps.
  destruct s as [|c s]; [done|]. bool_hyps. apply (all_chars_impl tokenChar); [apply tokenChar_safe|].
  cbn [all_chars]. apply andb_true_iff; split; [|done]. unfold tokenChar.
  match goal with H : _ || _ = true |- _ => by rewrite H end.
Qed.

Lemma segments_safe (p : ascii -> bool) s :
  (forall c, p c = true -> htmlSafe c = true) ->
  forallb (all_chars p) (segments s) = true -> all_chars htmlSafe s = true.
Proof.
  intros Hp. induction s as [|c s IH]; [done|]. cbn [segments all_chars].
  case_bool_decide as E; [subst c|].
  - cbn. intros H; bool_hyps. by apply IH.
  - assert (segments s <> []) as Hne.
    { destruct s; cbn; [done|]. case_bool_decide; [done|]. by case_match. }
    destruct (segments s) as [|seg rest]; [done|]. cbn. intros H; bool_hyps.
    rewrite Hp by done. cbn. apply IH. cbn. by apply andb_true_iff.
Qed.

Lemma lowerThen_all (p : ascii -> bool) s :
  (forall c, isLower c = true -> p c = true) -> lowerThen p s = true -> all_chars p s = true.
Proof. intros Hp. destruct s; cbn; [done|]. intros H; bool_hyps. by rewrite Hp. Qed.

Lemma eventTypePattern_safe s : eventTypePattern s = true -> all_chars htmlSafe s = true.
Proof.
  unfold eventTypePattern. intros H.
  apply (segments_safe (fun c => isLower c || isDigit c || (c == "-"%char))).
  { intros c. destruct c as [[][][][][][][][]]; vm_compute; congruence. }
  destruct (segments s) as [|seg rest]; [done|]. bool_hyps. cbn [forallb]. apply andb_true_iff; split.
  - eapply all_chars_impl; [|apply lowerThen_all; [|eassumption]].
    + intros c Hc. cbn beta in *. by rewrite Hc.
    + intros c Hc. cbn beta. by rewrite Hc.
  - apply forallb_forall. intros x Hx. apply lowerThen_all; [intros c Hc; cbn beta; by rewrite Hc|].
    eapply forallb_forall in Hx; [exact Hx|done].
Qed.

Lemma sha256Digest_safe s : sha256Digest s = true -> all_chars htmlSafe s = true.
Proof.
  unfold sha256Digest. intros H; bool_hyps.
  assert (forall t, HasPrefix s t = true -> s = t +:+ drop_string (String.length t) s) as Hd.
  { clear. intros t. revert s. induction t as [|c t IH]; intros s; [done|].
    destruct s as [|c' s]; [done|]. cbn. intros H; bool_hyps. subst. rewrite app_string_cons. f_equal. auto. }
  rewrite (Hd "sha256:") by done. rewrite all_chars_app. apply andb_true_iff; split; [done|].
  eapply all_chars_impl; [|eassumption]. intros c. destruct c as [[][][][][][][][]]; vm_compute; congruence.
Qed.

(** Whatever [time.Parse] reads consists of digits, signs and separators. *)
Definition timeSafe (s : string) : Prop := all_chars htmlSafe s = true.

Lemma digit_safe c : isDigit c = true -> htmlSafe c = true.
Proof. destruct c as [[][][][][][][][]]; vm_compute; congruence. Qed.

Lemma getnum2_safe s n r : getnum2 s = Some (n, r) -> timeSafe r -> timeSafe s.
Proof.
  unfold timeSafe. destruct s as [|a [|b s]]; cbn; try done. case_match eqn:E; [|done].
  intros [= <- <-] H; bool_hyps. by rewrite !digit_safe, H.
Qed.

Lemma getHour_safe s n r : getHour s = Some (n, r) -> timeSafe r -> timeSafe s.
Proof.
  unfold getHour. case_match eqn:E; [intros [= ->]; eauto using getnum2_safe|].
  unfold timeSafe. destruct s as [|a s]; [done|]. case_match eqn:E'; [|done].
  intros [= <- <-] H. cbn. by rewrite digit_safe, H.
Qed.

Lemma expect_safe c s r : htmlSafe c = true -> expect c s = Some r -> timeSafe r -> timeSafe s.
Proof.
  unfold timeSafe. intros Hc. destruct s as [|a s]; cbn; [done|]. case_bool_decide as Ea; [|done].
  intros [= <-] Hr. subst. by rewrite Hc, Hr.
Qed.

Lemma spanDigits_safe s : timeSafe (spanDigits s).2 -> timeSafe s.
Proof.
  unfold timeSafe. induction s as [|c s IH]; cbn; [done|]. case_match eqn:E; cbn; [|done].
  destruct (spanDigits s). cbn in *. intros H. by rewrite digit_safe, IH.
Qed.

Lemma getFraction_safe s : timeSafe (getFraction s).2 -> timeSafe s.
Proof.
  unfold getFraction. destruct s as [|p [|c s]]; try done. case_match eqn:E; [|done].
  pose proof (spanDigits_safe (String c s)) as H. destruct (spanDigits (String c s)).
  cbn in H |- *. intros Hs. specialize (H Hs).
  change (htmlSafe p && all_chars htmlSafe (String c s) = true).
  apply andb_true_iff; split; [|exact H]. apply andb_true_iff in E as [Hp _].
  apply orb_true_iff in Hp as [Hp|Hp]; bool_hyps; by subst.
Qed.

Lemma getZone_digits_safe s r n s1 s2 m :
  getnum2 s = Some (n, s1) -> expect ":" s1 = Some s2 -> getnum2 s2 = Some (m, r) ->
  timeSafe r -> timeSafe s.
Proof.
  intros. eapply getnum2_safe; [eassumption|]. eapply expect_safe; [|eassumption|]; [reflexivity|].
  eapply getnum2_safe; eassumption.
Qed.

Lemma getZone_safe s z r : getZone s = Some (z, r) -> timeSafe r -> timeSafe s.
Proof.
  unfold getZone. destruct s as [|c s]; [done|]. intros E Hr.
  cut (htmlSafe c = true /\ timeSafe s); [unfold timeSafe; cbn [all_chars]; by intros [-> ->]|].
  case_bool_decide as Ec; [by simplify_eq|].
  apply bind_Some in E as ([n s1] & E1 & E). apply bind_Some in E as (s2 & E2 & E).
  apply bind_Some in E as ([m s3] & E3 & E). apply bind_Some in E as (_ & _ & E).
  repeat case_bool_decide; simplify_eq; split; (reflexivity || by eapply getZone_digits_safe).
Qed.

Lemma parseRFC3339_safe s t : parseRFC3339 s = Some t -> timeSafe s.
Proof.
  unfold parseRFC3339. intros E.
  repeat (case_match || simplify_option_eq).
  repeat first [eapply getnum2_safe; [eassumption|] | eapply getHour_safe; [eassumption|]
               | eapply expect_safe; [|eassumption|]; [reflexivity|]].
  match goal with H : getFraction _ = (?n, ?r) |- _ =>
    apply getFraction_safe; rewrite H; cbn; eapply getZone_safe; [eassumption|] end.
  naive_solver.
Qed.

Section Properties.
Context `{Hasher}.

Lemma CanonicalEvent_Ok event payload digest :
  CanonicalEvent event = Ok (payload, digest) ->
  payload = eventJSON event /\ digest = hashString payload /\ 0 < e_EventID event
  /\ 0 <= e_RecoveryEpoch event /\ 0 <= e_StateRevision event /\ timeSafe (e_OccurredAt event)
  /\ exists agent, agentOfEvent event = Some agent /\ ValidateEventDraft (draftOfEvent event agent) = true
     /\ e_Schema event = EventSchema /\ e_SchemaVersion event = EventSchemaVersion.
Proof.
  unfold CanonicalEvent. intros E. result_hyps. simplify_eq.
  repeat split; try done; [eauto using parseRFC3339_safe|eauto 10].
Qed.

Lemma agentOfEvent_cases event agent :
  agentOfEvent event = Some agent ->
  (e_AgentSource event = None /\ e_AgentName event = None /\ e_AgentSessionID event = None /\ agent = None)
  \/ exists name session, e_AgentSource event = Some "self-reported" /\ e_AgentName event = Some name
     /\ e_AgentSessionID event = Some session /\ agent = Some (mkAgent name session).
Proof.
  unfold agentOfEvent. repeat case_match; try done; intros E; bool_hyps; simplify_eq; eauto 10.
Qed.

(** The strings of an accepted event need no JSON escaping. *)
Definition eventSafe (event : Event) : bool :=
  let o := fun x => match x with Some s => all_chars htmlSafe s | None => true end in
  all_chars htmlSafe (e_OccurredAt event) && all_chars htmlSafe (e_Type event)
  && all_chars htmlSafe (e_CorrelationID event) && all_chars htmlSafe (e_PrincipalID event)
  && all_chars htmlSafe (e_PrincipalMethod event) && o (e_HumanID event) && o (e_AgentName event)
  && o (e_AgentSessionID event) && o (e_AgentSource event)
  && all_chars htmlSafe (tg_Kind (e_Target event)) && all_chars htmlSafe (tg_ID (e_Target event))
  && o (e_Before event) && o (e_After event)
  && all_chars htmlSafe (e_Schema event) && all_chars htmlSafe (e_SchemaVersion event).

Lemma optionally_safe (p : string -> bool) o :
  (forall s, p s = true -> all_chars htmlSafe s = true) -> optionally p o = true ->
  match o with Some s => all_chars htmlSafe s | None => true end = true.
Proof. destruct o; cbn; auto. Qed.

Lemma CanonicalEvent_safe event payload :
  CanonicalEvent event = Ok payload -> eventSafe event = true.
Proof.
  destruct payload as [p d]. intros E. apply CanonicalEvent_Ok in E as (_ & _ & _ & _ & _ & Ht & agent & Ha & Hd & Es & Ev).
  unfold ValidateEventDraft, draftOfEvent in Hd.
  cbn [d_Type d_CorrelationID d_CausationID d_CorrectionOf d_Attribution d_Target d_Before d_After
       at_PrincipalID at_PrincipalMethod at_ResponsibleHuman at_Agent] in Hd.
  unfold eventSafe. cbv zeta. rewrite Es, Ev.
  apply agentOfEvent_cases in Ha as [(-> & -> & -> & ->)|(n & ses & -> & -> & -> & ->)];
    cbn [optionally] in Hd; cbn beta in Hd; bool_hyps; repeat (apply andb_true_iff; split);
    first [reflexivity | assumption | eapply validToken_safe; eassumption | by apply eventTypePattern_safe
          | apply (optionally_safe ValidFingerprint); [exact sha256Digest_safe|assumption]
          | apply (optionally_safe (fun id => validToken id 128)); [|assumption];
            intros ? ?; eapply validToken_safe; eassumption].
Qed.

#[local] Instance targetJSON_delimited :
  Delimited targetJSON (fun t => all_chars htmlSafe (tg_Kind t) && all_chars htmlSafe (tg_ID t)).
Proof.
  intros [k i] [k' i'] c c' t t' _ _ Ht Ht' E. unfold targetJSON in E. cbn [tg_Kind tg_ID] in *. bool_hyps.
  by apply jsonObject_string2_inj in E as (-> & -> & ?).
Qed.

Lemma eventJSON_inj event event' :
  eventSafe event = true -> eventSafe event' = true -> eventJSON event = eventJSON event' -> event = event'.
Proof.
  unfold eventSafe, eventJSON, jsonObject. intros S S' E. cbv zeta in S, S'. apply String_inv in E.
  repeat match goal with
  | H : _ && _ = true |- _ => apply andb_true_iff in H as [? ?]
  end.
  destruct event, event'. cbn [e_Schema e_SchemaVersion e_EventID e_OccurredAt e_RecoveryEpoch e_StateRevision
    e_Type e_CorrelationID e_CausationID e_CorrectionOf e_PrincipalID e_PrincipalMethod e_HumanID e_AgentName
    e_AgentSessionID e_AgentSource e_Target e_Before e_After] in *.
  json_fields E. reflexivity.
Qed.


Lemma ValidEventDraft_of_draft draft agent id when epoch revision :
  at_Agent (d_Attribution draft) = agent ->
  draftOfEvent (mkEvent EventSchema EventSchemaVersion id when epoch revision (d_Type draft)
    (d_CorrelationID draft) (d_CausationID draft) (d_CorrectionOf draft)
    (at_PrincipalID (d_Attribution draft)) (at_PrincipalMethod (d_Attribution draft))
    (at_ResponsibleHuman (d_Attribution draft)) (ag_Name <$> agent) (ag_SessionID <$> agent)
    ((fun _ => "self-reported") <$> agent) (d_Target draft) (d_Before draft) (d_After draft)) agent = draft.
Proof. intros <-. by destruct draft as [? ? ? ? [] ? ? ?]. Qed.

(** What [EventFromDraft] builds is a canonical event that carries the draft. *)
Lemma EventFromDraft_canonical draft id t epoch revision event :
  EventFromDraft draft id t epoch revision = Ok event -> fourDigitYear t = true ->
  CanonicalEvent event = Ok (eventJSON event, hashString (eventJSON event))
  /\ draftOfEvent event (at_Agent (d_Attribution draft)) = draft
  /\ e_EventID event = id /\ e_RecoveryEpoch event = epoch /\ e_StateRevision event = revision
  /\ parseRFC3339 (e_OccurredAt event) = Some t.
Proof.
  unfold EventFromDraft, isUTC. intros E Ht. result_hyps. simplify_eq.
  pose proof (ValidEventDraft_of_draft draft _ id (FormatRFC3339Nano t) epoch revision eq_refl) as Hd.
  assert (Hp : parseRFC3339 (FormatRFC3339Nano t) = Some t) by (by apply (parse_formatWith true)).
  split; [|by repeat split].
  unfold CanonicalEvent. cbn [e_Schema e_SchemaVersion e_EventID e_OccurredAt e_RecoveryEpoch e_StateRevision].
  rewrite !bool_decide_eq_true_2 by done.
  replace (0 <? id) with true by (symmetry; by apply Z.ltb_lt).
  replace (epoch <? 0) with false by (symmetry; by apply Z.ltb_ge).
  replace (revision <? 0) with false by (symmetry; by apply Z.ltb_ge).
  cbn [require andb negb mbind result_bind]. rewrite Hp. cbn [of_option mbind result_bind].
  unfold isUTC. rewrite !bool_decide_eq_true_2 by done. cbn [require andb mbind result_bind].
  assert (agentOfEvent (mkEvent EventSchema EventSchemaVersion id (FormatRFC3339Nano t) epoch revision
    (d_Type draft) (d_CorrelationID draft) (d_CausationID draft) (d_CorrectionOf draft)
    (at_PrincipalID (d_Attribution draft)) (at_PrincipalMethod (d_Attribution draft))
    (at_ResponsibleHuman (d_Attribution draft)) (ag_Name <$> at_Agent (d_Attribution draft))
    (ag_SessionID <$> at_Agent (d_Attribution draft))
    ((fun _ => "self-reported") <$> at_Agent (d_Attribution draft)) (d_Target draft) (d_Before draft)
    (d_After draft)) = Some (at_Agent (d_Attribution draft))) as ->.
  { unfold agentOfEvent; cbn. by destruct (at_Agent (d_Attribution draft)) as [[]|]. }
  cbn [of_option mbind result_bind]. rewrite Hd. by replace (ValidateEventDraft draft) with true.
Qed.

(** ** What the digests bind *)

(** Two different byte strings of the two lists with one digest. *)
Definition collides (xs ys : list string) : Prop :=
  exists x y, x ∈ xs /\ y ∈ ys /\ x <> y /\ hashString x = hashString y.

Lemma hash_binds x y xs ys : x ∈ xs -> y ∈ ys -> hashString x = hashString y -> x = y \/ collides xs ys.
Proof. intros. destruct (decide (x = y)); [by left|right]. by exists x, y. Qed.

Lemma collides_mono xs ys xs' ys' : xs ⊆ xs' -> ys ⊆ ys' -> collides xs ys -> collides xs' ys'.
Proof. intros Hx Hy (x & y & ? & ? & ? & ?). exists x, y. repeat split; auto. Qed.

(** The bytes hashed for one link: its event, its context and itself. *)
Definition preimages (link : ChainLink) (event : Event) : list string :=
  [eventJSON event; contextJSON (k_Context link); linkJSON link].

(** The link without the two fields only a genesis link uses. *)
Definition bound (l : ChainLink) : ChainLink :=
  mkChainLink (k_InstanceID l) (k_RecoveryEpoch l) (k_EventID l) (k_SegmentSequence l)
    (k_PreviousDigest l) (k_PayloadDigest l) (k_ContextDigest l) (k_Context l) (k_LinkDigest l)
    (k_PreAnchor l) "" "".

(** A link that describes its event. *)
Record describes (link : ChainLink) (event : Event) : Prop := {
  desc_id : k_EventID link = e_EventID event;
  desc_epoch : k_RecoveryEpoch link = e_RecoveryEpoch event;
  desc_instance : validToken (k_InstanceID link) 128 = true;
  desc_sequence : 0 < k_SegmentSequence link;
  desc_previous : ValidFingerprint (k_PreviousDigest link) = true;
  desc_event : CanonicalEvent event = Ok (eventJSON event, k_PayloadDigest link);
  desc_context : CanonicalContext (k_Context link) = Ok (contextJSON (k_Context link), k_ContextDigest link);
  desc_digest : k_LinkDigest link = hashString (linkJSON link)
}.

(** The successor relation inside a segment and across a recovery epoch. *)
Definition follows (prior link : ChainLink) : Prop :=
  k_EventID link = int64 (k_EventID prior + 1) /\
  (k_RecoveryEpoch link = k_RecoveryEpoch prior /\ k_InstanceID link = k_InstanceID prior
   /\ k_SegmentSequence link = int64 (k_SegmentSequence prior + 1)
   /\ k_PreviousDigest link = k_LinkDigest prior
   \/ k_RecoveryEpoch link <> k_RecoveryEpoch prior
      /\ k_RecoveryEpoch link = int64 (k_RecoveryEpoch prior + 1) /\ k_SegmentSequence link = 1).

Inductive history : option ChainLink -> list ChainLink -> list Event -> Prop :=
| history_nil prior : history prior [] []
| history_cons prior link links event events :
    match prior with Some p => follows p link | None => True end ->
    describes link event -> history (Some link) links events ->
    history prior (link :: links) (event :: events).

Lemma CanonicalContext_Ok ids data digest :
  CanonicalContext ids = Ok (data, digest) ->
  data = contextJSON ids /\ digest = hashString data
  /\ all_chars htmlSafe (cx_RunID ids) = true /\ all_chars htmlSafe (cx_PlanID ids) = true
  /\ all_chars htmlSafe (cx_ProviderNativeID ids) = true.
Proof.
  unfold CanonicalContext. intros E. result_hyps. simplify_eq. cbn [forallb] in *.
  assert (forall v, (v == "") || validToken v 128 = true -> all_chars htmlSafe v = true) as Hv.
  { intros v Hv. apply orb_true_iff in Hv as [Hv|Hv]; bool_hyps; [by subst|eauto using validToken_safe]. }
  bool_hyps. repeat split; auto.
Qed.

Lemma contextJSON_inj ids ids' :
  all_chars htmlSafe (cx_RunID ids) = true -> all_chars htmlSafe (cx_PlanID ids) = true ->
  all_chars htmlSafe (cx_ProviderNativeID ids) = true ->
  all_chars htmlSafe (cx_RunID ids') = true -> all_chars htmlSafe (cx_PlanID ids') = true ->
  all_chars htmlSafe (cx_ProviderNativeID ids') = true ->
  contextJSON ids = contextJSON ids' -> ids = ids'.
Proof.
  destruct ids, ids'; cbn [cx_RunID cx_PlanID cx_ProviderNativeID]. intros ?????? E.
  apply String_inv in E. cbn [cx_RunID cx_PlanID cx_ProviderNativeID] in E. json_fields E. reflexivity.
Qed.

(** The fields [linkJSON] writes. *)
Definition core (l : ChainLink) :=
  (k_InstanceID l, k_RecoveryEpoch l, k_EventID l, k_SegmentSequence l, k_PreviousDigest l,
   k_PayloadDigest l, k_ContextDigest l, k_PreAnchor l).

Definition linkSafe (l : ChainLink) : bool :=
  all_chars htmlSafe (k_InstanceID l) && all_chars htmlSafe (k_PreviousDigest l)
  && all_chars htmlSafe (k_PayloadDigest l) && all_chars htmlSafe (k_ContextDigest l).

Lemma linkJSON_inj l l' :
  linkSafe l = true -> linkSafe l' = true -> linkJSON l = linkJSON l' -> core l = core l'.
Proof.
  destruct l, l'. unfold core, linkSafe. cbn [k_InstanceID k_RecoveryEpoch k_EventID k_SegmentSequence
    k_PreviousDigest k_PayloadDigest k_ContextDigest k_PreAnchor]. intros ?? E. bool_hyps.
  apply String_inv in E. cbn [k_InstanceID k_RecoveryEpoch k_EventID k_SegmentSequence k_PreviousDigest
    k_PayloadDigest k_ContextDigest k_PreAnchor] in E. json_fields E. reflexivity.
Qed.

Lemma describes_safe link event : describes link event -> linkSafe link = true.
Proof.
  intros D. unfold linkSafe.
  pose proof (CanonicalEvent_Ok _ _ _ (desc_event _ _ D)) as (_ & He & _).
  pose proof (CanonicalContext_Ok _ _ _ (desc_context _ _ D)) as (_ & Hc & _).
  rewrite (validToken_safe _ _ (desc_instance _ _ D)), (sha256Digest_safe _ (desc_previous _ _ D)), He, Hc.
  by rewrite !(sha256Digest_safe (hashString _)) by apply hashString_digest.
Qed.

(** Two links with one digest describe one event, or the hashed bytes collide. *)
Lemma describes_binding l e l' e' :
  describes l e -> describes l' e' -> k_LinkDigest l = k_LinkDigest l' ->
  (e = e' /\ bound l = bound l') \/ collides (preimages l e) (preimages l' e').
Proof.
  intros D D' E.
  pose proof (describes_safe _ _ D) as S. pose proof (describes_safe _ _ D') as S'.
  pose proof (CanonicalEvent_Ok _ _ _ (desc_event _ _ D)) as (_ & He & _).
  pose proof (CanonicalEvent_Ok _ _ _ (desc_event _ _ D')) as (_ & He' & _).
  pose proof (CanonicalContext_Ok _ _ _ (desc_context _ _ D)) as (_ & Hc & ? & ? & ?).
  pose proof (CanonicalContext_Ok _ _ _ (desc_context _ _ D')) as (_ & Hc' & ? & ? & ?).
  destruct (hash_binds (linkJSON l) (linkJSON l') (preimages l e) (preimages l' e')) as [Ej|Hx];
    [set_solver| set_solver | by rewrite <- (desc_digest _ _ D), <- (desc_digest _ _ D') | | by right].
  apply linkJSON_inj in Ej; [|done..]. unfold core in Ej.
  injection Ej as E1 E2 E3 E4 E5 E6 E7 E8.
  destruct (hash_binds (eventJSON e) (eventJSON e') (preimages l e) (preimages l' e')) as [Ee|Hx];
    [set_solver | set_solver | congruence | | by right].
  destruct (hash_binds (contextJSON (k_Context l)) (contextJSON (k_Context l')) (preimages l e) (preimages l' e'))
    as [Ec|Hx]; [set_solver | set_solver | congruence | | by right].
  left. split.
  - apply eventJSON_inj; [by eapply CanonicalEvent_safe, desc_event..|done].
  - apply contextJSON_inj in Ec; [|done..]. unfold bound. congruence.
Qed.

(** ** The verifier accepts exactly the described chains *)

Lemma MakeChainLink_Ok event ids instance sequence previous preAnchor link :
  MakeChainLink event ids instance sequence previous preAnchor = Ok link ->
  describes link event /\ k_InstanceID link = instance /\ k_Context link = ids
  /\ k_SegmentSequence link = sequence /\ k_PreviousDigest link = previous /\ k_PreAnchor link = preAnchor
  /\ k_RecoveryEpoch link = e_RecoveryEpoch event /\ k_EventID link = e_EventID event.
Proof.
  unfold MakeChainLink. intros E. result_hyps.
  destruct (CanonicalEvent event) as [[p d]|] eqn:Ee; [|done].
  destruct (CanonicalContext ids) as [[p' d']|] eqn:Ec; [|done]. simplify_eq.
  pose proof (CanonicalEvent_Ok _ _ _ Ee) as (-> & _).
  pose proof (CanonicalContext_Ok _ _ _ Ec) as (-> & _).
  repeat split; done.
Qed.

Lemma MakeChainLink_of_describes link event :
  describes link event ->
  MakeChainLink event (k_Context link) (k_InstanceID link) (k_SegmentSequence link)
    (k_PreviousDigest link) (k_PreAnchor link) =
  Ok (mkChainLink (k_InstanceID link) (k_RecoveryEpoch link) (k_EventID link) (k_SegmentSequence link)
        (k_PreviousDigest link) (k_PayloadDigest link) (k_ContextDigest link) (k_Context link)
        (k_LinkDigest link) (k_PreAnchor link) "" "").
Proof.
  intros [Hid Hep Hi Hs Hp He Hc Hd]. unfold MakeChainLink.
  rewrite Hi, Hp, (proj2 (Z.ltb_lt _ _) Hs), He, Hc.
  cbn [require andb mbind result_bind snd]. unfold withLinkDigest, hashChainBytes.
  cbn [k_InstanceID k_RecoveryEpoch k_EventID k_SegmentSequence k_PreviousDigest k_PayloadDigest
       k_ContextDigest k_Context k_PreAnchor k_PriorCheckpoint k_RecoveryDecision].
  rewrite Hd, <- Hid, <- Hep. reflexivity.
Qed.

Definition linksTo (prior : option ChainLink) (link : ChainLink) : Prop :=
  match prior with Some p => follows p link | None => True end.

Lemma verifyLink_describes prior link event :
  verifyLink prior link event = None -> describes link event.
Proof.
  unfold verifyLink. intros E.
  case_match eqn:E1; [done|]. case_match; [done|].
  case_match eqn:E2; [done|]. case_match eqn:E3; [done|]. case_match eqn:E4; [done|]. bool_hyps.
  destruct (CanonicalEvent event) as [[p d]|] eqn:Ee; [|done].
  destruct (CanonicalContext (k_Context link)) as [[p' d']|] eqn:Ec; [|done].
  destruct (MakeChainLink _ _ _ _ _ _) as [rebuilt|] eqn:Em; [|done]. bool_hyps. subst.
  pose proof (CanonicalEvent_Ok _ _ _ Ee) as (-> & _).
  pose proof (CanonicalContext_Ok _ _ _ Ec) as (-> & _).
  apply MakeChainLink_Ok in Em as ([] & Hi & Hc & Hs & Hp & Ha & Hr & Hid).
  rewrite Hi, Hc, Hs, Hp in *. split; try done; try congruence.
  match goal with H : k_LinkDigest rebuilt = k_LinkDigest link |- _ => rewrite <- H end.
  rewrite desc_digest0. f_equal. unfold linkJSON.
  rewrite Ee in desc_event0. rewrite Ec in desc_context0. simplify_eq. congruence.
Qed.

Lemma verifyLink_linksTo prior link event :
  verifyLink prior link event = None -> linksTo prior link.
Proof.
  unfold verifyLink. intros E. case_match eqn:E1; [done|].
  destruct prior as [prior|]; [|done]. cbn [linksTo]. unfold follows.
  case_match eqn:E2; [done|]. clear E.
  case_match eqn:E3; [done|]. bool_hyps. split; [done|].
  case_match eqn:E4; bool_hyps.
  - left. case_match eqn:E5; [done|]. bool_hyps. by repeat split.
  - right. case_match eqn:E5; [done|]. bool_hyps. by repeat split.
Qed.

Lemma verifyLink_complete prior link event :
  linksTo prior link -> describes link event -> verifyLink prior link event = None.
Proof.
  intros L D. unfold verifyLink.
  pose proof (CanonicalEvent_Ok _ _ _ (desc_event _ _ D)) as (_ & _ & Hpos & _).
  pose proof (MakeChainLink_of_describes _ _ D) as Em.
  rewrite Em, (desc_event _ _ D), (desc_context _ _ D). cbn [k_LinkDigest].
  assert ((k_EventID link == e_EventID event) && (k_RecoveryEpoch link == e_RecoveryEpoch event)
    && (0 <? k_EventID link) && ValidFingerprint (k_PreviousDigest link)
    && ValidFingerprint (k_LinkDigest link) = true) as ->.
  { rewrite (desc_previous _ _ D), (bool_decide_eq_true_2 _ (desc_id _ _ D)),
      (bool_decide_eq_true_2 _ (desc_epoch _ _ D)), (desc_id _ _ D), (proj2 (Z.ltb_lt _ _) Hpos), (desc_digest _ _ D).
    apply hashString_digest. }
  cbn [negb]. rewrite !bool_decide_refl. cbn [negb].
  destruct prior as [prior|]; [|done]. destruct L as [Hid [(He & Hi & Hs & Hp)|(Hne & He & Hs)]].
  - rewrite (bool_decide_eq_true_2 _ Hid), (bool_decide_eq_true_2 _ He), (bool_decide_eq_true_2 _ Hi),
      (bool_decide_eq_true_2 _ Hs), (bool_decide_eq_true_2 _ Hp). done.
  - rewrite (bool_decide_eq_true_2 _ Hid), (bool_decide_eq_false_2 _ Hne). cbn [negb].
    rewrite (bool_decide_eq_true_2 _ He), (bool_decide_eq_true_2 _ Hs). done.
Qed.

Lemma verifyLinks_spec prior links events :
  length links = length events ->
  verifyLinks prior links events = None <-> history prior links events.
Proof.
  revert prior events. induction links as [|link links IH]; intros prior [|event events] Hl; try done.
  - split; [constructor|done].
  - cbn [verifyLinks]. cbn in Hl. split.
    + case_match eqn:E; [done|]. intros Hr. constructor.
      * by apply verifyLink_linksTo in E.
      * by apply verifyLink_describes in E.
      * apply IH; [lia|done].
    + inversion 1; subst. rewrite verifyLink_complete by done. apply IH; [lia|done].
Qed.

(** A checkpoint [VerifyLocal] admits: it is not anchored yet, or it commits
    exactly a range of the links. *)
Definition commits (links : list ChainLink) (cp : AuditCheckpoint) : Prop :=
  cp_Status cp = "anchored" ->
  0 < cp_FirstEventID cp <= cp_LastEventID cp /\ cp_LastEventID cp <= Z.of_nat (length links)
  /\ is_Some (cp_SignatureDigest cp) /\ is_Some (cp_ExportReceiptDigest cp)
  /\ is_Some (cp_IndependentReadDigest cp)
  /\ let range := take (Z.to_nat (cp_LastEventID cp) - Z.to_nat (cp_FirstEventID cp - 1))
                    (drop (Z.to_nat (cp_FirstEventID cp - 1)) links) in
     DigestChainRange range = Ok (cp_ChainDigest cp)
     /\ k_SegmentSequence (hd zeroLink range) = cp_FirstSegmentSequence cp
     /\ k_SegmentSequence (List.last range zeroLink) = cp_LastSegmentSequence cp
     /\ k_InstanceID (hd zeroLink range) = cp_InstanceID cp
     /\ k_RecoveryEpoch (hd zeroLink range) = cp_RecoveryEpoch cp.

Lemma verifyCheckpoint_spec links result cp :
  (exists result', verifyCheckpoint links result cp = inl result') <-> commits links cp.
Proof.
  unfold verifyCheckpoint, commits. case_bool_decide as Es; cbn [negb]; [|by split; [|eauto]].
  split.
  - intros [result' E] _. case_match eqn:E1; [done|]. bool_hyps. case_match eqn:E2; [done|]. bool_hyps.
    split; [lia|]. split; [lia|]. split_and!; try done; by apply not_eq_None_Some.
  - intros (Hr & Hl & [a Ha] & [b Hb] & [c Hc] & Hd & H1 & H2 & H3 & H4); [done|].
    rewrite Ha, Hb, Hc, Hd, H1, H2, H3, H4, !bool_decide_refl.
    replace (cp_FirstEventID cp <=? 0) with false by (symmetry; apply Z.leb_gt; lia).
    replace (cp_LastEventID cp <? cp_FirstEventID cp) with false by (symmetry; apply Z.ltb_ge; lia).
    replace (Z.of_nat (length links) <? cp_LastEventID cp) with false by (symmetry; apply Z.ltb_ge; lia).
    cbn. case_match; eauto.
Qed.

(** The latest anchored checkpoint, the first of equals. *)
Definition latestAnchored (best : option AuditCheckpoint) (cps : list AuditCheckpoint) : option AuditCheckpoint :=
  fold_left (fun best cp =>
    if cp_Status cp == "anchored" then
      match best with
      | Some b => if cp_LastEventID b <? cp_LastEventID cp then Some cp else best
      | None => Some cp
      end
    else best) cps best.

Lemma verifyCheckpoints_accepts links result cps :
  (exists result', verifyCheckpoints links result cps = inl result') <-> Forall (commits links) cps.
Proof.
  revert result. induction cps as [|cp cps IH]; intros result; cbn [verifyCheckpoints].
  - split; [constructor|eauto].
  - rewrite Forall_cons, <- (verifyCheckpoint_spec links result cp). split.
    + intros [result' E]. case_match; [|done]. split; [eauto|]. by eapply IH; eauto.
    + intros [[r ->] Hf]. by apply IH.
Qed.

Lemma verifyCheckpoint_result links result cp result' :
  verifyCheckpoint links result cp = inl result' ->
  lr_LastAnchored result' = latestAnchored (lr_LastAnchored result) [cp]
  /\ lr_LocalDigest result' = lr_LocalDigest result /\ lr_LastSequence result' = lr_LastSequence result
  /\ lr_InstanceID result' = lr_InstanceID result /\ lr_RecoveryEpoch result' = lr_RecoveryEpoch result
  /\ lr_Namespace result' = lr_Namespace result.
Proof.
  unfold verifyCheckpoint, latestAnchored. cbn [fold_left].
  case_bool_decide; cbn [negb]; [|naive_solver].
  case_match; [done|]. case_match; [done|].
  destruct (lr_LastAnchored result) as [b|] eqn:?; [case_match|]; intros [= <-]; repeat split; done.
Qed.

Lemma verifyCheckpoints_result links result cps result' :
  verifyCheckpoints links result cps = inl result' ->
  lr_LastAnchored result' = latestAnchored (lr_LastAnchored result) cps
  /\ lr_LocalDigest result' = lr_LocalDigest result /\ lr_LastSequence result' = lr_LastSequence result
  /\ lr_InstanceID result' = lr_InstanceID result /\ lr_RecoveryEpoch result' = lr_RecoveryEpoch result
  /\ lr_Namespace result' = lr_Namespace result.
Proof.
  revert result. induction cps as [|cp cps IH]; intros result; cbn [verifyCheckpoints].
  - intros [= <-]. by repeat split.
  - case_match eqn:E; [|done]. intros E'. apply IH in E' as (E1 & ?).
    apply verifyCheckpoint_result in E as (E2 & ?). split; [|intuition congruence].
    rewrite E1, E2. reflexivity.
Qed.

(** ** Histories and their last digest *)

Lemma history_snoc prior links link events event :
  history prior (links ++ [link]) (events ++ [event]) <->
  history prior links events /\ linksTo (match last links with Some l => Some l | None => prior end) link
  /\ describes link event.
Proof.
  revert prior events. induction links as [|l links IH]; intros prior [|e events]; cbn [app].
  - split.
    + inversion 1; subst. split; [constructor|done].
    + intros (_ & ? & ?). constructor; [done..|constructor].
  - split.
    + inversion 1; subst. match goal with H : history _ [] (_ ++ _) |- _ => inversion H end; destruct events; done.
    + intros [Hh _]. inversion Hh.
  - split.
    + inversion 1; subst. match goal with H : history _ (_ ++ _) [] |- _ => inversion H end; destruct links; done.
    + intros [Hh _]. inversion Hh.
  - assert (match last (l :: links) with Some x => Some x | None => prior end
            = match last links with Some x => Some x | None => Some l end) as ->
      by (by rewrite last_cons; destruct (last links)).
    split.
    + inversion 1; subst. match goal with H : history _ (_ ++ _) _ |- _ => apply IH in H as (? & ? & ?) end.
      split; [by constructor|done].
    + intros (Hh & ? & ?). inversion Hh; subst. constructor; [done..|]. by apply IH.
Qed.

Lemma history_length prior links events : history prior links events -> length links = length events.
Proof. induction 1; cbn; congruence. Qed.

Fixpoint allPreimages (links : list ChainLink) (events : list Event) : list string :=
  match links, events with
  | link :: links', event :: events' => preimages link event ++ allPreimages links' events'
  | _, _ => []
  end.

Lemma allPreimages_snoc links events link event :
  length links = length events ->
  allPreimages (links ++ [link]) (events ++ [event]) = allPreimages links events ++ preimages link event.
Proof.
  revert events. induction links as [|l links IH]; intros [|e events] Hl; try done; cbn in Hl |- *.
  by rewrite IH by lia.
Qed.

Lemma history_last prior links events link :
  history prior links events -> last links = Some link -> exists event, describes link event.
Proof.
  intros Hh. induction Hh as [|prior l links e events Hl Hd Hh IH]; [done|].
  rewrite last_cons. destruct (last links) eqn:El; [by eauto|]. intros [= ->]. eauto.
Qed.

(** Two equal successors in one epoch have predecessors with one digest. *)
Lemma history_predecessor epoch links events links' events' l l' :
  history None links events -> history None links' events' -> length links = length links' ->
  linksTo (match last links with Some p => Some p | None => None end) l ->
  linksTo (match last links' with Some p => Some p | None => None end) l' ->
  bound l = bound l' -> Forall (fun l => k_RecoveryEpoch l = epoch /\ in_int64 (k_SegmentSequence l)) links ->
  Forall (fun l => k_RecoveryEpoch l = epoch /\ in_int64 (k_SegmentSequence l)) [l] ->
  k_LinkDigest <$> last links = k_LinkDigest <$> last links'.
Proof.
  intros H1 H2 Hl L L' Eb Hw Hwl.
  destruct links as [|x links], links' as [|x' links']; try done.
  destruct (last (x :: links)) as [p|] eqn:Ep; [|by rewrite last_None in Ep].
  destruct (last (x' :: links')) as [p'|] eqn:Ep'; [|by rewrite last_None in Ep'].
  apply Forall_singleton in Hwl as [Hel _].
  assert (k_RecoveryEpoch p = epoch /\ in_int64 (k_SegmentSequence p)) as [Hep Hpr].
  { apply last_Some_elem_of in Ep. by eapply (proj1 (Forall_forall _ _)) in Hw. }
  destruct (history_last _ _ _ _ H1 Ep) as [e De]. pose proof (desc_sequence _ _ De) as Hpos.
  unfold bound in Eb. injection Eb as E1 E2 E3 E4 E5 _ _ _ _ _.
  cbn [linksTo] in L, L'. unfold follows in L, L'. cbn. f_equal.
  destruct L as [_ [(_ & _ & Hs & Hd)|(Hne & _)]]; [|congruence].
  destruct L' as [_ [(_ & _ & _ & Hd')|(_ & _ & Hs')]]; [congruence|].
  exfalso. assert (int64 (k_SegmentSequence p + 1) = 1) as Hone by congruence.
  unfold int64, in_int64, min_int64, max_int64 in *. zdiv.
Qed.

(** Inside one recovery epoch the last digest determines the whole history. *)
Lemma history_binding epoch links events links' events' :
  history None links events -> history None links' events' -> length links = length links' ->
  Forall (fun l => k_RecoveryEpoch l = epoch /\ in_int64 (k_SegmentSequence l)) links ->
  Forall (fun l => in_int64 (k_SegmentSequence l)) links' ->
  k_LinkDigest <$> last links = k_LinkDigest <$> last links' ->
  (events = events' /\ map bound links = map bound links')
  \/ collides (allPreimages links events) (allPreimages links' events').
Proof.
  revert events links' events'. induction links as [|l links IH] using rev_ind; intros events links' events' H1 H2 Hl Hw Hw' E.
  - destruct links'; [|done]. inversion H1; inversion H2; subst. by left.
  - rewrite length_app in Hl. cbn in Hl.
    destruct links' as [|l' links' _] using rev_ind; [cbn in Hl; lia|]. rewrite length_app in Hl. cbn in Hl.
    destruct events as [|e events _] using rev_ind; [apply history_length in H1; rewrite length_app in H1; cbn in H1; lia|].
    destruct events' as [|e' events' _] using rev_ind; [apply history_length in H2; rewrite length_app in H2; cbn in H2; lia|].
    apply history_snoc in H1 as (H1 & L & D). apply history_snoc in H2 as (H2 & L' & D').
    rewrite !last_snoc in E. cbn in E. simplify_eq.
    rewrite !allPreimages_snoc by (by eapply history_length).
    destruct (describes_binding l e l' e') as [[-> Eb]|Hc]; [done..| |].
    2: { right. eapply collides_mono; [| |exact Hc]; set_solver. }
    apply Forall_app in Hw as [Hw Hwl]. apply Forall_app in Hw' as [Hw' Hwl'].
    rewrite !map_app. cbn [map]. rewrite Eb.
    destruct (IH events links' events') as [[-> ->]|Hc]; try done;
      [lia|eapply (history_predecessor epoch); try eassumption; lia|by left|].
    right. eapply collides_mono; [| |exact Hc]; set_solver.
Qed.


(** The verdict of [VerifyLocal]: no error exactly for an empty history, or for
    a described chain all of whose anchored checkpoints commit ranges of it. *)
Lemma VerifyLocal_accepts links events cps :
  (VerifyLocal links events cps).2 = None <->
  (links = [] /\ events = []) \/ (links <> [] /\ history None links events /\ Forall (commits links) cps).
Proof.
  unfold VerifyLocal. destruct links as [|first rest].
  { destruct events; cbn; naive_solver. }
  destruct (Nat.eqb_spec (length (first :: rest)) (length events)) as [Hl|Hl]; cbn [negb].
  2: { split; [done|]. intros [[? _]|(_ & Hh & _)]; [done|]. by apply history_length in Hh. }
  rewrite <- (verifyLinks_spec None) by done.
  case_match eqn:E; [split; [done|naive_solver]|].
  match goal with |- context [verifyCheckpoints ?l ?r ?c] => rewrite <- (verifyCheckpoints_accepts l r c) end.
  case_match; cbn; naive_solver.
Qed.

(** An accepted, non-empty history reports its own last digest and the latest
    anchored checkpoint. *)
Lemma VerifyLocal_result links events cps result :
  links <> [] -> VerifyLocal links events cps = (result, None) ->
  lr_LocalDigest result = default "" (k_LinkDigest <$> last links)
  /\ lr_LastAnchored result = latestAnchored None cps /\ lr_Namespace result = "".
Proof.
  unfold VerifyLocal. destruct links as [|first rest]; [done|]. intros _.
  case_match; [done|]. case_match; [done|]. case_match eqn:E; [|done]. intros [= <-].
  apply verifyCheckpoints_result in E as (-> & -> & _ & _ & _ & ->). cbn.
  split; [|done]. change (match rest with [] => first | _ :: _ => List.last rest first end)
    with (List.last (first :: rest) first).
  rewrite List_last_default. destruct (last (first :: rest)) eqn:El; [done|by apply last_None in El].
Qed.

(** The outbox back-off doubles from thirty seconds and is capped at one
    hour, for every attempt number an outbox record can have, without
    overflowing [time.Duration]. *)
Theorem retry_delay_closed_form attempt :
  1 <= attempt -> RetryDelay attempt = Z.min (30 * Second * 2 ^ (attempt - 1)) Hour.
Proof.
  intros Ha. unfold RetryDelay. destruct (Z.leb_spec attempt 0); [lia|].
  rewrite retryLoop_spec by (unfold InitialRetryDelay, MaxRetryDelay, Hour, Second; lia).
  by rewrite Z2Nat.id by lia.
Qed.

Lemma retry_delay_closed_form_witness : 1 <= 9 /\ RetryDelay 9 = Hour /\ RetryDelay 5 = 480 * Second.
Proof.
  split; [lia|]. split.
  - rewrite (retry_delay_closed_form 9) by lia. reflexivity.
  - rewrite (retry_delay_closed_form 5) by lia. reflexivity.
Defined.

(** C39: an event the store builds from a draft is accepted by the canonical
    encoder that the chain verifier uses, and reading its fields back gives the
    draft, the identifiers and the instant it was built from. *)
Theorem event_from_draft_roundtrip draft id t epoch revision event :
  EventFromDraft draft id t epoch revision = Ok event -> fourDigitYear t = true ->
  CanonicalEvent event = Ok (eventJSON event, hashString (eventJSON event))
  /\ agentOfEvent event = Some (at_Agent (d_Attribution draft))
  /\ draftOfEvent event (at_Agent (d_Attribution draft)) = draft
  /\ e_EventID event = id /\ e_RecoveryEpoch event = epoch /\ e_StateRevision event = revision
  /\ parseRFC3339 (e_OccurredAt event) = Some t.
Proof.
  intros E Ht. pose proof (EventFromDraft_canonical _ _ _ _ _ _ E Ht) as (? & ? & ?).
  split_and!; try tauto. unfold EventFromDraft in E. result_hyps. unfold agentOfEvent; cbn.
  by destruct (at_Agent (d_Attribution draft)) as [[]|].
Qed.

(** The canonical bytes of an event determine every field of it: two
    accepted events with the same encoding are the same event. *)
Theorem canonical_event_injective event event' payload digest digest' :
  CanonicalEvent event = Ok (payload, digest) -> CanonicalEvent event' = Ok (payload, digest') ->
  event = event'.
Proof.
  intros E E'. pose proof (CanonicalEvent_Ok _ _ _ E) as (-> & _).
  pose proof (CanonicalEvent_Ok _ _ _ E') as (Ej & _).
  apply eventJSON_inj; [by eapply CanonicalEvent_safe..|done].
Qed.

(** C27: the chain verifier accepts exactly the histories in which every link
    describes its event and follows its predecessor (same segment or next
    recovery epoch) and every anchored checkpoint commits a range of the links;
    an accepted history reports its own last digest and its latest anchored
    checkpoint. *)
Theorem verify_local_exact links events cps :
  ((VerifyLocal links events cps).2 = None <->
   (links = [] /\ events = []) \/ (links <> [] /\ history None links events /\ Forall (commits links) cps))
  /\ forall result, links <> [] -> VerifyLocal links events cps = (result, None) ->
     lr_LocalDigest result = default "" (k_LinkDigest <$> last links)
     /\ lr_LastAnchored result = latestAnchored None cps.
Proof.
  split; [apply VerifyLocal_accepts|]. intros result Hl E.
  by apply VerifyLocal_result in E as (? & ? & _).
Qed.

(** C26: within a recovery epoch the local digest commits the whole history:
    two accepted histories of one length that report the same digest have the
    same events and the same links, unless two different byte strings that were
    hashed for them have one SHA-256 digest. *)
Theorem accepted_history_tamper_evident epoch links events cps links' events' cps' result result' :
  VerifyLocal links events cps = (result, None) -> VerifyLocal links' events' cps' = (result', None) ->
  lr_LocalDigest result = lr_LocalDigest result' -> length links = length links' -> links <> [] ->
  Forall (fun l => k_RecoveryEpoch l = epoch /\ in_int64 (k_SegmentSequence l)) links ->
  Forall (fun l => in_int64 (k_SegmentSequence l)) links' ->
  (events = events' /\ map bound links = map bound links')
  \/ collides (allPreimages links events) (allPreimages links' events').
Proof.
  intros V V' E Hl Hne Hw Hw'.
  assert (links' <> []) as Hne' by (intros ->; by destruct links).
  pose proof (proj1 (VerifyLocal_accepts links events cps)) as Hh. rewrite V in Hh.
  pose proof (proj1 (VerifyLocal_accepts links' events' cps')) as Hh'. rewrite V' in Hh'.
  destruct (Hh eq_refl) as [[? _]|(_ & Hh1 & _)]; [done|].
  destruct (Hh' eq_refl) as [[? _]|(_ & Hh2 & _)]; [done|].
  apply VerifyLocal_result in V as (Ed & _); [|done]. apply VerifyLocal_result in V' as (Ed' & _); [|done].
  eapply history_binding; try eassumption. rewrite Ed, Ed' in E.
  destruct (last links) eqn:El; [|by apply last_None in El].
  destruct (last links') eqn:El'; [|by apply last_None in El']. cbn in *. congruence.
Qed.

(** [CompareIndependent] reports a match exactly when the remote checkpoint
    agrees in every bound field with the latest anchored one and its signature
    verifies, under the caller's key, over the digest recomputed from the local
    checkpoint. *)
Theorem compare_independent_match verify localResult remote key :
  vr_IndependentMatch (CompareIndependent verify localResult remote key).1 = true <->
  exists cp signed, lr_LastAnchored localResult = Some cp
    /\ ic_LastEventID remote = cp_LastEventID cp /\ ic_CheckpointID remote = cp_CheckpointID cp
    /\ ic_InstanceID remote = cp_InstanceID cp /\ ic_RecoveryEpoch remote = cp_RecoveryEpoch cp
    /\ ic_LastSequence remote = cp_LastSegmentSequence cp /\ ic_ChainDigest remote = cp_ChainDigest cp
    /\ ic_SignerReference remote = mkReference (cp_SignerReferenceID cp) "core.audit.signer"
    /\ ic_MaterialVersion remote = cp_SignerMaterialVersion cp
    /\ (lr_Namespace localResult = "" \/ ic_Namespace remote = lr_Namespace localResult)
    /\ cp_ExportReceiptDigest cp = Some (ic_ExportReceipt remote)
    /\ cp_IndependentReadDigest cp = Some (ic_IndependentRead remote)
    /\ sg_PublicKeyID (ic_Signature remote) = pk_ID key
    /\ sg_Digest (ic_Signature remote) = SignatureDigest (sg_Bytes (ic_Signature remote))
    /\ CheckpointBindingDigest (cp_FirstEventID cp) (cp_LastEventID cp) (cp_FirstSegmentSequence cp)
         (cp_LastSegmentSequence cp) (cp_ChainDigest cp) (cp_InstanceID cp) (cp_RecoveryEpoch cp)
         (mkReference (cp_SignerReferenceID cp) "core.audit.signer") (cp_SignerMaterialVersion cp)
         (ic_Namespace remote) = Ok signed
    /\ ic_SignedDigest remote = signed /\ String.length (pk_Bytes key) = 32%nat
    /\ verify (pk_Bytes key) signed (sg_Bytes (ic_Signature remote)) = true.
Proof.
  unfold CompareIndependent. split.
  - intros E. destruct (lr_LastAnchored localResult) as [cp|] eqn:Ecp; [|done].
    case_match eqn:E1; [done|]. case_match eqn:E2; [done|]. case_match eqn:E3; [done|].
    case_match eqn:E4; [|done]. case_match eqn:E5; [done|]. bool_hyps.
    match goal with H : _ && _ = false |- _ => apply andb_false_iff in H as [Hn|Hn]; bool_hyps end;
    match goal with H : (_ =? _)%nat = true |- _ => apply Nat.eqb_eq in H end;
    eexists cp, _; split_and!; eauto; lia.
  - intros (cp & signed & Ea & Hm). rewrite Ea.
    destruct Hm as (E1 & -> & -> & -> & -> & -> & -> & -> & En & -> & -> & -> & -> & -> & -> & El & ->).
    rewrite E1, Z.ltb_irrefl, !bool_decide_refl, El. cbn [negb orb].
    destruct En as [-> | ->]; rewrite bool_decide_refl; cbn [negb andb orb]; rewrite ?andb_false_r; done.
Qed.

End Properties.

(** ** Witnesses: a two-event history under SHA-256 *)

Definition demoDraft (kind id : string) : EventDraft :=
  mkEventDraft "run.transition" id None None
    (mkAttribution "host-root" "local-os-peer" (Some "alice") (Some (mkAgent "assistant" "session-1")))
    (mkTarget kind id) None None.

Definition demoTime : Time := mkTime (1789521000 * Second) None.

Definition demoEvent (id : Z) : Event :=
  match EventFromDraft (demoDraft "run" "run-1") id demoTime 0 id with
  | Ok event => event
  | Err _ => mkEvent "" "" 0 "" 0 0 "" "" None None "" "" None None None None (mkTarget "" "") None None
  end.

Definition demoGenesis : ChainLink := GenesisLink "labs-1" 0 (hashString "prior") (hashString "decision").

Definition demoLink (id : Z) (previous : string) : ChainLink :=
  match MakeChainLink (demoEvent id) (mkContextIDs "run-1" "plan-1" "") "labs-1" id previous false with
  | Ok link => link
  | Err _ => zeroLink
  end.

Definition demoLinks : list ChainLink := Eval vm_compute in
  let first := demoLink 1 (k_LinkDigest demoGenesis) in [first; demoLink 2 (k_LinkDigest first)].
Definition demoEvents : list Event := Eval vm_compute in [demoEvent 1; demoEvent 2].

Lemma event_from_draft_roundtrip_witness :
  EventFromDraft (demoDraft "run" "run-1") 1 demoTime 0 1 = Ok (demoEvent 1)
  /\ draftOfEvent (demoEvent 1) (Some (mkAgent "assistant" "session-1")) = demoDraft "run" "run-1".
Proof.
  assert (EventFromDraft (demoDraft "run" "run-1") 1 demoTime 0 1 = Ok (demoEvent 1)) as E
    by (vm_compute; reflexivity).
  split; [exact E|]. apply (event_from_draft_roundtrip _ _ _ _ _ _ E). vm_compute. reflexivity.
Defined.

Lemma canonical_event_injective_witness :
  is_ok (CanonicalEvent (demoEvent 1)) = true /\ demoEvent 1 = demoEvent 1.
Proof.
  assert (E : exists p, CanonicalEvent (demoEvent 1) = Ok p) by (eexists; vm_compute; reflexivity).
  destruct E as [[p d] E]. split; [by rewrite E|]. exact (canonical_event_injective _ _ _ _ _ E E).
Defined.

Lemma demo_accepted : (VerifyLocal demoLinks demoEvents []).2 = None.
Proof. vm_compute. reflexivity. Qed.

Lemma verify_local_exact_witness :
  (VerifyLocal demoLinks demoEvents []).2 = None /\ history None demoLinks demoEvents.
Proof.
  split; [exact demo_accepted|].
  by destruct (proj1 (proj1 (verify_local_exact demoLinks demoEvents [])) demo_accepted) as [[? _]|(_ & ? & _)].
Defined.

Lemma accepted_history_tamper_evident_witness :
  (demoEvents = demoEvents /\ map bound demoLinks = map bound demoLinks)
  \/ collides (allPreimages demoLinks demoEvents) (allPreimages demoLinks demoEvents).
Proof.
  destruct (VerifyLocal demoLinks demoEvents []) as [r err] eqn:V.
  assert (err = None) as -> by (pose proof demo_accepted as A; rewrite V in A; exact A).
  apply (accepted_history_tamper_evident 0 _ _ _ _ _ _ _ _ V V); [reflexivity|reflexivity|discriminate| |].
  - repeat (apply Forall_cons; split; [split; [reflexivity|unfold in_int64, min_int64, max_int64; cbn; lia]|]).
    apply Forall_nil, I.
  - repeat (apply Forall_cons; split; [unfold in_int64, min_int64, max_int64; cbn; lia|]).
    apply Forall_nil, I.
Defined.
