(* ===== verification/AuditStore.v ===== *)
(** The transactional writer of the store: [internal/store/audit_intent.go] and
    [internal/store/audit_chain.go], with the error classification of
    [intent.go] and [store.go].

    Every mutation of the control plane runs through [executeAuditIntent]: one
    SQL transaction that checks the revision, deduplicates by intent key, runs
    the business change, appends one audit event and one chain link, records the
    intent key and the outbox rows, and commits. The business tables are a
    parameter [T]; the repositories instantiate it.

    What the process does not control is an environment [TxEnv]: the context,
    the clock, the database file identity, failing SQL statements and the test
    hooks. A failed [Commit] may or may not have become durable. *)

From S2P Require Import Prelude GoTime Hash GoJson Contracts AuditLog.

(** ** The database *)

Record RevisionToken := mkRevisionToken { rt_StateRevision : Z; rt_RecoveryEpoch : Z }.

#[global] Instance RevisionToken_eq_dec : EqDecision RevisionToken.
Proof. solve_decision. Defined.

(** A row of [audit_events] *)
Record EventRow := mkEventRow { ev_Event : Event; ev_Payload : string; ev_PayloadSHA256 : string }.

(** A row of [audit_epoch_genesis] *)
Record GenesisRow := mkGenesisRow {
  gn_InstanceID : string;
  gn_PriorCheckpoint : string;
  gn_RecoveryDecision : string;
  gn_GenesisDigest : string
}.

(** A row of [intent_keys], whose primary key is the scope and the key digest *)
Record IntentRow := mkIntentRow {
  in_RequestDigest : string;
  in_EventID : Z;
  in_StateRevision : Z;
  in_RecoveryEpoch : Z;
  in_CreatedAt : string
}.

(** A row of [outbox], without its two schema columns and its bound on the
    attempts, for which the table admits one value *)
Record OutboxRow := mkOutboxRow {
  ox_EventID : Z;
  ox_Destination : string;
  ox_PayloadBytes : string;
  ox_PayloadSHA256 : string;
  ox_DedupeSHA256 : string;
  ox_Status : string;
  ox_AttemptCount : Z;
  ox_NextAttemptAt : option string;
  ox_LastErrorCode : option string;
  ox_CreatedAt : string;
  ox_UpdatedAt : string;
  ox_DeliveredAt : option string
}.

(** The row the writer inserts *)
Definition newOutboxRow (eventID : Z) (destination payload payloadDigest dedupe status createdAt : string) : OutboxRow :=
  mkOutboxRow eventID destination payload payloadDigest dedupe status 0 None None createdAt createdAt None.

Record Db (T : Type) := mkDb {
  state_revision : Z;
  recovery_epoch : Z;
  audit_sequence : Z;
  instance_id : string;
  audit_events : list EventRow;
  audit_chain_links : list ChainLink;
  audit_epoch_genesis : gmap Z GenesisRow;
  intent_keys : gmap (string * string) IntentRow;
  outbox : list OutboxRow;
  tables : T
}.
Arguments mkDb {T}.
Arguments state_revision {T}.
Arguments recovery_epoch {T}.
Arguments audit_sequence {T}.
Arguments instance_id {T}.
Arguments audit_events {T}.
Arguments audit_chain_links {T}.
Arguments audit_epoch_genesis {T}.
Arguments intent_keys {T}.
Arguments outbox {T}.
Arguments tables {T}.

(** ** The store *)

(** The fields of [store.Health] and [store.Store] that the writer consults. *)
Record Health := mkHealth {
  h_Ready : bool;
  h_MutationEnabled : bool;
  h_SafeModeReason : string;
  h_RecoveryPending : bool;
  h_Revision : RevisionToken
}.

Record Store (T : Type) := mkStore {
  st_db : Db T;
  st_health : Health;
  st_closed : bool;
  st_signals : nat
}.
Arguments mkStore {T}.
Arguments st_db {T}.
Arguments st_health {T}.
Arguments st_closed {T}.
Arguments st_signals {T}.

Definition safeHealth (reason : string) (h : Health) : Health :=
  mkHealth false false reason (h_RecoveryPending h) (h_Revision h).

(** [store.enterSafeMode] *)
Definition enterSafeMode {T} (reason : string) (store : Store T) : Store T :=
  mkStore (st_db store) (safeHealth reason (st_health store)) (st_closed store) (st_signals store).

(** ** The environment of one transaction *)

(** What a failing statement reports, as [classifySQLiteError] distinguishes it. *)
Inductive SqlError := SqlInterrupt | SqlBusy | SqlConstraint | SqlOther.

(** The statements of a transaction; those that only one transaction has are named. *)
Inductive Statement :=
| BeginTx | ReadMeta | LookupIntent | Business | AdvanceRevision | AdvanceSequence | InsertEvent
| ReadInstance | ReadGenesis | InsertGenesis | LastLink | InsertLink | InsertIntent | InsertOutbox (index : nat)
| CommitTx | Named (name : string).

(** The places where [ctx.Err()] is consulted. *)
Inductive ContextCheck := AtReady | AtStatement (s : Statement) | AfterBusinessChange | OnError.

Inductive auditIntentStage :=
| auditAfterBusiness | auditAfterRevision | auditAfterSequence | auditAfterEvent | auditAfterIntent
| auditAfterOutbox (index : nat) | auditBeforeCommit | auditAfterCommit.

Record TxEnv := mkTxEnv {
  te_ctx : ContextCheck -> bool;
  te_canary : option RevisionToken;
  te_identityAtReady : option error;
  te_identityAtCommit : option error;
  te_sql : Statement -> option SqlError;
  te_auditFault : auditIntentStage -> option error;
  te_beforeCommit : option error;
  te_commitDurable : bool;
  te_Clock : Time
}.

Definition quietEnv (clock : Time) : TxEnv :=
  mkTxEnv (fun _ => false) None None None (fun _ => None) (fun _ => None) None true clock.

(** [databaseError(code, cause)]: a coded cause is returned as it is. *)
Definition databaseError (code : string) (cause : error) : error :=
  if Code (Some cause) == "" then Coded code "database" else cause.

(** [classifySQLiteError(ctx, cause)] for a statement that failed *)
Definition classifySQLiteError (env : TxEnv) (s : Statement) (cause : SqlError) : error :=
  if te_ctx env (AtStatement s) then Coded Interrupted "database"
  else match cause with
       | SqlInterrupt => Coded Interrupted "database"
       | SqlBusy => Coded DependencyUnavailable "database"
       | SqlConstraint => Coded StateConflict "database"
       | SqlOther => Coded IntegrityFailure "database"
       end.

(** A constraint of the schema that a statement of a business change violates. *)
Definition errConstraint : error := Plain "constraint failed".

(** The same for an uncoded error a callback returned. *)
Definition classifyError (env : TxEnv) (s : Statement) (cause : error) : error :=
  if te_ctx env (AtStatement s) then Coded Interrupted "database"
  else match cause with
       | Canceled | DeadlineExceeded => Coded Interrupted "database"
       | _ => if cause == errConstraint then Coded StateConflict "database" else databaseError IntegrityFailure cause
       end.

(** ** The request *)

Record intentRequest := mkIntentRequest {
  iq_eventTime : option Time;
  iq_Expected : option RevisionToken;
  iq_Idempotency : IntentKey;
  iq_Event : EventDraft;
  iq_Context : ContextIDs;
  iq_Destinations : list OutboxRequirement
}.

Record Commit := mkCommit { cm_Changed : bool; cm_StateRevision : Z; cm_RecoveryEpoch : Z }.

Record intentResult := mkIntentResult { ir_Commit : Commit; ir_EventID : Z; ir_Created : bool }.

#[global] Instance Commit_eq_dec : EqDecision Commit.
Proof. solve_decision. Defined.
#[global] Instance intentResult_eq_dec : EqDecision intentResult.
Proof. solve_decision. Defined.

Definition emptyAuditBinding :=
  "sha256:e3b0c44298fc1c149afbf4c8996fb92427ae41e4649b934ca495991b7852b855".

Section Writer.
Context `{Hasher} {T : Type}.

Definition withDb (db : Db T) (store : Store T) : Store T :=
  mkStore db (st_health store) (st_closed store) (st_signals store).

Definition withHealth (h : Health) (store : Store T) : Store T :=
  mkStore (st_db store) h (st_closed store) (st_signals store).

Definition enter (reason : string) : action (Store T) unit := modify (enterSafeMode reason).

(** [store.transactionError(ctx, cause)] *)
Definition transactionError {A} (env : TxEnv) (s : Statement) (cause : SqlError) : action (Store T) A :=
  let err := classifySQLiteError env s cause in
  (if Code (Some err) == IntegrityFailure then enter "transaction-failure" else mret tt);;
  fail err.

(** One SQL statement: it fails by itself, violates a constraint, or runs. *)
Definition sql {A} (env : TxEnv) (s : Statement) (run : Db T -> SqlError + (A * Db T)) : action (Store T) A :=
  match te_sql env s with
  | Some cause => transactionError env s cause
  | None =>
      fun store =>
        match run (st_db store) with
        | inl cause => transactionError env s cause store
        | inr (x, db) => (Ok x, withDb db store)
        end
  end.

(** [store.runAuditFault(stage)] *)
Definition runAuditFault (env : TxEnv) (stage : auditIntentStage) : action (Store T) unit :=
  match te_auditFault env stage with
  | Some err => fail (databaseError IntegrityFailure err)
  | None => mret tt
  end.

(** [store.checkIdentity(ctx)] *)
Definition checkIdentity (identity : option error) : action (Store T) unit :=
  match identity with
  | Some err => enter "unsafe-file-identity";; fail (databaseError IntegrityFailure err)
  | None => mret tt
  end.

Definition readyForRead (env : TxEnv) : action (Store T) unit :=
  check (negb (te_ctx env AtReady)) (Coded Interrupted "database");;
  closed ← gets st_closed;
  check (negb closed) (Coded DependencyUnavailable "database");;
  checkIdentity (te_identityAtReady env).

Definition readyForTransaction (env : TxEnv) : action (Store T) unit :=
  readyForRead env;;
  health ← gets st_health;
  match te_canary env with
  | Some token =>
      if h_RecoveryPending health && (token == h_Revision health) then mret tt
      else check (h_Ready health && h_MutationEnabled health) (Coded PrerequisiteBlocked "database-safe-mode")
  | None => check (h_Ready health && h_MutationEnabled health) (Coded PrerequisiteBlocked "database-safe-mode")
  end.

(** ** Statements of the writer *)

Definition setMeta (revision sequence : Z) (db : Db T) : Db T :=
  mkDb revision (recovery_epoch db) sequence (instance_id db) (audit_events db) (audit_chain_links db)
    (audit_epoch_genesis db) (intent_keys db) (outbox db) (tables db).

Definition setTables (t : T) (db : Db T) : Db T :=
  mkDb (state_revision db) (recovery_epoch db) (audit_sequence db) (instance_id db) (audit_events db)
    (audit_chain_links db) (audit_epoch_genesis db) (intent_keys db) (outbox db) t.

Definition addEvent (row : EventRow) (db : Db T) : Db T :=
  mkDb (state_revision db) (recovery_epoch db) (audit_sequence db) (instance_id db) (audit_events db ++ [row])
    (audit_chain_links db) (audit_epoch_genesis db) (intent_keys db) (outbox db) (tables db).

Definition addLink (link : ChainLink) (db : Db T) : Db T :=
  mkDb (state_revision db) (recovery_epoch db) (audit_sequence db) (instance_id db) (audit_events db)
    (audit_chain_links db ++ [link]) (audit_epoch_genesis db) (intent_keys db) (outbox db) (tables db).

Definition addGenesis (epoch : Z) (row : GenesisRow) (db : Db T) : Db T :=
  mkDb (state_revision db) (recovery_epoch db) (audit_sequence db) (instance_id db) (audit_events db)
    (audit_chain_links db) (<[epoch := row]> (audit_epoch_genesis db)) (intent_keys db) (outbox db) (tables db).

Definition addIntent (key : string * string) (row : IntentRow) (db : Db T) : Db T :=
  mkDb (state_revision db) (recovery_epoch db) (audit_sequence db) (instance_id db) (audit_events db)
    (audit_chain_links db) (audit_epoch_genesis db) (<[key := row]> (intent_keys db)) (outbox db) (tables db).

Definition setOutbox (rows : list OutboxRow) (db : Db T) : Db T :=
  mkDb (state_revision db) (recovery_epoch db) (audit_sequence db) (instance_id db) (audit_events db)
    (audit_chain_links db) (audit_epoch_genesis db) (intent_keys db) rows (tables db).

Definition addOutbox (row : OutboxRow) (db : Db T) : Db T :=
  mkDb (state_revision db) (recovery_epoch db) (audit_sequence db) (instance_id db) (audit_events db)
    (audit_chain_links db) (audit_epoch_genesis db) (intent_keys db) (outbox db ++ [row]) (tables db).

(** A query leaves the database alone. *)
Definition query {A} (f : Db T -> A) (db : Db T) : SqlError + (A * Db T) := inr (f db, db).

(** [UPDATE system_meta SET state_revision=state_revision+1 WHERE ...]: the
    number of rows. The column is an [INTEGER] of a strict table. *)
Definition updateRevision (revision epoch : Z) (db : Db T) : SqlError + (Z * Db T) :=
  if (state_revision db == revision) && (recovery_epoch db == epoch) then
    if max_int64 <=? state_revision db then inl SqlConstraint
    else inr (1, setMeta (state_revision db + 1) (audit_sequence db) db)
  else inr (0, db).

Definition updateSequence (sequence revision epoch : Z) (db : Db T) : SqlError + (Z * Db T) :=
  if (audit_sequence db == sequence) && (state_revision db == revision) && (recovery_epoch db == epoch) then
    if max_int64 <=? audit_sequence db then inl SqlConstraint
    else inr (1, setMeta (state_revision db) (audit_sequence db + 1) db)
  else inr (0, db).

(** The primary key of [audit_events] *)
Definition insertEvent (row : EventRow) (db : Db T) : SqlError + (unit * Db T) :=
  if existsb (fun r => e_EventID (ev_Event r) == e_EventID (ev_Event row)) (audit_events db)
  then inl SqlConstraint else inr (tt, addEvent row db).

(** The primary key and the unique digest of [audit_epoch_genesis] *)
Definition insertGenesis (epoch : Z) (row : GenesisRow) (db : Db T) : SqlError + (unit * Db T) :=
  if bool_decide (is_Some (audit_epoch_genesis db !! epoch))
     || existsb (fun g => gn_GenesisDigest g.2 == gn_GenesisDigest row) (map_to_list (audit_epoch_genesis db))
  then inl SqlConstraint else inr (tt, addGenesis epoch row db).

(** The primary key, the unique digest, the unique segment position, the size
    check and the foreign keys of [audit_chain_links] *)
Definition insertLink (link : ChainLink) (db : Db T) : SqlError + (unit * Db T) :=
  if existsb (fun l => (k_EventID l == k_EventID link) || (k_LinkDigest l == k_LinkDigest link)
                       || ((k_InstanceID l == k_InstanceID link) && (k_RecoveryEpoch l == k_RecoveryEpoch link)
                           && (k_SegmentSequence l == k_SegmentSequence link))) (audit_chain_links db)
     || (512 <? String.length (contextJSON (k_Context link)))%nat
     || negb (existsb (fun r => e_EventID (ev_Event r) == k_EventID link) (audit_events db))
     || bool_decide (audit_epoch_genesis db !! k_RecoveryEpoch link = None)
  then inl SqlConstraint else inr (tt, addLink link db).

Definition insertIntent (key : string * string) (row : IntentRow) (db : Db T) : SqlError + (unit * Db T) :=
  if bool_decide (is_Some (intent_keys db !! key)) then inl SqlConstraint
  else inr (tt, addIntent key row db).

(** The unique columns of [outbox] *)
Definition insertOutbox (row : OutboxRow) (db : Db T) : SqlError + (unit * Db T) :=
  if existsb (fun r => (ox_DedupeSHA256 r == ox_DedupeSHA256 row)
                       || ((ox_EventID r == ox_EventID row) && (ox_Destination r == ox_Destination row)))
             (outbox db)
  then inl SqlConstraint else inr (tt, addOutbox row db).

(** [ORDER BY segment_sequence DESC LIMIT 1] over one epoch *)
Definition latestLink (epoch : Z) (links : list ChainLink) : option ChainLink :=
  fold_left (fun best l =>
    if k_RecoveryEpoch l == epoch then
      match best with
      | Some b => if k_SegmentSequence b <? k_SegmentSequence l then Some l else best
      | None => Some l
      end
    else best) links None.

(** ** The chain (audit_chain.go) *)

Definition ensureAuditGenesis (env : TxEnv) (instanceID : string) (epoch : Z) (allowLegacyPreAnchor : bool)
    : action (Store T) (string * Z) :=
  existing ← sql env ReadGenesis (query (fun db => gn_GenesisDigest <$> audit_epoch_genesis db !! epoch));
  match existing with
  | Some digest => mret (digest, 1)
  | None =>
      if (0 <? epoch) && negb allowLegacyPreAnchor then transactionError env ReadGenesis SqlOther
      else
        let genesis := GenesisLink instanceID epoch emptyAuditBinding emptyAuditBinding in
        if negb (ValidFingerprint (k_LinkDigest genesis)) then transactionError env ReadGenesis SqlOther
        else
          sql env InsertGenesis (insertGenesis epoch
            (mkGenesisRow instanceID (k_PriorCheckpoint genesis) (k_RecoveryDecision genesis) (k_LinkDigest genesis)));;
          mret (k_LinkDigest genesis, 1)
  end.

Definition appendAuditLink (env : TxEnv) (event : Event) (ids : ContextIDs) : action (Store T) ChainLink :=
  instanceID ← sql env ReadInstance (query instance_id);
  start ← ensureAuditGenesis env instanceID (e_RecoveryEpoch event) false;
  latest ← sql env LastLink (query (fun db => latestLink (e_RecoveryEpoch event) (audit_chain_links db)));
  let '(previous, sequence) :=
    match latest with
    | Some l => (k_LinkDigest l, int64 (k_SegmentSequence l + 1))
    | None => start
    end in
  match MakeChainLink event ids instanceID sequence previous false with
  | Err _ => fail (Coded IntegrityFailure "audit-chain-link")
  | Ok link =>
      match CanonicalContext ids with
      | Err _ => fail (Coded IntegrityFailure "audit-chain-context")
      | Ok (_, contextDigest) =>
          check (contextDigest == k_ContextDigest link) (Coded IntegrityFailure "audit-chain-context");;
          sql env InsertLink (insertLink link);;
          mret link
      end
  end.

(** ** The writer (audit_intent.go) *)

Definition readRevisionAndAuditSequence (env : TxEnv) : action (Store T) (RevisionToken * Z) :=
  meta ← sql env ReadMeta (query (fun db => (mkRevisionToken (state_revision db) (recovery_epoch db), audit_sequence db)));
  if meta.2 <? 0 then transactionError env ReadMeta SqlOther else mret meta.

(** One reference of an event; [correction] says which of the two it is. *)
Definition validateReference (env : TxEnv) (draft : EventDraft) (next : Z) (correction : bool) (reference : option Z)
    : action (Store T) unit :=
  match reference with
  | None => mret tt
  | Some id =>
      rows ← gets (fun store => filter (fun r => e_EventID (ev_Event r) = id) (audit_events (st_db store)));
      match (if next <=? id then None else hd_error rows) with
      | None => fail (Coded StateConflict "audit-event-reference")
      | Some row =>
          check (negb (correction && (e_Target (ev_Event row) != d_Target draft)))
                (Coded StateConflict "audit-correction-target")
      end
  end.

Definition validateEventReferences (env : TxEnv) (draft : EventDraft) (next : Z) : action (Store T) unit :=
  validateReference env draft next false (d_CausationID draft);;
  validateReference env draft next true (d_CorrectionOf draft).

(** Eight big-endian bytes. *)
Fixpoint bigEndian (k : nat) (n : Z) : string :=
  match k with
  | O => ""
  | S k' => String (ascii_of_nat (Z.to_nat (Z.land (Z.shiftr n (8 * Z.of_nat k')) 255))) (bigEndian k' n)
  end.

Definition outboxDedupe (eventID : Z) (destination payload : string) : string :=
  hashString (bigEndian 8 eventID +:+ nul +:+ Join nul [destination; EventSchema; EventSchemaVersion; payload]).

Fixpoint appendOutbox (env : TxEnv) (index : nat) (event : Event) (payload payloadDigest : string)
    (requirements : list OutboxRequirement) : action (Store T) unit :=
  match requirements with
  | [] => mret tt
  | requirement :: rest =>
      let status := if ob_Enabled requirement then "pending" else "paused" in
      let dedupe := outboxDedupe (e_EventID event) (ob_Destination requirement) payloadDigest in
      sql env (InsertOutbox index) (insertOutbox
        (newOutboxRow (e_EventID event) (ob_Destination requirement) payload payloadDigest dedupe status
           (e_OccurredAt event)));;
      runAuditFault env (auditAfterOutbox index);;
      appendOutbox env (S index) event payload payloadDigest rest
  end.

(** The business change on its tables, which sees the current revision. *)
Definition runBusiness (env : TxEnv) (current : RevisionToken) (business : option (RevisionToken -> T -> result T))
    : action (Store T) unit :=
  match business with
  | None => mret tt
  | Some change =>
      match te_sql env Business with
      | Some cause => fail (classifySQLiteError env Business cause)
      | None =>
          t ← gets (fun store => tables (st_db store));
          match change current t with
          | Ok t' => modify (fun store => withDb (setTables t' (st_db store)) store)
          | Err err => fail (if Code (Some err) == "" then classifyError env Business err else err)
          end
      end
  end.

(** The revision the event carries, after a state-advancing intent moved it. *)
Definition advanceRevision (env : TxEnv) (advanceState : bool) (current : RevisionToken) : action (Store T) Z :=
  if advanceState then
    rows ← sql env AdvanceRevision (updateRevision (rt_StateRevision current) (rt_RecoveryEpoch current));
    check (rows == 1) (Coded StateConflict "database-revision");;
    mret (int64 (rt_StateRevision current + 1))
  else mret (rt_StateRevision current).

Definition appendAuditInTx (env : TxEnv) (request : intentRequest) (advanceState : bool)
    (business : option (RevisionToken -> T -> result T)) : action (Store T) intentResult :=
  '(current, sequence) ← readRevisionAndAuditSequence env;
  match iq_Expected request with
  | Some expected =>
      check (rt_RecoveryEpoch expected == rt_RecoveryEpoch current) (Coded RecoveryEpochMismatch "database-revision");;
      check (rt_StateRevision expected == rt_StateRevision current) (Coded StateConflict "database-revision")
  | None => mret tt
  end;;
  let key := (ik_Scope (iq_Idempotency request), ik_KeyDigest (iq_Idempotency request)) in
  existing ← sql env LookupIntent (query (fun db => intent_keys db !! key));
  match existing with
  | Some row =>
      check (in_RequestDigest row == ik_RequestDigest (iq_Idempotency request)) (Coded StateConflict "audit-intent-key");;
      mret (mkIntentResult (mkCommit false (in_StateRevision row) (in_RecoveryEpoch row)) (in_EventID row) false)
  | None =>
      runBusiness env current business;;
      runAuditFault env auditAfterBusiness;;
      check (negb (te_ctx env AfterBusinessChange)) (Coded Interrupted "audit-intent");;
      stateRevision ← advanceRevision env advanceState current;
      runAuditFault env auditAfterRevision;;
      rows ← sql env AdvanceSequence (updateSequence sequence stateRevision (rt_RecoveryEpoch current));
      check (rows == 1) (Coded IntegrityFailure "database");;
      let eventID := int64 (sequence + 1) in
      runAuditFault env auditAfterSequence;;
      validateEventReferences env (iq_Event request) eventID;;
      let now := UTC (default (te_Clock env) (iq_eventTime request)) in
      match EventFromDraft (iq_Event request) eventID now (rt_RecoveryEpoch current) stateRevision with
      | Err _ => fail (Coded InputInvalid "audit-event")
      | Ok event =>
          match CanonicalEvent event with
          | Err _ => fail (Coded IntegrityFailure "audit-event")
          | Ok (payload, payloadDigest) =>
              sql env InsertEvent (insertEvent (mkEventRow event payload payloadDigest));;
              runAuditFault env auditAfterEvent;;
              appendAuditLink env event (iq_Context request);;
              sql env InsertIntent (insertIntent key
                (mkIntentRow (ik_RequestDigest (iq_Idempotency request)) eventID stateRevision
                   (rt_RecoveryEpoch current) (e_OccurredAt event)));;
              runAuditFault env auditAfterIntent;;
              appendOutbox env 0 event payload payloadDigest (iq_Destinations request);;
              mret (mkIntentResult (mkCommit advanceState stateRevision (rt_RecoveryEpoch current)) eventID true)
          end
      end
  end.

(** The deferred [transaction.Rollback()]: on an error the database is the one
    the transaction began with. *)
Definition rollback {A} (db : Db T) (m : action (Store T) A) : action (Store T) A := fun store =>
  match m store with
  | (Ok x, store') => (Ok x, store')
  | (Err e, store') => (Err e, withDb db store')
  end.

(** The tail of [executeAuditIntent] after the transaction committed. *)
Definition committed (env : TxEnv) (result : intentResult) : action (Store T) intentResult :=
  (if ir_Created result
   then modify (fun store => mkStore (st_db store) (st_health store) (st_closed store) (S (st_signals store)))
   else mret tt);;
  (if cm_Changed (ir_Commit result)
   then modify (fun store => withHealth
          (mkHealth (h_Ready (st_health store)) (h_MutationEnabled (st_health store))
             (h_SafeModeReason (st_health store)) (h_RecoveryPending (st_health store))
             (mkRevisionToken (cm_StateRevision (ir_Commit result)) (cm_RecoveryEpoch (ir_Commit result)))) store)
   else mret tt);;
  match te_auditFault env auditAfterCommit with
  | Some err => enter "commit-uncertain";; fail (databaseError IntegrityFailure err)
  | None => mret result
  end.

Definition inTransaction (env : TxEnv) (request : intentRequest) (advanceState : bool)
    (business : option (RevisionToken -> T -> result T)) : action (Store T) intentResult := fun store =>
  match appendAuditInTx env request advanceState business store with
  | (Err err, store') =>
      if te_ctx env OnError then (Err (Coded Interrupted "audit-intent"), store')
      else (Err err, if Code (Some err) == IntegrityFailure then enterSafeMode "audit-intent-failure" store' else store')
  | (Ok result, store') =>
      (checkIdentity (te_identityAtCommit env);;
       runAuditFault env auditBeforeCommit;;
       match te_beforeCommit env with
       | Some err => enter "commit-failure";; fail (databaseError IntegrityFailure err)
       | None => mret result
       end) store'
  end.

Definition executeAuditIntent (env : TxEnv) (request : intentRequest) (advanceState : bool)
    (business : option (RevisionToken -> T -> result T)) : action (Store T) intentResult := fun store =>
  if negb (ValidateIntentKey (iq_Idempotency request) && ValidateEventDraft (iq_Event request)
           && ValidateOutboxRequirements (iq_Destinations request))
  then (Err (Coded InputInvalid "audit-intent"), store)
  else if match iq_Expected request with
          | Some expected => rt_RecoveryEpoch expected != rt_RecoveryEpoch (h_Revision (st_health store))
          | None => false
          end
  then (Err (Coded RecoveryEpochMismatch "database-revision"), store)
  else
    (readyForTransaction env;;
     match te_sql env BeginTx with
     | Some cause => transactionError env BeginTx cause
     | None =>
         result ← rollback (st_db store) (inTransaction env request advanceState business);
         match te_sql env CommitTx with
         | Some cause =>
             (if te_commitDurable env then mret tt else modify (withDb (st_db store)));;
             enter "commit-failure";;
             transactionError env CommitTx cause
         | None => committed env result
         end
     end) store.

(** [writeIntent]: a state-advancing intent needs a business change. *)
Definition writeIntent (env : TxEnv) (request : intentRequest) (business : RevisionToken -> T -> result T)
    : action (Store T) intentResult :=
  executeAuditIntent env request true (Some business).

(** [PrepareRecoveryAuditEpoch] *)
Definition PrepareRecoveryAuditEpoch (env : TxEnv) (epoch : Z) (priorCheckpoint recoveryDecision : string)
    : action (Store T) unit := fun store =>
  if (epoch <=? 0) || negb (ValidFingerprint priorCheckpoint) || negb (ValidFingerprint recoveryDecision)
  then (Err (Coded InputInvalid "audit-recovery-genesis"), store)
  else
    (readyForRead env;;
     match te_sql env BeginTx with
     | Some cause => transactionError env BeginTx cause
     | None =>
         rollback (st_db store)
           (instanceID ← sql env ReadInstance (query instance_id);
            currentEpoch ← sql env ReadMeta (query recovery_epoch);
            check (epoch == int64 (currentEpoch + 1)) (Coded StateConflict "audit-recovery-genesis");;
            let genesis := GenesisLink instanceID epoch priorCheckpoint recoveryDecision in
            check (ValidFingerprint (k_LinkDigest genesis)) (Coded InputInvalid "audit-recovery-genesis");;
            sql env InsertGenesis (insertGenesis epoch
              (mkGenesisRow instanceID priorCheckpoint recoveryDecision (k_LinkDigest genesis))));;
         match te_sql env CommitTx with
         | Some cause =>
             (if te_commitDurable env then mret tt else modify (withDb (st_db store)));;
             transactionError env CommitTx cause
         | None => mret tt
         end
     end) store.

(** [ChainRange]: the links of a range of events, which must be complete at both
    ends, with its digest. *)
Definition chainRange (first last : Z) (db : Db T) : result ChainRange :=
  require (negb ((first <=? 0) || (last <? first))) (Coded InputInvalid "audit-chain-range");;
  let links := filter (fun l => first <= k_EventID l <= last) (audit_chain_links db) in
  match links with
  | [] => Err (Coded StateConflict "audit-chain-range")
  | l :: _ =>
      require ((k_EventID l == first) && (k_EventID (List.last links l) == last))
        (Coded StateConflict "audit-chain-range");;
      match DigestChainRange links with
      | Ok digest => Ok (mkChainRange first last links digest)
      | Err _ => Err (Coded IntegrityFailure "audit-chain-range")
      end
  end.

End Writer.

(** ** Reads (intent.go) *)

(** [sql.ErrNoRows] *)
Definition errNoRows : error := Plain "sql: no rows in result set".

(** [store.Read] of one query *)
Definition Read {T A} (env : TxEnv) (f : Db T -> result A) : action (Store T) A :=
  readyForRead env;;
  match te_sql env BeginTx with
  | Some cause => transactionError env BeginTx cause
  | None =>
      match te_sql env Business with
      | Some cause =>
          if te_ctx env OnError then fail (Coded Interrupted "database-read") else transactionError env Business cause
      | None =>
          answer ← gets (fun store => f (st_db store));
          match answer with
          | Err err => fail (if te_ctx env OnError then Coded Interrupted "database-read" else err)
          | Ok x => match te_sql env CommitTx with
                    | Some cause => transactionError env CommitTx cause
                    | None => mret x
                    end
          end
      end
  end.

(** [errors.Is(err, sql.ErrNoRows)] after a read *)
Definition rows {T A B} (m : action (Store T) A) (none : result B) (some : A -> result B) : action (Store T) B := fun store =>
  match m store with
  | (Ok x, store') => (some x, store')
  | (Err e, store') => (if e == errNoRows then none else Err e, store')
  end.

(** The guard [at.IsZero() || at.Location() != time.UTC] *)
Definition validAt (at_ : Time) : bool := negb (IsZero at_) && isUTC at_.

(** ** Steps of the writer *)

Section Steps.
Context `{Hasher} {T : Type}.
Implicit Types (store : Store T) (db : Db T).

Lemma check_Ok (b : bool) e store u store' :
  check b e store = (Ok u, store') <-> b = true /\ store' = store.
Proof. unfold check, lift, require. destruct b, u; naive_solver. Qed.

Lemma runAuditFault_Ok env stage store u store' :
  runAuditFault env stage store = (Ok u, store') <-> te_auditFault env stage = None /\ store' = store.
Proof. unfold runAuditFault. destruct u. case_match; unfold fail, mret, action_ret; naive_solver. Qed.

Lemma transactionError_result {A} env s cause store :
  transactionError (A:=A) env s cause store =
  (Err (classifySQLiteError env s cause),
   if Code (Some (classifySQLiteError env s cause)) == IntegrityFailure
   then enterSafeMode "transaction-failure" store else store).
Proof. unfold transactionError. cbv zeta. by case_bool_decide. Qed.

Lemma transactionError_not_Ok {A} env s cause store (x : A) store' :
  ~ transactionError env s cause store = (Ok x, store').
Proof. by rewrite transactionError_result. Qed.

Lemma sql_Ok {A} env s (run : Db T -> SqlError + (A * Db T)) store x store' :
  sql env s run store = (Ok x, store') <->
  te_sql env s = None /\ exists db, run (st_db store) = inr (x, db) /\ store' = withDb db store.
Proof.
  unfold sql. destruct (te_sql env s).
  - split; [|naive_solver]. intros E. by apply transactionError_not_Ok in E.
  - destruct (run (st_db store)) as [cause|[y db]].
    + split; [|naive_solver]. intros E. by apply transactionError_not_Ok in E.
    + naive_solver.
Qed.

(** An action that cannot change the database, whatever its outcome. *)
Definition keeps_db {A} (m : action (Store T) A) : Prop :=
  forall store r store', m store = (r, store') -> st_db store' = st_db store.

Lemma keeps_bind {A B} (m : action (Store T) A) (f : A -> action (Store T) B) :
  keeps_db m -> (forall x, keeps_db (f x)) -> keeps_db (m ≫= f).
Proof.
  intros Hm Hf store r store'. unfold mbind, action_bind.
  destruct (m store) as [[x|e] s1] eqn:E; intros E'.
  - rewrite (Hf _ _ _ _ E'). eauto.
  - simplify_eq. eauto.
Qed.

Lemma keeps_check (b : bool) e : keeps_db (check b e).
Proof. intros store r store' [= _ <-]. done. Qed.
Lemma keeps_mret {A} (x : A) : keeps_db (mret x).
Proof. intros store r store' [= _ <-]. done. Qed.
Lemma keeps_fail {A} e : keeps_db (fail (A:=A) e).
Proof. intros store r store' [= _ <-]. done. Qed.
Lemma keeps_gets {A} (f : Store T -> A) : keeps_db (gets f).
Proof. intros store r store' [= _ <-]. done. Qed.
Lemma keeps_enter reason : keeps_db (enter reason).
Proof. intros store r store' [= _ <-]. done. Qed.
Lemma keeps_transactionError {A} env s cause : keeps_db (transactionError (A:=A) env s cause).
Proof. intros store r store'. rewrite transactionError_result. intros [= _ <-]. by case_match. Qed.
Lemma keeps_runAuditFault env stage : keeps_db (runAuditFault env stage).
Proof. unfold runAuditFault. case_match; [apply keeps_fail|apply keeps_mret]. Qed.
Lemma keeps_checkIdentity identity : keeps_db (checkIdentity identity).
Proof.
  unfold checkIdentity. case_match; [|apply keeps_mret].
  apply keeps_bind; [apply keeps_enter|intros; apply keeps_fail].
Qed.

End Steps.

(** Unfolds the successful steps of an action among the hypotheses. *)
Ltac action_hyps :=
  repeat (bool_hyps; match goal with
  | H : (_ ≫= _) _ = (Ok _, _) |- _ => apply action_bind_Ok in H as (? & ? & ? & ?)
  | H : check _ _ _ = (Ok _, _) |- _ => apply check_Ok in H as (? & ->)
  | H : runAuditFault _ _ _ = (Ok _, _) |- _ => apply runAuditFault_Ok in H as (? & ->)
  | H : sql _ _ _ _ = (Ok _, _) |- _ => apply sql_Ok in H as (? & ? & ? & ->)
  | H : transactionError _ _ _ _ = (Ok _, _) |- _ => by apply transactionError_not_Ok in H
  | H : query _ _ = inr _ |- _ => unfold query in H
  | H : gets _ _ = (Ok _, _) |- _ => unfold gets in H
  | H : modify _ _ = (Ok _, _) |- _ => unfold modify in H
  | H : mret _ _ = (Ok _, _) |- _ => unfold mret, action_ret in H
  | H : fail _ _ = (Ok _, _) |- _ => discriminate H
  | H : (Ok _, _) = (Ok _, _) |- _ => injection H as H; try subst
  | H : inr _ = inr _ |- _ => injection H as H; try subst
  | H : inl _ = inr _ |- _ => discriminate H
  end).

Create HintDb audit_store.
#[export] Hint Resolve keeps_bind keeps_check keeps_mret keeps_fail keeps_gets keeps_enter
  keeps_transactionError keeps_runAuditFault keeps_checkIdentity : audit_store.

Section Properties.
Context `{Hasher} {T : Type}.
Implicit Types (store : Store T) (db : Db T).

Lemma keeps_readyForRead env : keeps_db (T:=T) (readyForRead env).
Proof. unfold readyForRead. eauto 10 with audit_store. Qed.

Lemma keeps_readyForTransaction env : keeps_db (T:=T) (readyForTransaction env).
Proof.
  unfold readyForTransaction. apply keeps_bind; [apply keeps_readyForRead|intros _].
  apply keeps_bind; [apply keeps_gets|intros h].
  repeat case_match; eauto with audit_store.
Qed.

Lemma keeps_Read {A} env (f : Db T -> result A) : keeps_db (Read env f).
Proof.
  unfold Read. apply keeps_bind; [apply keeps_readyForRead|intros _].
  repeat case_match; eauto with audit_store;
    (apply keeps_bind; [apply keeps_gets|]; intros [x|e]; eauto with audit_store).
Qed.

Lemma keeps_rows {A B} (m : action (Store T) A) (none : result B) some :
  keeps_db m -> keeps_db (rows m none some).
Proof. intros Hm store r store'. unfold rows. destruct (m store) as [[x|e] s1] eqn:E; intros; simplify_eq; eauto. Qed.

Lemma keeps_lift {A} (r : result A) : keeps_db (T:=T) (lift r).
Proof. intros store r' store' [= _ <-]. done. Qed.

Lemma Read_Ok {A} env (f : Db T -> result A) store x store' :
  Read env f store = (Ok x, store') -> f (st_db store) = Ok x.
Proof.
  unfold Read. intros E. apply action_bind_Ok in E as ([] & s1 & E1 & E). apply keeps_readyForRead in E1.
  destruct (te_sql env BeginTx); [by apply transactionError_not_Ok in E|].
  destruct (te_sql env Business).
  { destruct (te_ctx env OnError); [discriminate E|by apply transactionError_not_Ok in E]. }
  apply action_bind_Ok in E as (answer & s2 & E2 & E). unfold gets in E2. injection E2 as <- <-. rewrite E1 in E.
  destruct (f (st_db store)); [|discriminate E]. destruct (te_sql env CommitTx); [by apply transactionError_not_Ok in E|].
  by injection E as <- <-.
Qed.

Lemma rows_Ok {A B} (m : action (Store T) A) e (some : A -> result B) store x store' :
  rows m (Err e) some store = (Ok x, store') -> exists y, m store = (Ok y, store') /\ some y = Ok x.
Proof.
  unfold rows. destruct (m store) as [[y|err] s1]; intros E; [injection E as E ->; eauto|].
  injection E as E _. by case_match.
Qed.

(** ** The shape of a successful append *)

Definition outboxRows (event : Event) (payload payloadDigest : string) (requirements : list OutboxRequirement)
    : list OutboxRow :=
  map (fun requirement =>
    newOutboxRow (e_EventID event) (ob_Destination requirement) payload payloadDigest
      (outboxDedupe (e_EventID event) (ob_Destination requirement) payloadDigest)
      (if ob_Enabled requirement then "pending" else "paused") (e_OccurredAt event)) requirements.

(** The database after one event was appended: what changed and nothing else. *)
Record appended (env : TxEnv) (request : intentRequest) (advance : bool)
    (business : option (RevisionToken -> T -> result T)) (db : Db T) (result : intentResult) (db' : Db T)
    (event : Event) (payload digest : string) (link : ChainLink) : Prop := {
  ap_tables : match business with
              | None => tables db' = tables db
              | Some change => change (mkRevisionToken (state_revision db) (recovery_epoch db)) (tables db) = Ok (tables db')
              end;
  ap_revision : state_revision db' = (if advance then state_revision db + 1 else state_revision db);
  ap_revision_bound : advance = true -> state_revision db < max_int64;
  ap_epoch : recovery_epoch db' = recovery_epoch db;
  ap_sequence : audit_sequence db' = audit_sequence db + 1;
  ap_sequence_bound : 0 <= audit_sequence db < max_int64;
  ap_instance : instance_id db' = instance_id db;
  ap_event : exists now, EventFromDraft (iq_Event request) (int64 (audit_sequence db + 1)) now (recovery_epoch db)
               (if advance then int64 (state_revision db + 1) else state_revision db) = Ok event;
  ap_canonical : CanonicalEvent event = Ok (payload, digest);
  ap_events : audit_events db' = audit_events db ++ [mkEventRow event payload digest];
  ap_links : audit_chain_links db' = audit_chain_links db ++ [link];
  ap_link : exists previous sequence,
      MakeChainLink event (iq_Context request) (instance_id db) sequence previous false = Ok link
      /\ match latestLink (recovery_epoch db) (audit_chain_links db) with
         | Some l => previous = k_LinkDigest l /\ sequence = int64 (k_SegmentSequence l + 1)
         | None => sequence = 1 /\ exists g, audit_epoch_genesis db' !! recovery_epoch db = Some g
                                            /\ gn_GenesisDigest g = previous
         end;
  ap_genesis : audit_epoch_genesis db ⊆ audit_epoch_genesis db'
               /\ forall e, e <> recovery_epoch db -> audit_epoch_genesis db' !! e = audit_epoch_genesis db !! e;
  ap_fresh : intent_keys db !! (ik_Scope (iq_Idempotency request), ik_KeyDigest (iq_Idempotency request)) = None;
  ap_intents : intent_keys db' =
      <[(ik_Scope (iq_Idempotency request), ik_KeyDigest (iq_Idempotency request)) :=
          mkIntentRow (ik_RequestDigest (iq_Idempotency request)) (ir_EventID result)
            (cm_StateRevision (ir_Commit result)) (recovery_epoch db) (e_OccurredAt event)]> (intent_keys db);
  ap_outbox : outbox db' = outbox db ++ outboxRows event payload digest (iq_Destinations request);
  ap_result : result = mkIntentResult (mkCommit advance
      (if advance then int64 (state_revision db + 1) else state_revision db) (recovery_epoch db))
      (int64 (audit_sequence db + 1)) true
}.

Lemma ensureAuditGenesis_Ok env instanceID epoch legacy store digest sequence store' :
  ensureAuditGenesis env instanceID epoch legacy store = (Ok (digest, sequence), store') ->
  sequence = 1 /\ (exists g, audit_epoch_genesis (st_db store') !! epoch = Some g /\ gn_GenesisDigest g = digest)
  /\ (store' = store \/ exists row, audit_epoch_genesis (st_db store) !! epoch = None
        /\ store' = withDb (addGenesis epoch row (st_db store)) store).
Proof.
  unfold ensureAuditGenesis. intros E. action_hyps.
  destruct (audit_epoch_genesis (st_db store) !! epoch) as [g|] eqn:Eg; cbn [fmap option_fmap option_map] in *.
  - action_hyps. split; [done|]. split; [by exists g|]. left. by destruct store.
  - case_match; [by action_hyps|]. case_match; [by action_hyps|]. action_hyps.
    unfold insertGenesis in *. case_match; [done|]. simplify_eq. action_hyps.
    split; [done|]. split.
    + eexists. split; [apply lookup_insert_eq|done].
    + right. eexists. split; [done|]. by destruct store.
Qed.

Lemma withDb_same store : withDb (st_db store) store = store.
Proof. by destruct store. Qed.

Lemma withDb_withDb db db' store : withDb db (withDb db' store) = withDb db store.
Proof. done. Qed.

Lemma readRevision_Ok env store current sequence store' :
  readRevisionAndAuditSequence env store = (Ok (current, sequence), store') ->
  store' = store /\ current = mkRevisionToken (state_revision (st_db store)) (recovery_epoch (st_db store))
  /\ sequence = audit_sequence (st_db store) /\ 0 <= sequence.
Proof.
  unfold readRevisionAndAuditSequence. intros E. action_hyps.
  case_match eqn:Es; action_hyps; bool_hyps. cbn in *. rewrite withDb_same. by repeat split.
Qed.

Lemma validateReference_Ok env draft next correction reference store u store' :
  validateReference env draft next correction reference store = (Ok u, store') -> store' = store.
Proof.
  unfold validateReference. destruct reference; intros E; action_hyps; [|done].
  case_match; action_hyps. done.
Qed.

Lemma appendOutbox_Ok env index event payload digest reqs store u store' :
  appendOutbox env index event payload digest reqs store = (Ok u, store') ->
  exists db', store' = withDb db' store
    /\ db' = mkDb (state_revision (st_db store)) (recovery_epoch (st_db store)) (audit_sequence (st_db store))
               (instance_id (st_db store)) (audit_events (st_db store)) (audit_chain_links (st_db store))
               (audit_epoch_genesis (st_db store)) (intent_keys (st_db store))
               (outbox (st_db store) ++ outboxRows event payload digest reqs) (tables (st_db store)).
Proof.
  revert index store. induction reqs as [|req reqs IH]; intros index store E; cbn [appendOutbox] in E.
  - action_hyps. eexists. split; [|reflexivity]. cbn. rewrite app_nil_r. by destruct store' as [[] ? ? ?].
  - action_hyps. unfold insertOutbox in *. case_match; [done|]. action_hyps.
    match goal with H : appendOutbox _ _ _ _ _ _ _ = _ |- _ => apply IH in H as (db' & -> & ->) end. eexists. split; [done|].
    unfold addOutbox. cbn. by rewrite <- app_assoc.
Qed.

Lemma runBusiness_Ok env current business store u store' :
  runBusiness env current business store = (Ok u, store') ->
  exists t, store' = withDb (setTables t (st_db store)) store
    /\ match business with
       | None => t = tables (st_db store)
       | Some change => change current (tables (st_db store)) = Ok t
       end.
Proof.
  unfold runBusiness. destruct business as [change|]; intros E.
  - case_match; [done|]. action_hyps. case_match eqn:Ec; [|done]. action_hyps. by eexists.
  - action_hyps. eexists. split; [|done]. by destruct store' as [[] ? ? ?].
Qed.

Lemma appendAuditLink_Ok env event ids store link store' :
  appendAuditLink env event ids store = (Ok link, store') ->
  exists genesis previous sequence,
    store' = withDb (mkDb (state_revision (st_db store)) (recovery_epoch (st_db store)) (audit_sequence (st_db store))
               (instance_id (st_db store)) (audit_events (st_db store)) (audit_chain_links (st_db store) ++ [link])
               genesis (intent_keys (st_db store)) (outbox (st_db store)) (tables (st_db store))) store
    /\ MakeChainLink event ids (instance_id (st_db store)) sequence previous false = Ok link
    /\ match latestLink (e_RecoveryEpoch event) (audit_chain_links (st_db store)) with
       | Some l => previous = k_LinkDigest l /\ sequence = int64 (k_SegmentSequence l + 1)
       | None => sequence = 1 /\ exists g, genesis !! e_RecoveryEpoch event = Some g /\ gn_GenesisDigest g = previous
       end
    /\ audit_epoch_genesis (st_db store) ⊆ genesis
    /\ (forall e, e <> e_RecoveryEpoch event -> genesis !! e = audit_epoch_genesis (st_db store) !! e).
Proof.
  unfold appendAuditLink. intros E. action_hyps. rewrite withDb_same in *.
  match goal with H : ensureAuditGenesis _ _ _ _ _ = (Ok ?p, _) |- _ => destruct p as [gd gs];
    apply ensureAuditGenesis_Ok in H as (-> & Hg & Hs) end.
  rename x2 into store1.
  assert (exists genesis, store1 = withDb (mkDb (state_revision (st_db store)) (recovery_epoch (st_db store))
      (audit_sequence (st_db store)) (instance_id (st_db store)) (audit_events (st_db store))
      (audit_chain_links (st_db store)) genesis (intent_keys (st_db store)) (outbox (st_db store))
      (tables (st_db store))) store
      /\ audit_epoch_genesis (st_db store) ⊆ genesis
      /\ (forall e, e <> e_RecoveryEpoch event -> genesis !! e = audit_epoch_genesis (st_db store) !! e))
    as (genesis & -> & Hsub & Hother).
  { destruct Hs as [->|(row & Hn & ->)].
    - exists (audit_epoch_genesis (st_db store)). split; [by destruct store as [[] ? ? ?]|done].
    - exists (<[e_RecoveryEpoch event := row]> (audit_epoch_genesis (st_db store))).
      split; [done|]. split; [by apply insert_subseteq|]. intros e He. by rewrite lookup_insert_ne. }
  clear Hs. cbn [st_db withDb audit_chain_links audit_epoch_genesis instance_id] in *.
  match goal with H : (let '(_, _) := ?p in _) _ = _ |- _ => destruct p as [previous sequence] eqn:Ep end.
  destruct (MakeChainLink event ids (instance_id (st_db store)) sequence previous false) as [l|] eqn:Em;
    [|by action_hyps].
  destruct (CanonicalContext ids) as [[c d]|]; [|by action_hyps]. action_hyps.
  unfold insertLink in *. case_match; [done|]. action_hyps.
  exists genesis, previous, sequence. split; [done|]. split; [done|]. split; [|done].
  destruct (latestLink _ _); simplify_eq; [done|]. split; [done|]. exact Hg.
Qed.

Lemma advanceRevision_Ok env advance current store revision store' :
  advanceRevision env advance current store = (Ok revision, store') ->
  rt_StateRevision current = state_revision (st_db store) ->
  store' = withDb (setMeta (if advance then state_revision (st_db store) + 1 else state_revision (st_db store))
                     (audit_sequence (st_db store)) (st_db store)) store
  /\ revision = (if advance then int64 (state_revision (st_db store) + 1) else state_revision (st_db store))
  /\ (advance = true -> state_revision (st_db store) < max_int64).
Proof.
  unfold advanceRevision. intros E Hc. destruct advance.
  - action_hyps. unfold updateRevision in *. subst. case_match; [|by simplify_eq].
    case_match; [done|]. action_hyps. by rewrite Hc.
  - action_hyps. split; [by destruct store' as [[] ? ? ?]|done].
Qed.

Lemma updateSequence_Ok sequence revision epoch db rows db' :
  updateSequence sequence revision epoch db = inr (rows, db') -> rows = 1 ->
  db' = setMeta (state_revision db) (audit_sequence db + 1) db /\ audit_sequence db < max_int64
  /\ sequence = audit_sequence db /\ revision = state_revision db.
Proof. unfold updateSequence. intros E ->. case_match; [|done]. case_match; [done|]. bool_hyps. by simplify_eq. Qed.

Lemma EventFromDraft_fields draft id t epoch revision event :
  EventFromDraft draft id t epoch revision = Ok event ->
  e_EventID event = id /\ e_RecoveryEpoch event = epoch /\ e_StateRevision event = revision.
Proof. unfold EventFromDraft. intros E. by result_hyps. Qed.

Lemma insertEvent_Ok row db u db' : insertEvent row db = inr (u, db') -> db' = addEvent row db.
Proof. unfold insertEvent. case_match; [done|]. intros E. by simplify_eq. Qed.

Lemma insertIntent_Ok key row db u db' : insertIntent key row db = inr (u, db') -> db' = addIntent key row db.
Proof. unfold insertIntent. case_match; [done|]. intros E. by simplify_eq. Qed.

Lemma appendAuditInTx_Ok env request advance business store result store' :
  appendAuditInTx env request advance business store = (Ok result, store') ->
  (exists row, intent_keys (st_db store) !! (ik_Scope (iq_Idempotency request), ik_KeyDigest (iq_Idempotency request)) = Some row
     /\ in_RequestDigest row = ik_RequestDigest (iq_Idempotency request) /\ store' = store
     /\ result = mkIntentResult (mkCommit false (in_StateRevision row) (in_RecoveryEpoch row)) (in_EventID row) false)
  \/ exists event payload digest link,
       appended env request advance business (st_db store) result (st_db store') event payload digest link
       /\ store' = withDb (st_db store') store.
Proof.
  unfold appendAuditInTx. intros E. apply action_bind_Ok in E as ([current sequence] & s1 & E1 & E).
  apply readRevision_Ok in E1 as (-> & -> & -> & Hseq).
  apply action_bind_Ok in E as ([] & s2 & E1 & E).
  assert (s2 = store) as -> by (destruct (iq_Expected request); action_hyps; done). clear E1.
  apply action_bind_Ok in E as (existing & s2 & E1 & E). action_hyps. rewrite withDb_same in *.
  destruct (intent_keys (st_db store) !! _) as [row|] eqn:Ek.
  { left. exists row. action_hyps. done. }
  right. apply action_bind_Ok in E as (u & s1 & E1 & E). apply runBusiness_Ok in E1 as (t & -> & Ht).
  apply action_bind_Ok in E as (? & ? & E1 & E). apply runAuditFault_Ok in E1 as (_ & ->).
  apply action_bind_Ok in E as (? & ? & E1 & E). apply check_Ok in E1 as (_ & ->).
  apply action_bind_Ok in E as (revision & s2 & E1 & E).
  apply advanceRevision_Ok in E1 as (-> & -> & Hb); [|done]. cbn [st_db withDb setTables state_revision] in Hb.
  action_hyps.
  match goal with H : updateSequence _ _ _ _ = inr _ |- _ => apply updateSequence_Ok in H as (-> & Hs & _ & _); [|done] end.
  repeat match goal with H : validateEventReferences _ _ _ _ = (Ok _, _) |- _ => unfold validateEventReferences in H; action_hyps end.
  repeat match goal with H : validateReference _ _ _ _ _ _ = (Ok _, _) |- _ => apply validateReference_Ok in H as -> end.
  match goal with H : match EventFromDraft _ _ ?now _ _ with _ => _ end _ = _ |- _ =>
    destruct (EventFromDraft _ _ now _ _) as [event|] eqn:Ee in H; [|done] end.
  destruct (CanonicalEvent event) as [[payload digest]|] eqn:Ec; [|by action_hyps]. action_hyps.
  match goal with H : insertEvent _ _ = _ |- _ => apply insertEvent_Ok in H as -> end.
  match goal with H : appendAuditLink _ _ _ _ = _ |- _ =>
    apply appendAuditLink_Ok in H as (genesis & previous & sq & -> & Hm & Hl & Hg & Hg') end.
  match goal with H : insertIntent _ _ _ = _ |- _ => apply insertIntent_Ok in H as -> end.
  match goal with H : appendOutbox _ _ _ _ _ _ _ = _ |- _ => apply appendOutbox_Ok in H as (db' & -> & ->) end.
  exists event, payload, digest. eexists. split; [|by destruct store].
  cbn [st_db withDb setTables setMeta addEvent state_revision recovery_epoch audit_sequence instance_id audit_events
       audit_chain_links audit_epoch_genesis intent_keys outbox tables rt_StateRevision rt_RecoveryEpoch] in *.
  pose proof (EventFromDraft_fields _ _ _ _ _ _ Ee) as (_ & He & _). rewrite He in *.
  constructor; cbn; eauto; by destruct business.
Qed.

(** ** The outcome of an intent *)

Lemma inTransaction_Ok env request advance business store result store' :
  inTransaction env request advance business store = (Ok result, store') ->
  appendAuditInTx env request advance business store = (Ok result, store').
Proof.
  unfold inTransaction. intros E.
  destruct (appendAuditInTx env request advance business store) as [[res|err] s1]; [|by case_match].
  apply action_bind_Ok in E as (u & s2 & E1 & E).
  unfold checkIdentity in E1. case_match; [by action_hyps|]. action_hyps.
  case_match; by action_hyps.
Qed.

Lemma rollback_Err {A} db (m : action (Store T) A) store e store' :
  rollback db m store = (Err e, store') -> st_db store' = db.
Proof. unfold rollback. destruct (m store) as [[]]; intros; by simplify_eq. Qed.

Lemma rollback_Ok {A} db (m : action (Store T) A) store x store' :
  rollback db m store = (Ok x, store') <-> m store = (Ok x, store').
Proof. unfold rollback. destruct (m store) as [[]]; naive_solver. Qed.

Lemma committed_result env result store r store' :
  committed env result store = (r, store') ->
  st_db store' = st_db store
  /\ ((r = Ok result /\ (h_MutationEnabled (st_health store') = h_MutationEnabled (st_health store))
       /\ h_Revision (st_health store') =
          (if cm_Changed (ir_Commit result)
           then mkRevisionToken (cm_StateRevision (ir_Commit result)) (cm_RecoveryEpoch (ir_Commit result))
           else h_Revision (st_health store)))
      \/ (exists e, r = Err e) /\ h_MutationEnabled (st_health store') = false).
Proof.
  unfold committed, enter, modify, fail, mret, action_ret, mbind, action_bind. intros E.
  destruct (ir_Created result), (cm_Changed (ir_Commit result)), (te_auditFault env auditAfterCommit);
    simplify_eq/=; eauto 10.
Qed.

Lemma failed_commit env db cause store r store' :
  ((if te_commitDurable env then mret tt else modify (withDb db));;
   enter "commit-failure";; transactionError (A:=intentResult) env CommitTx cause) store = (r, store') ->
  st_db store' = (if te_commitDurable env then st_db store else db)
  /\ (exists e, r = Err e) /\ h_MutationEnabled (st_health store') = false.
Proof.
  unfold mbind, action_bind, enter, modify, mret, action_ret. intros E.
  destruct (te_commitDurable env); rewrite transactionError_result in E; simplify_eq;
    (split; [by case_match|]); (split; [eauto|]); by case_match.
Qed.

(** What a call of [executeAuditIntent] can do to the database: nothing, or one
    complete append. A complete append that is not reported as a success has
    disabled every further mutation. *)
Lemma executeAuditIntent_outcome env request advance business store r store' :
  executeAuditIntent env request advance business store = (r, store') ->
  (st_db store' = st_db store
   /\ forall result, r = Ok result -> exists row,
        intent_keys (st_db store) !! (ik_Scope (iq_Idempotency request), ik_KeyDigest (iq_Idempotency request)) = Some row
        /\ in_RequestDigest row = ik_RequestDigest (iq_Idempotency request)
        /\ result = mkIntentResult (mkCommit false (in_StateRevision row) (in_RecoveryEpoch row)) (in_EventID row) false)
  \/ exists result event payload digest link,
       appended env request advance business (st_db store) result (st_db store') event payload digest link
       /\ (r = Ok result \/ (exists e, r = Err e) /\ h_MutationEnabled (st_health store') = false).
Proof.
  unfold executeAuditIntent. intros E. case_match; [left; by simplify_eq|]. case_match; [left; by simplify_eq|].
  unfold mbind at 1, action_bind in E.
  destruct (readyForTransaction env store) as [[u|e] s1] eqn:Er.
  2: { left. simplify_eq. by rewrite (keeps_readyForTransaction _ _ _ _ Er). }
  pose proof (keeps_readyForTransaction _ _ _ _ Er) as Hs1.
  destruct (te_sql env BeginTx).
  { left. rewrite transactionError_result in E. simplify_eq. split; [rewrite <- Hs1; by split_match|done]. }
  unfold mbind at 1, action_bind in E.
  destruct (rollback (st_db store) (inTransaction env request advance business) s1) as [[result|e] s2] eqn:Et.
  2: { left. simplify_eq. by rewrite (rollback_Err _ _ _ _ _ Et). }
  apply rollback_Ok, inTransaction_Ok, appendAuditInTx_Ok in Et. rewrite Hs1 in Et.
  assert (Hend : exists durable, st_db store' = (if durable : bool then st_db s2 else st_db store)
    /\ (durable = true /\ r = Ok result \/ (exists e, r = Err e) /\ h_MutationEnabled (st_health store') = false)).
  { destruct (te_sql env CommitTx) as [cause|].
    - apply failed_commit in E as (-> & ? & ?). exists (te_commitDurable env). auto.
    - exists true. by apply committed_result in E as (-> & [(-> & _)|?]); auto. }
  destruct Hend as (durable & Hdb & Hr).
  destruct Et as [(row & Hk & Hd & -> & ->)|(event & payload & digest & link & Ha & Hs2)].
  - left. split; [by destruct durable; rewrite Hdb|]. intros res ->. exists row.
    destruct Hr as [[_ Hr]|[[? ?] _]]; by simplify_eq.
  - destruct durable.
    + right. exists result, event, payload, digest, link. rewrite Hdb. split; [done|]. naive_solver.
    + left. split; [done|]. intros res ->. naive_solver.
Qed.

(** ** The audit invariant *)

Definition earlier (x l : ChainLink) : Prop :=
  k_RecoveryEpoch x < k_RecoveryEpoch l
  \/ k_RecoveryEpoch x = k_RecoveryEpoch l /\ k_SegmentSequence x < k_SegmentSequence l.

Definition linkRange (l : ChainLink) : Prop :=
  in_int64 (k_RecoveryEpoch l) /\ in_int64 (k_SegmentSequence l).

Lemma int64_succ z : in_int64 z -> 0 <= z -> 0 <= int64 (z + 1) -> int64 (z + 1) = z + 1.
Proof.
  intros Hz H0 Hp. destruct (decide (z < max_int64)) as [Hlt|Hge].
  - apply int64_id. unfold in_int64, min_int64, max_int64 in *. lia.
  - exfalso. assert (z = max_int64) as -> by (unfold in_int64 in Hz; lia). by vm_compute in Hp.
Qed.

Lemma follows_earlier p l e e' :
  linkRange p -> describes p e -> describes l e' -> follows p l -> earlier p l.
Proof.
  intros [He Hs] D D' [_ Hf].
  pose proof (CanonicalEvent_Ok _ _ _ (desc_event _ _ D)) as (_ & _ & _ & Hep & _).
  pose proof (CanonicalEvent_Ok _ _ _ (desc_event _ _ D')) as (_ & _ & _ & Hep' & _).
  rewrite <- (desc_epoch _ _ D) in Hep. rewrite <- (desc_epoch _ _ D') in Hep'.
  pose proof (desc_sequence _ _ D). pose proof (desc_sequence _ _ D').
  unfold earlier. destruct Hf as [(E & _ & E' & _)|(_ & E & _)].
  - right. rewrite E' in *. rewrite int64_succ in * by (done || lia). lia.
  - left. rewrite E in *. rewrite int64_succ in * by (done || lia). lia.
Qed.

Lemma history_earlier links l events :
  Forall linkRange links -> history None (links ++ [l]) events -> Forall (fun x => earlier x l) links.
Proof.
  revert l events. induction links as [|p links IH] using rev_ind; intros l events Hr Hh; [done|].
  destruct events as [|e events _] using rev_ind; [by apply history_length in Hh; rewrite length_app in Hh; cbn in Hh; lia|].
  apply history_snoc in Hh as (Hh & L & D). rewrite last_snoc in L. cbn [linksTo] in L.
  apply Forall_app in Hr as [Hr Hp]. apply Forall_cons in Hp as [Hp _].
  destruct (history_last _ _ _ p Hh) as [e' D']; [by rewrite last_snoc|].
  pose proof (follows_earlier _ _ _ _ Hp D' D L) as Hpl.
  specialize (IH _ _ Hr Hh). apply Forall_app; split; [|by constructor].
  eapply Forall_impl; [exact IH|]. unfold earlier in *. cbn. lia.
Qed.

Definition latestStep (epoch : Z) (best : option ChainLink) (l : ChainLink) : option ChainLink :=
  if k_RecoveryEpoch l == epoch then
    match best with
    | Some b => if k_SegmentSequence b <? k_SegmentSequence l then Some l else best
    | None => Some l
    end
  else best.

Lemma latestLink_from epoch links best :
  fold_left (latestStep epoch) links best = best
  \/ exists l, fold_left (latestStep epoch) links best = Some l /\ l ∈ links /\ k_RecoveryEpoch l = epoch.
Proof.
  revert best. induction links as [|l links IH]; intros best; [by left|]. cbn [fold_left].
  destruct (IH (latestStep epoch best l)) as [->|(x & -> & Hx & He)].
  - unfold latestStep. case_bool_decide; [|by left].
    destruct best; [split_match|]; [|by left|]; right; exists l; set_solver.
  - right. exists x. set_solver.
Qed.

Lemma latestLink_snoc links l :
  Forall (fun x => earlier x l) links -> latestLink (k_RecoveryEpoch l) (links ++ [l]) = Some l.
Proof.
  intros Hf. unfold latestLink. rewrite fold_left_app. cbn [fold_left].
  change (latestStep (k_RecoveryEpoch l) (fold_left (latestStep (k_RecoveryEpoch l)) links None) l = Some l).
  unfold latestStep at 1. rewrite bool_decide_refl.
  destruct (latestLink_from (k_RecoveryEpoch l) links None) as [->|(x & -> & Hx & He)]; [done|].
  eapply Forall_forall in Hf; [|exact Hx]. unfold earlier in Hf.
  by rewrite (proj2 (Z.ltb_lt _ _)) by lia.
Qed.

Lemma latestLink_None epoch links :
  Forall (fun x => k_RecoveryEpoch x < epoch) links -> latestLink epoch links = None.
Proof.
  intros Hf. destruct (latestLink_from epoch links None) as [E|(x & _ & Hx & He)]; [exact E|].
  eapply Forall_forall in Hf; [|exact Hx]. lia.
Qed.

(** The well-formed audit tables: consecutive event numbers, canonical stored
    payloads, a verified chain whose segments start at the genesis of their
    epoch, and a current epoch that is the last link's or the next one. *)
Record audit_wf (db : Db T) : Prop := {
  wf_epoch : in_int64 (recovery_epoch db);
  wf_sequence : audit_sequence db = Z.of_nat (length (audit_events db));
  wf_sequence_bound : audit_sequence db <= max_int64;
  wf_rows : forall i row, audit_events db !! i = Some row ->
      e_EventID (ev_Event row) = Z.of_nat i + 1
      /\ CanonicalEvent (ev_Event row) = Ok (ev_Payload row, ev_PayloadSHA256 row);
  wf_history : history None (audit_chain_links db) (map ev_Event (audit_events db));
  wf_links : Forall (fun l => linkRange l /\ k_InstanceID l = instance_id db
                      /\ k_RecoveryEpoch l <= recovery_epoch db
                      /\ (k_SegmentSequence l = 1 -> exists g,
                            audit_epoch_genesis db !! k_RecoveryEpoch l = Some g
                            /\ gn_GenesisDigest g = k_PreviousDigest l)) (audit_chain_links db);
  wf_first : forall l, head (audit_chain_links db) = Some l -> k_SegmentSequence l = 1;
  wf_current : forall l, last (audit_chain_links db) = Some l -> recovery_epoch db <= k_RecoveryEpoch l + 1
}.

Lemma wf_lengths db : audit_wf db -> length (audit_chain_links db) = length (audit_events db).
Proof. intros W. by rewrite (history_length _ _ _ (wf_history _ W)), length_map. Qed.

Lemma wf_ranges db : audit_wf db -> Forall linkRange (audit_chain_links db).
Proof. intros W. eapply Forall_impl; [exact (wf_links _ W)|]. by intros l [? _]. Qed.

(** The link the writer appends to a well-formed chain follows its last link. *)
Lemma appended_link_follows db link event previous sequence ids :
  audit_wf db ->
  e_EventID event = int64 (audit_sequence db + 1) -> e_RecoveryEpoch event = recovery_epoch db ->
  MakeChainLink event ids (instance_id db) sequence previous false = Ok link ->
  match latestLink (recovery_epoch db) (audit_chain_links db) with
  | Some l => previous = k_LinkDigest l /\ sequence = int64 (k_SegmentSequence l + 1)
  | None => sequence = 1
  end ->
  linksTo (match last (audit_chain_links db) with Some l => Some l | None => None end) link
  /\ (audit_chain_links db = [] -> sequence = 1).
Proof.
  intros W Hid Hep Hm Hl. apply MakeChainLink_Ok in Hm as (D & Hi & _ & Hs & Hp & _ & Hr & Hk).
  pose proof (wf_lengths _ W) as Hlen. pose proof (wf_history _ W) as Hh.
  destruct (audit_chain_links db) as [|p links _] eqn:El using rev_ind; [by split|].
  rewrite last_snoc. cbn [linksTo]. split; [|by destruct links].
  rewrite length_app in Hlen. cbn in Hlen.
  destruct (audit_events db) as [|row rows _] eqn:Ee using rev_ind; [cbn in Hlen; lia|].
  rewrite map_app in Hh. cbn [map] in Hh. pose proof Hh as Hh0. apply history_snoc in Hh as (_ & _ & Dp).
  pose proof (wf_ranges _ W) as Hrg. rewrite El in Hrg. apply Forall_app in Hrg as [Hrg Hrp].
  apply Forall_cons in Hrp as [Hrp _]. pose proof (history_earlier _ _ _ Hrg Hh0) as Hearly.
  pose proof (wf_links _ W) as Hlinks. rewrite El in Hlinks. apply Forall_app in Hlinks as [_ Hlp].
  apply Forall_cons in Hlp as [(_ & Hpi & Hpe & _) _].
  pose proof (wf_current _ W p) as Hcur. rewrite El, last_snoc in Hcur. specialize (Hcur eq_refl).
  assert (Hpid : k_EventID p = audit_sequence db).
  { rewrite (desc_id _ _ Dp), (wf_sequence _ W), Ee, length_app. cbn.
    destruct (wf_rows _ W (length rows) row) as [-> _]; [|lia].
    rewrite Ee. by rewrite lookup_app_r, Nat.sub_diag by lia. }
  split; [by rewrite Hk, Hid, Hpid|].
  destruct (decide (k_RecoveryEpoch p = recovery_epoch db)) as [E|E].
  - left. rewrite <- E, latestLink_snoc in Hl by done. destruct Hl as [-> ->].
    rewrite Hr, Hep, Hi, Hs, Hp. by repeat split.
  - right. rewrite latestLink_None in Hl.
    2: { apply Forall_app; split; [|constructor; [lia|constructor]].
         eapply Forall_impl; [exact Hearly|]. unfold earlier. cbn. lia. }
    pose proof (wf_epoch _ W). rewrite Hr, Hep, Hs, Hl. split; [congruence|]. split; [|done].
    replace (k_RecoveryEpoch p + 1) with (recovery_epoch db) by lia. by rewrite int64_id.
Qed.

Lemma history_describes prior links events l :
  history prior links events -> l ∈ links -> exists e, describes l e.
Proof.
  induction 1 as [|prior x links e events Hx Hd Hh IH]; [set_solver|].
  intros [->|Hl]%elem_of_cons; eauto.
Qed.

(** A successor inside a segment is never the first link of a segment. *)
Lemma latest_sequence db l :
  audit_wf db -> latestLink (recovery_epoch db) (audit_chain_links db) = Some l ->
  int64 (k_SegmentSequence l + 1) <> 1.
Proof.
  intros W El. destruct (latestLink_from (recovery_epoch db) (audit_chain_links db) None) as [E|(x & E & Hx & _)];
    unfold latestLink in El; change (fold_left (latestStep (recovery_epoch db)) (audit_chain_links db) None = Some l) in El;
    rewrite E in El; [done|]. simplify_eq.
  destruct (history_describes _ _ _ _ (wf_history _ W) Hx) as [e D]. pose proof (desc_sequence _ _ D).
  pose proof (wf_ranges _ W) as Hr. eapply Forall_forall in Hr as [_ Hr]; [|exact Hx].
  intros Hone. unfold int64, in_int64, min_int64, max_int64 in *. zdiv.
Qed.

Lemma appended_wf env request advance business db result db' event payload digest link :
  audit_wf db -> appended env request advance business db result db' event payload digest link -> audit_wf db'.
Proof.
  intros W A. destruct (ap_event _ _ _ _ _ _ _ _ _ _ _ A) as [now Ee].
  pose proof (EventFromDraft_fields _ _ _ _ _ _ Ee) as (Hid & Hep & _).
  destruct (ap_link _ _ _ _ _ _ _ _ _ _ _ A) as (previous & sequence & Hm & Hl).
  pose proof (MakeChainLink_Ok _ _ _ _ _ _ _ Hm) as (D & Hi & _ & Hs & Hp & _ & Hr & Hk).
  pose proof (ap_sequence_bound _ _ _ _ _ _ _ _ _ _ _ A) as Hsb.
  assert (Hlast : linksTo (match last (audit_chain_links db) with Some l => Some l | None => None end) link
                  /\ (audit_chain_links db = [] -> sequence = 1)).
  { eapply appended_link_follows; try eassumption. destruct (latestLink _ _); tauto. }
  destruct Hlast as [Hlast Hfirst]. destruct (ap_genesis _ _ _ _ _ _ _ _ _ _ _ A) as [Hsub Hother].
  assert (Hext : forall e g, audit_epoch_genesis db !! e = Some g -> audit_epoch_genesis db' !! e = Some g)
    by (intros; by eapply lookup_weaken).
  assert (Hseq : int64 (audit_sequence db + 1) = audit_sequence db + 1)
    by (apply int64_id; unfold in_int64, min_int64 in *; lia).
  constructor.
  - rewrite (ap_epoch _ _ _ _ _ _ _ _ _ _ _ A). apply W.
  - rewrite (ap_sequence _ _ _ _ _ _ _ _ _ _ _ A), (ap_events _ _ _ _ _ _ _ _ _ _ _ A), length_app, (wf_sequence _ W).
    cbn. lia.
  - rewrite (ap_sequence _ _ _ _ _ _ _ _ _ _ _ A). lia.
  - rewrite (ap_events _ _ _ _ _ _ _ _ _ _ _ A). intros i row Hi'. apply lookup_app_Some in Hi' as [Hi'|[Hge Hi']].
    + by apply (wf_rows _ W).
    + apply list_lookup_singleton_Some in Hi' as [Hz <-]. cbn [ev_Event ev_Payload ev_PayloadSHA256].
      split; [|apply (ap_canonical _ _ _ _ _ _ _ _ _ _ _ A)].
      rewrite Hid, Hseq, (wf_sequence _ W). lia.
  - rewrite (ap_links _ _ _ _ _ _ _ _ _ _ _ A), (ap_events _ _ _ _ _ _ _ _ _ _ _ A), map_app. cbn [map].
    apply history_snoc. split; [apply W|]. split; [exact Hlast|exact D].
  - rewrite (ap_links _ _ _ _ _ _ _ _ _ _ _ A), (ap_epoch _ _ _ _ _ _ _ _ _ _ _ A), (ap_instance _ _ _ _ _ _ _ _ _ _ _ A).
    apply Forall_app; split.
    + eapply Forall_impl; [apply W|]. cbn. intros l (? & ? & ? & Hg). split_and!; try done.
      intros Hone. destruct (Hg Hone) as (g & ? & ?). eauto.
    + constructor; [|constructor]. rewrite Hr, Hep, Hi, Hs, Hp. unfold linkRange. rewrite Hr, Hep, Hs.
      split_and!; [apply W| |done|lia|].
      * destruct (latestLink _ _); [destruct Hl as [_ ->]; apply int64_range|destruct Hl as [-> _]].
        unfold in_int64, min_int64, max_int64. lia.
      * intros Hone. destruct (latestLink (recovery_epoch db) (audit_chain_links db)) as [l|] eqn:El; [|naive_solver].
        exfalso. destruct Hl as [_ Hl]. apply (latest_sequence db l W El). congruence.
  - rewrite (ap_links _ _ _ _ _ _ _ _ _ _ _ A). intros l. destruct (audit_chain_links db) as [|x links] eqn:El; cbn.
    + intros [= <-]. rewrite Hs. by apply Hfirst.
    + intros [= <-]. apply (wf_first _ W). by rewrite El.
  - rewrite (ap_links _ _ _ _ _ _ _ _ _ _ _ A), last_snoc, (ap_epoch _ _ _ _ _ _ _ _ _ _ _ A).
    intros l [= <-]. rewrite Hr, Hep. lia.
Qed.

Lemma executeAuditIntent_wf env request advance business store r store' :
  audit_wf (st_db store) -> executeAuditIntent env request advance business store = (r, store') ->
  audit_wf (st_db store').
Proof.
  intros W E. apply executeAuditIntent_outcome in E as [[-> _]|(res & event & p & d & l & A & _)]; [done|].
  by eapply appended_wf.
Qed.

Lemma wf_verified db : audit_wf db -> (VerifyLocal (audit_chain_links db) (map ev_Event (audit_events db)) []).2 = None.
Proof.
  intros W. apply VerifyLocal_accepts. pose proof (wf_lengths _ W) as Hl.
  destruct (audit_chain_links db) as [|l ls] eqn:E; [left|right].
  - split; [done|]. by destruct (audit_events db).
  - split; [done|]. split; [rewrite <- E; apply W|constructor].
Qed.

Lemma readyForTransaction_quiet clock store :
  st_closed store = false -> h_Ready (st_health store) = true -> h_MutationEnabled (st_health store) = true ->
  readyForTransaction (quietEnv clock) store = (Ok tt, store).
Proof.
  intros Hc Hr Hm. destruct store as [db [] closed signals]. cbn in *. by subst.
Qed.

Lemma readRevision_quiet clock store :
  0 <= audit_sequence (st_db store) ->
  readRevisionAndAuditSequence (quietEnv clock) store =
  (Ok (mkRevisionToken (state_revision (st_db store)) (recovery_epoch (st_db store)), audit_sequence (st_db store)), store).
Proof.
  intros Hs. unfold readRevisionAndAuditSequence, sql, query, mbind, action_bind. cbn.
  by rewrite (proj2 (Z.ltb_ge _ _) Hs), withDb_same.
Qed.

(** C28: every call of the store's writer, under any context, clock, SQL failure,
    hook and commit outcome, either leaves the database exactly as it was, in
    which case a success can only be the replay of a recorded intent with the
    same request digest, or performs one complete append: the business change,
    the revision, one event, one chain link, the intent key and the outbox rows
    together; and a complete append that is not reported as a success has put
    the store in safe mode with mutation disabled. *)
Theorem audit_intent_all_or_nothing env request advance business store r store' :
  executeAuditIntent env request advance business store = (r, store') ->
  (st_db store' = st_db store
   /\ forall result, r = Ok result -> exists row,
        intent_keys (st_db store) !! (ik_Scope (iq_Idempotency request), ik_KeyDigest (iq_Idempotency request)) = Some row
        /\ in_RequestDigest row = ik_RequestDigest (iq_Idempotency request)
        /\ result = mkIntentResult (mkCommit false (in_StateRevision row) (in_RecoveryEpoch row)) (in_EventID row) false)
  \/ exists result event payload digest link,
       appended env request advance business (st_db store) result (st_db store') event payload digest link
       /\ (r = Ok result \/ (exists e, r = Err e) /\ h_MutationEnabled (st_health store') = false).
Proof. apply executeAuditIntent_outcome. Qed.

(** C7: the writer keeps the audit tables well formed whatever happens during
    the call, and well-formed tables are a history the independent verifier
    accepts: no interleaving of failures makes the control plane write a chain
    that [VerifyLocal] would report as an incident. *)
Theorem audit_writer_keeps_verified_chain env request advance business store r store' :
  audit_wf (st_db store) -> executeAuditIntent env request advance business store = (r, store') ->
  audit_wf (st_db store')
  /\ (VerifyLocal (audit_chain_links (st_db store')) (map ev_Event (audit_events (st_db store'))) []).2 = None.
Proof.
  intros W E. pose proof (executeAuditIntent_wf _ _ _ _ _ _ _ W E) as W'. by split; [|apply wf_verified].
Qed.

(** An intent key is bound for good: once a key is recorded, no later call
    with it changes the database or runs its business change again, a call with
    another request digest never succeeds, and a call with the same digest on a
    ready store returns the recorded event and revision. *)
Theorem audit_intent_idempotent env request advance business store row :
  intent_keys (st_db store) !! (ik_Scope (iq_Idempotency request), ik_KeyDigest (iq_Idempotency request)) = Some row ->
  st_db (executeAuditIntent env request advance business store).2 = st_db store
  /\ (in_RequestDigest row <> ik_RequestDigest (iq_Idempotency request) ->
      exists e, (executeAuditIntent env request advance business store).1 = Err e)
  /\ (in_RequestDigest row = ik_RequestDigest (iq_Idempotency request) ->
      ValidateIntentKey (iq_Idempotency request) = true -> ValidateEventDraft (iq_Event request) = true ->
      ValidateOutboxRequirements (iq_Destinations request) = true -> iq_Expected request = None ->
      st_closed store = false -> h_Ready (st_health store) = true -> h_MutationEnabled (st_health store) = true ->
      0 <= audit_sequence (st_db store) ->
      executeAuditIntent (quietEnv (te_Clock env)) request advance business store =
      (Ok (mkIntentResult (mkCommit false (in_StateRevision row) (in_RecoveryEpoch row)) (in_EventID row) false), store)).
Proof.
  intros Hk. destruct (executeAuditIntent env request advance business store) as [r store'] eqn:E. cbn.
  apply executeAuditIntent_outcome in E as [[Hdb Hr]|(res & event & p & d & l & A & _)].
  2: { by rewrite (ap_fresh _ _ _ _ _ _ _ _ _ _ _ A) in Hk. }
  split; [done|]. split.
  - intros Hd. destruct r as [res|e]; [|eauto]. destruct (Hr res eq_refl) as (row' & Hk' & ? & _). simplify_eq.
  - intros Hd Hik Hed Hod Hexp Hc Hrd Hm Hs. unfold executeAuditIntent. rewrite Hik, Hed, Hod, Hexp.
    cbn [andb negb]. unfold mbind at 1, action_bind. rewrite readyForTransaction_quiet by done.
    cbn [quietEnv te_sql]. unfold mbind at 1, action_bind, rollback, inTransaction, appendAuditInTx.
    unfold mbind at 1, action_bind. rewrite readRevision_quiet by done. cbn [fst snd].
    rewrite Hexp. unfold mbind at 1, action_bind, mret at 1, action_ret.
    unfold mbind at 1, action_bind, sql. cbn [quietEnv te_sql query].
    unfold query. rewrite Hk, withDb_same. unfold check, lift, require, mbind, action_bind. rewrite Hd, bool_decide_refl.
    reflexivity.
Qed.

Lemma insertGenesis_Ok epoch row db u db' :
  insertGenesis epoch row db = inr (u, db') -> audit_epoch_genesis db !! epoch = None /\ db' = addGenesis epoch row db.
Proof.
  unfold insertGenesis. case_match eqn:E; [done|]. apply orb_false_iff in E as [E _].
  apply bool_decide_eq_false_1, eq_None_not_Some in E. intros Hi. by simplify_eq.
Qed.

Lemma addGenesis_wf epoch row db :
  audit_wf db -> audit_epoch_genesis db !! epoch = None -> audit_wf (addGenesis epoch row db).
Proof.
  intros W Hn. constructor; try apply W. cbn. eapply Forall_impl; [apply W|]. cbn.
  intros l (? & ? & ? & Hg). split_and!; try done. intros Hone. destruct (Hg Hone) as (g & Hl & ?).
  exists g. split; [|done]. rewrite lookup_insert_ne; [done|]. congruence.
Qed.

(** Preparing a recovery epoch changes at most one genesis row, the one of
    the next epoch, binds it to the prior checkpoint and the recovery decision,
    never rebinds an epoch, and keeps the audit tables well formed. *)
Theorem prepare_recovery_epoch_binds env epoch prior decision store r store' :
  audit_wf (st_db store) -> PrepareRecoveryAuditEpoch env epoch prior decision store = (r, store') ->
  audit_wf (st_db store')
  /\ (st_db store' = st_db store \/
      (epoch = int64 (recovery_epoch (st_db store) + 1) /\ audit_epoch_genesis (st_db store) !! epoch = None
       /\ st_db store' = addGenesis epoch
            (mkGenesisRow (instance_id (st_db store)) prior decision
               (k_LinkDigest (GenesisLink (instance_id (st_db store)) epoch prior decision))) (st_db store))).
Proof.
  intros W E. unfold PrepareRecoveryAuditEpoch in E. case_match eqn:Ev; [by simplify_eq; split; [|left]|].
  bool_hyps. unfold mbind at 1, action_bind in E.
  destruct (readyForRead env store) as [[u|e] s1] eqn:Er; pose proof (keeps_readyForRead _ _ _ _ Er) as Hs1.
  2: { simplify_eq. rewrite Hs1. by split; [|left]. }
  destruct (te_sql env BeginTx).
  { rewrite transactionError_result in E. simplify_eq.
    split_match; cbn [st_db enterSafeMode]; rewrite Hs1; (split; [done|by left]). }
  unfold mbind at 1, action_bind in E.
  match type of E with context [rollback _ ?m ?s] => destruct (rollback (st_db store) m s) as [[v|e] s2] eqn:Et end.
  2: { simplify_eq. rewrite (rollback_Err _ _ _ _ _ Et). by split; [|left]. }
  apply rollback_Ok in Et. action_hyps.
  match goal with H : insertGenesis _ _ _ = _ |- _ => apply insertGenesis_Ok in H as [Hnone ->] end.
  cbn [st_db withDb] in *. rewrite !Hs1 in *.
  assert (Hdb : st_db store' = st_db store \/ st_db store' = addGenesis (int64 (recovery_epoch (st_db store) + 1))
    (mkGenesisRow (instance_id (st_db store)) prior decision (k_LinkDigest (GenesisLink (instance_id (st_db store))
       (int64 (recovery_epoch (st_db store) + 1)) prior decision))) (st_db store)).
  { destruct (te_sql env CommitTx) as [cause|]; [|right; unfold mret, action_ret in E; by simplify_eq].
    unfold mbind, action_bind, mret, action_ret, modify in E.
    destruct (te_commitDurable env); rewrite transactionError_result in E; simplify_eq;
      [right|left]; by split_match. }
  destruct Hdb as [->| ->]; [by split; [|left]|]. split; [by apply addGenesis_wf|by right].
Qed.

End Properties.

(** ** Witnesses: a store of one counter *)

Definition demoKey (key request : string) : IntentKey := mkIntentKey "demo.write" (hashString key) (hashString request).

Definition demoRequest (key request : string) : intentRequest :=
  mkIntentRequest None None (demoKey key request) (demoDraft "run" "run-1") (mkContextIDs "run-1" "plan-1" "")
    [mkOutboxRequirement "slack" true].

Definition demoChange (_ : RevisionToken) (n : Z) : result Z := Ok (n + 1).

Definition emptyDb {T} (t : T) : Db T := mkDb 0 0 0 "labs-instance-1" [] [] empty empty [] t.

Definition readyStore {T} (db : Db T) : Store T :=
  mkStore db (mkHealth true true "" false (mkRevisionToken (state_revision db) (recovery_epoch db))) false 0.

Lemma emptyDb_wf {T} (t : T) : audit_wf (emptyDb t).
Proof.
  constructor; cbn; try done; constructor.
Qed.

Definition demoOutcome : result intentResult * Store Z :=
  executeAuditIntent (quietEnv demoTime) (demoRequest "key" "request") true (Some demoChange) (readyStore (emptyDb 7)).

Definition demoStore : Store Z := demoOutcome.2.

Lemma demoOutcome_Ok : demoOutcome.1 = Ok (mkIntentResult (mkCommit true 1 0) 1 true) /\ tables (st_db demoStore) = 8.
Proof. split; vm_compute; reflexivity. Qed.

Lemma audit_intent_all_or_nothing_witness :
  st_db demoStore <> emptyDb 7 /\ exists result event payload digest link,
    appended (quietEnv demoTime) (demoRequest "key" "request") true (Some demoChange) (emptyDb 7) result
      (st_db demoStore) event payload digest link.
Proof.
  assert (Hne : st_db demoStore <> emptyDb 7).
  { intros E. apply (f_equal tables) in E. rewrite (proj2 demoOutcome_Ok) in E. discriminate. }
  split; [exact Hne|].
  destruct (audit_intent_all_or_nothing (quietEnv demoTime) (demoRequest "key" "request") true (Some demoChange)
    (readyStore (emptyDb 7)) demoOutcome.1 demoOutcome.2 (surjective_pairing _)) as [[E _]|(r & e & p & d & l & A & _)].
  - destruct (Hne E).
  - exists r, e, p, d, l. exact A.
Defined.

Lemma audit_writer_keeps_verified_chain_witness :
  audit_wf (emptyDb 7) /\ audit_wf (st_db demoStore).
Proof.
  split; [apply emptyDb_wf|].
  exact (proj1 (audit_writer_keeps_verified_chain (quietEnv demoTime) (demoRequest "key" "request") true (Some demoChange)
    (readyStore (emptyDb 7)) demoOutcome.1 demoOutcome.2 (emptyDb_wf 7) (surjective_pairing _))).
Defined.

Lemma audit_intent_idempotent_witness :
  is_Some (intent_keys (st_db demoStore) !! ("demo.write", hashString "key"))
  /\ st_db (executeAuditIntent (quietEnv demoTime) (demoRequest "key" "other") true (Some demoChange) demoStore).2
     = st_db demoStore.
Proof.
  destruct (intent_keys (st_db demoStore) !! ("demo.write", hashString "key")) as [row|] eqn:E.
  - split; [by exists row|]. exact (proj1 (audit_intent_idempotent (quietEnv demoTime) (demoRequest "key" "other") true
      (Some demoChange) demoStore row E)).
  - exfalso. revert E. vm_compute. discriminate.
Defined.

Lemma prepare_recovery_epoch_binds_witness :
  audit_wf (emptyDb 7) /\
  audit_wf (st_db (PrepareRecoveryAuditEpoch (quietEnv demoTime) 1 (hashString "prior") (hashString "decision")
                     (readyStore (emptyDb 7))).2).
Proof.
  split; [apply emptyDb_wf|].
  exact (proj1 (prepare_recovery_epoch_binds (quietEnv demoTime) 1 (hashString "prior") (hashString "decision")
    (readyStore (emptyDb 7)) _ _ (emptyDb_wf 7) (surjective_pairing _))).
Defined.
