(* ===== verification/Authorization.v ===== *)
(** The authorization of [internal/authorization] and the principals of
    [internal/identity]: risk classification of plans, effective grants and
    scopes, the evaluator, the projection of typed host workflows to the
    resources they execute on, and the binding of external executors. *)

From S2P Require Import Prelude GoTime Hash GoJson Contracts AuditLog.

(** ** Principals (identity/principal.go, identity/remote.go) *)

Record Principal := mkPrincipal {
  pn_ID : string;
  pn_Method : string;
  pn_Kind : string;
  pn_DeviceID : string
}.

#[export] Instance Principal_eq_dec : EqDecision Principal.
Proof. solve_decision. Defined.

Definition PrincipalHuman := "human".
Definition PrincipalAgent := "agent".
Definition PrincipalPolicy := "policy".
Definition ManagedCIControllerMethod := "managed-ci-controller".

Definition EffectivePrincipalKind (principal : Principal) : string :=
  if pn_Kind principal == "" then PrincipalHuman else pn_Kind principal.

Definition ValidPrincipalKind (kind : string) : bool :=
  bool_decide (kind ∈ [PrincipalHuman; PrincipalAgent; PrincipalPolicy]).

Definition ValidPrincipal (principal : Principal) : bool :=
  negb (((pn_DeviceID principal != "") && negb (lowerToken (pn_DeviceID principal)))
        || negb (lowerToken (pn_ID principal)) || negb (ValidPrincipalKind (EffectivePrincipalKind principal)))
  && (if pn_Method principal == ManagedCIControllerMethod
      then (pn_Kind principal == PrincipalPolicy) && (pn_DeviceID principal == "")
      else bool_decide (pn_Method principal ∈ ["local-os-peer"; "cloudflare-access"; "slack-socket-mode"])).

(** [audit.NewAttribution(authenticated, responsibleHuman, nil)] *)
Definition NewAttribution (authenticated : Principal) (responsibleHuman : option Principal) : result Attribution :=
  require (validToken (pn_ID authenticated) 128 && validToken (pn_Method authenticated) 64) errInvalid;;
  match responsibleHuman with
  | Some human => require (validToken (pn_ID human) 128 && validToken (pn_Method human) 64) errInvalid
  | None => Ok tt
  end;;
  Ok (mkAttribution (pn_ID authenticated) (pn_Method authenticated) (pn_ID <$> responsibleHuman) None).

(** ** Risk (risk.go) *)

Definition RiskRoutine := "routine".
Definition RiskProductionLike := "production-like".
Definition RiskInfrastructure := "infrastructure".
Definition RiskDestructive := "destructive".
Definition RiskControlPlane := "control-plane".

Definition operationRisk : list (string * string) :=
  [("operations.notification-readiness.test", RiskControlPlane); ("artifact.publish.manual", RiskControlPlane);
   ("ci.artifact.publish", RiskControlPlane); ("hosting.lifecycle.apply", RiskControlPlane);
   ("service.recover", RiskProductionLike);
   ("network.ingress.bootstrap-tunnel", RiskInfrastructure); ("network.ingress.bootstrap-group", RiskInfrastructure);
   ("network.ingress.bootstrap-app", RiskInfrastructure); ("network.ingress.bootstrap-policy", RiskInfrastructure);
   ("network.ingress.bootstrap-seed", RiskInfrastructure); ("network.ingress.bootstrap-cutover", RiskInfrastructure);
   ("controller.setup.bootstrap", RiskControlPlane);
   ("network.ingress.import", RiskInfrastructure); ("network.ingress.tunnel-config-update", RiskInfrastructure);
   ("network.ingress.access-policy-update", RiskInfrastructure); ("network.ingress.dns-record-update", RiskInfrastructure);
   ("network.ingress.connector-disconnect", RiskInfrastructure); ("network.ingress.token-rotate", RiskInfrastructure);
   ("network.mesh.import", RiskInfrastructure); ("network.mesh.profile-routing-update", RiskInfrastructure);
   ("network.mesh.gateway-rule-update", RiskInfrastructure); ("network.mesh.registration-delete", RiskInfrastructure);
   ("gate.profile.bind", RiskDestructive); ("gate.evidence.apply", RiskDestructive);
   ("gate.evidence.supersede", RiskDestructive); ("gate.evidence.revoke", RiskDestructive);
   ("host.alias.claim", RiskInfrastructure); ("host.replacement.freeze", RiskInfrastructure);
   ("host.replacement.commit", RiskInfrastructure); ("host.access.probe.local", RiskInfrastructure);
   ("host.action.execute", RiskInfrastructure); ("host.adopt", RiskControlPlane);
   ("host.discovery-target.activate", RiskControlPlane); ("host.discovery-target.revoke", RiskControlPlane);
   ("application.deploy.low-risk", RiskRoutine); ("application.deploy.production-like", RiskProductionLike);
   ("audit.checkpoint", RiskRoutine); ("audit.checkpoint.anchor", RiskRoutine); ("backup.snapshot", RiskRoutine);
   ("backup.verify", RiskRoutine); ("backup.local.create", RiskRoutine); ("backup.local.verify", RiskRoutine);
   ("backup.offsite.copy", RiskInfrastructure); ("drift.scan", RiskRoutine); ("health.check", RiskRoutine);
   ("schedule.gate.check", RiskRoutine); ("schedule.observation.refresh", RiskRoutine);
   ("node.add", RiskInfrastructure); ("node.remove", RiskInfrastructure); ("shell.grant", RiskInfrastructure);
   ("shell.revoke", RiskInfrastructure); ("public-exposure.change", RiskInfrastructure);
   ("backup-policy.change", RiskInfrastructure); ("backup.restore", RiskDestructive);
   ("resource.delete", RiskDestructive); ("backup.retention.change", RiskDestructive);
   ("backup.retention-locks.activate", RiskDestructive); ("backup.local.retire", RiskDestructive);
   ("backup.retire.offsite", RiskDestructive); ("network.change", RiskControlPlane);
   ("service.deploy", RiskProductionLike); ("ci.job.execute", RiskInfrastructure);
   ("ci.enrollment.register", RiskControlPlane); ("service.import", RiskControlPlane);
   ("network.endpoint.change", RiskControlPlane); ("identity.change", RiskControlPlane);
   ("secret-provider.change", RiskControlPlane); ("control-plane.change", RiskControlPlane);
   ("control-plane.recover", RiskControlPlane); ("recovery.restore.cutover", RiskControlPlane);
   ("recovery.canary.noop", RiskControlPlane); ("credential.stage", RiskControlPlane);
   ("credential.activate", RiskControlPlane); ("credential.rotate", RiskControlPlane);
   ("credential.revoke", RiskControlPlane); ("credential.recover", RiskControlPlane);
   ("schedule.policy.activate", RiskControlPlane)].

(** [m[key]] on a literal map, whose keys are distinct. *)
Fixpoint tableLookup {A} (key : string) (table : list (string * A)) : option A :=
  match table with
  | [] => None
  | (k, v) :: rest => if k == key then Some v else tableLookup key rest
  end.

Definition riskRank : list (string * Z) :=
  [(RiskRoutine, 1); (RiskProductionLike, 2); (RiskInfrastructure, 3); (RiskDestructive, 4); (RiskControlPlane, 5)].

Definition rank (risk : string) : Z := default 0 (tableLookup risk riskRank).

Definition ValidRiskClass (risk : string) : bool := bool_decide (is_Some (tableLookup risk riskRank)).

Definition errUnknownRisk : error := Plain "unknown plan operation or risk".

#[global] Instance bySequence_dec (x y : PlanOperation) : Decision (op_Sequence x <= op_Sequence y) := _.

(** [sort.SliceStable] by sequence number *)
Definition sortOperations : list PlanOperation -> list PlanOperation :=
  merge_sort (fun x y => op_Sequence x <= op_Sequence y).

(** The risk of one operation of a plan. *)
Definition riskOf (plan : Plan) (operation : PlanOperation) : option string :=
  risk ← tableLookup (op_OperationType operation) operationRisk;
  Some (if ((op_OperationType operation == "host.replacement.freeze")
            || (op_OperationType operation == "host.replacement.commit"))
           && match p_HostReplacement plan with
              | Some replacement => hr_RestorationClass replacement == "control-database"
              | None => false
              end
        then RiskControlPlane else risk).

Fixpoint classify (plan : Plan) (index : Z) (operations : list PlanOperation) (result : string) : option string :=
  match operations with
  | [] => Some result
  | operation :: rest =>
      if op_Sequence operation != index + 1 then None
      else
        risk ← riskOf plan operation;
        classify plan (index + 1) rest (if rank result <? rank risk then risk else result)
  end.

Definition ClassifyPlan (plan : Plan) : result string :=
  require (negb ((length (p_Operations plan) =? 0)%nat || (256 <? length (p_Operations plan))%nat)) errUnknownRisk;;
  risk ← of_option errUnknownRisk (classify plan 0 (sortOperations (p_Operations plan)) RiskRoutine);
  require (p_Risk plan == risk) errUnknownRisk;;
  Ok risk.

Definition preauthorizedOperation (operation : string) : bool :=
  bool_decide (operation ∈
    ["application.deploy.low-risk"; "audit.checkpoint"; "audit.checkpoint.anchor"; "backup.snapshot"; "backup.verify";
     "backup.local.create"; "backup.local.verify"; "drift.scan"; "health.check"; "schedule.gate.check";
     "schedule.observation.refresh"]).

Definition IsPreauthorizedOperation (operation : string) : bool := preauthorizedOperation operation.

(** ** Effective grants (effective.go) *)

Definition ActionRead := "read".
Definition ActionAuthor := "author".
Definition ActionAcknowledge := "acknowledge".
Definition ActionExecute := "execute".

Definition RoleReader := "reader".
Definition RoleAuthor := "author".
Definition RoleMaintainer := "maintainer".
Definition RoleInfrastructureAdmin := "infrastructure-admin".
Definition RoleControlPlaneAdmin := "control-plane-admin".
Definition RolePreauthorizedExecutor := "preauthorized-executor".

Definition BranchHuman := "human".
Definition BranchPreauthorized := "preauthorized".

Definition EffectiveActive := "active".
Definition EffectiveRevoked := "revoked".

Record Target := mkTarget {
  at_Capability : string;
  at_ResourceKind : string;
  at_ResourceID : string
}.

Record EffectiveGrant := mkEffectiveGrant {
  eg_Role : string;
  eg_AllowedAction : string;
  eg_Capability : string;
  eg_ResourceKind : string;
  eg_ResourceID : string;
  eg_Branch : string
}.

Record EffectivePolicySnapshot := mkSnapshot {
  es_PrincipalID : string;
  es_PrincipalKind : string;
  es_Status : string;
  es_GrantRevision : Z;
  es_StateRevision : Z;
  es_RecoveryEpoch : Z;
  es_Grants : list EffectiveGrant
}.

Record EffectiveScope := mkScope {
  sc_PrincipalID : string;
  sc_Action : string;
  sc_Capability : string;
  sc_ResourceKind : string;
  sc_ResourceID : string;
  sc_Role : string;
  sc_GrantRevision : Z;
  sc_StateRevision : Z;
  sc_RecoveryEpoch : Z;
  sc_ScopeDigest : string
}.

#[global] Instance Target_eq_dec : EqDecision Target.
Proof. solve_decision. Defined.
#[global] Instance EffectiveGrant_eq_dec : EqDecision EffectiveGrant.
Proof. solve_decision. Defined.
#[global] Instance EffectiveScope_eq_dec : EqDecision EffectiveScope.
Proof. solve_decision. Defined.

Definition zeroScope : EffectiveScope := mkScope "" "" "" "" "" "" 0 0 0 "".

Definition ValidAction (action : string) : bool :=
  bool_decide (action ∈ [ActionRead; ActionAuthor; ActionAcknowledge; ActionExecute]).

Definition ValidRole (role : string) : bool :=
  bool_decide (role ∈ [RoleReader; RoleAuthor; RoleMaintainer; RoleInfrastructureAdmin; RoleControlPlaneAdmin;
                       RolePreauthorizedExecutor]).

Definition ValidBranch (branch : string) : bool := (branch == BranchHuman) || (branch == BranchPreauthorized).

Definition ValidIdentifier (value : string) : bool := lowerToken value.

Definition ValidAuthorizationTarget (target : Target) : bool :=
  lowerToken (at_Capability target) && lowerToken (at_ResourceKind target) && lowerToken (at_ResourceID target).

Definition validEffectiveGrant (grant : EffectiveGrant) : bool :=
  if negb (ValidRole (eg_Role grant) && ValidAction (eg_AllowedAction grant) && lowerToken (eg_Capability grant)
           && lowerToken (eg_ResourceKind grant) && lowerToken (eg_ResourceID grant))
  then false
  else if (eg_AllowedAction grant == ActionRead) || (eg_AllowedAction grant == ActionAuthor)
  then (eg_Branch grant == "") && (eg_Role grant != RolePreauthorizedExecutor)
  else if negb (ValidBranch (eg_Branch grant)) then false
  else if eg_Role grant == RolePreauthorizedExecutor
  then (eg_AllowedAction grant == ActionExecute) && (eg_Branch grant == BranchPreauthorized)
  else eg_Branch grant != BranchPreauthorized.

(** External executors: the evidence extensions, keyed by field name. *)
Definition externalEvidenceNames : list (string * string) :=
  [("x-executor-project", "project"); ("x-executor-workflow", "workflow"); ("x-executor-ref", "ref")].

Record ExternalExecutorIdentity := mkExternalExecutor {
  xi_PrincipalID : string;
  xi_ExecutorID : string;
  xi_Project : string;
  xi_Workflow : string;
  xi_Ref : string
}.

(** The loop of [executorEvidence] from an accumulated map. *)
Fixpoint executorEvidenceFrom (result : gmap string string) (extensions : list ContractExtension) (claim : bool)
    : option (gmap string string) :=
  match extensions with
  | [] => Some result
  | extension :: rest =>
      match tableLookup (x_Name extension) externalEvidenceNames with
      | None => if claim then None else executorEvidenceFrom result rest claim
      | Some field =>
          if (default "" (result !! field) != "") || negb (HasPrefix (x_ValueDigest extension) "sha256:")
             || negb (String.length (x_ValueDigest extension) =? 71)%nat
          then None
          else executorEvidenceFrom (<[field := x_ValueDigest extension]> result) rest claim
      end
  end.

Definition executorEvidence (extensions : list ContractExtension) (claim : bool) : option (gmap string string) :=
  executorEvidenceFrom empty extensions claim.

Definition BindExternalExecutorIdentity (principal : Principal) (request : ExecutorClaimRequest) (plan : Plan)
    (step : RunStep) : option ExternalExecutorIdentity :=
  if negb (ValidPrincipal principal) || (EffectivePrincipalKind principal != PrincipalPolicy)
     || (pn_ID principal != cl_PrincipalID request) || (pn_ID principal != cl_ExecutorID request)
     || (p_ExecutorMode plan != "external") || (p_ExecutorID plan != Some (cl_ExecutorID request))
     || (s_ExecutorID step != cl_ExecutorID request) || (s_AdapterID step != cl_AdapterID request)
     || (b_RecoveryEpoch (p_Binding plan) != cl_RecoveryEpoch request)
  then None
  else
    want ← executorEvidence (p_Extensions plan) false;
    got ← executorEvidence (cl_Extensions request) true;
    if forallb (fun entry => default "" (got !! entry.1) == entry.2) (map_to_list want)
       && forallb (fun entry => default "" (want !! entry.1) != "") (map_to_list got)
    then Some (mkExternalExecutor (pn_ID principal) (cl_ExecutorID request) (default "" (got !! "project"))
                 (default "" (got !! "workflow")) (default "" (got !! "ref")))
    else None.

Definition WorkflowNavigation (action : string) (t : Target) : bool :=
  if at_ResourceKind t == "recovery-point"
  then (action == ActionAuthor) && (at_Capability t == "recovery.restore.author")
  else if at_ResourceKind t == "declaration"
  then (action == ActionAuthor) && (at_Capability t == "plan.author")
       || (action == ActionRead) && (at_Capability t == "declaration.read")
  else if at_ResourceKind t == "plan"
  then (action == ActionAuthor) && (at_Capability t == "plan.acknowledgement.request")
       || (action == ActionRead) && ((at_Capability t == "plan.read") || (at_Capability t == "plan.acknowledgement.read")
                                     || (at_Capability t == "run.read"))
  else if at_ResourceKind t == "run"
  then (action == ActionRead) && (at_Capability t == "run.read")
  else false.

Definition WorkflowOwnerAction (requested : string) (owner : Target) : string :=
  if (at_Capability owner == "host.read") && (at_ResourceKind owner == "host") then ActionRead else requested.

(** ** Typed host workflows (workflow_targets.go) *)

(** What the host-replacement component promises: the acceptance of the two
    typed inputs by its validators. *)
Class HostReplacementContract := {
  ValidateInput : HostReplacementRequest -> bool;
  ValidateAliasClaim : HostAliasClaimRequest -> bool
}.

Section Evaluation.
Context `{Hasher} `{HostReplacementContract}.

(** [digest[7:39]] *)
Definition shortDigest (digest : string) : string := take_string 32 (drop_string 7 digest).

(** The closure [exact]: the plan and the operation are the sealed draft of one
    typed input. *)
Definition exactDraft (p : Plan) (op : PlanOperation) (id digest adapter kind : string) : bool :=
  (p_DeclarationID p == id) && (op_TargetID op == id) && (op_InputDigest op == digest)
  && (op_ArtifactDigest op == digest) && (op_AdapterID op == adapter) && (op_OperationType op == kind).

Definition discoveryResources (p : Plan) (op : PlanOperation) : option (list string) :=
  input ← p_HostDiscoveryTarget p;
  let digest := hashString (ht_JSON input) in
  if exactDraft p op ("discovery-draft-" +:+ shortDigest digest) digest "core.host-discovery-target"
       ("host.discovery-target." +:+ ht_Action input)
     && (ht_TargetRecoveryEpoch input == b_RecoveryEpoch (p_Binding p)) && ValidIdentifier (ht_TargetID input)
  then Some [ht_TargetID input] else None.

Definition adoptionResources (p : Plan) (op : PlanOperation) : option (list string) :=
  input ← p_HostAdoption p;
  let digest := hashString (hd_JSON input) in
  if exactDraft p op ("host-adoption-" +:+ shortDigest digest) digest "core.host-adoption" "host.adopt"
     && (hd_RecoveryEpoch input == b_RecoveryEpoch (p_Binding p)) && ValidIdentifier (hd_HostID input)
  then Some [hd_HostID input] else None.

Definition replacementResources (p : Plan) (op : PlanOperation) : option (list string) :=
  input ← p_HostReplacement p;
  let digest := hashString (hr_JSON input) in
  let kind := if hr_Operation input == "commit" then "host.replacement.commit" else "host.replacement.freeze" in
  if exactDraft p op ("host-replacement-" +:+ shortDigest digest) digest "core.host-replacement" kind
     && ValidateInput input && (hr_RecoveryEpoch input == b_RecoveryEpoch (p_Binding p))
  then Some [hr_OldHostID input; hr_NewHostID input] else None.

Definition aliasResources (p : Plan) (op : PlanOperation) : option (list string) :=
  input ← p_HostAliasClaim p;
  let digest := hashString (ha_JSON input) in
  if exactDraft p op (p_DeclarationID p) digest "core.host-replacement" "host.alias.claim"
     && ValidateAliasClaim input && (ha_RecoveryEpoch input == b_RecoveryEpoch (p_Binding p))
  then Some (ha_HostID input :: ha_AliasIDs input) else None.

Definition ExecutionResourceIDs (p : Plan) (op : PlanOperation) : list string :=
  let fallback := [op_TargetID op] in
  if (p_AuthorizationBranch p != "human") || (p_ExecutorMode p != "central") || (p_Operations p != [op])
  then fallback
  else match discoveryResources p op with
       | Some ids => ids
       | None =>
           match adoptionResources p op with
           | Some ids => ids
           | None =>
               match replacementResources p op with
               | Some ids => ids
               | None => default fallback (aliasResources p op)
               end
           end
       end.

Definition FirstExecutionTarget (p : Plan) (id : string) : bool :=
  match p_Operations p with
  | [] => false
  | op :: _ => bool_decide (id ∈ ExecutionResourceIDs p op)
  end.

(** ** The evaluator (policy.go) *)

(** The frozen source of a recovery receive, which the effect suspends. *)
Definition recoveryReceiveSource (plan : Plan) (targetID : string) : bool :=
  match p_HostAction plan with
  | None => false
  | Some a =>
      (hx_ActionID a == "debian.control.recovery-receive") && (hx_ActionVersion a == "1.0.0")
      && (hashString (hx_ActionInput a) == hx_ActionInputDigest a)
      && match hx_Decoded a with
         | None => false
         | Some d =>
             (rv_Schema d == "vegastack-labs.dev/control-recovery-receive-input") && (rv_SchemaVersion d == "1.0.0")
             && (rv_ReplacementOldHostID d != "") && (rv_ReplacementOldHostID d != rv_ReplacementNewHostID d)
             && (rv_BindingFormerHostID d == rv_ReplacementOldHostID d)
             && (rv_BindingReplacementHostID d == rv_ReplacementNewHostID d)
             && (hx_HostID a == rv_ReplacementNewHostID d) && (targetID == rv_ReplacementOldHostID d)
         end
      && existsb (fun op => (op_OperationType op == "host.action.execute") && (op_TargetID op == hx_HostID a))
           (p_Operations plan)
  end.

Definition planContainsTarget (plan : Plan) (targetID : string) : bool :=
  recoveryReceiveSource plan targetID
  || match p_HostBaselineScope plan with
     | Some p => (hb_SubjectHostID p == targetID) || (hb_ExecutionHostID p == targetID)
     | None => false
     end
  || match p_HostAccessAuxiliaryHostIDs plan with
     | Some hosts => bool_decide (targetID ∈ hosts)
     | None => false
     end
  || existsb (fun operation => bool_decide (targetID ∈ ExecutionResourceIDs plan operation)
                               || (op_TargetID operation == targetID)) (p_Operations plan).

Definition scopeParts (snapshot : EffectivePolicySnapshot) (grant : EffectiveGrant) (target : Target) : list string :=
    ["effective-scope-v1"; es_PrincipalID snapshot; es_PrincipalKind snapshot; eg_Role grant; eg_AllowedAction grant;
     at_Capability target; at_ResourceKind target; at_ResourceID target; pretty (es_GrantRevision snapshot);
     pretty (es_StateRevision snapshot); pretty (es_RecoveryEpoch snapshot)].

Definition scopeFingerprint (snapshot : EffectivePolicySnapshot) (grant : EffectiveGrant) (target : Target) : string :=
  digestParts (scopeParts snapshot grant target).

Definition BindEffectiveScope (snapshot : EffectivePolicySnapshot) (grant : EffectiveGrant) (target : Target)
    : option EffectiveScope :=
  if (es_Status snapshot != EffectiveActive) || (es_GrantRevision snapshot <=? 0) || (es_StateRevision snapshot <? 0)
     || (es_RecoveryEpoch snapshot <? 0) || negb (ValidIdentifier (es_PrincipalID snapshot))
     || negb (ValidPrincipalKind (es_PrincipalKind snapshot)) || negb (validEffectiveGrant grant)
     || negb (ValidAuthorizationTarget target) || (eg_Capability grant != at_Capability target)
     || (eg_ResourceKind grant != at_ResourceKind target) || (eg_ResourceID grant != at_ResourceID target)
  then None
  else Some (mkScope (es_PrincipalID snapshot) (eg_AllowedAction grant) (at_Capability target) (at_ResourceKind target)
               (at_ResourceID target) (eg_Role grant) (es_GrantRevision snapshot) (es_StateRevision snapshot)
               (es_RecoveryEpoch snapshot) (scopeFingerprint snapshot grant target)).

Record RevisionBinding := mkRevisionBinding {
  rb_GrantRevision : Z;
  rb_StateRevision : Z;
  rb_RecoveryEpoch : Z
}.

Record Request := mkRequest {
  rq_Action : string;
  rq_Target : Target;
  rq_Plan : option Plan;
  rq_Branches : list string;
  rq_Expected : option RevisionBinding;
  rq_RecoveryContinuation : bool
}.

Record Decision := mkDecision {
  de_PrincipalID : string;
  de_Action : string;
  de_Target : Target;
  de_Allowed : bool;
  de_Branch : option string;
  de_ReasonCode : string;
  de_GrantRevision : Z;
  de_StateRevision : Z;
  de_RecoveryEpoch : Z;
  de_PlanDigest : string;
  de_Risk : string;
  de_Scope : EffectiveScope
}.

Definition roleAllows (role action risk : string) : bool :=
  if negb (ValidRole role && ValidAction action && ValidRiskClass risk) then false
  else if role == RoleReader then action == ActionRead
  else if role == RoleAuthor then (action == ActionRead) || (action == ActionAuthor)
  else if role == RoleMaintainer then
    (action == ActionRead) || (action == ActionAuthor)
    || ((action == ActionAcknowledge) || (action == ActionExecute))
       && ((risk == RiskRoutine) || (risk == RiskProductionLike))
  else if role == RoleInfrastructureAdmin then risk != RiskControlPlane
  else if role == RoleControlPlaneAdmin then true
  else (action == ActionExecute) && (risk == RiskRoutine).

Definition validPreauthorized (principal : Principal) (request : Request) (risk : string) : bool :=
  if (EffectivePrincipalKind principal != PrincipalPolicy) || (risk != RiskRoutine) then false
  else match rq_Plan request with
       | None => false
       | Some plan =>
           forallb (fun operation => preauthorizedOperation (op_OperationType operation)
                                     && (op_TargetID operation == at_ResourceID (rq_Target request))) (p_Operations plan)
           && planContainsTarget plan (at_ResourceID (rq_Target request))
       end.

(** The matching grant, or whether only the resource differed. *)
Fixpoint matchingGrantFrom (targetMismatch : bool) (grants : list EffectiveGrant) (request : Request) (branch : option string)
    : EffectiveGrant + bool :=
  match grants with
  | [] => inr targetMismatch
  | grant :: rest =>
      if negb (validEffectiveGrant grant) || (eg_AllowedAction grant != rq_Action request)
         || (eg_Capability grant != at_Capability (rq_Target request))
         || (eg_ResourceKind grant != at_ResourceKind (rq_Target request))
      then matchingGrantFrom targetMismatch rest request branch
      else if eg_ResourceID grant != at_ResourceID (rq_Target request) then matchingGrantFrom true rest request branch
      else if eg_Branch grant != default "" branch then matchingGrantFrom targetMismatch rest request branch
      else inl grant
  end.

Definition matchingGrant (grants : list EffectiveGrant) (request : Request) (branch : option string)
    : EffectiveGrant + bool :=
  matchingGrantFrom false grants request branch.

(** The branch, or the reason it is refused. *)
Definition requestedBranch (request : Request) (principal : Principal) : option string + string :=
  if (rq_Action request == ActionRead) || (rq_Action request == ActionAuthor) then
    if negb (length (rq_Branches request) =? 0)%nat then inr "authorization-branch" else inl None
  else match rq_Branches request with
       | [branch] =>
           if negb (ValidBranch branch) then inr "authorization-branch"
           else if match rq_Plan request with
                   | None => true
                   | Some plan => p_AuthorizationBranch plan != branch
                   end
           then inr "authorization-branch"
           else if (branch == BranchHuman) && (EffectivePrincipalKind principal == PrincipalPolicy)
           then inr "authorization-branch"
           else inl (Some branch)
       | _ => inr "authorization-branch"
       end.

Definition validRecoveryContinuation (request : Request) (snapshot : EffectivePolicySnapshot) : bool :=
  match rq_Plan request, rq_Expected request with
  | Some plan, Some expected =>
      rq_RecoveryContinuation request && (rq_Action request == ActionExecute)
      && (rb_StateRevision expected == es_StateRevision snapshot) && (rb_RecoveryEpoch expected == es_RecoveryEpoch snapshot)
      && (p_Risk plan == RiskControlPlane) && (p_AuthorizationBranch plan == BranchHuman)
      && match p_Operations plan with
         | [operation] =>
             (b_RecoveryEpoch (p_Binding plan) <? max_int64)
             && (b_RecoveryEpoch (p_Binding plan) + 1 == es_RecoveryEpoch snapshot)
             && (op_OperationType operation == "recovery.restore.cutover") && (op_AdapterID operation == "core.recovery")
             && (op_TargetID operation == at_ResourceID (rq_Target request))
         | _ => false
         end
  | _, _ => false
  end.

Definition isEffectAction (action : string) : bool := (action == ActionAcknowledge) || (action == ActionExecute).

(** The risk an acknowledgement or an execution is judged by, and the risk the
    decision records; or the refusal of its plan. *)
Definition effectRisk (request : Request) (snapshot : EffectivePolicySnapshot)
    : (string * string) + (string * string) :=
  if isEffectAction (rq_Action request) then
    match rq_Plan request with
    | None => inl ("risk-unknown", "")
    | Some plan =>
        match ClassifyPlan plan with
        | Err _ => inl ("risk-unknown", "")
        | Ok risk =>
            let continuation := validRecoveryContinuation request snapshot in
            if (b_RecoveryEpoch (p_Binding plan) != es_RecoveryEpoch snapshot) && negb continuation
            then inl ("recovery-epoch-mismatch", risk)
            else if (b_StateRevision (p_Binding plan) != es_StateRevision snapshot) && negb continuation
            then inl ("state-revision-stale", risk)
            else inr (risk, risk)
        end
    end
  else inr (RiskRoutine, "").

(** The early returns of [Authorize] after the snapshot was read: the reason of
    a refusal, or the branch, the risk and the scope of the permission. *)
Definition evaluate (principal : Principal) (request : Request) (snapshot : EffectivePolicySnapshot)
    : (string * string) + (option string * string * EffectiveScope) :=
  if (es_PrincipalID snapshot != pn_ID principal) || (es_PrincipalKind snapshot != EffectivePrincipalKind principal)
     || (es_Status snapshot != EffectiveActive) || (es_GrantRevision snapshot <=? 0)
  then inl ("policy-inactive", "")
  else if match rq_Expected request with
          | Some e => (rb_GrantRevision e != es_GrantRevision snapshot)
                      && negb (rq_RecoveryContinuation request && (rb_GrantRevision e == 0))
          | None => false end
  then inl ("grant-revision-stale", "")
  else if match rq_Expected request with Some e => rb_RecoveryEpoch e != es_RecoveryEpoch snapshot | None => false end
  then inl ("recovery-epoch-mismatch", "")
  else if match rq_Expected request with Some e => rb_StateRevision e != es_StateRevision snapshot | None => false end
  then inl ("state-revision-stale", "")
  else match requestedBranch request principal with
  | inr reason => inl (reason, "")
  | inl branch =>
      match effectRisk request snapshot with
      | inl refusal => inl refusal
      | inr (risk, recorded) =>
          if (rq_Action request == ActionAcknowledge) && (EffectivePrincipalKind principal != PrincipalHuman)
          then inl ("agent-cannot-acknowledge", recorded)
          else if (branch == Some BranchPreauthorized) && negb (validPreauthorized principal request risk)
          then inl ("preauthorization-denied", recorded)
          else if match rq_Plan request with
                  | Some plan => negb (planContainsTarget plan (at_ResourceID (rq_Target request)))
                  | None => false end
          then inl ("target-mismatch", recorded)
          else match matchingGrant (es_Grants snapshot) request branch with
          | inr targetMismatch => inl (if targetMismatch then "target-mismatch" else "grant-missing", recorded)
          | inl grant =>
              if negb (roleAllows (eg_Role grant) (rq_Action request) risk) then inl ("role-insufficient", recorded)
              else match BindEffectiveScope snapshot grant (rq_Target request) with
                   | None => inl ("policy-unavailable", recorded)
                   | Some scope => inr (branch, recorded, scope)
                   end
          end
      end
  end.

(** [Authorize], with the answer of the policy repository. *)
Definition Authorize (repository : string -> Target -> result EffectivePolicySnapshot) (principal : Principal)
    (request : Request) : Decision * option error :=
  let planDigest := match rq_Plan request with Some plan => p_PlanDigest plan | None => "" end in
  let decision allowed branch reason grant state epoch risk scope :=
    mkDecision (pn_ID principal) (rq_Action request) (rq_Target request) allowed branch reason grant state epoch
      planDigest risk scope in
  if negb (ValidPrincipal principal) || negb (ValidAction (rq_Action request))
     || negb (ValidAuthorizationTarget (rq_Target request))
  then (decision false None "authentication-required" 0 0 0 "" zeroScope, None)
  else match repository (pn_ID principal) (rq_Target request) with
  | Err err => (decision false None "policy-unavailable" 0 0 0 "" zeroScope, Some err)
  | Ok snapshot =>
      match evaluate principal request snapshot with
      | inl (reason, risk) =>
          (decision false None reason (es_GrantRevision snapshot) (es_StateRevision snapshot) (es_RecoveryEpoch snapshot)
             risk zeroScope, None)
      | inr (branch, risk, scope) =>
          (decision true branch "allowed" (es_GrantRevision snapshot) (es_StateRevision snapshot)
             (es_RecoveryEpoch snapshot) risk scope, None)
      end
  end.

(** ** Decision records (repository.go) *)

Record DecisionRecord := mkDecisionRecord {
  dr_DecisionID : string;
  dr_Decision : Decision;
  dr_DecidedAt : Time;
  dr_CorrelationID : string;
  dr_Attribution : Attribution;
  dr_Idempotency : IntentKey;
  dr_Destinations : list OutboxRequirement
}.

Definition validReasonCode (code : string) : bool :=
  bool_decide (code ∈
    ["allowed"; "authentication-required"; "policy-unavailable"; "policy-inactive"; "grant-revision-stale";
     "state-revision-stale"; "recovery-epoch-mismatch"; "grant-missing"; "role-insufficient"; "agent-cannot-acknowledge";
     "authorization-branch"; "risk-unknown"; "preauthorization-denied"; "target-mismatch"]).

Definition ValidDecisionRecord (record : DecisionRecord) : bool :=
  let decision := dr_Decision record in
  let scope := de_Scope decision in
  if negb (lowerToken (dr_DecisionID record)) || IsZero (dr_DecidedAt record) || negb (isUTC (dr_DecidedAt record))
     || negb (lowerToken (dr_CorrelationID record)) || negb (lowerToken (de_PrincipalID decision))
     || negb (ValidAction (de_Action decision)) || negb (ValidAuthorizationTarget (de_Target decision))
     || negb (validReasonCode (de_ReasonCode decision)) || (de_GrantRevision decision <? 0)
     || (de_StateRevision decision <? 0) || (de_RecoveryEpoch decision <? 0)
     || ((de_PlanDigest decision != "") && negb (sha256Digest (de_PlanDigest decision)))
     || ((sc_ScopeDigest scope != "") && negb (sha256Digest (sc_ScopeDigest scope)))
     || negb (ValidateIntentKey (dr_Idempotency record)) || negb (ValidateOutboxRequirements (dr_Destinations record))
  then false
  else if at_PrincipalID (dr_Attribution record) != de_PrincipalID decision then false
  else if de_Allowed decision then
    if (de_ReasonCode decision != "allowed") || (sc_ScopeDigest scope == "")
       || (sc_PrincipalID scope != de_PrincipalID decision) || (sc_Action scope != de_Action decision)
       || (sc_Capability scope != at_Capability (de_Target decision))
       || (sc_ResourceKind scope != at_ResourceKind (de_Target decision))
       || (sc_ResourceID scope != at_ResourceID (de_Target decision))
       || (sc_GrantRevision scope != de_GrantRevision decision) || (sc_StateRevision scope != de_StateRevision decision)
       || (sc_RecoveryEpoch scope != de_RecoveryEpoch decision)
    then false
    else if isEffectAction (de_Action decision)
    then match de_Branch decision with Some branch => ValidBranch branch | None => false end
    else de_Branch decision == None
  else (de_ReasonCode decision != "allowed") && (de_Branch decision == None).

End Evaluation.

(** ** Classification *)

Lemma rank_range risk : 0 <= rank risk <= 5.
Proof. unfold rank. cbn. repeat case_bool_decide; cbn; lia. Qed.

Lemma operationRisk_valid operation risk :
  tableLookup operation operationRisk = Some risk -> ValidRiskClass risk = true.
Proof.
  assert (Hall : forallb (fun e => ValidRiskClass e.2) operationRisk = true) by (vm_compute; reflexivity).
  revert Hall. induction operationRisk as [|[k v] table IH]; cbn; [done|].
  intros H; bool_hyps. case_bool_decide; [by intros [= <-]|auto].
Qed.

Lemma riskOf_valid plan operation risk : riskOf plan operation = Some risk -> ValidRiskClass risk = true.
Proof.
  unfold riskOf. intros E. apply bind_Some in E as (r & E & [= <-]). case_match; [done|].
  by eapply operationRisk_valid.
Qed.

(** What the classification loop computes from a sorted list. *)
Lemma classify_spec plan index operations start risk :
  classify plan index operations start = Some risk ->
  (forall i op, operations !! i = Some op -> op_Sequence op = index + 1 + Z.of_nat i)
  /\ rank start <= rank risk
  /\ (forall op, op ∈ operations -> exists r, riskOf plan op = Some r /\ rank r <= rank risk)
  /\ (risk = start \/ exists op, op ∈ operations /\ riskOf plan op = Some risk).
Proof.
  revert index start. induction operations as [|op ops IH]; intros index start E; cbn [classify] in E.
  { simplify_eq. split; [done|]. split; [done|]. split; [set_solver|by left]. }
  case_bool_decide as Es; cbn [negb] in E; [|done].
  apply bind_Some in E as (r & Er & E). apply IH in E as (Hseq & Hge & Hall & Hatt).
  assert (rank r <= rank risk /\ rank start <= rank risk) as [Hr Hs].
  { case_match eqn:Ec; bool_hyps; lia. }
  split; [|split; [done|split]].
  - intros [|i] o Ho; cbn in Ho; [simplify_eq; lia|]. apply Hseq in Ho. lia.
  - intros o [->|Ho]%elem_of_cons; [by exists r|auto].
  - destruct Hatt as [->|(o & Ho & Hro)]; [|right; exists o; set_solver].
    case_match; [right; exists op; set_solver|by left].
Qed.

Lemma classify_ext plan plan' index operations start :
  (forall op, riskOf plan op = riskOf plan' op) ->
  classify plan index operations start = classify plan' index operations start.
Proof.
  intros Hr. revert index start. induction operations as [|op ops IH]; intros index start; cbn [classify]; [done|].
  rewrite Hr. destruct (op_Sequence op != index + 1); [done|]. destruct (riskOf plan' op); [apply IH|done].
Qed.

Lemma classify_complete plan index operations start :
  (forall i op, operations !! i = Some op -> op_Sequence op = index + 1 + Z.of_nat i) ->
  (forall op, op ∈ operations -> is_Some (riskOf plan op)) -> is_Some (classify plan index operations start).
Proof.
  revert index start. induction operations as [|op ops IH]; intros index start Hseq Hall; cbn [classify]; [done|].
  rewrite bool_decide_eq_true_2 by (rewrite (Hseq 0%nat op); [lia|done]). cbn [negb].
  destruct (Hall op) as [r ->]; [set_solver|]. cbn. apply IH.
  - intros i o Ho. rewrite (Hseq (S i) o) by done. lia.
  - intros o Ho. apply Hall. set_solver.
Qed.

#[local] Instance bySequence_total : Total (fun x y : PlanOperation => op_Sequence x <= op_Sequence y).
Proof. intros x y. lia. Qed.
#[local] Instance bySequence_trans : Transitive (fun x y : PlanOperation => op_Sequence x <= op_Sequence y).
Proof. intros x y z. lia. Qed.

Lemma sortOperations_perm ops : Permutation (sortOperations ops) ops.
Proof. apply merge_sort_Permutation. Qed.

Lemma sortOperations_sorted ops : StronglySorted (fun x y => op_Sequence x <= op_Sequence y) (sortOperations ops).
Proof. unfold sortOperations. apply StronglySorted_merge_sort; apply _. Qed.

(** The sequence numbers of an accepted order are distinct, so the order is the
    only sorted one. *)
Lemma sorted_unique ops ops' index :
  Permutation ops ops' -> StronglySorted (fun x y => op_Sequence x <= op_Sequence y) ops' ->
  (forall i op, ops !! i = Some op -> op_Sequence op = index + 1 + Z.of_nat i) -> ops = ops'.
Proof.
  revert ops' index. induction ops as [|x ops IH]; intros ops' index Hp Hs Hi; [by apply Permutation_nil in Hp|].
  destruct ops' as [|y ops']; [by symmetry in Hp; apply Permutation_nil in Hp|].
  inversion Hs as [|? ? Hs' Hle]; subst.
  assert (Hx : op_Sequence x = index + 1) by (rewrite (Hi 0%nat x); [lia|done]).
  assert (Hge : forall o, o ∈ ops -> index + 1 < op_Sequence o).
  { intros o [i Ho]%list_elem_of_lookup. rewrite (Hi (S i) o); [lia|done]. }
  assert (x = y) as <-.
  { assert (y ∈ x :: ops) as Hy by (rewrite Hp; set_solver).
    apply elem_of_cons in Hy as [->|Hy]; [done|]. apply Hge in Hy.
    assert (x ∈ y :: ops') as Hx' by (rewrite <- Hp; set_solver).
    apply elem_of_cons in Hx' as [->|Hx']; [done|]. eapply Forall_forall in Hle; [|exact Hx']. lia. }
  f_equal. apply (IH _ (index + 1)); [by apply Permutation_cons_inv in Hp|done|].
  intros i o Ho. rewrite (Hi (S i) o); [lia|done].
Qed.

Section Properties.
Context `{Hasher} `{HostReplacementContract}.

Lemma ClassifyPlan_Ok plan risk :
  ClassifyPlan plan = Ok risk ->
  p_Risk plan = risk /\ (0 < length (p_Operations plan) <= 256)%nat
  /\ classify plan 0 (sortOperations (p_Operations plan)) RiskRoutine = Some risk.
Proof.
  unfold ClassifyPlan. intros E. result_hyps.
  match goal with H : (_ =? _)%nat = false |- _ => apply Nat.eqb_neq in H end.
  match goal with H : (_ <? _)%nat = false |- _ => apply Nat.ltb_ge in H end.
  split; [done|]. split; [lia|done].
Qed.

(** ** Grants and scopes *)

Lemma matchingGrant_Some mismatch grants request branch grant :
  matchingGrantFrom mismatch grants request branch = inl grant ->
  grant ∈ grants /\ validEffectiveGrant grant = true /\ eg_AllowedAction grant = rq_Action request
  /\ eg_Capability grant = at_Capability (rq_Target request)
  /\ eg_ResourceKind grant = at_ResourceKind (rq_Target request)
  /\ eg_ResourceID grant = at_ResourceID (rq_Target request) /\ eg_Branch grant = default "" branch.
Proof.
  revert mismatch. induction grants as [|g grants IH]; intros mismatch; cbn [matchingGrantFrom]; [done|].
  case_match eqn:E1; [intros E; apply IH in E; set_solver|].
  case_match eqn:E2; [intros E; apply IH in E; set_solver|].
  case_match eqn:E3; [intros E; apply IH in E; set_solver|].
  intros [= <-]. bool_hyps. split_and!; try done. set_solver.
Qed.

Lemma matchingGrant_None mismatch grants request branch m :
  matchingGrantFrom mismatch grants request branch = inr m ->
  forall grant, grant ∈ grants -> validEffectiveGrant grant = true ->
  ~ (eg_AllowedAction grant = rq_Action request /\ eg_Capability grant = at_Capability (rq_Target request)
     /\ eg_ResourceKind grant = at_ResourceKind (rq_Target request)
     /\ eg_ResourceID grant = at_ResourceID (rq_Target request) /\ eg_Branch grant = default "" branch).
Proof.
  revert mismatch. induction grants as [|g grants IH]; intros mismatch; cbn [matchingGrantFrom]; [set_solver|].
  intros E grant Hg Hv (H1 & H2 & H3 & H4 & H5).
  apply elem_of_cons in Hg as [<-|Hg].
  - rewrite Hv, H1, H2, H3, H4, H5, !bool_decide_refl in E. done.
  - repeat case_match; try done; by eapply (IH _ E grant).
Qed.

Lemma BindEffectiveScope_Some snapshot grant target scope :
  BindEffectiveScope snapshot grant target = Some scope ->
  es_Status snapshot = EffectiveActive /\ 0 < es_GrantRevision snapshot /\ 0 <= es_StateRevision snapshot
  /\ 0 <= es_RecoveryEpoch snapshot /\ ValidIdentifier (es_PrincipalID snapshot) = true
  /\ ValidPrincipalKind (es_PrincipalKind snapshot) = true /\ validEffectiveGrant grant = true
  /\ ValidAuthorizationTarget target = true
  /\ scope = mkScope (es_PrincipalID snapshot) (eg_AllowedAction grant) (at_Capability target) (at_ResourceKind target)
               (at_ResourceID target) (eg_Role grant) (es_GrantRevision snapshot) (es_StateRevision snapshot)
               (es_RecoveryEpoch snapshot) (scopeFingerprint snapshot grant target).
Proof.
  unfold BindEffectiveScope. case_match; [done|]. intros [= <-]. bool_hyps. split_and!; done.
Qed.

(** ** Decisions *)

Lemma validBranch_requested request principal branch :
  ValidAction (rq_Action request) = true -> requestedBranch request principal = inl branch ->
  (isEffectAction (rq_Action request) = false /\ branch = None /\ rq_Branches request = [])
  \/ exists b plan, isEffectAction (rq_Action request) = true /\ branch = Some b /\ ValidBranch b = true
     /\ rq_Plan request = Some plan /\ p_AuthorizationBranch plan = b
     /\ ~ (b = BranchHuman /\ EffectivePrincipalKind principal = PrincipalPolicy).
Proof.
  intros Ha. unfold requestedBranch. case_match eqn:E1.
  - destruct (rq_Branches request); cbn; [|done]. intros [= <-]. left. split; [|done].
    apply orb_true_iff in E1 as [E1|E1]; bool_hyps; by rewrite E1.
  - destruct (rq_Branches request) as [|b [|]]; try done.
    case_match eqn:E2; [done|]. destruct (rq_Plan request) as [plan|]; [|done].
    case_match eqn:E3; [done|]. case_match eqn:E4; [done|]. intros [= <-]. bool_hyps. right.
    exists b, plan. split_and!; try done.
    + unfold ValidAction in Ha. bool_hyps. unfold isEffectAction. rewrite orb_true_iff, !bool_decide_eq_true. set_solver.
    + intros [-> Ek]. rewrite Ek in E4. by vm_compute in E4.
Qed.

(** The early returns of [evaluate], read as facts. The policy they implement is
    stated on its own in AuthorizationPolicy.v. *)
Record permitted (principal : Principal) (request : Request) (snapshot : EffectivePolicySnapshot)
    (branch : option string) (risk : string) (scope : EffectiveScope) : Prop := {
  pm_principal : es_PrincipalID snapshot = pn_ID principal /\ es_PrincipalKind snapshot = EffectivePrincipalKind principal;
  pm_active : es_Status snapshot = EffectiveActive /\ 0 < es_GrantRevision snapshot;
  pm_expected : match rq_Expected request with
                | Some e => (rb_GrantRevision e = es_GrantRevision snapshot
                             \/ rq_RecoveryContinuation request = true /\ rb_GrantRevision e = 0)
                            /\ rb_RecoveryEpoch e = es_RecoveryEpoch snapshot
                            /\ rb_StateRevision e = es_StateRevision snapshot
                | None => True
                end;
  pm_branch : requestedBranch request principal = inl branch;
  pm_effect : isEffectAction (rq_Action request) = true -> exists plan,
      rq_Plan request = Some plan /\ ClassifyPlan plan = Ok risk
      /\ (b_RecoveryEpoch (p_Binding plan) = es_RecoveryEpoch snapshot
          /\ b_StateRevision (p_Binding plan) = es_StateRevision snapshot
          \/ validRecoveryContinuation request snapshot = true);
  pm_read : isEffectAction (rq_Action request) = false -> risk = "";
  pm_human : rq_Action request = ActionAcknowledge -> EffectivePrincipalKind principal = PrincipalHuman;
  pm_preauthorized : branch = Some BranchPreauthorized ->
      validPreauthorized principal request (if isEffectAction (rq_Action request) then risk else RiskRoutine) = true;
  pm_target : forall plan, rq_Plan request = Some plan ->
      planContainsTarget plan (at_ResourceID (rq_Target request)) = true;
  pm_grant : exists grant, matchingGrant (es_Grants snapshot) request branch = inl grant
      /\ roleAllows (eg_Role grant) (rq_Action request) (if isEffectAction (rq_Action request) then risk else RiskRoutine) = true
      /\ BindEffectiveScope snapshot grant (rq_Target request) = Some scope
}.

Lemma evaluate_permitted principal request snapshot branch risk scope :
  evaluate principal request snapshot = inr (branch, risk, scope) -> permitted principal request snapshot branch risk scope.
Proof.
  unfold evaluate. intros E.
  destruct (_ || _ || _ || _) eqn:E1 in E; [done|]. bool_hyps.
  destruct (match rq_Expected request with Some e => _ | None => false end) eqn:E2 in E; [done|].
  destruct (match rq_Expected request with Some e => _ | None => false end) eqn:E3 in E; [done|].
  destruct (match rq_Expected request with Some e => _ | None => false end) eqn:E4 in E; [done|].
  destruct (requestedBranch request principal) as [b|] eqn:Eb; [|done].
  destruct (effectRisk request snapshot) as [refusal|[r recorded]] eqn:Ec; [done|]. unfold effectRisk in Ec.
  destruct (_ && _) eqn:E5 in E; [done|]. destruct (_ && _) eqn:E6 in E; [done|].
  destruct (match rq_Plan request with Some plan => _ | None => false end) eqn:E7 in E; [done|].
  destruct (matchingGrant (es_Grants snapshot) request b) as [grant|] eqn:Eg; [|done].
  destruct (negb _) eqn:E8 in E; [done|].
  destruct (BindEffectiveScope snapshot grant (rq_Target request)) as [sc|] eqn:Es; [|done]. simplify_eq.
  assert (Hrisk : r = if isEffectAction (rq_Action request) then risk else RiskRoutine).
  { destruct (isEffectAction (rq_Action request)); [|by simplify_eq].
    repeat case_match; by simplify_eq. }
  rewrite Hrisk in *. bool_hyps. constructor; try done.
  - destruct (rq_Expected request) as [e|]; [|done]. bool_hyps. split; [|done].
    apply andb_false_iff in E2 as [E2|E2]; bool_hyps; [by left|by right].
  - intros He. rewrite He in Ec. destruct (rq_Plan request) as [plan|]; [|done].
    destruct (ClassifyPlan plan) as [cr|] eqn:Ecl; [|done]. destruct (_ && _) eqn:E9 in Ec; [done|]. destruct (_ && _) eqn:E10 in Ec; [done|]. simplify_eq.
    exists plan. split; [done|]. split; [done|].
    destruct (validRecoveryContinuation request snapshot); [by right|left].
    rewrite andb_true_r in *. by bool_hyps.
  - intros He. rewrite He in Ec. by simplify_eq.
  - intros Ha. rewrite Ha in E5. cbn in E5. destruct (decide (EffectivePrincipalKind principal = PrincipalHuman)) as [|Hn]; [done|].
    by rewrite (bool_decide_eq_false_2 _ Hn) in E5.
  - intros ->. rewrite bool_decide_refl in E6. cbn in E6. by bool_hyps.
  - intros plan Hp. rewrite Hp in E7. by bool_hyps.
  - exists grant. done.
Qed.

Lemma permitted_evaluate principal request snapshot branch risk scope :
  permitted principal request snapshot branch risk scope -> evaluate principal request snapshot = inr (branch, risk, scope).
Proof.
  intros [[Hp Hk] [Ha Hg] Hx Hb He Hr Hh Hpre Ht (grant & Hm & Hrole & Hs)]. unfold evaluate.
  rewrite Hp, Hk, Ha, !bool_decide_refl, (proj2 (Z.leb_gt _ _) Hg). cbn [negb orb].
  destruct (match rq_Expected request with Some e => _ | None => false end) eqn:E2.
  { destruct (rq_Expected request) as [e|]; [|done]. destruct Hx as ([Hx|[Hc Hx]] & _);
      rewrite Hx, ?Hc, !bool_decide_refl in E2; cbn in E2; by rewrite ?andb_false_r in E2. }
  destruct (match rq_Expected request with Some e => rb_RecoveryEpoch e != _ | None => false end) eqn:E3.
  { destruct (rq_Expected request) as [e|]; [|done]. by bool_hyps; destruct Hx as (_ & Hx & _). }
  destruct (match rq_Expected request with Some e => rb_StateRevision e != _ | None => false end) eqn:E4.
  { destruct (rq_Expected request) as [e|]; [|done]. by bool_hyps; destruct Hx as (_ & _ & Hx). }
  rewrite Hb.
  assert (effectRisk request snapshot = inr (if isEffectAction (rq_Action request) then risk else RiskRoutine, risk)) as ->.
  { unfold effectRisk. destruct (isEffectAction (rq_Action request)); [|by rewrite Hr].
    destruct (He eq_refl) as (plan & -> & -> & [[-> ->]| ->]); rewrite ?bool_decide_refl, ?andb_false_r; done. }
  destruct ((rq_Action request == ActionAcknowledge) && _) eqn:E5.
  { apply andb_true_iff in E5 as [E5 E6]. bool_hyps. by destruct (E6 (Hh E5)). }
  destruct ((branch == Some BranchPreauthorized) && _) eqn:E6.
  { apply andb_true_iff in E6 as [E6 E7]. bool_hyps. rewrite (Hpre E6) in E7. done. }
  destruct (match rq_Plan request with Some plan => _ | None => false end) eqn:E7.
  { destruct (rq_Plan request) as [plan|]; [|done]. by rewrite (Ht plan eq_refl) in E7. }
  by rewrite Hm, Hrole, Hs.
Qed.

Lemma Authorize_allowed repository principal request :
  de_Allowed (Authorize repository principal request).1 = true <->
  ValidPrincipal principal = true /\ ValidAction (rq_Action request) = true
  /\ ValidAuthorizationTarget (rq_Target request) = true
  /\ exists snapshot branch risk scope, repository (pn_ID principal) (rq_Target request) = Ok snapshot
     /\ permitted principal request snapshot branch risk scope.
Proof.
  unfold Authorize. cbv zeta. case_match eqn:E1.
  { split; [done|]. intros (V1 & V2 & V3 & _). by rewrite V1, V2, V3 in E1. }
  bool_hyps. destruct (repository (pn_ID principal) (rq_Target request)) as [snapshot|err]; [|naive_solver].
  destruct (evaluate principal request snapshot) as [[reason risk]|[[branch risk] scope]] eqn:E2.
  - split; [done|]. intros (_ & _ & _ & s & b & r & sc & [= <-] & P). apply permitted_evaluate in P. congruence.
  - split; [|done]. intros _. split_and!; try done. exists snapshot, branch, risk, scope.
    split; [done|]. by apply evaluate_permitted.
Qed.

(** ** Policy principals *)

Lemma preauthorized_routine operation :
  preauthorizedOperation operation = true -> tableLookup operation operationRisk = Some RiskRoutine.
Proof.
  unfold preauthorizedOperation. intros E. bool_hyps. rewrite !elem_of_cons in E.
  repeat destruct E as [->|E]; try (vm_compute; reflexivity). by apply not_elem_of_nil in E.
Qed.

Lemma requestedBranch_refusal request principal reason :
  requestedBranch request principal = inr reason -> reason = "authorization-branch".
Proof. unfold requestedBranch. repeat case_match; congruence. Qed.

Lemma effectRisk_refusal request snapshot reason risk :
  effectRisk request snapshot = inl (reason, risk) ->
  reason ∈ ["risk-unknown"; "recovery-epoch-mismatch"; "state-revision-stale"].
Proof. unfold effectRisk. repeat case_match; intros E; simplify_eq; in_list. Qed.

Lemma evaluate_refusal principal request snapshot reason risk :
  evaluate principal request snapshot = inl (reason, risk) -> validReasonCode reason = true /\ reason <> "allowed".
Proof.
  unfold evaluate. intros E.
  assert (Hin : reason ∈ ["policy-inactive"; "grant-revision-stale"; "recovery-epoch-mismatch"; "state-revision-stale";
    "authorization-branch"; "risk-unknown"; "agent-cannot-acknowledge"; "preauthorization-denied"; "target-mismatch";
    "grant-missing"; "role-insufficient"; "policy-unavailable"]).
  { destruct (_ || _ || _ || _); [simplify_eq; in_list|].
    destruct (match rq_Expected request with Some e => _ | None => false end); [simplify_eq; in_list|].
    destruct (match rq_Expected request with Some e => rb_RecoveryEpoch e != _ | None => false end); [simplify_eq; in_list|].
    destruct (match rq_Expected request with Some e => _ | None => false end); [simplify_eq; in_list|].
    destruct (requestedBranch request principal) as [b|r] eqn:Eb.
    2: { apply requestedBranch_refusal in Eb. simplify_eq. in_list. }
    destruct (effectRisk request snapshot) as [[r k]|[r recorded]] eqn:Ec.
    { apply effectRisk_refusal in Ec. simplify_eq. rewrite !elem_of_cons in *. tauto. }
    repeat case_match; simplify_eq; in_list. }
  split; [unfold validReasonCode; apply bool_decide_eq_true_2; rewrite !elem_of_cons in *; tauto|]. intros ->.
  apply (bool_decide_eq_true_2 _) in Hin. vm_compute in Hin. discriminate.
Qed.

Lemma lowerToken_noNul s : lowerToken s = true -> noChar "000" s = true.
Proof.
  assert (Hc : forall x, isLower x || isDigit x || isTokenPunct x = true -> (x != "000"%char) = true).
  { intros x. destruct x as [[][][][][][][][]]; vm_compute; congruence. }
  unfold lowerToken, noChar. destruct s as [|c s]; [done|]. intros H1; bool_hyps. cbn [all_chars].
  apply andb_true_iff; split; [apply Hc; by match goal with H : isLower c = true |- _ => rewrite H end|].
  eapply all_chars_impl; [|eassumption]. exact Hc.
Qed.

Lemma pretty_noNul (z : Z) : noChar "000" (pretty z) = true.
Proof.
  eapply all_chars_impl; [|apply (jsonInt_numeral z)].
  intros x. destruct x as [[][][][][][][][]]; vm_compute; congruence.
Qed.

Lemma member_noNul s l : bool_decide (s ∈ l) = true -> forallb (noChar "000") l = true -> noChar "000" s = true.
Proof.
  intros Hs Hl. bool_hyps. eapply forallb_forall in Hl; [exact Hl|]. by apply list_elem_of_In.
Qed.

Lemma scopeParts_noNul snapshot grant target scope :
  BindEffectiveScope snapshot grant target = Some scope ->
  Forall (fun s => noChar "000" s = true) (scopeParts snapshot grant target).
Proof.
  intros E. apply BindEffectiveScope_Some in E as (_ & _ & _ & _ & Hp & Hk & Hg & Ht & _).
  assert (ValidRole (eg_Role grant) = true /\ ValidAction (eg_AllowedAction grant) = true) as [Hr Ha].
  { unfold validEffectiveGrant in Hg. case_match eqn:E; [done|]. by bool_hyps. }
  unfold ValidAuthorizationTarget in Ht. bool_hyps.
  repeat (apply Forall_cons; split); try apply Forall_nil; auto using lowerToken_noNul, pretty_noNul.
  - eapply member_noNul; [exact Hk|reflexivity].
  - eapply member_noNul; [exact Hr|reflexivity].
  - eapply member_noNul; [exact Ha|reflexivity].
Qed.

(** ** External executors *)

Lemma executorEvidence_values result extensions claim evidence :
  executorEvidenceFrom result extensions claim = Some evidence ->
  map_Forall (fun _ v => String.length v = 71%nat) result ->
  map_Forall (fun _ v => String.length v = 71%nat) evidence.
Proof.
  revert result. induction extensions as [|x xs IH]; intros result; cbn [executorEvidenceFrom].
  - by intros [= <-].
  - case_match.
    + case_match eqn:E; [done|]. intros E' Hr. eapply IH; [exact E'|].
      bool_hyps. match goal with H : (_ =? _)%nat = true |- _ => apply Nat.eqb_eq in H end.
      apply map_Forall_insert_2; done.
    + destruct claim; [done|]. intros E' Hr. by eapply IH.
Qed.

Lemma evidence_equal (want got : gmap string string) :
  map_Forall (fun _ v => String.length v = 71%nat) want -> map_Forall (fun _ v => String.length v = 71%nat) got ->
  forallb (fun entry => default "" (got !! entry.1) == entry.2) (map_to_list want) = true ->
  forallb (fun entry => default "" (want !! entry.1) != "") (map_to_list got) = true -> got = want.
Proof.
  intros Hw Hg H1 H2. rewrite forallb_forall in H1, H2. apply map_eq. intros k.
  destruct (want !! k) as [v|] eqn:Ev.
  - specialize (H1 (k, v)). cbn in H1. rewrite <- list_elem_of_In, elem_of_map_to_list in H1.
    specialize (H1 Ev). bool_hyps. destruct (got !! k) as [w|]; cbn in H1; [by subst|].
    subst. by apply Hw in Ev.
  - destruct (got !! k) as [w|] eqn:Ew; [|done]. specialize (H2 (k, w)). cbn in H2.
    rewrite <- list_elem_of_In, elem_of_map_to_list in H2. specialize (H2 Ew). rewrite Ev in H2. done.
Qed.

(** A policy principal that is allowed an effect executes, never
    acknowledges; it does so on the preauthorized branch of a routine plan all
    of whose operations are in the closed preauthorized table and have the
    requested resource as their target, through an exact preauthorized grant. *)
Theorem policy_principal_confined repository principal request :
  EffectivePrincipalKind principal = PrincipalPolicy -> isEffectAction (rq_Action request) = true ->
  de_Allowed (Authorize repository principal request).1 = true ->
  rq_Action request = ActionExecute
  /\ exists plan snapshot grant, rq_Plan request = Some plan /\ ClassifyPlan plan = Ok RiskRoutine
     /\ p_AuthorizationBranch plan = BranchPreauthorized
     /\ (forall op, op ∈ p_Operations plan -> preauthorizedOperation (op_OperationType op) = true
                      /\ op_TargetID op = at_ResourceID (rq_Target request))
     /\ repository (pn_ID principal) (rq_Target request) = Ok snapshot /\ grant ∈ es_Grants snapshot
     /\ eg_Branch grant = BranchPreauthorized /\ eg_AllowedAction grant = ActionExecute
     /\ eg_ResourceID grant = at_ResourceID (rq_Target request).
Proof.
  intros Hk He Ha. apply Authorize_allowed in Ha as (_ & Hact & _ & snapshot & branch & risk & scope & Hs & P).
  pose proof (validBranch_requested _ _ _ Hact (pm_branch _ _ _ _ _ _ P))
    as [(Hn & _)|(b & plan & _ & Eb & Hvb & Hp & Hpb & Hnh)]; [congruence|].
  assert (b = BranchPreauthorized) as ->.
  { unfold ValidBranch in Hvb. apply orb_true_iff in Hvb as [Hb|Hb]; bool_hyps; [|done]. by destruct Hnh. }
  pose proof (pm_preauthorized _ _ _ _ _ _ P Eb) as Hpre. rewrite He in Hpre.
  unfold validPreauthorized in Hpre. case_match eqn:E1; [done|]. bool_hyps. rewrite Hp in Hpre. bool_hyps.
  destruct (pm_effect _ _ _ _ _ _ P He) as (plan' & Hp' & Hc & _).
  destruct (pm_grant _ _ _ _ _ _ P) as (grant & Hm & Hrole & _).
  apply matchingGrant_Some in Hm as (Hin & Hv & Hga & _ & _ & Hgr & Hgb). rewrite Eb in Hgb. cbn in Hgb.
  assert (Hex : rq_Action request = ActionExecute).
  { unfold isEffectAction in He. apply orb_true_iff in He as [He|He]; bool_hyps; [|done].
    pose proof (pm_human _ _ _ _ _ _ P He) as Hh. by rewrite Hk in Hh. }
  split; [done|]. exists plan, snapshot, grant. split_and!; try done; try congruence.
  intros op Hop. match goal with H : forallb _ _ = true |- _ => rewrite forallb_forall in H; 
    specialize (H op (proj1 (list_elem_of_In _ _) Hop)) end.
  by bool_hyps.
Qed.

(** A decision of the evaluator on a well-formed request can always be
    recorded: whatever the repository answers with non-negative revisions, the
    decision satisfies the recorder's validator, an allowed decision carrying
    its scope and branch and a refusal neither. *)
Theorem authorize_recordable repository principal request record :
  ValidPrincipal principal = true -> ValidAction (rq_Action request) = true ->
  ValidAuthorizationTarget (rq_Target request) = true ->
  (forall plan, rq_Plan request = Some plan -> sha256Digest (p_PlanDigest plan) = true) ->
  (forall snapshot, repository (pn_ID principal) (rq_Target request) = Ok snapshot ->
     0 <= es_GrantRevision snapshot /\ 0 <= es_StateRevision snapshot /\ 0 <= es_RecoveryEpoch snapshot) ->
  lowerToken (dr_DecisionID record) = true -> lowerToken (dr_CorrelationID record) = true ->
  IsZero (dr_DecidedAt record) = false -> isUTC (dr_DecidedAt record) = true ->
  ValidateIntentKey (dr_Idempotency record) = true -> ValidateOutboxRequirements (dr_Destinations record) = true ->
  at_PrincipalID (dr_Attribution record) = pn_ID principal ->
  dr_Decision record = (Authorize repository principal request).1 ->
  ValidDecisionRecord record = true.
Proof.
  intros Vp Va Vt Hplan Hrev H1 H2 H3 H4 H5 H6 Hat Hd.
  assert (Hid : lowerToken (pn_ID principal) = true).
  { unfold ValidPrincipal in Vp. by bool_hyps. }
  assert (Hpd : (match rq_Plan request with Some plan => p_PlanDigest plan | None => "" end != "")
    && negb (sha256Digest (match rq_Plan request with Some plan => p_PlanDigest plan | None => "" end)) = false).
  { destruct (rq_Plan request) as [plan|]; [|done]. by rewrite (Hplan plan eq_refl), andb_false_r. }
  unfold Authorize in Hd. rewrite Vp, Va, Vt in Hd. cbn [negb orb] in Hd. cbv zeta in Hd.
  unfold ValidDecisionRecord. cbv zeta. rewrite Hd, H1, H2, H3, H4, H5, H6, Hat.
  destruct (repository (pn_ID principal) (rq_Target request)) as [snapshot|err] eqn:Er.
  2: { cbn [fst de_PrincipalID de_Action de_Target de_Allowed de_Branch de_ReasonCode de_GrantRevision de_StateRevision
         de_RecoveryEpoch de_PlanDigest de_Scope].
       rewrite Hid, Va, Vt, Hpd, !bool_decide_refl. reflexivity. }
  destruct (Hrev _ eq_refl) as (G1 & G2 & G3).
  destruct (evaluate principal request snapshot) as [[reason risk]|[[branch risk] scope]] eqn:Ee;
    cbn [fst de_PrincipalID de_Action de_Target de_Allowed de_Branch de_ReasonCode de_GrantRevision de_StateRevision
         de_RecoveryEpoch de_PlanDigest de_Scope];
    rewrite Hid, Va, Vt, Hpd, !bool_decide_refl, (proj2 (Z.ltb_ge _ _) G1), (proj2 (Z.ltb_ge _ _) G2),
      (proj2 (Z.ltb_ge _ _) G3).
  - apply evaluate_refusal in Ee as [-> Hn]. rewrite (bool_decide_eq_false_2 _ Hn). reflexivity.
  - apply evaluate_permitted in Ee as P. destruct (pm_grant _ _ _ _ _ _ P) as (grant & Hm & _ & Hb).
    apply matchingGrant_Some in Hm as (_ & _ & Hga & _).
    apply BindEffectiveScope_Some in Hb as (_ & _ & _ & _ & _ & _ & _ & _ & ->).
    destruct (pm_principal _ _ _ _ _ _ P) as [Hpp _].
    cbn [sc_ScopeDigest sc_PrincipalID sc_Action sc_Capability sc_ResourceKind sc_ResourceID sc_GrantRevision
         sc_StateRevision sc_RecoveryEpoch].
    rewrite Hpp, Hga, !bool_decide_refl. unfold scopeFingerprint, digestParts. rewrite hashString_digest, andb_false_r.
    change (hashString ?x == "") with false. cbn [negb orb].
    destruct (validBranch_requested _ _ _ Va (pm_branch _ _ _ _ _ _ P)) as [(-> & -> & _)|(b & plan & -> & -> & Hv & _)];
      [reflexivity|exact Hv].
Qed.

(** The risk of a plan is the greatest risk of its operations, every one of
    which is in the closed table, it is the risk the plan declares, and it does
    not depend on the order in which the plan lists its numbered operations. *)
Theorem plan_risk_is_maximum plan risk :
  ClassifyPlan plan = Ok risk ->
  p_Risk plan = risk
  /\ (forall op, op ∈ p_Operations plan -> exists r, riskOf plan op = Some r /\ rank r <= rank risk)
  /\ (risk = RiskRoutine \/ exists op, op ∈ p_Operations plan /\ riskOf plan op = Some risk)
  /\ forall operations, Permutation operations (p_Operations plan) ->
       ClassifyPlan (withOperations operations plan) = Ok risk.
Proof.
  intros E. apply ClassifyPlan_Ok in E as (Hr & Hlen & E). pose proof (classify_spec _ _ _ _ _ E) as (Hseq & _ & Hall & Hatt).
  pose proof (sortOperations_perm (p_Operations plan)) as Hp.
  split; [done|]. split; [intros op Hop; apply Hall; by rewrite Hp|]. split.
  - destruct Hatt as [->|(op & Hop & Ho)]; [by left|right]. exists op. by rewrite <- Hp.
  - intros operations Hperm.
    assert (Es : sortOperations (p_Operations plan) = sortOperations operations).
    { eapply sorted_unique; [|apply sortOperations_sorted|exact Hseq]. by rewrite !sortOperations_perm. }
    unfold ClassifyPlan. cbn [withOperations p_Operations p_Risk].
    rewrite (classify_ext (withOperations operations plan) plan) by done.
    rewrite <- Es, E, (Permutation_length Hperm), Hr.
    rewrite (proj2 (Nat.eqb_neq _ _)), (proj2 (Nat.ltb_ge _ _)) by lia.
    cbn [negb orb require of_option mbind result_bind]. by rewrite bool_decide_refl.
Qed.

(** The scope digest a decision records identifies the scope: two bound
    scopes with one digest are the same scope of principals of one kind, unless
    the two byte strings that were hashed are different and collide. *)
Theorem scope_digest_binds snapshot grant target scope snapshot' grant' target' scope' :
  BindEffectiveScope snapshot grant target = Some scope -> BindEffectiveScope snapshot' grant' target' = Some scope' ->
  sc_ScopeDigest scope = sc_ScopeDigest scope' ->
  (scope = scope' /\ es_PrincipalKind snapshot = es_PrincipalKind snapshot')
  \/ collides [Join nul (scopeParts snapshot grant target)] [Join nul (scopeParts snapshot' grant' target')].
Proof.
  intros B B' E. pose proof (scopeParts_noNul _ _ _ _ B) as N. pose proof (scopeParts_noNul _ _ _ _ B') as N'.
  apply BindEffectiveScope_Some in B as (_ & _ & _ & _ & _ & _ & _ & _ & ->).
  apply BindEffectiveScope_Some in B' as (_ & _ & _ & _ & _ & _ & _ & _ & ->). cbn [sc_ScopeDigest] in E.
  destruct (hash_binds (Join nul (scopeParts snapshot grant target)) (Join nul (scopeParts snapshot' grant' target'))
    [Join nul (scopeParts snapshot grant target)] [Join nul (scopeParts snapshot' grant' target')]) as [Ej|Hc];
    [set_solver|set_solver|exact E| |by right].
  left. apply Join_nul_inj in Ej; [|done..]. unfold scopeParts in Ej. unfold scopeFingerprint.
  assert (Es : scopeParts snapshot grant target = scopeParts snapshot' grant' target') by exact Ej. rewrite Es.
  injection Ej as E1 E2 E3 E4 E5 E6 E7 E8%(inj pretty) E9%(inj pretty) E10%(inj pretty).
  split; [|done]. congruence.
Qed.

(** An external claim is bound to an executor only for the enrolled policy
    principal itself, on a plan, step and epoch that name it, and only when the
    project, workflow and ref evidence of the claim is exactly the evidence the
    plan was approved with: nothing missing, nothing extra, nothing changed. *)
Theorem external_executor_evidence_exact principal request plan step who :
  BindExternalExecutorIdentity principal request plan step = Some who ->
  EffectivePrincipalKind principal = PrincipalPolicy /\ pn_ID principal = cl_PrincipalID request
  /\ p_ExecutorMode plan = "external" /\ p_ExecutorID plan = Some (pn_ID principal) /\ s_ExecutorID step = pn_ID principal
  /\ s_AdapterID step = cl_AdapterID request /\ b_RecoveryEpoch (p_Binding plan) = cl_RecoveryEpoch request
  /\ exists evidence, executorEvidence (p_Extensions plan) false = Some evidence
     /\ executorEvidence (cl_Extensions request) true = Some evidence
     /\ who = mkExternalExecutor (pn_ID principal) (pn_ID principal) (default "" (evidence !! "project"))
                (default "" (evidence !! "workflow")) (default "" (evidence !! "ref")).
Proof.
  unfold BindExternalExecutorIdentity. case_match eqn:E1; [done|]. intros E.
  apply bind_Some in E as (want & Hw & E). apply bind_Some in E as (got & Hg & E).
  destruct (_ && _) eqn:E2 in E; [|done]. apply andb_true_iff in E2 as [E2 E3]. simplify_eq. bool_hyps.
  assert (got = want) as ->.
  { apply evidence_equal; try done; eapply executorEvidence_values; try eassumption; apply map_Forall_empty. }
  split_and!; try done; try congruence. exists want. split_and!; try done. congruence.
Qed.

Lemma exactDraft_true p op id digest adapter kind :
  exactDraft p op id digest adapter kind = true ->
  p_DeclarationID p = op_TargetID op /\ op_InputDigest op = op_ArtifactDigest op /\ digest = op_InputDigest op.
Proof. unfold exactDraft. intros E. bool_hyps. split_and!; congruence. Qed.

(** The four projections speak of a sealed draft and name at least one host. *)
Definition sealedDraft (p : Plan) (op : PlanOperation) (ids : list string) (input : option string) : Prop :=
  ids <> [] /\ p_DeclarationID p = op_TargetID op /\ op_InputDigest op = op_ArtifactDigest op
  /\ exists json, input = Some json /\ hashString json = op_InputDigest op.

Ltac sealed :=
  let input := fresh "input" in let Hin := fresh "Hin" in let E := fresh "E" in
  intros E; apply bind_Some in E as (input & Hin & E); cbv zeta in E;
  destruct (_ && _) eqn:Ex in E; [|done]; simplify_eq; bool_hyps;
  match goal with H : exactDraft _ _ _ _ _ _ = true |- _ => apply exactDraft_true in H as (? & ? & ?) end;
  unfold sealedDraft; rewrite Hin; split_and!; eauto; done.

Lemma discoveryResources_Some p op ids :
  discoveryResources p op = Some ids -> sealedDraft p op ids (ht_JSON <$> p_HostDiscoveryTarget p).
Proof. unfold discoveryResources. sealed. Qed.
Lemma adoptionResources_Some p op ids :
  adoptionResources p op = Some ids -> sealedDraft p op ids (hd_JSON <$> p_HostAdoption p).
Proof. unfold adoptionResources. sealed. Qed.
Lemma replacementResources_Some p op ids :
  replacementResources p op = Some ids -> sealedDraft p op ids (hr_JSON <$> p_HostReplacement p).
Proof. unfold replacementResources. sealed. Qed.
Lemma aliasResources_Some p op ids :
  aliasResources p op = Some ids -> sealedDraft p op ids (ha_JSON <$> p_HostAliasClaim p).
Proof. unfold aliasResources. sealed. Qed.

(** The resources an operation executes on are never empty, and they differ
    from the operation's own target only for a human-approved, centrally
    executed single-operation plan whose input and artifact digests are the hash
    of a typed workflow input the plan carries. *)
Theorem execution_resources_sealed p op :
  ExecutionResourceIDs p op <> []
  /\ (ExecutionResourceIDs p op <> [op_TargetID op] ->
      p_AuthorizationBranch p = "human" /\ p_ExecutorMode p = "central" /\ p_Operations p = [op]
      /\ p_DeclarationID p = op_TargetID op /\ op_InputDigest op = op_ArtifactDigest op
      /\ exists input, hashString input = op_InputDigest op
         /\ (ht_JSON <$> p_HostDiscoveryTarget p = Some input \/ hd_JSON <$> p_HostAdoption p = Some input
             \/ hr_JSON <$> p_HostReplacement p = Some input \/ ha_JSON <$> p_HostAliasClaim p = Some input)).
Proof.
  unfold ExecutionResourceIDs. cbv zeta. case_match eqn:E1; [by split|]. bool_hyps.
  destruct (discoveryResources p op) as [ids|] eqn:Ed.
  { apply discoveryResources_Some in Ed as (? & ? & ? & json & Hj & ?). split; [done|]. intros _. split_and!; eauto 10. }
  destruct (adoptionResources p op) as [ids|] eqn:Ea.
  { apply adoptionResources_Some in Ea as (? & ? & ? & json & Hj & ?). split; [done|]. intros _. split_and!; eauto 10. }
  destruct (replacementResources p op) as [ids|] eqn:Er.
  { apply replacementResources_Some in Er as (? & ? & ? & json & Hj & ?). split; [done|]. intros _. split_and!; eauto 10. }
  destruct (aliasResources p op) as [ids|] eqn:El; [|by split].
  apply aliasResources_Some in El as (? & ? & ? & json & Hj & ?). split; [done|]. intros _. split_and!; eauto 10.
Qed.

End Properties.

(** ** Witnesses *)

Section Witnesses.

(** A host-replacement component that accepts every input. *)
#[local] Instance lenientReplacement : HostReplacementContract :=
  {| ValidateInput _ := true; ValidateAliasClaim _ := true |}.

Definition demoDigest : string := Eval vm_compute in hashString "demo".

Definition demoOperation : PlanOperation :=
  mkPlanOperation 1 "op-1" "backup.snapshot" "core.backup" "executor-1" "host-1" demoDigest demoDigest true.

Definition demoPlan (branch mode : string) : Plan :=
  mkPlan "plan-1" demoDigest "host-1" (mkPlanBinding 0 1 2 1 demoDigest demoDigest demoDigest "v1" "v1" "v1")
    [demoOperation] "approved" "routine" branch mode (Some "executor-1") "2026-09-16T01:10:00Z" "2026-09-16T01:40:00Z"
    None None None None None None None None None [mkExtension "x-executor-ref" demoDigest].

Definition demoTarget : Target := mkTarget "plan.execute" "host" "host-1".

Definition demoSnapshot : EffectivePolicySnapshot :=
  mkSnapshot "nightly" "policy" "active" 3 2 0
    [mkEffectiveGrant "preauthorized-executor" "execute" "plan.execute" "host" "host-1" "preauthorized"].

Definition demoPolicy : Principal := mkPrincipal "nightly" "local-os-peer" "policy" "".

Definition demoAuthorization : Request :=
  mkRequest "execute" demoTarget (Some (demoPlan "preauthorized" "central")) ["preauthorized"] None false.

Definition demoRepository (_ : string) (_ : Target) : result EffectivePolicySnapshot := Ok demoSnapshot.

Lemma demo_allowed : de_Allowed (Authorize demoRepository demoPolicy demoAuthorization).1 = true.
Proof. vm_compute. reflexivity. Qed.

Lemma policy_principal_confined_witness :
  de_Allowed (Authorize demoRepository demoPolicy demoAuthorization).1 = true
  /\ rq_Action demoAuthorization = ActionExecute.
Proof.
  split; [exact demo_allowed|].
  exact (proj1 (policy_principal_confined demoRepository demoPolicy demoAuthorization eq_refl eq_refl demo_allowed)).
Defined.

Definition demoDecisionRecord : DecisionRecord :=
  mkDecisionRecord "decision-1" (Authorize demoRepository demoPolicy demoAuthorization).1 demoTime "run-1"
    (mkAttribution "nightly" "local-os-peer" None None) (mkIntentKey "authorization.decision" demoDigest demoDigest) [].

Lemma authorize_recordable_witness : ValidDecisionRecord demoDecisionRecord = true.
Proof.
  apply (authorize_recordable demoRepository demoPolicy demoAuthorization); try (vm_compute; reflexivity).
  - intros plan [= <-]. vm_compute. reflexivity.
  - intros snapshot [= <-]. cbn. lia.
Defined.

Lemma plan_risk_is_maximum_witness :
  ClassifyPlan (demoPlan "preauthorized" "central") = Ok RiskRoutine
  /\ p_Risk (demoPlan "preauthorized" "central") = RiskRoutine.
Proof.
  assert (E : ClassifyPlan (demoPlan "preauthorized" "central") = Ok RiskRoutine) by (vm_compute; reflexivity).
  split; [exact E|]. exact (proj1 (plan_risk_is_maximum _ _ E)).
Defined.

Definition demoGrant : EffectiveGrant :=
  mkEffectiveGrant "preauthorized-executor" "execute" "plan.execute" "host" "host-1" "preauthorized".

Lemma scope_digest_binds_witness :
  exists scope, BindEffectiveScope demoSnapshot demoGrant demoTarget = Some scope
  /\ (scope = scope /\ es_PrincipalKind demoSnapshot = es_PrincipalKind demoSnapshot
      \/ collides [Join nul (scopeParts demoSnapshot demoGrant demoTarget)]
                  [Join nul (scopeParts demoSnapshot demoGrant demoTarget)]).
Proof.
  destruct (BindEffectiveScope demoSnapshot demoGrant demoTarget) as [scope|] eqn:E.
  - exists scope. split; [reflexivity|]. exact (scope_digest_binds _ _ _ _ _ _ _ _ E E eq_refl).
  - exfalso. vm_compute in E. discriminate.
Defined.

Definition demoClaim : ExecutorClaimRequest :=
  mkExecutorClaim "executor-1" "executor-1" "core.backup" 0 demoDigest [mkExtension "x-executor-ref" demoDigest].

Definition demoStep : RunStep :=
  mkRunStep 1 "op-1" "backup.snapshot" "core.backup" "executor-1" "host-1" demoDigest demoDigest true "step-1"
    "queued" "not-started".

Lemma external_executor_evidence_exact_witness :
  exists who, BindExternalExecutorIdentity (mkPrincipal "executor-1" "cloudflare-access" "policy" "") demoClaim
    (demoPlan "human" "external") demoStep = Some who /\ p_ExecutorMode (demoPlan "human" "external") = "external".
Proof.
  destruct (BindExternalExecutorIdentity (mkPrincipal "executor-1" "cloudflare-access" "policy" "") demoClaim
    (demoPlan "human" "external") demoStep) as [who|] eqn:E.
  - exists who. split; [reflexivity|]. exact (proj1 (proj2 (proj2 (external_executor_evidence_exact _ _ _ _ _ E)))).
  - exfalso. vm_compute in E. discriminate.
Defined.

End Witnesses.
