(* ===== verification/AuthorizationPolicy.v ===== *)
(** The authorization policy of [internal/authorization], stated without the
    evaluator: who may do what is given by an inductive table of roles, the risk
    of a plan by a maximum over its operations, the branch of a request by rules
    and the deciding grant by its position in the snapshot. None of these
    definitions calls a function of [policy.go]; the theorem at the end shows
    that [Authorize] permits exactly what they describe. *)

From S2P Require Import Prelude GoTime Hash GoJson Contracts AuditLog Authorization.

(** ** Roles *)

(** The risks, the least first. *)
Definition riskLadder : list string :=
  ["routine"; "production-like"; "infrastructure"; "destructive"; "control-plane"].

Definition atMost (risk bound : string) : Prop :=
  exists i j, riskLadder !! i = Some risk /\ riskLadder !! j = Some bound /\ (i <= j)%nat.

(** [roleMay risk role action]: the role suffices for the action at the risk. *)
Inductive roleMay (risk : string) : string -> string -> Prop :=
  | may_reader : roleMay risk "reader" "read"
  | may_author action : action ∈ ["read"; "author"] -> roleMay risk "author" action
  | may_maintainer action : action ∈ ["read"; "author"] -> roleMay risk "maintainer" action
  | may_maintainer_effect action : action ∈ ["acknowledge"; "execute"] -> atMost risk "production-like" ->
      roleMay risk "maintainer" action
  | may_infrastructure action : action ∈ ["read"; "author"; "acknowledge"; "execute"] -> atMost risk "destructive" ->
      roleMay risk "infrastructure-admin" action
  | may_control_plane action : action ∈ ["read"; "author"; "acknowledge"; "execute"] ->
      roleMay risk "control-plane-admin" action
  | may_preauthorized : atMost risk "routine" -> roleMay risk "preauthorized-executor" "execute".

(** ** Risk of a plan *)

(** A replacement that restores the control database. *)
Definition restoresControl (plan : Plan) (operation : PlanOperation) : Prop :=
  op_OperationType operation ∈ ["host.replacement.freeze"; "host.replacement.commit"]
  /\ exists replacement, p_HostReplacement plan = Some replacement
     /\ hr_RestorationClass replacement = "control-database".

Inductive hasRisk (plan : Plan) (operation : PlanOperation) : string -> Prop :=
  | risk_of_table risk : (op_OperationType operation, risk) ∈ operationRisk -> ~ restoresControl plan operation ->
      hasRisk plan operation risk
  | risk_of_restoration : restoresControl plan operation -> hasRisk plan operation "control-plane".

(** The risk of a plan of 1 to 256 operations numbered from 1: the greatest of
    its operations, and the one the plan declares. *)
Record planRisk (plan : Plan) (risk : string) : Prop := {
  pr_length : (1 <= length (p_Operations plan) <= 256)%nat;
  pr_numbered : Permutation (op_Sequence <$> p_Operations plan) (seqZ 1 (Z.of_nat (length (p_Operations plan))));
  pr_declared : p_Risk plan = risk;
  pr_bound : forall operation, operation ∈ p_Operations plan -> exists r, hasRisk plan operation r /\ atMost r risk;
  pr_attained : exists operation, operation ∈ p_Operations plan /\ hasRisk plan operation risk
}.

Section Policy.
Context `{Hasher} `{HostReplacementContract}.

(** ** Plans: currency and targets *)

(** The one plan that may run in the epoch after its own: the cutover of a
    restore, for exactly the resource of the request. *)
Definition continuesRecovery (request : Request) (snapshot : EffectivePolicySnapshot) (plan : Plan) : Prop :=
  rq_RecoveryContinuation request = true /\ rq_Action request = "execute"
  /\ (exists expected, rq_Expected request = Some expected /\ rb_StateRevision expected = es_StateRevision snapshot
        /\ rb_RecoveryEpoch expected = es_RecoveryEpoch snapshot)
  /\ p_Risk plan = "control-plane" /\ p_AuthorizationBranch plan = "human"
  /\ es_RecoveryEpoch snapshot = b_RecoveryEpoch (p_Binding plan) + 1
  /\ b_RecoveryEpoch (p_Binding plan) < 2 ^ 63 - 1
  /\ exists operation, p_Operations plan = [operation] /\ op_OperationType operation = "recovery.restore.cutover"
     /\ op_AdapterID operation = "core.recovery" /\ op_TargetID operation = at_ResourceID (rq_Target request).

Definition planCurrent (request : Request) (snapshot : EffectivePolicySnapshot) (plan : Plan) : Prop :=
  b_RecoveryEpoch (p_Binding plan) = es_RecoveryEpoch snapshot
  /\ b_StateRevision (p_Binding plan) = es_StateRevision snapshot
  \/ continuesRecovery request snapshot plan.

(** The host a sealed recovery receive suspends. *)
Definition suspends (plan : Plan) (id : string) : Prop :=
  exists a d, p_HostAction plan = Some a /\ hx_Decoded a = Some d
  /\ hx_ActionID a = "debian.control.recovery-receive" /\ hx_ActionVersion a = "1.0.0"
  /\ hashString (hx_ActionInput a) = hx_ActionInputDigest a
  /\ rv_Schema d = "vegastack-labs.dev/control-recovery-receive-input" /\ rv_SchemaVersion d = "1.0.0"
  /\ id = rv_ReplacementOldHostID d /\ id <> "" /\ id <> hx_HostID a
  /\ rv_ReplacementNewHostID d = hx_HostID a /\ rv_BindingFormerHostID d = id
  /\ rv_BindingReplacementHostID d = hx_HostID a
  /\ exists operation, operation ∈ p_Operations plan /\ op_OperationType operation = "host.action.execute"
     /\ op_TargetID operation = hx_HostID a.

(** The resources a plan speaks of. *)
Inductive planNames (plan : Plan) (id : string) : Prop :=
  | names_target operation : operation ∈ p_Operations plan -> op_TargetID operation = id -> planNames plan id
  | names_resource operation : operation ∈ p_Operations plan -> id ∈ ExecutionResourceIDs plan operation ->
      planNames plan id
  | names_baseline scope : p_HostBaselineScope plan = Some scope ->
      hb_SubjectHostID scope = id \/ hb_ExecutionHostID scope = id -> planNames plan id
  | names_auxiliary hosts : p_HostAccessAuxiliaryHostIDs plan = Some hosts -> id ∈ hosts -> planNames plan id
  | names_suspended : suspends plan id -> planNames plan id.

(** ** Branches *)

(** The branch a request of a principal may use. A policy principal only ever
    executes what is routine, on the one resource all of the plan is about; the
    human branch is closed to it. *)
Inductive mayUse (principal : Principal) (request : Request) : option string -> Prop :=
  | use_none : rq_Action request ∈ ["read"; "author"] -> rq_Branches request = [] -> mayUse principal request None
  | use_human plan : rq_Action request ∈ ["acknowledge"; "execute"] -> rq_Branches request = ["human"] ->
      rq_Plan request = Some plan -> p_AuthorizationBranch plan = "human" ->
      EffectivePrincipalKind principal <> "policy" -> mayUse principal request (Some "human")
  | use_preauthorized plan : rq_Action request ∈ ["acknowledge"; "execute"] ->
      rq_Branches request = ["preauthorized"] -> rq_Plan request = Some plan ->
      p_AuthorizationBranch plan = "preauthorized" -> EffectivePrincipalKind principal = "policy" ->
      planRisk plan "routine" ->
      (forall operation, operation ∈ p_Operations plan -> op_TargetID operation = at_ResourceID (rq_Target request)) ->
      mayUse principal request (Some "preauthorized").

(** ** Grants *)

(** A grant that can take effect: reading and authoring know no branch, the
    preauthorized executor only executes on its own branch, and every other role
    takes effect on the human branch. *)
Definition wellFormedGrant (grant : EffectiveGrant) : Prop :=
  eg_AllowedAction grant ∈ ["read"; "author"] /\ eg_Branch grant = ""
  /\ eg_Role grant ∈ ["reader"; "author"; "maintainer"; "infrastructure-admin"; "control-plane-admin"]
  \/ eg_AllowedAction grant ∈ ["acknowledge"; "execute"] /\ eg_Branch grant = "human"
     /\ eg_Role grant ∈ ["reader"; "author"; "maintainer"; "infrastructure-admin"; "control-plane-admin"]
  \/ eg_AllowedAction grant = "execute" /\ eg_Branch grant = "preauthorized"
     /\ eg_Role grant = "preauthorized-executor".

(** The grant is for exactly the action, the target and the branch. *)
Definition matches (request : Request) (branch : option string) (grant : EffectiveGrant) : Prop :=
  wellFormedGrant grant /\ eg_AllowedAction grant = rq_Action request
  /\ eg_Capability grant = at_Capability (rq_Target request)
  /\ eg_ResourceKind grant = at_ResourceKind (rq_Target request)
  /\ eg_ResourceID grant = at_ResourceID (rq_Target request)
  /\ eg_Branch grant = match branch with Some b => b | None => "" end.

(** The first of the grants that matches. *)
Definition decidingGrant (request : Request) (branch : option string) (grants : list EffectiveGrant)
    (grant : EffectiveGrant) : Prop :=
  matches request branch grant
  /\ exists before after, grants = before ++ grant :: after /\ Forall (fun g => ~ matches request branch g) before.

(** ** The policy *)

(** [judged] is the risk the role is measured by: that of the plan, or routine
    where nothing takes effect, in which case none is recorded. *)
Inductive judged (request : Request) (snapshot : EffectivePolicySnapshot) : string -> string -> Prop :=
  | judged_effect plan risk : rq_Action request ∈ ["acknowledge"; "execute"] -> rq_Plan request = Some plan ->
      planRisk plan risk -> planCurrent request snapshot plan -> judged request snapshot risk risk
  | judged_inert : rq_Action request ∈ ["read"; "author"] -> judged request snapshot "routine" "".

Record warranted (principal : Principal) (request : Request) (snapshot : EffectivePolicySnapshot)
    (branch : option string) (recorded : string) (scope : EffectiveScope) : Prop := {
  wa_principal : es_PrincipalID snapshot = pn_ID principal
                 /\ es_PrincipalKind snapshot = EffectivePrincipalKind principal;
  wa_active : es_Status snapshot = "active" /\ 0 < es_GrantRevision snapshot /\ 0 <= es_StateRevision snapshot
              /\ 0 <= es_RecoveryEpoch snapshot;
  wa_expected : forall e, rq_Expected request = Some e ->
      (rb_GrantRevision e = es_GrantRevision snapshot
       \/ rq_RecoveryContinuation request = true /\ rb_GrantRevision e = 0)
      /\ rb_RecoveryEpoch e = es_RecoveryEpoch snapshot /\ rb_StateRevision e = es_StateRevision snapshot;
  wa_branch : mayUse principal request branch;
  wa_human : rq_Action request = "acknowledge" -> EffectivePrincipalKind principal = "human";
  wa_target : forall plan, rq_Plan request = Some plan -> planNames plan (at_ResourceID (rq_Target request));
  wa_grant : exists risk grant, judged request snapshot risk recorded
      /\ decidingGrant request branch (es_Grants snapshot) grant /\ roleMay risk (eg_Role grant) (rq_Action request)
      /\ scope = mkScope (pn_ID principal) (rq_Action request) (at_Capability (rq_Target request))
                   (at_ResourceKind (rq_Target request)) (at_ResourceID (rq_Target request)) (eg_Role grant)
                   (es_GrantRevision snapshot) (es_StateRevision snapshot) (es_RecoveryEpoch snapshot)
                   (scopeFingerprint snapshot grant (rq_Target request))
}.

End Policy.

(** ** The evaluator's tables *)

(** A risk of the table and its step of the ladder. *)
Lemma ladder_rank risk i :
  riskLadder !! i = Some risk <-> ValidRiskClass risk = true /\ rank risk = Z.of_nat i + 1.
Proof.
  split.
  - intros Hi. unfold riskLadder in Hi. do 5 (destruct i as [|i]; [cbn in Hi; simplify_eq; done|]). done.
  - intros [Hv Hr]. unfold ValidRiskClass, rank in *. bool_hyps. unfold tableLookup, riskRank in *.
    repeat case_bool_decide; subst; cbn in Hr; try by destruct Hv.
    all: match type of Hr with ?n = _ => replace i with (Z.to_nat (n - 1)) by lia end; done.
Qed.

Lemma ladder_valid risk : ValidRiskClass risk = true -> exists i, riskLadder !! i = Some risk.
Proof.
  intros Hv. exists (Z.to_nat (rank risk - 1)). apply ladder_rank. split; [done|].
  enough (1 <= rank risk) by lia. unfold ValidRiskClass, rank in *. bool_hyps. unfold tableLookup, riskRank in *.
  repeat case_bool_decide; cbn; try lia. by destruct Hv.
Qed.

Lemma atMost_rank risk bound :
  atMost risk bound <-> ValidRiskClass risk = true /\ ValidRiskClass bound = true /\ rank risk <= rank bound.
Proof.
  split.
  - intros (i & j & Hi & Hj & Hij). apply ladder_rank in Hi as [? ?], Hj as [? ?]. split_and!; [done..|lia].
  - intros (Hr & Hb & Hle). destruct (ladder_valid _ Hr) as [i Hi], (ladder_valid _ Hb) as [j Hj].
    exists i, j. split_and!; [done..|]. apply ladder_rank in Hi as [_ ?], Hj as [_ ?]. lia.
Qed.

Lemma rank_inj risk risk' :
  ValidRiskClass risk = true -> ValidRiskClass risk' = true -> rank risk = rank risk' -> risk = risk'.
Proof.
  intros Hr Hr' E. destruct (ladder_valid _ Hr) as [i Hi], (ladder_valid _ Hr') as [j Hj].
  pose proof (proj1 (ladder_rank _ _) Hi) as [_ Ei]. pose proof (proj1 (ladder_rank _ _) Hj) as [_ Ej].
  assert (i = j) as -> by lia. congruence.
Qed.

Lemma tableLookup_in {A} key (table : list (string * A)) value :
  NoDup table.*1 -> tableLookup key table = Some value <-> (key, value) ∈ table.
Proof.
  induction table as [|[k v] table IH]; cbn [tableLookup fmap list_fmap]; intros Hn; [set_solver|].
  apply NoDup_cons in Hn as [Hk Hn]. rewrite elem_of_cons. case_bool_decide; subst.
  - split; [intros [= ->]; by left|]. intros [E|Hin]; [by simplify_eq|]. destruct Hk. apply list_elem_of_fmap.
    by exists (key, value).
  - rewrite IH by done. split; [by right|]. intros [E|]; [by simplify_eq|done].
Qed.

Lemma operationRisk_in operation risk :
  tableLookup operation operationRisk = Some risk <-> (operation, risk) ∈ operationRisk.
Proof. apply tableLookup_in. apply (bool_decide_eq_true_1 _). vm_compute. reflexivity. Qed.

(** What is preauthorized is what is routine. *)
Lemma preauthorized_routine_exact operation :
  preauthorizedOperation operation = true <-> tableLookup operation operationRisk = Some RiskRoutine.
Proof.
  split; [apply preauthorized_routine|]. intros Hin%operationRisk_in.
  assert (Hall : forallb (fun e => (e.2 != RiskRoutine) || preauthorizedOperation e.1) operationRisk = true)
    by (vm_compute; reflexivity).
  rewrite forallb_forall in Hall. specialize (Hall _ (proj1 (list_elem_of_In _ _) Hin)). cbn in Hall. done.
Qed.

(** The members of a literal list, one by one. *)
Ltac each H := rewrite ?elem_of_cons, ?elem_of_nil in H; repeat (destruct H as [H|H]); try done; try subst.

Lemma valid_action action : ValidAction action = true <-> action ∈ ["read"; "author"; "acknowledge"; "execute"].
Proof. unfold ValidAction. apply bool_decide_eq_true. Qed.

Lemma valid_risk risk : ValidRiskClass risk = true <-> risk ∈ riskLadder.
Proof.
  split; [intros [i Hi]%ladder_valid; by eapply list_elem_of_lookup_2|].
  intros H. unfold riskLadder in H. each H; done.
Qed.

Lemma roleAllows_roleMay role action risk :
  ValidAction action = true -> ValidRiskClass risk = true ->
  roleAllows role action risk = true <-> roleMay risk role action.
Proof.
  intros Ha%valid_action Hr%valid_risk. unfold riskLadder in Hr. split.
  - intros E. destruct (ValidRole role) eqn:Ev; [|by unfold roleAllows in E; rewrite Ev in E].
    unfold ValidRole in Ev. bool_hyps.
    each Ev; each Ha; each Hr; try (vm_compute in E; discriminate);
      constructor; try in_list; by apply atMost_rank.
  - destruct 1; repeat match goal with H : atMost _ _ |- _ => apply atMost_rank in H as (_ & _ & H) end;
      each Ha; each Hr; try (vm_compute; reflexivity);
      repeat match goal with H : _ ∈ _ |- _ => apply (bool_decide_eq_true_2 _) in H; vm_compute in H; discriminate
        | H : (_ <= _) |- _ => vm_compute in H; congruence end.
Qed.

(** ** The risk of a plan *)

Lemma riskOf_hasRisk plan operation risk : riskOf plan operation = Some risk <-> hasRisk plan operation risk.
Proof.
  unfold riskOf.
  assert (Hc : ((op_OperationType operation == "host.replacement.freeze")
      || (op_OperationType operation == "host.replacement.commit"))
      && match p_HostReplacement plan with
         | Some replacement => hr_RestorationClass replacement == "control-database"
         | None => false
         end = true <-> restoresControl plan operation).
  { unfold restoresControl. rewrite andb_true_iff, orb_true_iff, !bool_decide_eq_true, !elem_of_cons, elem_of_nil.
    destruct (p_HostReplacement plan) as [r|]; [rewrite bool_decide_eq_true; naive_solver|naive_solver]. }
  split.
  - intros E. apply bind_Some in E as (r & E & [= <-]). destruct (_ && _).
    + apply risk_of_restoration. by apply Hc.
    + apply risk_of_table; [by apply operationRisk_in|]. rewrite <- Hc. done.
  - destruct 1 as [risk Hin Hn|Hr].
    + apply operationRisk_in in Hin as ->. cbn. destruct (_ && _); [|done]. by destruct Hn; apply Hc.
    + pose proof Hr as [Ht _].
      assert (is_Some (tableLookup (op_OperationType operation) operationRisk)) as [r ->] by (each Ht; rewrite Ht; vm_compute; eauto).
      cbn. apply Hc in Hr. by rewrite Hr.
Qed.

Lemma hasRisk_functional plan operation risk risk' :
  hasRisk plan operation risk -> hasRisk plan operation risk' -> risk = risk'.
Proof. rewrite <- !riskOf_hasRisk. congruence. Qed.

Lemma seqZ_sorted m n : StronglySorted Z.le (seqZ m n).
Proof.
  unfold seqZ. generalize 0%nat. induction (Z.to_nat n) as [|k IH]; intros j; cbn; constructor; [apply IH|].
  apply Forall_fmap, Forall_forall. intros i Hi. apply elem_of_seq in Hi. cbn. lia.
Qed.

(** Operations numbered 1 to n are listed by their numbers once sorted. *)
Lemma sorted_numbers operations :
  Permutation (op_Sequence <$> operations) (seqZ 1 (Z.of_nat (length operations))) ->
  forall i operation, sortOperations operations !! i = Some operation -> op_Sequence operation = 0 + 1 + Z.of_nat i.
Proof.
  intros Hp i operation Hi.
  assert (E : op_Sequence <$> sortOperations operations = seqZ 1 (Z.of_nat (length operations))).
  { apply (StronglySorted_unique Z.le); [|apply seqZ_sorted|by rewrite sortOperations_perm].
    pose proof (sortOperations_sorted operations) as Hs. clear -Hs.
    induction Hs as [|x l _ IH Hx]; cbn; constructor; [done|]. by apply Forall_fmap. }
  assert (Hl : (op_Sequence <$> sortOperations operations) !! i = Some (op_Sequence operation))
    by (by rewrite list_lookup_fmap, Hi).
  rewrite E in Hl. apply lookup_seqZ in Hl. lia.
Qed.

Lemma numbers_sorted operations :
  (forall i operation, sortOperations operations !! i = Some operation -> op_Sequence operation = 0 + 1 + Z.of_nat i) ->
  Permutation (op_Sequence <$> operations) (seqZ 1 (Z.of_nat (length operations))).
Proof.
  intros Hi. rewrite <- (sortOperations_perm operations) at 1.
  enough (op_Sequence <$> sortOperations operations = seqZ 1 (Z.of_nat (length operations))) as -> by done.
  pose proof (Permutation_length (sortOperations_perm operations)) as Hl.
  apply list_eq. intros i. rewrite list_lookup_fmap.
  destruct (sortOperations operations !! i) as [o|] eqn:Ho; cbn.
  - apply lookup_lt_Some in Ho as Hlt. rewrite lookup_seqZ_lt by lia. f_equal. rewrite (Hi _ _ Ho). lia.
  - apply lookup_ge_None in Ho. rewrite lookup_seqZ_ge by lia. done.
Qed.

Lemma routine_least risk : ValidRiskClass risk = true -> rank risk <= rank RiskRoutine -> risk = RiskRoutine.
Proof.
  intros [i Hi]%ladder_valid Hle. apply ladder_rank in Hi as Hr. destruct Hr as [_ Hr].
  change (rank RiskRoutine) with 1 in Hle. assert (i = 0%nat) as -> by lia. by injection Hi.
Qed.

Lemma ClassifyPlan_planRisk plan risk : ClassifyPlan plan = Ok risk <-> planRisk plan risk.
Proof.
  pose proof (sortOperations_perm (p_Operations plan)) as Hp. split.
  - intros E. apply ClassifyPlan_Ok in E as (Hr & Hlen & E). pose proof (classify_spec _ _ _ _ _ E) as (Hseq & _ & Hall & Hatt).
    assert (Hb : forall o, o ∈ p_Operations plan -> exists r, hasRisk plan o r /\ atMost r risk).
    { intros o Ho. rewrite <- Hp in Ho. destruct (Hall o Ho) as (r & Er & Hle). exists r. split; [by apply riskOf_hasRisk|].
      apply atMost_rank. split_and!; [by eapply riskOf_valid| |done].
      destruct Hatt as [->|(o' & _ & Eo)]; [done|by eapply riskOf_valid]. }
    constructor; [lia|by apply numbers_sorted|done|done|].
    destruct Hatt as [->|(o & Ho & Eo)]; [|exists o; split; [by rewrite <- Hp|by apply riskOf_hasRisk]].
    destruct (p_Operations plan) as [|o rest] eqn:Eops; [cbn in Hlen; lia|].
    exists o. split; [by left|]. destruct (Hb o) as (r & Hr' & Hle); [by left|].
    apply atMost_rank in Hle as (Hv & _ & Hle). by rewrite (routine_least _ Hv Hle) in Hr'.
  - intros [Hlen Hnum Hdecl Hb (o & Ho & Hro)]. unfold ClassifyPlan.
    destruct (classify_complete plan 0 (sortOperations (p_Operations plan)) RiskRoutine) as [r Er].
    { by apply sorted_numbers. }
    { intros x Hx. rewrite Hp in Hx. destruct (Hb x Hx) as (r & Hr & _). exists r. by apply riskOf_hasRisk. }
    pose proof (classify_spec _ _ _ _ _ Er) as (_ & _ & Hall & Hatt).
    apply riskOf_hasRisk in Hro as Ero. pose proof (riskOf_valid _ _ _ Ero) as Hv.
    assert (r = risk) as ->.
    { assert (Hrr : rank risk <= rank r).
      { destruct (Hall o) as (r' & Er' & Hle); [by rewrite Hp|]. congruence. }
      destruct Hatt as [->|(o' & Ho' & Er')].
      - symmetry. by apply routine_least.
      - rewrite Hp in Ho'. destruct (Hb o' Ho') as (r' & Hr' & Hle). apply riskOf_hasRisk in Hr'.
        assert (r' = r) as -> by congruence. apply atMost_rank in Hle as (? & _ & ?).
        apply rank_inj; [done..|lia]. }
    rewrite Er. rewrite (proj2 (Nat.eqb_neq _ _)), (proj2 (Nat.ltb_ge _ _)) by lia.
    cbn [negb orb require of_option mbind result_bind]. by rewrite Hdecl, bool_decide_refl.
Qed.

(** ** Plans and branches *)

Section Correspondence.
Context `{Hasher} `{HostReplacementContract}.

Lemma effect_action action : isEffectAction action = true <-> action ∈ ["acknowledge"; "execute"].
Proof. unfold isEffectAction. rewrite orb_true_iff, !bool_decide_eq_true, !elem_of_cons, elem_of_nil. tauto. Qed.

Lemma inert_action action :
  ValidAction action = true -> isEffectAction action = false <-> action ∈ ["read"; "author"].
Proof.
  intros Ha%valid_action. rewrite <- not_true_iff_false, effect_action. rewrite !elem_of_cons, elem_of_nil in *.
  split; [tauto|]. intros [->|[->|[]]] [E|[E|[]]]; discriminate.
Qed.

Lemma validRecoveryContinuation_exact request snapshot plan :
  rq_Plan request = Some plan ->
  validRecoveryContinuation request snapshot = true <-> continuesRecovery request snapshot plan.
Proof.
  intros Hp. unfold validRecoveryContinuation, continuesRecovery. rewrite Hp. split.
  - destruct (rq_Expected request) as [e|]; [|done]. destruct (p_Operations plan) as [|o [|]]; intros E; bool_hyps; try done.
    unfold max_int64 in *. split_and!; first [done|lia|by exists e|by exists o].
  - intros (H1 & H2 & (e & He & H3 & H4) & H5 & H6 & H7 & H8 & o & Ho & H9 & H10 & H11).
    rewrite He, Ho, H1, H2, H3, H4, H5, H6, H7, H9, H10, H11, !bool_decide_refl. cbn [andb].
    rewrite !andb_true_r. apply Z.ltb_lt. unfold max_int64. lia.
Qed.

Lemma recoveryReceiveSource_exact plan id : recoveryReceiveSource plan id = true <-> suspends plan id.
Proof.
  unfold recoveryReceiveSource, suspends. split.
  - destruct (p_HostAction plan) as [a|]; [|done]. intros E. apply andb_true_iff in E as [E Ex].
    apply existsb_exists in Ex as (o & Ho%list_elem_of_In & Eo). apply andb_true_iff in E as [E Ed].
    destruct (hx_Decoded a) as [d|] eqn:Hd; [|done]. bool_hyps. exists a, d. subst id.
    split_and!; first [done|congruence|by exists o].
  - intros (a & d & -> & Hd & H1 & H2 & H3 & H4 & H5 & -> & H6 & H7 & H8 & H9 & H10 & o & Ho & H11 & H12).
    rewrite Hd, H1, H2, H3, H4, H5, H8, H9, H10, !bool_decide_refl.
    rewrite (bool_decide_eq_false_2 _ H6), (bool_decide_eq_false_2 _ H7). cbn [andb negb].
    apply existsb_exists. exists o. split; [by apply list_elem_of_In|]. by rewrite H11, H12, !bool_decide_refl.
Qed.

Lemma planContainsTarget_exact plan id : planContainsTarget plan id = true <-> planNames plan id.
Proof.
  unfold planContainsTarget. rewrite !orb_true_iff, recoveryReceiveSource_exact. split.
  - intros [[[E|E]|E]|E].
    + by apply names_suspended.
    + destruct (p_HostBaselineScope plan) as [s|] eqn:Es; [|done]. eapply names_baseline; [exact Es|].
      by apply orb_true_iff in E as [E|E]; bool_hyps; [left|right].
    + destruct (p_HostAccessAuxiliaryHostIDs plan) as [hosts|] eqn:Es; [|done]. bool_hyps. by eapply names_auxiliary.
    + apply existsb_exists in E as (o & Ho%list_elem_of_In & E). apply orb_true_iff in E as [E|E]; bool_hyps;
        [by eapply names_resource|by eapply names_target].
  - assert (Hex : forall o, o ∈ p_Operations plan -> id ∈ ExecutionResourceIDs plan o \/ op_TargetID o = id ->
      existsb (fun operation => bool_decide (id ∈ ExecutionResourceIDs plan operation) || (op_TargetID operation == id))
        (p_Operations plan) = true).
    { intros o Ho Hid. apply existsb_exists. exists o. split; [by apply list_elem_of_In|].
      by rewrite orb_true_iff, !bool_decide_eq_true. }
    destruct 1 as [o Ho Hid|o Ho Hid|s Hs Hid|hosts Hs Hid|Hs].
    + right. by eapply Hex; [|right].
    + right. by eapply Hex; [|left].
    + rewrite Hs, orb_true_iff, !bool_decide_eq_true. tauto.
    + rewrite Hs, bool_decide_eq_true. tauto.
    + tauto.
Qed.

(** Naming the deciding facts of a request for an effect. *)
Lemma requestedBranch_exact principal request branch :
  ValidAction (rq_Action request) = true ->
  requestedBranch request principal = inl branch
  /\ (branch = Some BranchPreauthorized -> validPreauthorized principal request RiskRoutine = true
        /\ exists plan, rq_Plan request = Some plan /\ planRisk plan "routine")
  <-> mayUse principal request branch.
Proof.
  intros Ha. split.
  - intros [Hb Hpre]. destruct (validBranch_requested _ _ _ Ha Hb)
      as [(Hi & -> & Hbs)|(b & plan & He & -> & Hv & Hp & Hpb & Hh)].
    { apply use_none; [by apply inert_action|done]. }
    apply effect_action in He as He'.
    assert (Hbs : rq_Branches request = [b]).
    { unfold requestedBranch in Hb. destruct (_ || _) in Hb; [by destruct (negb _) in Hb|].
      destruct (rq_Branches request) as [|b' [|]]; try done. repeat case_match; by simplify_eq. }
    unfold ValidBranch in Hv. apply orb_true_iff in Hv as [E|E]; bool_hyps; subst b.
    + eapply use_human; try done. intros Ek. by destruct Hh.
    + destruct Hpre as (Hpre & plan' & Hp' & Hr); [done|]. simplify_eq.
      unfold validPreauthorized in Hpre. destruct (_ || _) eqn:Ek in Hpre; [done|]. rewrite Hp in Hpre. bool_hyps.
      eapply use_preauthorized; try done. intros o Ho.
      match goal with Hf : forallb _ _ = true |- _ => rewrite forallb_forall in Hf;
        specialize (Hf o (proj1 (list_elem_of_In _ _) Ho)) end. by bool_hyps.
  - destruct 1 as [Hact Hbs|plan Hact Hbs Hp Hpb Hk|plan Hact Hbs Hp Hpb Hk Hr Hall]; unfold requestedBranch.
    + split; [|done]. rewrite Hbs. by each Hact; rewrite Hact.
    + split; [|done]. rewrite Hbs, Hp, Hpb, (bool_decide_eq_false_2 _ Hk). by each Hact; rewrite Hact.
    + split; [rewrite Hbs, Hp, Hpb; by each Hact; rewrite Hact|]. intros _. split; [|by exists plan].
      unfold validPreauthorized. rewrite Hk, Hp. cbn [bool_decide]. rewrite !bool_decide_refl. cbn [negb orb].
      apply andb_true_iff. split.
      * apply forallb_forall. intros o Ho%list_elem_of_In. rewrite (Hall o Ho), bool_decide_refl, andb_true_r.
        destruct (pr_bound _ _ Hr o Ho) as (r & Hor & Hle). apply preauthorized_routine_exact.
        apply atMost_rank in Hle as (Hv & _ & Hle). apply routine_least in Hle as ->; [|done].
        inversion Hor as [? Hin Hn|]. by apply operationRisk_in.
      * apply planContainsTarget_exact. destruct (p_Operations plan) as [|o rest] eqn:Eo.
        { pose proof (pr_length _ _ Hr) as Hl. rewrite Eo in Hl. cbn in Hl. lia. }
        eapply names_target; [rewrite Eo; by left|]. apply Hall. by left.
Qed.


(** ** Grants and scopes *)

Lemma validEffectiveGrant_exact request branch grant :
  ValidAuthorizationTarget (rq_Target request) = true -> eg_Capability grant = at_Capability (rq_Target request) ->
  eg_ResourceKind grant = at_ResourceKind (rq_Target request) ->
  eg_ResourceID grant = at_ResourceID (rq_Target request) -> eg_Branch grant = branch ->
  validEffectiveGrant grant = true <-> wellFormedGrant grant.
Proof.
  intros Ht H1 H2 H3 _. unfold ValidAuthorizationTarget in Ht. bool_hyps. unfold validEffectiveGrant, wellFormedGrant.
  rewrite H1, H2, H3. repeat match goal with H : lowerToken _ = true |- _ => rewrite H; clear H end.
  rewrite !andb_true_r. destruct grant as [role action ? ? ? b]. cbn in *. clear.
  split.
  - destruct (ValidRole role && ValidAction action) eqn:E; [cbn [negb]|done].
    apply andb_true_iff in E as [Hr Ha%valid_action]. apply bool_decide_eq_true in Hr. intros E.
    assert (Hb : b ∈ [""; "human"; "preauthorized"]).
    { destruct (_ || _) in E; [apply andb_true_iff in E as [E _]; bool_hyps; subst; in_list|].
      destruct (ValidBranch b) eqn:Eb; [|done]. apply orb_true_iff in Eb as [Eb|Eb]; bool_hyps; subst; in_list. }
    each Hb; each Ha; each Hr; try (vm_compute in E; discriminate);
      first [left; split_and!; [in_list|reflexivity|in_list]|right; left; split_and!; [in_list|reflexivity|in_list]
            |right; right; split_and!; reflexivity].
  - intros [(Ha & -> & Hr)|[(Ha & -> & Hr)|(-> & -> & ->)]]; [| |reflexivity]; each Ha; each Hr; reflexivity.
Qed.

Definition candidate (request : Request) (branch : option string) (grant : EffectiveGrant) : bool :=
  validEffectiveGrant grant && (eg_AllowedAction grant == rq_Action request)
  && (eg_Capability grant == at_Capability (rq_Target request))
  && (eg_ResourceKind grant == at_ResourceKind (rq_Target request))
  && (eg_ResourceID grant == at_ResourceID (rq_Target request)) && (eg_Branch grant == default "" branch).

Lemma candidate_exact request branch grant :
  ValidAuthorizationTarget (rq_Target request) = true ->
  candidate request branch grant = true <-> matches request branch grant.
Proof.
  intros Ht. unfold candidate, matches. rewrite !andb_true_iff, !bool_decide_eq_true.
  change (match branch with Some b => b | None => "" end) with (default "" branch). split.
  - intros (((((Hv & ?) & Hc) & Hk) & Hi) & Hb). split; [|done].
    by apply (validEffectiveGrant_exact request _ _ Ht Hc Hk Hi Hb).
  - intros (Hw & ? & Hc & Hk & Hi & Hb). split_and!; try done.
    by apply (validEffectiveGrant_exact request _ _ Ht Hc Hk Hi Hb).
Qed.

(** The loop stops at the first candidate. *)
Lemma matchingGrantFrom_candidate mismatch request branch grant rest :
  if candidate request branch grant then matchingGrantFrom mismatch (grant :: rest) request branch = inl grant
  else exists mismatch', matchingGrantFrom mismatch (grant :: rest) request branch
                         = matchingGrantFrom mismatch' rest request branch.
Proof.
  unfold candidate. cbn [matchingGrantFrom].
  destruct (validEffectiveGrant grant); cbn [andb orb negb]; [|by eexists].
  repeat (case_bool_decide; cbn [andb orb negb]); try done; by eexists.
Qed.

Lemma matchingGrant_first mismatch request branch grants grant :
  matchingGrantFrom mismatch grants request branch = inl grant
  <-> exists before after, grants = before ++ grant :: after /\ candidate request branch grant = true
      /\ Forall (fun g => candidate request branch g = false) before.
Proof.
  revert mismatch. induction grants as [|g grants IH]; intros mismatch.
  { split; [done|]. intros ([] & ? & ? & _); done. }
  pose proof (matchingGrantFrom_candidate mismatch request branch g grants) as Hg.
  destruct (candidate request branch g) eqn:Ec.
  - rewrite Hg. split; [intros [= <-]; by exists [], grants|].
    intros ([|g' before] & after & E & Hc & Hf); [by simplify_eq/=|]. simplify_eq/=.
    apply Forall_cons in Hf as [Hf _]. congruence.
  - destruct Hg as [mismatch' ->]. rewrite IH. split.
    + intros (before & after & -> & Hc & Hf). exists (g :: before), after. split; [done|]. split; [done|]. by constructor.
    + intros ([|g' before] & after & E & Hc & Hf); simplify_eq/=; [congruence|].
      apply Forall_cons in Hf as [_ Hf]. by exists before, after.
Qed.

Lemma matchingGrant_exact request branch grants grant :
  ValidAuthorizationTarget (rq_Target request) = true ->
  matchingGrant grants request branch = inl grant <-> decidingGrant request branch grants grant.
Proof.
  intros Ht. unfold matchingGrant. rewrite matchingGrant_first. unfold decidingGrant.
  assert (Hf : forall before, Forall (fun g => candidate request branch g = false) before
      <-> Forall (fun g => ~ matches request branch g) before).
  { intros before. apply Forall_iff. intros g. by rewrite <- candidate_exact, not_true_iff_false. }
  setoid_rewrite Hf. setoid_rewrite candidate_exact; [|done]. naive_solver.
Qed.

(** ** The policy is what the evaluator decides *)

Lemma permitted_warranted principal request snapshot branch risk scope :
  ValidAction (rq_Action request) = true -> ValidAuthorizationTarget (rq_Target request) = true ->
  permitted principal request snapshot branch risk scope -> warranted principal request snapshot branch risk scope.
Proof.
  intros Va Vt. intros [Hp [Ha Hg] Hx Hb He Hr Hh Hpre Ht (grant & Hm & Hrole & Hs)].
  apply BindEffectiveScope_Some in Hs as (_ & _ & Hst & Hep & _ & _ & Hv & _ & ->).
  apply matchingGrant_exact in Hm as Hd; [|done].
  assert (Hj : exists judgedRisk, judgedRisk = (if isEffectAction (rq_Action request) then risk else RiskRoutine)
    /\ judged request snapshot judgedRisk risk /\ ValidRiskClass judgedRisk = true).
  { eexists. split; [done|]. destruct (isEffectAction (rq_Action request)) eqn:Eact.
    - destruct (He eq_refl) as (plan & Hpl & Hc & Hcur). apply ClassifyPlan_planRisk in Hc.
      split.
      + eapply judged_effect; [by apply effect_action|done..|].
        destruct Hcur as [Hcur|Hcur]; [by left|right]. by apply (validRecoveryContinuation_exact _ _ _ Hpl).
      + destruct (pr_attained _ _ Hc) as (o & _ & Ho). apply riskOf_hasRisk in Ho. by eapply riskOf_valid.
    - rewrite (Hr eq_refl). split; [|done]. apply judged_inert. by apply inert_action. }
  destruct Hj as (judgedRisk & Ej & Hj & Hjv). rewrite <- Ej in *.
  constructor; try done.
  - intros e Ee. by rewrite Ee in Hx.
  - apply requestedBranch_exact; [done|]. split; [done|]. intros Eb. specialize (Hpre Eb).
    assert (judgedRisk = RiskRoutine) as Er.
    { unfold validPreauthorized in Hpre. destruct (_ || _) eqn:E in Hpre; [done|]. by bool_hyps. }
    rewrite Er in Hpre. split; [done|].
    destruct (validBranch_requested _ _ _ Va Hb) as [(_ & E & _)|(b & _ & Heff & _)]; [congruence|].
    destruct (He Heff) as (plan & Hpl & Hc & _). exists plan. split; [done|]. apply ClassifyPlan_planRisk.
    rewrite Heff in Ej. by rewrite Hc, <- Ej, Er.
  - intros plan Hpl. apply planContainsTarget_exact. by apply Ht.
  - exists judgedRisk, grant. split_and!; [done..|by apply roleAllows_roleMay|].
    destruct Hp as [-> _]. by destruct Hd as ((_ & -> & _) & _).
Qed.

Lemma warranted_permitted principal request snapshot branch risk scope :
  ValidPrincipal principal = true -> ValidAction (rq_Action request) = true ->
  ValidAuthorizationTarget (rq_Target request) = true ->
  warranted principal request snapshot branch risk scope -> permitted principal request snapshot branch risk scope.
Proof.
  intros Vp Va Vt.
  intros [Hp (Ha & Hg & Hst & Hep) Hx Hb Hh Ht (jr & grant & Hj & Hd & Hrole & ->)].
  apply requestedBranch_exact in Hb as [Hb Hpre]; [|done].
  assert (Hjv : jr = (if isEffectAction (rq_Action request) then risk else RiskRoutine) /\ ValidRiskClass jr = true).
  { destruct Hj as [plan risk Hact Hpl Hpr _|Hact].
    - apply effect_action in Hact as ->. split; [done|]. destruct (pr_attained _ _ Hpr) as (o & _ & Ho).
      apply riskOf_hasRisk in Ho. by eapply riskOf_valid.
    - apply inert_action in Hact as ->; done. }
  destruct Hjv as [Ej Hjv]. constructor; try done.
  - destruct (rq_Expected request) as [e|]; [by apply Hx|done].
  - intros He. inversion Hj as [plan ? ? Hpl Hpr Hcur|Hi]; subst; [|apply inert_action in Hi; [congruence|done]].
    exists plan. split; [done|]. split; [by apply ClassifyPlan_planRisk|].
    destruct Hcur as [Hcur|Hcur]; [by left|right]. by apply (validRecoveryContinuation_exact _ _ _ Hpl).
  - intros He. inversion Hj as [? ? Hi|]; [|done]. apply effect_action in Hi. congruence.
  - rewrite <- Ej. intros Eb. destruct (Hpre Eb) as (Hv & plan & Hpl & Hr).
    enough (jr = RiskRoutine) as -> by done. clear -Hj Hpl Hr. destruct Hj as [plan' risk _ Hpl' Hpr _|_]; [|done].
    rewrite Hpl in Hpl'. injection Hpl' as <-. apply ClassifyPlan_planRisk in Hr, Hpr. rewrite Hpr in Hr. by injection Hr.
  - intros plan Hpl. apply planContainsTarget_exact. by apply Ht.
  - exists grant. split; [by apply matchingGrant_exact|]. rewrite <- Ej. split; [by apply roleAllows_roleMay|].
    destruct Hp as [Hp Hk]. destruct Hd as ((Hw & Hga & Hgc & Hgk & Hgi & Hgb) & _).
    assert (validEffectiveGrant grant = true) as Hv
      by (by apply (validEffectiveGrant_exact request _ _ Vt Hgc Hgk Hgi Hgb)).
    unfold BindEffectiveScope, ValidIdentifier.
    unfold ValidPrincipal in Vp. bool_hyps.
    rewrite Ha, Hp, Hk, Hv, Vt, Hga, Hgc, Hgk, Hgi, !bool_decide_refl.
    rewrite (proj2 (Z.leb_gt _ _) Hg), (proj2 (Z.ltb_ge _ _) Hst), (proj2 (Z.ltb_ge _ _) Hep).
    repeat match goal with H : lowerToken _ = true |- _ => rewrite H; clear H
      | H : ValidPrincipalKind _ = true |- _ => rewrite H; clear H end. done.
Qed.

(** C29: [Authorize] permits exactly what the policy warrants. The request is
    well formed and the snapshot is the active one of its principal, at the
    expected revisions. Reading and authoring use no branch; an effect uses the
    branch of its plan, which is current (or the sealed continuation of a
    recovery): the human branch is closed to policy principals, and these only
    execute routine plans about the one requested resource. Only humans
    acknowledge. The plan names the resource, and the first grant of the snapshot
    for exactly the action, the target and the branch has a role that suffices,
    by the table of roles, at the greatest risk of the plan's operations. The
    decision carries that branch, that risk and the scope of that grant. *)
Theorem authorize_exact repository principal request :
  let decision := (Authorize repository principal request).1 in
  de_Allowed decision = true <->
  ValidPrincipal principal = true /\ rq_Action request ∈ ["read"; "author"; "acknowledge"; "execute"]
  /\ lowerToken (at_Capability (rq_Target request)) = true /\ lowerToken (at_ResourceKind (rq_Target request)) = true
  /\ lowerToken (at_ResourceID (rq_Target request)) = true
  /\ exists snapshot, repository (pn_ID principal) (rq_Target request) = Ok snapshot
     /\ warranted principal request snapshot (de_Branch decision) (de_Risk decision) (de_Scope decision).
Proof.
  intros decision. rewrite <- valid_action.
  assert (Ht : ValidAuthorizationTarget (rq_Target request) = true <-> lowerToken (at_Capability (rq_Target request)) = true
    /\ lowerToken (at_ResourceKind (rq_Target request)) = true /\ lowerToken (at_ResourceID (rq_Target request)) = true).
  { unfold ValidAuthorizationTarget. rewrite !andb_true_iff. tauto. }
  unfold decision, Authorize. cbv zeta. destruct (_ || _ || _) eqn:E1.
  { split; [done|]. intros (V1 & V2 & V3 & V4 & V5 & _). rewrite V1, V2, (proj2 Ht) in E1; done. }
  bool_hyps. destruct (repository (pn_ID principal) (rq_Target request)) as [snapshot|err]; [|naive_solver].
  destruct (evaluate principal request snapshot) as [[reason risk]|[[branch risk] scope]] eqn:E2;
    cbn [fst de_Allowed de_Branch de_Risk de_Scope].
  - split; [done|]. intros (_ & _ & _ & _ & _ & s & [= <-] & W).
    apply warranted_permitted, permitted_evaluate in W; [|done..]. congruence.
  - split; [|done]. intros _. destruct (proj1 Ht) as (? & ? & ?); [done|]. split_and!; try done.
    exists snapshot. split; [done|]. apply permitted_warranted; [done..|]. by apply evaluate_permitted.
Qed.

End Correspondence.
