(* ===== verification/Adapter.v ===== *)
(** The provider-neutral execution boundary of [internal/adapter/types.go]: what
    the run engine hands to an adapter, what it accepts back, and the validators
    between the two. *)

From S2P Require Import Prelude GoTime Hash Contracts.

Record SecretReference := mkSecretReference { sf_ID : string; sf_Consumer : string }.

Record Operation := mkOperation {
  ao_OperationID : string;
  ao_OperationType : string;
  ao_AdapterID : string;
  ao_ExecutorID : string;
  ao_TargetID : string;
  ao_InputDigest : string;
  ao_ArtifactDigest : string;
  ao_Idempotent : bool;
  ao_SecretReferences : list SecretReference
}.

Record Effect := mkEffect {
  ef_Status : string;
  ef_ResultDigest : string;
  ef_PendingPointID : option string;
  ef_Changed : bool;
  ef_EffectObserved : bool
}.

Record Verification := mkVerification { vf_Verified : bool; vf_Digest : string }.
Record ReceiptObservation := mkReceiptObservation { ro_Status : string; ro_ResultDigest : string }.
Record ReceiptVerification := mkReceiptVerification { rv_Verified : bool; rv_Digest : string; rv_Changed : bool }.

Record ExactExecutionBinding := mkExactExecutionBinding {
  eb_PlanID : string;
  eb_PlanDigest : string;
  eb_RunID : string;
  eb_StepID : string;
  eb_LeaseID : string;
  eb_StateRevision : Z;
  eb_RecoveryEpoch : Z;
  eb_MaximumExpiresAt : string;
  eb_ContractExtensions : list ContractExtension
}.

(** The zero values Go returns next to an error. *)
Definition zeroEffect : Effect := mkEffect "" "" None false false.
Definition zeroOperation : Operation := mkOperation "" "" "" "" "" "" "" false [].

Definition adapterToken (s : string) : bool := lowerToken s.
Definition adapterDigest (s : string) : bool := sha256Digest s.

(** [strings.ContainsAny(s, chars)] for ASCII [chars] *)
Definition ContainsAny (s : string) (chars : list ascii) : bool :=
  negb (all_chars (fun c => negb (existsb (fun x => x == c) chars)) s).

(** The loop over the references, with the identifiers it has seen. *)
Fixpoint secretReferences (adapterID : string) (seen : list string) (references : list SecretReference) : bool :=
  match references with
  | [] => true
  | reference :: rest =>
      if negb (adapterToken (sf_ID reference)) || (sf_Consumer reference != adapterID)
         || bool_decide (sf_ID reference ∈ seen)
      then false
      else secretReferences adapterID (sf_ID reference :: seen) rest
  end.

Definition ValidateOperation (operation : Operation) : option error :=
  if negb (forallb adapterToken [ao_OperationID operation; ao_OperationType operation; ao_AdapterID operation;
                                 ao_ExecutorID operation; ao_TargetID operation])
  then Some (Coded InputInvalid "adapter-operation")
  else if negb (adapterDigest (ao_InputDigest operation)) || negb (adapterDigest (ao_ArtifactDigest operation))
          || ContainsAny (ao_TargetID operation) ["/"%char; "\"%char]
  then Some (Coded InputInvalid "adapter-operation")
  else if secretReferences (ao_AdapterID operation) [] (ao_SecretReferences operation) then None
  else Some (Coded AuthorizationDenied "adapter-secret-reference").

Definition ValidateEffect (effect : Effect) : option error :=
  if ((ef_Status effect != "succeeded") && (ef_Status effect != "failed") && (ef_Status effect != "partial"))
     || negb (adapterDigest (ef_ResultDigest effect))
  then Some (Coded IntegrityFailure "adapter-effect")
  else if match ef_PendingPointID effect with
          | Some point => (ef_Status effect != "succeeded") || negb (adapterToken point)
          | None => false
          end
  then Some (Coded IntegrityFailure "adapter-effect")
  else if (ef_Status effect == "succeeded") && negb (ef_EffectObserved effect)
  then Some (Coded IntegrityFailure "adapter-effect")
  else None.

Definition ValidateVerification (verification : Verification) : option error :=
  if adapterDigest (vf_Digest verification) then None else Some (Coded IntegrityFailure "adapter-verification").

Definition ValidateReceiptObservation (observation : ReceiptObservation) : option error :=
  if ((ro_Status observation != "running") && (ro_Status observation != "succeeded")
      && (ro_Status observation != "failed") && (ro_Status observation != "partial"))
     || negb (adapterDigest (ro_ResultDigest observation))
  then Some (Coded IntegrityFailure "adapter-receipt-observation") else None.

Definition ValidateReceiptVerification (verification : ReceiptVerification) : option error :=
  if adapterDigest (rv_Digest verification) then None else Some (Coded IntegrityFailure "adapter-receipt-verification").

(** ** What the validators accept *)

Lemma secretReferences_spec adapterID seen references : secretReferences adapterID seen references = true <->
  Forall (fun r => adapterToken (sf_ID r) = true /\ sf_Consumer r = adapterID /\ sf_ID r ∉ seen) references
  /\ NoDup (map sf_ID references).
Proof.
  revert seen. induction references as [|r rest IH]; intros seen; cbn.
  { split; [intros _; split; constructor|done]. }
  rewrite Forall_cons, NoDup_cons.
  destruct (adapterToken (sf_ID r)) eqn:Ht; cbn [negb orb]; [|naive_solver].
  destruct (decide (sf_Consumer r = adapterID)) as [Hc|Hc];
    [rewrite (bool_decide_eq_true_2 _ Hc)|rewrite (bool_decide_eq_false_2 _ Hc); cbn; naive_solver]. cbn [negb orb].
  destruct (decide (sf_ID r ∈ seen)) as [Hs|Hs];
    [rewrite (bool_decide_eq_true_2 _ Hs)|rewrite (bool_decide_eq_false_2 _ Hs)]; [naive_solver|].
  rewrite IH, !Forall_forall, list_elem_of_fmap. split.
  - intros [Ha Hd]. split_and!; [done..| |intros (x & Hx & Hin); apply Ha in Hin as (_ & _ & Hn); set_solver|done].
    intros x Hin. apply Ha in Hin. set_solver.
  - intros [[_ Ha] [Hn Hd]]. split; [|done]. intros x Hin. destruct (Ha x Hin) as (? & ? & ?).
    split_and!; [done..|]. intros [Hx|?]%elem_of_cons; [|done]. apply Hn. by exists x.
Qed.

(** The engine hands an operation to an adapter only in this shape: every
    identifier is a token, the target cannot name a path, both digests are
    SHA-256 digests, and the secret references are distinct tokens whose only
    consumer is the adapter itself. *)
Theorem validate_operation_exact operation : ValidateOperation operation = None <->
  Forall (fun value => adapterToken value = true) [ao_OperationID operation; ao_OperationType operation;
    ao_AdapterID operation; ao_ExecutorID operation; ao_TargetID operation]
  /\ adapterDigest (ao_InputDigest operation) = true /\ adapterDigest (ao_ArtifactDigest operation) = true
  /\ ContainsAny (ao_TargetID operation) ["/"%char; "\"%char] = false
  /\ Forall (fun r => adapterToken (sf_ID r) = true /\ sf_Consumer r = ao_AdapterID operation)
       (ao_SecretReferences operation)
  /\ NoDup (map sf_ID (ao_SecretReferences operation)).
Proof.
  unfold ValidateOperation. rewrite <- forallb_Forall.
  destruct (forallb adapterToken _); cbn [negb]; [|naive_solver].
  destruct (adapterDigest (ao_InputDigest operation)); [|cbn; naive_solver].
  destruct (adapterDigest (ao_ArtifactDigest operation)); [|cbn; naive_solver].
  destruct (ContainsAny _ _); [cbn; naive_solver|]. cbn [negb orb].
  destruct (secretReferences _ _ _) eqn:Hs; split; intros Hn; try done.
  - apply secretReferences_spec in Hs as [Ha Hd]. split_and!; [done..| |done].
    eapply Forall_impl; [exact Ha|]. naive_solver.
  - destruct Hn as (_ & _ & _ & _ & Ha & Hd). exfalso. apply not_true_iff_false in Hs. apply Hs.
    apply secretReferences_spec. split; [|done]. eapply Forall_impl; [exact Ha|]. cbn. intros r [? ?].
    split_and!; [done..|]. apply not_elem_of_nil.
Qed.

(** An effect the engine may record. *)
Lemma ValidateEffect_None effect : ValidateEffect effect = None <->
  ef_Status effect ∈ ["succeeded"; "failed"; "partial"] /\ adapterDigest (ef_ResultDigest effect) = true
  /\ (forall point, ef_PendingPointID effect = Some point -> ef_Status effect = "succeeded" /\ adapterToken point = true)
  /\ (ef_Status effect = "succeeded" -> ef_EffectObserved effect = true).
Proof.
  unfold ValidateEffect. destruct effect as [status digest point changed observed]; cbn.
  assert (Hst : ((status != "succeeded") && (status != "failed") && (status != "partial")) = false
                <-> status ∈ ["succeeded"; "failed"; "partial"]).
  { rewrite !andb_false_iff, !negb_false_iff, !bool_decide_eq_true, !elem_of_cons, elem_of_nil. naive_solver. }
  destruct ((status != "succeeded") && _ && _); cbn [orb].
  { split; [done|]. intros [H _]. by apply Hst in H. }
  destruct (adapterDigest digest); cbn [negb]; [|naive_solver].
  destruct (decide (status = "succeeded")) as [Hs|Hs];
    [rewrite (bool_decide_eq_true_2 _ Hs)|rewrite (bool_decide_eq_false_2 _ Hs)]; destruct point as [point|]; cbn;
    try destruct (adapterToken point) eqn:Ht; cbn; destruct observed; cbn; try naive_solver.
  all: split; [done|]; intros (_ & _ & Hp & _); destruct (Hp _ eq_refl); congruence.
Qed.

Lemma ValidateVerification_None verification :
  ValidateVerification verification = None <-> adapterDigest (vf_Digest verification) = true.
Proof. unfold ValidateVerification. by destruct (adapterDigest _). Qed.
