(* ===== verification/RunRepository.v ===== *)
(** The durable runs of [internal/store/run_repository.go]: the tables of the
    run migrations as a state, one definition per repository method, each of
    them a business change of the audited writer of [AuditStore], and the
    theorems about the state machine of runs and steps, the leases, the receipts
    and the idempotent operations.

    A column [canonical_bytes] holds the document itself: the encoder and the
    decoder of a contract structure are inverse on the documents its schema
    accepts. The [CHECK] clauses on lengths, digests and enumerations repeat the
    contract schemas that every stored document has passed; the keys, unique
    indexes, foreign keys and triggers are modelled.

    The answers of the other components a call consults (workflow authorization,
    host replacement fences, host role reservations) are part of the environment
    of the call, as are the failures of its two transactions. *)

From S2P Require Import Prelude GoTime Hash GoJson Contracts AuditLog AuditStore.

(** ** Updates of the documents *)

Definition rebuildRun (r : Run) (status : string) (steps : list RunStep) (cancellation : bool)
    (rollback verification : string) (digest : option string) (changed : bool) (updatedAt : string) : Run :=
  mkRun (r_RunID r) (r_PlanID r) (r_PlanDigest r) (r_AuthorizationDecisionID r) (r_AcknowledgementID r)
    (r_PolicyVersion r) (r_ExecutorMode r) (r_ExecutorID r) (r_ExecutorBindingDigest r) status steps cancellation
    rollback verification digest changed (r_StateRevision r) (r_RecoveryEpoch r) (r_CreatedAt r) updatedAt
    (r_Extensions r).

Definition withStatus (status : string) (r : Run) : Run :=
  rebuildRun r status (r_Steps r) (r_CancellationRequested r) (r_RollbackStatus r) (r_VerificationStatus r)
    (r_VerificationDigest r) (r_Changed r) (r_UpdatedAt r).
Definition withSteps (steps : list RunStep) (r : Run) : Run :=
  rebuildRun r (r_Status r) steps (r_CancellationRequested r) (r_RollbackStatus r) (r_VerificationStatus r)
    (r_VerificationDigest r) (r_Changed r) (r_UpdatedAt r).
Definition withCancellation (r : Run) : Run :=
  rebuildRun r (r_Status r) (r_Steps r) true (r_RollbackStatus r) (r_VerificationStatus r)
    (r_VerificationDigest r) (r_Changed r) (r_UpdatedAt r).
Definition withVerification (status : string) (digest : option string) (r : Run) : Run :=
  rebuildRun r (r_Status r) (r_Steps r) (r_CancellationRequested r) (r_RollbackStatus r) status digest (r_Changed r)
    (r_UpdatedAt r).
Definition withRollback (rollback : string) (r : Run) : Run :=
  rebuildRun r (r_Status r) (r_Steps r) (r_CancellationRequested r) rollback (r_VerificationStatus r)
    (r_VerificationDigest r) (r_Changed r) (r_UpdatedAt r).
Definition withChanged (changed : bool) (r : Run) : Run :=
  rebuildRun r (r_Status r) (r_Steps r) (r_CancellationRequested r) (r_RollbackStatus r) (r_VerificationStatus r)
    (r_VerificationDigest r) changed (r_UpdatedAt r).
Definition withUpdatedAt (at_ : Time) (r : Run) : Run :=
  rebuildRun r (r_Status r) (r_Steps r) (r_CancellationRequested r) (r_RollbackStatus r) (r_VerificationStatus r)
    (r_VerificationDigest r) (r_Changed r) (FormatRFC3339 (TruncateSecond (UTC at_))).

Definition withState (status effect : string) (s : RunStep) : RunStep :=
  mkRunStep (s_Sequence s) (s_OperationID s) (s_OperationType s) (s_AdapterID s) (s_ExecutorID s) (s_TargetID s)
    (s_InputDigest s) (s_ArtifactDigest s) (s_Idempotent s) (s_StepID s) status effect.

(** [findStep]: the first step with the identifier. *)
Definition findStep (run : Run) (stepID : string) : option RunStep :=
  hd_error (filter (fun s => s_StepID s = stepID) (r_Steps run)).

(** Assignment through the pointer that [findStep] returned. *)
Fixpoint assignStep (stepID : string) (f : RunStep -> RunStep) (steps : list RunStep) : list RunStep :=
  match steps with
  | [] => []
  | s :: rest => if s_StepID s == stepID then f s :: rest else s :: assignStep stepID f rest
  end.

Definition setStep (stepID status effect : string) (r : Run) : Run :=
  withSteps (assignStep stepID (withState status effect) (r_Steps r)) r.

(** [zero] of a run: what a method returns next to an error. *)
Definition zeroRun : Run :=
  mkRun "" "" "" "" None "" "" "" "" "" [] false "" "" None false 0 0 "" "" [].

#[global] Instance RunStep_eq_dec : EqDecision RunStep.
Proof. solve_decision. Defined.
#[global] Instance ContractExtension_eq_dec : EqDecision ContractExtension.
Proof. solve_decision. Defined.
#[global] Instance Run_eq_dec : EqDecision Run.
Proof. solve_decision. Defined.
#[global] Instance ExecutionReceipt_eq_dec : EqDecision ExecutionReceipt.
Proof. solve_decision. Defined.

(** ** The tables *)

(** A row of [plan_runs] *)
Record RunRow := mkRunRow {
  rr_PlanID : string;
  rr_AcknowledgementID : option string;
  rr_Status : string;
  rr_CancellationRequested : bool;
  rr_RollbackStatus : string;
  rr_VerificationStatus : string;
  rr_VerificationDigest : option string;
  rr_Changed : bool;
  rr_SubmitKeyDigest : string;
  rr_RequestDigest : string;
  rr_Document : Run;
  rr_CreatedAt : string;
  rr_UpdatedAt : string
}.

(** A row of [plan_run_steps]; [sr_Planned] are the immutable planned columns *)
Record StepRow := mkStepRow {
  sr_RunID : string;
  sr_Planned : RunStep;
  sr_Status : string;
  sr_EffectState : string;
  sr_ActiveLeaseID : option string;
  sr_ResultDigest : option string;
  sr_StartedAt : option string;
  sr_FinishedAt : option string
}.

(** A row of [target_execution_leases]; of the columns that repeat a field of
    the document those that a key or an index names appear *)
Record LeaseRow := mkLeaseRow {
  le_RunID : string;
  le_StepID : string;
  le_TargetID : string;
  le_Status : string;
  le_Document : ExecutorLease;
  le_Kind : string;
  le_LastRenewedAt : option string;
  le_RenewalCount : Z
}.

(** A row of [executor_lease_nonce_history], keyed by the digest of the nonce *)
Record NonceRow := mkNonceRow {
  nh_LeaseID : string;
  nh_Sequence : Z;
  nh_AcceptedAt : string
}.

(** A row of [execution_receipts] *)
Record ReceiptRow := mkReceiptRow {
  xr_LeaseID : string;
  xr_RunID : string;
  xr_StepID : string;
  xr_Document : ExecutionReceipt
}.

(** A row of [run_operation_keys] *)
Record OperationRow := mkOperationRow {
  or_RequestDigest : string;
  or_Status : string;
  or_Result : option Run;
  or_ErrorCode : string;
  or_CreatedAt : string;
  or_CompletedAt : option string
}.

(** A row of [run_detail_events] *)
Record DetailRow := mkDetailRow {
  dt_RunID : string;
  dt_EventType : string;
  dt_EventDigest : string;
  dt_OccurredAt : string
}.

(** The tables of the runs. [external_execution_observations] and
    [executor_lease_nonce_history] are written by the repository of the external
    executors; [immutable_plans] and [acknowledgement_requests] are written by
    others, and so are the tables with a foreign key to a run that does not
    cascade, of which [run_references] keeps the runs they name. *)
Record RunTables := mkRunTables {
  plan_runs : gmap string RunRow;
  plan_run_steps : gmap string StepRow;
  target_execution_leases : gmap string LeaseRow;
  execution_receipts : gmap string ReceiptRow;
  run_operation_keys : gmap (string * string * string) OperationRow;
  run_detail_events : list DetailRow;
  immutable_plans : gmap string Plan;
  acknowledgement_requests : gset string;
  external_execution_observations : gmap string ReceiptRow;
  run_references : gset string;
  executor_lease_nonce_history : gmap string NonceRow
}.

Definition setRuns (x : gmap string RunRow) (t : RunTables) : RunTables :=
  mkRunTables x (plan_run_steps t) (target_execution_leases t) (execution_receipts t) (run_operation_keys t)
    (run_detail_events t) (immutable_plans t) (acknowledgement_requests t) (external_execution_observations t)
    (run_references t) (executor_lease_nonce_history t).
Definition setStepRows (x : gmap string StepRow) (t : RunTables) : RunTables :=
  mkRunTables (plan_runs t) x (target_execution_leases t) (execution_receipts t) (run_operation_keys t)
    (run_detail_events t) (immutable_plans t) (acknowledgement_requests t) (external_execution_observations t)
    (run_references t) (executor_lease_nonce_history t).
Definition setLeases (x : gmap string LeaseRow) (t : RunTables) : RunTables :=
  mkRunTables (plan_runs t) (plan_run_steps t) x (execution_receipts t) (run_operation_keys t)
    (run_detail_events t) (immutable_plans t) (acknowledgement_requests t) (external_execution_observations t)
    (run_references t) (executor_lease_nonce_history t).
Definition setReceipts (x : gmap string ReceiptRow) (t : RunTables) : RunTables :=
  mkRunTables (plan_runs t) (plan_run_steps t) (target_execution_leases t) x (run_operation_keys t)
    (run_detail_events t) (immutable_plans t) (acknowledgement_requests t) (external_execution_observations t)
    (run_references t) (executor_lease_nonce_history t).
Definition setOperations (x : gmap (string * string * string) OperationRow) (t : RunTables) : RunTables :=
  mkRunTables (plan_runs t) (plan_run_steps t) (target_execution_leases t) (execution_receipts t) x
    (run_detail_events t) (immutable_plans t) (acknowledgement_requests t) (external_execution_observations t)
    (run_references t) (executor_lease_nonce_history t).
Definition setDetails (x : list DetailRow) (t : RunTables) : RunTables :=
  mkRunTables (plan_runs t) (plan_run_steps t) (target_execution_leases t) (execution_receipts t)
    (run_operation_keys t) x (immutable_plans t) (acknowledgement_requests t) (external_execution_observations t)
    (run_references t) (executor_lease_nonce_history t).
Definition setReferences (x : gset string) (t : RunTables) : RunTables :=
  mkRunTables (plan_runs t) (plan_run_steps t) (target_execution_leases t) (execution_receipts t)
    (run_operation_keys t) (run_detail_events t) (immutable_plans t) (acknowledgement_requests t)
    (external_execution_observations t) x (executor_lease_nonce_history t).
Definition setObservations (x : gmap string ReceiptRow) (t : RunTables) : RunTables :=
  mkRunTables (plan_runs t) (plan_run_steps t) (target_execution_leases t) (execution_receipts t)
    (run_operation_keys t) (run_detail_events t) (immutable_plans t) (acknowledgement_requests t) x (run_references t)
    (executor_lease_nonce_history t).
Definition setNonces (x : gmap string NonceRow) (t : RunTables) : RunTables :=
  mkRunTables (plan_runs t) (plan_run_steps t) (target_execution_leases t) (execution_receipts t)
    (run_operation_keys t) (run_detail_events t) (immutable_plans t) (acknowledgement_requests t)
    (external_execution_observations t) (run_references t) x.

(** ** The statements of the repository *)

Definition violates {A} : result A := Err errConstraint.

(** [INSERT INTO plan_runs]: the primary key, the unique submit key, the unique
    acknowledgement and the two foreign keys. *)
Definition insertRun (runID : string) (row : RunRow) (t : RunTables) : result RunTables :=
  if bool_decide (is_Some (plan_runs t !! runID))
     || existsb (fun r => rr_SubmitKeyDigest r.2 == rr_SubmitKeyDigest row) (map_to_list (plan_runs t))
     || match rr_AcknowledgementID row with
        | Some a => existsb (fun r => rr_AcknowledgementID r.2 == Some a) (map_to_list (plan_runs t))
                    || negb (bool_decide (a ∈ acknowledgement_requests t))
        | None => false
        end
     || bool_decide (immutable_plans t !! rr_PlanID row = None)
  then violates else Ok (setRuns (<[runID := row]> (plan_runs t)) t).

(** [UPDATE plan_runs ... WHERE run_id=?]: the number of rows. *)
Definition updateRun (run : Run) (t : RunTables) : Z * RunTables :=
  match plan_runs t !! r_RunID run with
  | None => (0, t)
  | Some row =>
      (1, setRuns (<[r_RunID run :=
        mkRunRow (rr_PlanID row) (rr_AcknowledgementID row) (r_Status run) (r_CancellationRequested run)
          (r_RollbackStatus run) (r_VerificationStatus run) (r_VerificationDigest run) (r_Changed run)
          (rr_SubmitKeyDigest row) (rr_RequestDigest row) run (rr_CreatedAt row) (r_UpdatedAt run)]> (plan_runs t)) t)
  end.

(** [INSERT INTO plan_run_steps]: the primary key, the two unique indexes and
    the foreign key. *)
Definition insertStep (runID : string) (step : RunStep) (t : RunTables) : result RunTables :=
  if bool_decide (is_Some (plan_run_steps t !! s_StepID step))
     || existsb (fun r => (sr_RunID r.2 == runID)
                          && ((s_Sequence (sr_Planned r.2) == s_Sequence step)
                              || (s_OperationID (sr_Planned r.2) == s_OperationID step))) (map_to_list (plan_run_steps t))
     || bool_decide (plan_runs t !! runID = None)
  then violates
  else Ok (setStepRows (<[s_StepID step :=
         mkStepRow runID step (s_Status step) (s_EffectState step) None None None None]> (plan_run_steps t)) t).

Fixpoint insertSteps (runID : string) (steps : list RunStep) (t : RunTables) : result RunTables :=
  match steps with
  | [] => Ok t
  | step :: rest => t ← insertStep runID step t; insertSteps runID rest t
  end.

(** [UPDATE plan_run_steps SET ... WHERE run_id=? AND step_id=? AND ...]: no
    row may match. *)
Definition updateStepRow (runID stepID : string) (guard : StepRow -> bool) (f : StepRow -> StepRow) (t : RunTables)
    : RunTables :=
  match plan_run_steps t !! stepID with
  | Some row =>
      if (sr_RunID row == runID) && guard row
      then setStepRows (<[stepID := f row]> (plan_run_steps t)) t else t
  | None => t
  end.

(** The guard [status=? AND effect_state=?] *)
Definition inState (status effect : string) (row : StepRow) : bool :=
  (sr_Status row == status) && (sr_EffectState row == effect).

Definition moveRow (status effect : string) (lease result started finished : option string) (row : StepRow) : StepRow :=
  mkStepRow (sr_RunID row) (sr_Planned row) status effect
    (if lease then lease else sr_ActiveLeaseID row) (if result then result else sr_ResultDigest row)
    (if started then started else sr_StartedAt row) (if finished then finished else sr_FinishedAt row).

(** [INSERT INTO target_execution_leases]: the primary key, the partial unique
    indexes on the active target and the active step, and the foreign keys. *)
Definition insertLease (leaseID : string) (row : LeaseRow) (t : RunTables) : result RunTables :=
  if bool_decide (is_Some (target_execution_leases t !! leaseID))
     || (le_Status row == "active")
        && existsb (fun l => (le_Status l.2 == "active")
                             && ((le_TargetID l.2 == le_TargetID row) || (le_StepID l.2 == le_StepID row)))
             (map_to_list (target_execution_leases t))
     || bool_decide (plan_runs t !! le_RunID row = None) || bool_decide (plan_run_steps t !! le_StepID row = None)
  then violates else Ok (setLeases (<[leaseID := row]> (target_execution_leases t)) t).

(** A lease with another status, nonce or next check-in. *)
Definition rebuildLease (nonce renewAfter status : string) (d : ExecutorLease) : ExecutorLease :=
  mkExecutorLease (l_LeaseID d) (l_PlanID d) (l_PlanDigest d) (l_RunID d) (l_StepID d) (l_OperationID d)
    (l_ExecutorID d) (l_AdapterID d) (l_TargetID d) (l_ArtifactDigest d) (l_BindingDigest d) nonce
    (l_RecoveryEpoch d) (l_ClaimedAt d) renewAfter (l_LeaseExpiresAt d) (l_MaximumExpiresAt d) status (l_Extensions d).

Definition leaseWithStatus (status : string) (d : ExecutorLease) : ExecutorLease :=
  rebuildLease (l_NonceDigest d) (l_RenewAfter d) status d.

(** The status column of a lease row and its document, set together. *)
Definition endedLease (status : string) (l : LeaseRow) : LeaseRow :=
  mkLeaseRow (le_RunID l) (le_StepID l) (le_TargetID l) status (leaseWithStatus status (le_Document l)) (le_Kind l)
    (le_LastRenewedAt l) (le_RenewalCount l).

(** [json_set(canonical_bytes,'$.status','released')] with the status column *)
Definition releasedLease : LeaseRow -> LeaseRow := endedLease "released".

(** [INSERT INTO execution_receipts]: the primary key, the unique lease and the
    foreign keys. *)
Definition insertReceipt (receiptID : string) (row : ReceiptRow) (t : RunTables) : result RunTables :=
  if bool_decide (is_Some (execution_receipts t !! receiptID))
     || existsb (fun x => xr_LeaseID x.2 == xr_LeaseID row) (map_to_list (execution_receipts t))
     || bool_decide (target_execution_leases t !! xr_LeaseID row = None)
     || bool_decide (plan_runs t !! xr_RunID row = None) || bool_decide (plan_run_steps t !! xr_StepID row = None)
  then violates else Ok (setReceipts (<[receiptID := row]> (execution_receipts t)) t).

(** [INSERT INTO run_detail_events]: the foreign key. *)
Definition insertDetail (row : DetailRow) (t : RunTables) : result RunTables :=
  if bool_decide (plan_runs t !! dt_RunID row = None) then violates
  else Ok (setDetails (run_detail_events t ++ [row]) t).

(** ** Requests and results *)

Record RunCreateRequest := mkRunCreateRequest {
  cq_Run : Run;
  cq_SubmitKeyDigest : string;
  cq_RequestDigest : string;
  cq_Attribution : Attribution
}.

Record RunCreateResult := mkRunCreateResult { cs_Run : Run; cs_Created : bool; cs_EventID : Z }.

Record RunTransitionRequest := mkRunTransitionRequest {
  tq_RunID : string;
  tq_From : string;
  tq_To : string;
  tq_At : Time;
  tq_VerificationStatus : string;
  tq_VerificationDigest : option string;
  tq_RollbackStatus : string;
  tq_Changed : option bool;
  tq_Attribution : Attribution
}.

Record StepBeginRequest := mkStepBeginRequest {
  bq_RunID : string;
  bq_StepID : string;
  bq_LeaseID : string;
  bq_At : Time;
  bq_Attribution : Attribution
}.

Record StepFinishRequest := mkStepFinishRequest {
  fq_RunID : string;
  fq_StepID : string;
  fq_LeaseID : string;
  fq_Receipt : ExecutionReceipt;
  fq_Status : string;
  fq_EffectState : string;
  fq_VerificationDigest : string;
  fq_Changed : bool;
  fq_At : Time;
  fq_Attribution : Attribution
}.

Record ReceiptRecordRequest := mkReceiptRecordRequest {
  xq_RunID : string;
  xq_StepID : string;
  xq_LeaseID : string;
  xq_Receipt : ExecutionReceipt;
  xq_At : Time;
  xq_Attribution : Attribution
}.

Record RunEventRequest := mkRunEventRequest {
  eq_RunID : string;
  eq_EventType : string;
  eq_EventDigest : string;
  eq_OccurredAt : Time;
  eq_Attribution : Attribution
}.

Record RunPruneResult := mkRunPruneResult { pr_DetailedEventsDeleted : Z; pr_SummariesDeleted : Z }.

Record RunOperationResult := mkRunOperationResult {
  os_Run : Run;
  os_Created : bool;
  os_Completed : bool;
  os_ErrorCode : string
}.

(** ** The environment of a call *)

(** The two transactions of a call (the audited one, the read before or after
    it), whether an error arrived after the business change had finished, and
    the answers of the components it consults inside the transaction. *)
Record RunEnv := mkRunEnv {
  re_tx : TxEnv;
  re_read : TxEnv;
  re_afterChange : bool;
  re_authorization : Run -> result unit;
  re_actor : Run -> result bool;
  re_roleSnapshot : result unit;
  re_replacement : Plan -> result unit;
  re_role : Plan -> result unit
}.

(** A call during which nothing fails and nothing is refused. *)
Definition quietRunEnv (clock : Time) : RunEnv :=
  mkRunEnv (quietEnv clock) (quietEnv clock) false (fun _ => Ok tt) (fun _ => Ok false) (Ok tt) (fun _ => Ok tt)
    (fun _ => Ok tt).

(** The contract schemas of [generated.ValidateContractJSON], whose generated
    tables are not modelled: which documents they accept. *)
Class RunSchemas := {
  exactRun : Run -> bool;
  exactLease : ExecutorLease -> bool;
  exactReceipt : ExecutionReceipt -> bool;
  exactClaimRequest : ExecutorClaimRequest -> bool;
  exactRenewRequest : ExecutorRenewRequest -> bool;
  exactReceiptRequest : ExecutionReceiptRequest -> bool
}.

Section Repository.
Context `{Hasher} `{RunSchemas}.

Notation Store := (Store RunTables).

(** ** Documents *)

Definition stepJSON (s : RunStep) : string :=
  jsonObject
    [("sequence", jsonInt (s_Sequence s)); ("operationId", jsonString (s_OperationID s));
     ("operationType", jsonString (s_OperationType s)); ("adapterId", jsonString (s_AdapterID s));
     ("executorId", jsonString (s_ExecutorID s)); ("targetId", jsonString (s_TargetID s));
     ("inputDigest", jsonString (s_InputDigest s)); ("artifactDigest", jsonString (s_ArtifactDigest s));
     ("idempotent", jsonBool (s_Idempotent s)); ("stepId", jsonString (s_StepID s));
     ("status", jsonString (s_Status s)); ("effectState", jsonString (s_EffectState s))].

Definition extensionJSON (x : ContractExtension) : string :=
  jsonObject [("name", jsonString (x_Name x)); ("valueDigest", jsonString (x_ValueDigest x))].

Definition runJSON (r : Run) : string :=
  jsonObject
    [("schema", jsonString "vegastack-labs.dev/run"); ("schemaVersion", jsonString "1.0.0");
     ("runId", jsonString (r_RunID r)); ("planId", jsonString (r_PlanID r)); ("planDigest", jsonString (r_PlanDigest r));
     ("authorizationDecisionId", jsonString (r_AuthorizationDecisionID r));
     ("acknowledgementId", jsonOption jsonString (r_AcknowledgementID r));
     ("policyVersion", jsonString (r_PolicyVersion r)); ("executorMode", jsonString (r_ExecutorMode r));
     ("executorId", jsonString (r_ExecutorID r)); ("executorBindingDigest", jsonString (r_ExecutorBindingDigest r));
     ("status", jsonString (r_Status r)); ("steps", jsonArray (map stepJSON (r_Steps r)));
     ("cancellationRequested", jsonBool (r_CancellationRequested r));
     ("rollbackStatus", jsonString (r_RollbackStatus r)); ("verificationStatus", jsonString (r_VerificationStatus r));
     ("verificationDigest", jsonOption jsonString (r_VerificationDigest r)); ("changed", jsonBool (r_Changed r));
     ("stateRevision", jsonInt (r_StateRevision r)); ("recoveryEpoch", jsonInt (r_RecoveryEpoch r));
     ("createdAt", jsonString (r_CreatedAt r)); ("updatedAt", jsonString (r_UpdatedAt r));
     ("extensions", jsonArray (map extensionJSON (r_Extensions r)))].

Definition runFingerprint (run : Run) : string := hashString (runJSON run).

Definition validRunToken (value : string) : bool := lowerToken value.
Definition validRunOperation (value : string) : bool := (value == "cancel") || (value == "resume").
Definition terminalRunStatus (status : string) : bool :=
  (status == "succeeded") || (status == "failed") || (status == "partial") || (status == "cancelled").

#[local] Instance stepBefore_dec (x y : RunStep) : Decision (s_Sequence x <= s_Sequence y) := _.

(** [sort.Slice] by sequence number: the order among equal numbers, which the
    check refuses, does not matter. *)
Definition sortSteps : list RunStep -> list RunStep := merge_sort (fun x y => s_Sequence x <= s_Sequence y).

Fixpoint checkSteps (index : Z) (seenSteps seenOps : list string) (steps : list RunStep) : bool :=
  match steps with
  | [] => true
  | step :: rest =>
      (s_Sequence step == index + 1) && negb (bool_decide (s_StepID step ∈ seenSteps))
      && negb (bool_decide (s_OperationID step ∈ seenOps))
      && checkSteps (index + 1) (s_StepID step :: seenSteps) (s_OperationID step :: seenOps) rest
  end.

(** The part of [validRunDocument] that follows the schema. *)
Definition wellNumbered (run : Run) : bool :=
  validRunToken (r_RunID run) && negb (length (r_Steps run) =? 0)%nat
  && checkSteps 0 [] [] (sortSteps (r_Steps run)).

Definition validRunDocument (run : Run) : bool := exactRun run && wellNumbered run.

Definition decodeRun (canonical : Run) : result Run :=
  require (validRunDocument canonical) (Coded IntegrityFailure "run");; Ok canonical.

Definition validLease (lease : ExecutorLease) : bool := exactLease lease && ValidateLeaseTiming lease.
Definition validReceipt (receipt : ExecutionReceipt) : bool := exactReceipt receipt.

(** ** Reads *)

Definition Get (env : RunEnv) (runID : string) : action Store Run :=
  check (validRunToken runID) (Coded InputInvalid "run");;
  rows (Read (re_read env) (fun db => of_option errNoRows (rr_Document <$> plan_runs (tables db) !! runID)))
    (Err (Coded ResourceNotFound "run")) decodeRun.

Definition GetRun := Get.

(** The run of a submit key, if there is one. *)
Definition existing (env : RunEnv) (key requestDigest : string) : action Store (option RunCreateResult) :=
  rows (Read (re_read env) (fun db =>
          of_option errNoRows (List.find (fun r => rr_SubmitKeyDigest r.2 == key) (map_to_list (plan_runs (tables db))))))
    (Ok None)
    (fun r =>
      require (rr_RequestDigest r.2 == requestDigest) (Coded StateConflict "run-submit-key");;
      run ← decodeRun (rr_Document r.2);
      Ok (Some (mkRunCreateResult run false 0))).

Definition existingRequired (env : RunEnv) (key requestDigest : string) : action Store RunCreateResult :=
  found ← existing env key requestDigest;
  lift (of_option (Coded IntegrityFailure "run") found).

(** ** Checks inside a transaction *)

Definition verifyPlanBindingInTx (run : Run) (t : RunTables) : result unit :=
  plan ← of_option (Coded PlanStale "plan") (immutable_plans t !! r_PlanID run);
  require ((p_PlanDigest plan == r_PlanDigest run) && (b_StateRevision (p_Binding plan) == r_StateRevision run)
           && (b_RecoveryEpoch (p_Binding plan) == r_RecoveryEpoch run)) (Coded PlanStale "plan").

Definition runAndPlanInTx (runID : string) (t : RunTables) : result (Run * Plan) :=
  row ← of_option (Coded ResourceNotFound "run") (plan_runs t !! runID);
  plan ← of_option (Coded ResourceNotFound "run") (immutable_plans t !! rr_PlanID row);
  run ← decodeRun (rr_Document row);
  Ok (run, plan).

Definition verifyStoredReceipt (receipt : ExecutionReceipt) (t : RunTables) : result unit :=
  stored ← of_option (Coded StateConflict "run-receipt")
    (match execution_receipts t !! rc_ReceiptID receipt with
     | Some row => Some (xr_Document row)
     | None => xr_Document <$> external_execution_observations t !! rc_ReceiptID receipt
     end);
  require (stored == receipt) (Coded StateConflict "run-receipt").

(** ** The audited mutation of one run *)

(** The request of an intent of the repository. *)
Definition runIntent (expected : option RevisionToken) (scope key request eventType runID after : string)
    (attribution : Attribution) : intentRequest :=
  mkIntentRequest None expected (mkIntentKey scope key request)
    (mkEventDraft eventType runID None None attribution (mkTarget "run" runID) None (Some after))
    (mkContextIDs "" "" "") [].

(** What [mutate] does to the decoded run and to the other tables. *)
Definition Mutation := Run -> RunTables -> result (Run * RunTables).

(** The business change of [mutateRun]: the run it stores, and the tables. *)
Definition applyMutation (runID eventType : string) (mutate : Mutation) (t : RunTables) : result (Run * RunTables) :=
  row ← of_option (Coded ResourceNotFound "run") (plan_runs t !! runID);
  run ← decodeRun (rr_Document row);
  '(run, t) ← mutate run t;
  require (validRunDocument run) (Coded IntegrityFailure "run");;
  let '(rows, t) := updateRun run t in
  require (rows == 1) (Coded StateConflict "run");;
  t ← insertDetail (mkDetailRow (r_RunID run) eventType (runFingerprint run) (r_UpdatedAt run)) t;
  Ok (run, t).

Definition mutationIntent (runID eventType mutationID : string) (attribution : Attribution) : intentRequest :=
  runIntent None "run-mutation" (digestParts ["run-mutation-key"; runID; eventType; mutationID])
    (digestParts ["run-mutation-request"; runID; eventType; mutationID]) eventType runID
    (digestParts ["run-mutation-event"; runID; eventType; mutationID]) attribution.

(** [mutateRun]: the run it returns is returned next to an error as well. *)
Definition mutateRun (env : RunEnv) (runID eventType mutationID : string) (attribution : Attribution)
    (mutate : Mutation) : Store -> (Run * option error) * Store := fun store =>
  if negb (validRunToken runID) then ((zeroRun, Some (Coded InputInvalid "run")), store)
  else
    let change := applyMutation runID eventType mutate in
    let updated := match change (tables (st_db store)) with Ok (run, _) => run | Err _ => zeroRun end in
    match executeAuditIntent (re_tx env) (mutationIntent runID eventType mutationID attribution) false
            (Some (fun _ t => snd <$> change t)) store with
    | (Err e, store') => ((if re_afterChange env then updated else zeroRun, Some e), store')
    | (Ok intent, store') =>
        if ir_Created intent then ((updated, None), store')
        else match Get env runID store' with
             | (Ok run, store'') => ((run, None), store'')
             | (Err e, store'') => ((zeroRun, Some e), store'')
             end
    end.

Definition refused (e : error) : Store -> (Run * option error) * Store := fun store => ((zeroRun, Some e), store).

(** ** Creation *)

Definition createRow (request : RunCreateRequest) : RunRow :=
  let run := cq_Run request in
  mkRunRow (r_PlanID run) (r_AcknowledgementID run) (r_Status run) (r_CancellationRequested run) (r_RollbackStatus run)
    (r_VerificationStatus run) (r_VerificationDigest run) (r_Changed run) (cq_SubmitKeyDigest request)
    (cq_RequestDigest request) run (r_CreatedAt run) (r_UpdatedAt run).

(** The business change of [Create]. *)
Definition createChange (env : RunEnv) (request : RunCreateRequest) (t : RunTables) : result RunTables :=
  let run := cq_Run request in
  re_authorization env run;;
  verifyPlanBindingInTx run t;;
  t ← insertRun (r_RunID run) (createRow request) t;
  actor ← re_actor env run;
  let t := if (actor : bool) then setReferences ({[r_RunID run]} ∪ run_references t) t else t in
  t ← insertSteps (r_RunID run) (r_Steps run) t;
  insertDetail (mkDetailRow (r_RunID run) "run.created" (runFingerprint run) (r_CreatedAt run)) t.

Definition createIntent (request : RunCreateRequest) : intentRequest :=
  let run := cq_Run request in
  runIntent (Some (mkRevisionToken (r_StateRevision run) (r_RecoveryEpoch run))) "run-submit" (cq_SubmitKeyDigest request)
    (cq_RequestDigest request) "run.created" (r_RunID run) (runFingerprint run) (cq_Attribution request).

Definition validCreate (request : RunCreateRequest) : bool :=
  let run := cq_Run request in
  (r_Status run == "queued") && negb (r_CancellationRequested run) && (r_RollbackStatus run == "not-requested")
  && (r_VerificationStatus run == "pending") && (r_VerificationDigest run == None) && validRunDocument run
  && ValidateIntentKey (mkIntentKey "run-submit" (cq_SubmitKeyDigest request) (cq_RequestDigest request)).

Definition Create (env : RunEnv) (request : RunCreateRequest) : action Store RunCreateResult :=
  let run := cq_Run request in
  check (validCreate request) (Coded InputInvalid "run");;
  found ← existing env (cq_SubmitKeyDigest request) (cq_RequestDigest request);
  match found with
  | Some result => mret result
  | None =>
      intent ← executeAuditIntent (re_tx env) (createIntent request) false (Some (fun _ => createChange env request));
      if ir_Created intent then mret (mkRunCreateResult run true (ir_EventID intent))
      else existingRequired env (cq_SubmitKeyDigest request) (cq_RequestDigest request)
  end.

(** ** Run transitions *)

(** The loop of a resumption: interrupted steps are queued again, provided they
    are idempotent and had not started. *)
Fixpoint resumeSteps (runID : string) (steps : list RunStep) (t : RunTables) : result (list RunStep * RunTables) :=
  match steps with
  | [] => Ok ([], t)
  | step :: rest =>
      if s_Status step != "interrupted" then
        '(rest, t) ← resumeSteps runID rest t; Ok (step :: rest, t)
      else
        require (s_Idempotent step && (s_EffectState step == "not-started")) (Coded RecoveryRequired "run-resume");;
        let t := updateStepRow runID (s_StepID step) (inState "interrupted" "not-started")
                   (fun row => moveRow "queued" (sr_EffectState row) None None None None row) t in
        '(rest, t) ← resumeSteps runID rest t;
        Ok (withState "queued" (s_EffectState step) step :: rest, t)
  end.

(** The loop of a stop: queued steps are interrupted or cancelled. *)
Fixpoint stopSteps (runID stepStatus : string) (steps : list RunStep) (t : RunTables) : list RunStep * RunTables :=
  match steps with
  | [] => ([], t)
  | step :: rest =>
      if s_Status step != "queued" then
        let '(rest, t) := stopSteps runID stepStatus rest t in (step :: rest, t)
      else
        let t := updateStepRow runID (s_StepID step) (fun row => sr_Status row == "queued")
                   (fun row => moveRow stepStatus (sr_EffectState row) None None None None row) t in
        let '(rest, t) := stopSteps runID stepStatus rest t in
        (withState stepStatus (s_EffectState step) step :: rest, t)
  end.

(** The three parts of the mutation of [TransitionRun]. *)
Definition resumeRun (request : RunTransitionRequest) (run : Run) (t : RunTables) : result (Run * RunTables) :=
  if (tq_From request == "interrupted") && (tq_To request == "running") then
    '(steps, t) ← resumeSteps (r_RunID run) (r_Steps run) t; Ok (withSteps steps run, t)
  else Ok (run, t).

Definition stopRun (request : RunTransitionRequest) (run : Run) (t : RunTables) : Run * RunTables :=
  if bool_decide (tq_To request ∈ ["cancelled"; "interrupted"; "failed"; "partial"]) then
    let '(steps, t) := stopSteps (r_RunID run) (if tq_To request == "cancelled" then "cancelled" else "interrupted")
                         (r_Steps run) t in
    (withSteps steps run, t)
  else (run, t).

Definition settleRun (request : RunTransitionRequest) (run : Run) : Run :=
  let run := if tq_VerificationStatus request != ""
             then withVerification (tq_VerificationStatus request) (tq_VerificationDigest request) run else run in
  let run := if tq_RollbackStatus request != "" then withRollback (tq_RollbackStatus request) run else run in
  match tq_Changed request with Some changed => withChanged changed run | None => run end.

Definition transitionMutation (request : RunTransitionRequest) : Mutation := fun run t =>
  require (r_Status run == tq_From request) (Coded StateConflict "run-transition");;
  let run := withUpdatedAt (tq_At request) (withStatus (tq_To request) run) in
  '(run, t) ← resumeRun request run t;
  let '(run, t) := stopRun request run t in
  Ok (settleRun request run, t).

Definition TransitionRun (env : RunEnv) (request : RunTransitionRequest) : Store -> (Run * option error) * Store :=
  if negb (validRunToken (tq_RunID request) && validAt (tq_At request)
           && ValidateRunTransition (tq_From request) (tq_To request))
  then refused (Coded StateConflict "run-transition")
  else mutateRun env (tq_RunID request) "run.transitioned"
         (Join ":" [tq_From request; tq_To request; FormatRFC3339Nano (tq_At request)]) (tq_Attribution request)
         (transitionMutation request).

Definition cancellationMutation (at_ : Time) : Mutation := fun run t =>
  require (negb (terminalRunStatus (r_Status run))) (Coded StateConflict "run-cancellation");;
  Ok (withUpdatedAt at_ (withCancellation run), t).

Definition RequestCancellation (env : RunEnv) (runID : string) (at_ : Time) (attribution : Attribution)
    : Store -> (Run * option error) * Store :=
  if negb (validAt at_) then refused (Coded InputInvalid "run-cancellation")
  else mutateRun env runID "run.cancellation-requested" (FormatRFC3339Nano at_) attribution (cancellationMutation at_).

(** ** Leases *)

(** [roleReservationSnapshot]: the plan of the run, then the role component. *)
Definition roleReservationSnapshot (env : RunEnv) (runID : string) : action Store unit :=
  Read (re_read env) (fun db =>
    of_option errNoRows (row ← plan_runs (tables db) !! runID;
                         plan ← immutable_plans (tables db) !! rr_PlanID row;
                         if p_PlanDigest plan == r_PlanDigest (rr_Document row) then Some tt else None));;
  lift (re_roleSnapshot env).

(** The row of a new lease; [lease_kind] is ['central'] by default. *)
Definition leaseRow (kind : string) (lease : ExecutorLease) : LeaseRow :=
  mkLeaseRow (l_RunID lease) (l_StepID lease) (l_TargetID lease) (l_Status lease) lease kind None 0.

(** The business change of [AcquireTargetLease]. *)
Definition leaseChange (env : RunEnv) (lease : ExecutorLease) (t : RunTables) : result RunTables :=
  '(run, plan) ← runAndPlanInTx (l_RunID lease) t;
  require (ValidateExecutorLeaseBinding plan run lease && (r_Status run == "running") && (l_Status lease == "active"))
    (Coded StateConflict "target-lease");;
  re_replacement env plan;;
  re_role env plan;;
  insertLease (l_LeaseID lease) (leaseRow "central" lease) t.

Definition leaseIntent (lease : ExecutorLease) (attribution : Attribution) : intentRequest :=
  runIntent None "run-lease" (digestParts ["lease-key"; l_LeaseID lease])
    (digestParts ["target-lease"; l_LeaseID lease; l_BindingDigest lease; l_NonceDigest lease])
    "run.lease-acquired" (l_RunID lease) (l_BindingDigest lease) attribution.

Definition AcquireTargetLease (env : RunEnv) (lease : ExecutorLease) (attribution : Attribution) : action Store unit :=
  check (validLease lease) (Coded InputInvalid "target-lease");;
  roleReservationSnapshot env (l_RunID lease);;
  executeAuditIntent (re_tx env) (leaseIntent lease attribution) false (Some (fun _ => leaseChange env lease));;
  mret tt.

(** One statement outside of an audited transaction. *)
Definition execTables {A} (env : TxEnv) (f : RunTables -> A * RunTables) : action Store A :=
  readyForTransaction env;;
  match te_sql env Business with
  | Some cause => fail (classifySQLiteError env Business cause)
  | None =>
      answer ← gets (fun store => f (tables (st_db store)));
      modify (fun store => withDb (setTables answer.2 (st_db store)) store);;
      mret answer.1
  end.

Definition releaseLease (leaseID : string) (t : RunTables) : Z * RunTables :=
  match target_execution_leases t !! leaseID with
  | Some l => if le_Status l == "active"
              then (1, setLeases (<[leaseID := releasedLease l]> (target_execution_leases t)) t) else (0, t)
  | None => (0, t)
  end.

Definition ReleaseTargetLease (env : RunEnv) (leaseID : string) (at_ : Time) : action Store unit :=
  check (validRunToken leaseID && validAt at_) (Coded InputInvalid "target-lease");;
  rows ← execTables (re_tx env) (releaseLease leaseID);
  check (rows == 1) (Coded StateConflict "target-lease").

Definition releaseLeases (runID : string) (t : RunTables) : RunTables :=
  setLeases ((fun l => if (le_RunID l == runID) && (le_Status l == "active") then releasedLease l else l)
             <$> target_execution_leases t) t.

Definition ReleaseRunLeases (env : RunEnv) (runID : string) (at_ : Time) : action Store unit :=
  check (validRunToken runID && validAt at_) (Coded InputInvalid "target-lease");;
  execTables (re_tx env) (fun t => (tt, releaseLeases runID t)).

(** ** Steps *)

(** A check before the mutation whose failure returns the zero run. *)
Definition after (m : action Store unit) (k : Store -> (Run * option error) * Store)
    : Store -> (Run * option error) * Store := fun store =>
  match m store with
  | (Ok _, store') => k store'
  | (Err e, store') => ((zeroRun, Some e), store')
  end.

Definition activeLease (runID stepID leaseID : string) (t : RunTables) : option LeaseRow :=
  l ← target_execution_leases t !! leaseID;
  if (le_RunID l == runID) && (le_StepID l == stepID) && (le_Status l == "active") then Some l else None.

Definition beginMutation (env : RunEnv) (request : StepBeginRequest) : Mutation := fun run t =>
  step ← of_option (Coded StateConflict "run-step") (findStep run (bq_StepID request));
  require ((r_Status run == "running") && (s_Status step == "queued") && (s_EffectState step == "not-started"))
    (Coded StateConflict "run-step");;
  of_option (Coded StateConflict "run-step-lease")
    (activeLease (bq_RunID request) (bq_StepID request) (bq_LeaseID request) t);;
  '(_, plan) ← runAndPlanInTx (bq_RunID request) t;
  re_replacement env plan;;
  re_role env plan;;
  let run := withUpdatedAt (bq_At request) (setStep (bq_StepID request) "running" "intent-recorded" run) in
  Ok (run, updateStepRow (r_RunID run) (bq_StepID request) (inState "queued" "not-started")
             (moveRow "running" "intent-recorded" (Some (bq_LeaseID request)) None (Some (r_UpdatedAt run)) None) t).

Definition BeginStep (env : RunEnv) (request : StepBeginRequest) : Store -> (Run * option error) * Store :=
  if negb (validAt (bq_At request) && validRunToken (bq_StepID request) && validRunToken (bq_LeaseID request))
  then refused (Coded InputInvalid "run-step")
  else after (roleReservationSnapshot env (bq_RunID request))
         (mutateRun env (bq_RunID request) "run.step-intent-recorded"
            (Join ":" [bq_StepID request; bq_LeaseID request; FormatRFC3339Nano (bq_At request)]) (bq_Attribution request)
            (beginMutation env request)).

(** The receipt names the run, the step and the lease of the request. *)
Definition receiptNames (run : Run) (step : RunStep) (leaseID : string) (receipt : ExecutionReceipt) : bool :=
  (rc_RunID receipt == r_RunID run) && (rc_StepID receipt == s_StepID step) && (rc_LeaseID receipt == leaseID).

Definition finishMutation (request : StepFinishRequest) : Mutation := fun run t =>
  step ← of_option (Coded StateConflict "run-step-result") (findStep run (fq_StepID request));
  require (receiptNames run step (fq_LeaseID request) (fq_Receipt request)) (Coded StateConflict "run-step-result");;
  if (s_Status step == fq_Status request) && (s_EffectState step == fq_EffectState request)
  then verifyStoredReceipt (fq_Receipt request) t;; Ok (run, t)
  else
    require ((s_Status step == "running") && (s_EffectState step == "receipt-recorded"))
      (Coded StateConflict "run-step-result");;
    verifyStoredReceipt (fq_Receipt request) t;;
    let run := withUpdatedAt (fq_At request) (withChanged (r_Changed run || fq_Changed request)
                 (setStep (s_StepID step) (fq_Status request) (fq_EffectState request) run)) in
    Ok (run, updateStepRow (r_RunID run) (s_StepID step) (inState "running" "receipt-recorded")
               (moveRow (fq_Status request) (fq_EffectState request) None (Some (fq_VerificationDigest request)) None
                  (Some (r_UpdatedAt run))) t).

Definition FinishStep (env : RunEnv) (request : StepFinishRequest) : Store -> (Run * option error) * Store :=
  if negb (validAt (fq_At request) && (fq_EffectState request == "verified") && (fq_VerificationDigest request != "")
           && validReceipt (fq_Receipt request)
           && bool_decide (fq_Status request ∈ ["succeeded"; "failed"; "partial"]))
  then refused (Coded InputInvalid "run-step-result")
  else mutateRun env (fq_RunID request) "run.step-finished" (rc_ReceiptID (fq_Receipt request)) (fq_Attribution request)
         (finishMutation request).

Definition receiptMutation (request : ReceiptRecordRequest) : Mutation := fun run t =>
  step ← of_option (Coded StateConflict "run-receipt") (findStep run (xq_StepID request));
  require (receiptNames run step (xq_LeaseID request) (xq_Receipt request)) (Coded StateConflict "run-receipt");;
  if s_EffectState step == "receipt-recorded"
  then verifyStoredReceipt (xq_Receipt request) t;; Ok (run, t)
  else
    require ((s_Status step == "running") && (s_EffectState step == "intent-recorded"))
      (Coded StateConflict "run-receipt");;
    lease ← of_option (Coded StateConflict "run-step-lease")
      (activeLease (r_RunID run) (s_StepID step) (xq_LeaseID request) t);
    require (ValidateExecutionReceiptBinding (le_Document lease) (xq_Receipt request))
      (Coded IntegrityFailure "run-receipt-binding");;
    t ← insertReceipt (rc_ReceiptID (xq_Receipt request))
          (mkReceiptRow (xq_LeaseID request) (r_RunID run) (s_StepID step) (xq_Receipt request)) t;
    let run := withUpdatedAt (xq_At request) (setStep (s_StepID step) (s_Status step) "receipt-recorded" run) in
    Ok (run, updateStepRow (r_RunID run) (s_StepID step) (inState "running" "intent-recorded")
               (fun row => moveRow (sr_Status row) "receipt-recorded" None (Some (rc_ResultDigest (xq_Receipt request)))
                             None None row) t).

Definition RecordReceipt (env : RunEnv) (request : ReceiptRecordRequest) : Store -> (Run * option error) * Store :=
  if negb (validAt (xq_At request) && validReceipt (xq_Receipt request))
  then refused (Coded InputInvalid "run-receipt")
  else mutateRun env (xq_RunID request) "run.step-receipt-recorded" (rc_ReceiptID (xq_Receipt request))
         (xq_Attribution request) (receiptMutation request).

(** The three ends of a step without a verified receipt: the states it may be
    in, and the state it moves to. *)
Definition abandonMutation (stepID : string) (effects : list string) (status effect : string) (changed : bool)
    (at_ : Time) : Mutation := fun run t =>
  step ← of_option (Coded StateConflict "run-step") (findStep run stepID);
  require ((s_Status step == "running") && bool_decide (s_EffectState step ∈ effects)) (Coded StateConflict "run-step");;
  let run := setStep stepID status effect run in
  let run := withUpdatedAt at_ (if changed then withChanged true run else run) in
  Ok (run, updateStepRow (r_RunID run) stepID
             (fun row => (sr_Status row == "running") && bool_decide (sr_EffectState row ∈ effects))
             (moveRow status effect None None None (Some (r_UpdatedAt run))) t).

Definition MarkStepUnknown (env : RunEnv) (runID stepID : string) (at_ : Time) (attribution : Attribution)
    : Store -> (Run * option error) * Store :=
  mutateRun env runID "run.step-effect-unknown" (Join ":" [stepID; FormatRFC3339Nano at_]) attribution
    (abandonMutation stepID ["intent-recorded"; "receipt-recorded"] "partial" "effect-unknown" true at_).

Definition FailStepBeforeEffect (env : RunEnv) (runID stepID : string) (at_ : Time) (attribution : Attribution)
    : Store -> (Run * option error) * Store :=
  mutateRun env runID "run.step-failed-before-effect" (Join ":" [stepID; FormatRFC3339Nano at_]) attribution
    (abandonMutation stepID ["intent-recorded"] "failed" "not-started" false at_).

Definition InterruptStepBeforeEffect (env : RunEnv) (runID stepID : string) (at_ : Time) (attribution : Attribution)
    : Store -> (Run * option error) * Store :=
  mutateRun env runID "run.step-interrupted-before-effect" (Join ":" [stepID; FormatRFC3339Nano at_]) attribution
    (abandonMutation stepID ["intent-recorded"] "interrupted" "not-started" false at_).

(** ** Operations on a run *)

Definition runOperation (env : RunEnv) (operation runID keyDigest requestDigest : string)
    : action Store RunOperationResult :=
  row ← Read (re_read env) (fun db =>
          of_option errNoRows (run_operation_keys (tables db) !! (operation, runID, keyDigest)));
  lift (require (or_RequestDigest row == requestDigest) (Coded StateConflict "run-operation-key");;
        if or_Status row == "completed"
        then run ← decodeRun (default zeroRun (or_Result row));
             Ok (mkRunOperationResult run false true (or_ErrorCode row))
        else Ok (mkRunOperationResult zeroRun false false (or_ErrorCode row))).

(** The business change of [ClaimRunOperation]. *)
Definition claimChange (operation runID keyDigest requestDigest : string) (at_ : Time) (t : RunTables)
    : result RunTables :=
  require (bool_decide (is_Some (plan_runs t !! runID))) (Coded ResourceNotFound "run");;
  if bool_decide (is_Some (run_operation_keys t !! (operation, runID, keyDigest))) then violates
  else Ok (setOperations (<[(operation, runID, keyDigest) :=
         mkOperationRow requestDigest "pending" None "" (FormatRFC3339 at_) None]> (run_operation_keys t)) t).

Definition claimIntent (operation runID keyDigest requestDigest : string) (attribution : Attribution) : intentRequest :=
  runIntent None "run-operation-claim" (digestParts ["run-operation-claim"; operation; runID; keyDigest]) requestDigest
    "run.operation-claimed" runID (digestParts ["run-operation"; operation; runID; keyDigest]) attribution.

Definition ClaimRunOperation (env : RunEnv) (operation runID keyDigest requestDigest : string) (at_ : Time)
    (attribution : Attribution) : action Store RunOperationResult :=
  check (validRunOperation operation && validRunToken runID && validAt at_
         && ValidateIntentKey (mkIntentKey "run-operation" keyDigest requestDigest)) (Coded InputInvalid "run-operation");;
  intent ← executeAuditIntent (re_tx env) (claimIntent operation runID keyDigest requestDigest attribution) false
             (Some (fun _ => claimChange operation runID keyDigest requestDigest at_));
  result ← runOperation env operation runID keyDigest requestDigest;
  mret (mkRunOperationResult (os_Run result) (ir_Created intent) (os_Completed result) (os_ErrorCode result)).

(** The business change of [CompleteRunOperation]. *)
Definition completeChange (operation runID keyDigest requestDigest : string) (run : Run) (errorCode : string)
    (at_ : Time) (t : RunTables) : result RunTables :=
  match run_operation_keys t !! (operation, runID, keyDigest) with
  | Some row =>
      require ((or_RequestDigest row == requestDigest) && (or_Status row == "pending"))
        (Coded StateConflict "run-operation");;
      Ok (setOperations (<[(operation, runID, keyDigest) :=
            mkOperationRow requestDigest "completed" (Some run) errorCode (or_CreatedAt row) (Some (FormatRFC3339 at_))]>
            (run_operation_keys t)) t)
  | None => Err (Coded StateConflict "run-operation")
  end.

Definition completeIntent (operation runID keyDigest requestDigest : string) (run : Run) (errorCode : string)
    (attribution : Attribution) : intentRequest :=
  let resultDigest := digestParts ["run-operation-result"; operation; runID; keyDigest; requestDigest; runJSON run;
                                   errorCode] in
  runIntent None "run-operation-complete" (digestParts ["run-operation-complete"; operation; runID; keyDigest])
    resultDigest "run.operation-completed" runID resultDigest attribution.

Definition CompleteRunOperation (env : RunEnv) (operation runID keyDigest requestDigest : string) (run : Run)
    (errorCode : string) (at_ : Time) (attribution : Attribution) : action Store RunOperationResult :=
  check (validRunOperation operation && (r_RunID run == runID) && validRunDocument run
         && negb (64 <? String.length errorCode)%nat && validAt at_) (Coded InputInvalid "run-operation");;
  executeAuditIntent (re_tx env) (completeIntent operation runID keyDigest requestDigest run errorCode attribution) false
    (Some (fun _ => completeChange operation runID keyDigest requestDigest run errorCode at_));;
  runOperation env operation runID keyDigest requestDigest.

(** ** History *)

Definition eventIntent (request : RunEventRequest) : intentRequest :=
  runIntent None "run-detail"
    (digestParts ["run-event-key"; eq_RunID request; eq_EventType request; FormatRFC3339Nano (eq_OccurredAt request)])
    (eq_EventDigest request) (eq_EventType request) (eq_RunID request) (eq_EventDigest request) (eq_Attribution request).

Definition AppendRunEvent (env : RunEnv) (request : RunEventRequest) : action Store unit :=
  check (validRunToken (eq_RunID request) && validRunToken (eq_EventType request) && validAt (eq_OccurredAt request)
         && HasPrefix (eq_EventDigest request) "sha256:") (Coded InputInvalid "run-event");;
  executeAuditIntent (re_tx env) (eventIntent request) false
    (Some (fun _ => insertDetail (mkDetailRow (eq_RunID request) (eq_EventType request) (eq_EventDigest request)
                                    (FormatRFC3339 (eq_OccurredAt request)))));;
  mret tt.

Definition runDetailRetention : Z := 30 * 24 * Hour.
Definition runSummaryRetention : Z := 180 * 24 * Hour.

(** The condition of the second [DELETE] *)
Definition staleRun (cutoff : string) (row : RunRow) : bool :=
  String.ltb (rr_UpdatedAt row) cutoff
  && bool_decide (rr_Status row ∈ ["succeeded"; "failed"; "partial"; "interrupted"; "cancelled"]).

(** [DELETE FROM plan_runs], which cascades to the tables of the component and
    fails when another table refers to a run it would delete. *)
Definition deleteRuns (cutoff : string) (t : RunTables) : result (Z * RunTables) :=
  let dead := filter (fun r => staleRun cutoff r.2 = true) (plan_runs t) in
  let alive (runID : string) := dead !! runID = None in
  if existsb (fun runID => bool_decide (is_Some (dead !! runID))) (elements (run_references t)) then violates
  else Ok (Z.of_nat (size dead),
    mkRunTables (filter (fun r => alive r.1) (plan_runs t)) (filter (fun r => alive (sr_RunID r.2)) (plan_run_steps t))
      (filter (fun r => alive (le_RunID r.2)) (target_execution_leases t))
      (filter (fun r => alive (xr_RunID r.2)) (execution_receipts t))
      (filter (fun r => alive r.1.1.2) (run_operation_keys t)) (filter (fun d => alive (dt_RunID d)) (run_detail_events t))
      (immutable_plans t) (acknowledgement_requests t)
      (filter (fun r => alive (xr_RunID r.2)) (external_execution_observations t)) (run_references t)
      (filter (fun n => match target_execution_leases t !! nh_LeaseID n.2 with
                        | Some l => bool_decide (alive (le_RunID l))
                        | None => true
                        end = true) (executor_lease_nonce_history t))).

(** Both statements of [PruneRunHistory]. *)
Definition pruneChange (now : Time) (t : RunTables) : result (RunPruneResult * RunTables) :=
  let old d := String.ltb (dt_OccurredAt d) (FormatRFC3339 (Add now (- runDetailRetention))) in
  let kept := filter (fun d => old d = false) (run_detail_events t) in
  '(summaries, t') ← deleteRuns (FormatRFC3339 (Add now (- runSummaryRetention))) (setDetails kept t);
  Ok (mkRunPruneResult (Z.of_nat (length (run_detail_events t) - length kept)) summaries, t').

Definition PruneRunHistory (env : RunEnv) (now : Time) : action Store RunPruneResult :=
  check (validAt now) (Coded InputInvalid "run-retention");;
  readyForTransaction (re_tx env);;
  match te_sql (re_tx env) BeginTx with
  | Some cause => transactionError (re_tx env) BeginTx cause
  | None =>
      match te_sql (re_tx env) Business with
      | Some cause => fail (classifySQLiteError (re_tx env) Business cause)
      | None =>
          changed ← gets (fun store => pruneChange now (tables (st_db store)));
          match changed with
          | Err _ => fail (classifySQLiteError (re_tx env) Business SqlConstraint)
          | Ok (result, t) =>
              match te_sql (re_tx env) CommitTx with
              | Some cause =>
                  (if te_commitDurable (re_tx env)
                   then modify (fun store => withDb (setTables t (st_db store)) store) else mret tt);;
                  transactionError (re_tx env) CommitTx cause
              | None =>
                  modify (fun store => withDb (setTables t (st_db store)) store);;
                  mret result
              end
          end
      end
  end.

(** [ORDER BY created_at,run_id] *)
Definition createdBefore (x y : string * RunRow) : Prop :=
  (String.ltb (rr_CreatedAt x.2) (rr_CreatedAt y.2)
   || ((rr_CreatedAt x.2 == rr_CreatedAt y.2) && String.leb x.1 y.1)) = true.

#[local] Instance createdBefore_dec (x y : string * RunRow) : Decision (createdBefore x y).
Proof. unfold createdBefore. apply _. Defined.

Definition ActiveRuns (env : RunEnv) : action Store (list Run) :=
  canonical ← Read (re_read env) (fun db =>
    Ok (map (fun r => rr_Document r.2)
          (merge_sort createdBefore
             (filter (fun r => bool_decide (rr_Status r.2 ∈ ["queued"; "running"; "interrupted"]) = true)
                (map_to_list (plan_runs (tables db)))))));
  lift (foldr (fun value runs => run ← decodeRun value; runs ← runs; Ok (run :: runs)) (Ok []) canonical).

End Repository.
