(* ===== verification/ExecutorLease.v ===== *)
(** The leases of external executors of
    [internal/store/executor_lease_repository.go], one definition per method.
    The methods work on the tables of the runs ([RunRepository]), in
    transactions of the audited writer: a claim stores the lease and the intent
    of its step, a renewal rotates the nonce, an expiry ends the leases whose
    window is over, and a receipt is stored as an untrusted observation.

    The conventions are those of [RunRepository]: a column [canonical_bytes]
    holds the document, and a column that repeats a field of the document is read
    there. The triggers on [target_execution_leases], which refuse a change of
    the binding of a lease and a change of a lease that has ended, are not
    written out: [ExecutorHistory.lease_binding_immutable] shows that no statement
    ever meets them. *)

From S2P Require Import Prelude GoTime Hash GoJson Contracts AuditLog AuditStore RunRepository.

(** ** Requests *)

Record ExecutorLeaseClaimRequest := mkLeaseClaim {
  lc_Request : ExecutorClaimRequest;
  lc_Lease : ExecutorLease;
  lc_At : Time;
  lc_Attribution : Attribution
}.

Record ExecutorLeaseRenewalRequest := mkLeaseRenewal {
  ln_Request : ExecutorRenewRequest;
  ln_NextNonceDigest : string;
  ln_At : Time;
  ln_Attribution : Attribution
}.

Record ExecutorLeaseExpiryRequest := mkLeaseExpiry { lx_At : Time; lx_Attribution : Attribution }.

Record ExecutorReceiptPersistenceRequest := mkReceiptPersistence {
  lp_Request : ExecutionReceiptRequest;
  lp_At : Time;
  lp_Attribution : Attribution
}.

Record ExecutorAuthorizationDenialRequest := mkAuthorizationDenial {
  ad_ReasonFingerprint : string;
  ad_TargetFingerprint : string;
  ad_At : Time;
  ad_Attribution : Attribution
}.

(** ** Documents *)

(** [validUTCSecond]: a whole second of UTC. *)
Definition validUTCSecond (value : Time) : bool :=
  negb (IsZero value) && isUTC value && Equal value (TruncateSecond value).

Definition executorLeaseTimes (lease : ExecutorLease) : result (Time * Time) :=
  match parseRFC3339 (l_RenewAfter lease), parseRFC3339 (l_LeaseExpiresAt lease) with
  | Some renewAfter, Some expiresAt => Ok (renewAfter, expiresAt)
  | _, _ => Err (Coded IntegrityFailure "executor-lease-time")
  end.

Section Repository.
Context `{Hasher} `{RunSchemas}.

Notation Store := (Store RunTables).

Definition validExecutorClaim (request : ExecutorClaimRequest) : bool := exactClaimRequest request.
Definition validExecutorRenewal (request : ExecutorRenewRequest) : bool := exactRenewRequest request.
Definition validExecutionReceiptRequest (request : ExecutionReceiptRequest) : bool := exactReceiptRequest request.

Definition validStoredExecutorLease (lease : ExecutorLease) : bool :=
  exactLease lease
  && match parseRFC3339 (l_ClaimedAt lease), executorLeaseTimes lease, parseRFC3339 (l_MaximumExpiresAt lease) with
     | Some claimed, Ok (renewAfter, expiry), Some maximum =>
         Equal expiry (Add claimed (seconds ExecutorLeaseSeconds)) && Equal maximum expiry && After renewAfter claimed
         && negb (After renewAfter expiry)
     | _, _, _ => false
     end.

Definition decodeStoredExecutorLease (canonical : ExecutorLease) : result ExecutorLease :=
  require (validStoredExecutorLease canonical) (Coded IntegrityFailure "executor-lease");; Ok canonical.

Definition leaseJSON (l : ExecutorLease) : string :=
  jsonObject
    [("schema", jsonString "vegastack-labs.dev/executor-lease"); ("schemaVersion", jsonString "1.0.0");
     ("leaseId", jsonString (l_LeaseID l)); ("planId", jsonString (l_PlanID l)); ("planDigest", jsonString (l_PlanDigest l));
     ("runId", jsonString (l_RunID l)); ("stepId", jsonString (l_StepID l)); ("operationId", jsonString (l_OperationID l));
     ("executorId", jsonString (l_ExecutorID l)); ("adapterId", jsonString (l_AdapterID l));
     ("targetId", jsonString (l_TargetID l)); ("artifactDigest", jsonString (l_ArtifactDigest l));
     ("bindingDigest", jsonString (l_BindingDigest l)); ("nonceDigest", jsonString (l_NonceDigest l));
     ("recoveryEpoch", jsonInt (l_RecoveryEpoch l)); ("claimedAt", jsonString (l_ClaimedAt l));
     ("renewAfter", jsonString (l_RenewAfter l)); ("leaseExpiresAt", jsonString (l_LeaseExpiresAt l));
     ("maximumExpiresAt", jsonString (l_MaximumExpiresAt l)); ("status", jsonString (l_Status l));
     ("extensions", jsonArray (map extensionJSON (l_Extensions l)))].

Definition receiptJSON (r : ExecutionReceipt) : string :=
  jsonObject
    [("schema", jsonString "vegastack-labs.dev/execution-receipt"); ("schemaVersion", jsonString "1.0.0");
     ("leaseId", jsonString (rc_LeaseID r)); ("planId", jsonString (rc_PlanID r));
     ("planDigest", jsonString (rc_PlanDigest r)); ("runId", jsonString (rc_RunID r)); ("stepId", jsonString (rc_StepID r));
     ("operationId", jsonString (rc_OperationID r)); ("executorId", jsonString (rc_ExecutorID r));
     ("adapterId", jsonString (rc_AdapterID r)); ("targetId", jsonString (rc_TargetID r));
     ("artifactDigest", jsonString (rc_ArtifactDigest r)); ("bindingDigest", jsonString (rc_BindingDigest r));
     ("nonceDigest", jsonString (rc_NonceDigest r)); ("recoveryEpoch", jsonInt (rc_RecoveryEpoch r));
     ("receiptId", jsonString (rc_ReceiptID r)); ("status", jsonString (rc_Status r));
     ("resultDigest", jsonString (rc_ResultDigest r)); ("pendingPointId", jsonOption jsonString (rc_PendingPointID r));
     ("recordedAt", jsonString (rc_RecordedAt r)); ("extensions", jsonArray (map extensionJSON (rc_Extensions r)))].

(** The request of an intent of the repository. *)
Definition leaseCallIntent (scope key request eventType correlation kind target after : string)
    (attribution : Attribution) : intentRequest :=
  mkIntentRequest None None (mkIntentKey scope key request)
    (mkEventDraft eventType correlation None None attribution (mkTarget kind target) None (Some after))
    (mkContextIDs "" "" "") [].

(** ** Statements *)

(** [INSERT INTO executor_lease_nonce_history]: the unique nonce, the primary key
    and the foreign key. *)
Definition insertNonce (nonceDigest : string) (row : NonceRow) (t : RunTables) : result RunTables :=
  if bool_decide (is_Some (executor_lease_nonce_history t !! nonceDigest))
     || existsb (fun n => (nh_LeaseID n.2 == nh_LeaseID row) && (nh_Sequence n.2 == nh_Sequence row))
          (map_to_list (executor_lease_nonce_history t))
     || bool_decide (target_execution_leases t !! nh_LeaseID row = None)
  then violates else Ok (setNonces (<[nonceDigest := row]> (executor_lease_nonce_history t)) t).

(** [INSERT INTO external_execution_observations]: the primary key and the
    foreign keys. *)
Definition insertObservation (receiptID : string) (row : ReceiptRow) (t : RunTables) : result RunTables :=
  if bool_decide (is_Some (external_execution_observations t !! receiptID))
     || bool_decide (target_execution_leases t !! xr_LeaseID row = None)
     || bool_decide (plan_runs t !! xr_RunID row = None) || bool_decide (plan_run_steps t !! xr_StepID row = None)
  then violates else Ok (setObservations (<[receiptID := row]> (external_execution_observations t)) t).

(** The external lease of [WHERE lease_id=? AND lease_kind='external']. *)
Definition externalLease (leaseID : string) (t : RunTables) : option LeaseRow :=
  l ← target_execution_leases t !! leaseID; if le_Kind l == "external" then Some l else None.

Definition readExecutorLeaseInTx (leaseID : string) (t : RunTables) : result LeaseRow :=
  l ← of_option (Coded ResourceNotFound "executor-lease") (externalLease leaseID t);
  lease ← decodeStoredExecutorLease (le_Document l);
  require (l_Status lease == le_Status l) (Coded IntegrityFailure "executor-lease-status");;
  Ok l.

(** [UPDATE target_execution_leases SET status='expired' ... WHERE lease_id=? AND
    status='active']: the number of rows. *)
Definition expireLease (leaseID : string) (t : RunTables) : Z * RunTables :=
  match target_execution_leases t !! leaseID with
  | Some l => if le_Status l == "active"
              then (1, setLeases (<[leaseID := endedLease "expired" l]> (target_execution_leases t)) t) else (0, t)
  | None => (0, t)
  end.

(** [UPDATE plan_runs SET canonical_bytes=?,updated_at=? WHERE run_id=? AND
    status='running'] *)
Definition updateRunning (run : Run) (t : RunTables) : RunTables :=
  match plan_runs t !! r_RunID run with
  | Some row =>
      if rr_Status row == "running"
      then setRuns (<[r_RunID run :=
             mkRunRow (rr_PlanID row) (rr_AcknowledgementID row) (rr_Status row) (rr_CancellationRequested row)
               (rr_RollbackStatus row) (rr_VerificationStatus row) (rr_VerificationDigest row) (rr_Changed row)
               (rr_SubmitKeyDigest row) (rr_RequestDigest row) run (rr_CreatedAt row) (r_UpdatedAt run)]> (plan_runs t)) t
      else t
  | None => t
  end.

(** The step row a guarded update hits; no row is a conflict. *)
Definition moveStep (runID stepID status effect target : string) (f : StepRow -> StepRow) (t : RunTables)
    : result RunTables :=
  row ← of_option (Coded StateConflict target) (plan_run_steps t !! stepID);
  require ((sr_RunID row == runID) && inState status effect row) (Coded StateConflict target);;
  Ok (updateStepRow runID stepID (inState status effect) f t).

(** ** Claims *)

(** The run of a claim or of a receipt, with one step moved. *)
Definition steppedRun (stepID status effect : string) (at_ : Time) (run : Run) : Run :=
  withSteps (assignStep stepID (withState status effect) (r_Steps run))
    (rebuildRun run (r_Status run) (r_Steps run) (r_CancellationRequested run) (r_RollbackStatus run)
       (r_VerificationStatus run) (r_VerificationDigest run) (r_Changed run) (FormatRFC3339 at_)).

(** The step a claim may start. *)
Definition claimable (step : RunStep) (lease : ExecutorLease) : bool :=
  (s_Status step == "queued") && (s_EffectState step == "not-started") && (s_ExecutorID step == l_ExecutorID lease)
  && (s_AdapterID step == l_AdapterID lease) && (s_TargetID step == l_TargetID lease)
  && (s_ArtifactDigest step == l_ArtifactDigest lease).

(** The business change of [Claim]. *)
Definition claimLeaseChange (request : ExecutorLeaseClaimRequest) (current : RevisionToken) (t : RunTables)
    : result RunTables :=
  let lease := lc_Lease request in
  require (rt_RecoveryEpoch current == l_RecoveryEpoch lease) (Coded RecoveryEpochMismatch "executor-lease-claim");;
  '(run, plan) ← runAndPlanInTx (l_RunID lease) t;
  require ((r_RecoveryEpoch run == l_RecoveryEpoch lease) && (b_RecoveryEpoch (p_Binding plan) == l_RecoveryEpoch lease))
    (Coded RecoveryEpochMismatch "executor-lease-claim");;
  require ((r_ExecutorMode run == "external") && (p_ExecutorMode plan == "external")
           && ValidateExecutorLeaseBinding plan run lease) (Coded AuthorizationDenied "executor-lease-binding");;
  step ← of_option (Coded StateConflict "executor-lease-step") (findStep run (l_StepID lease));
  require ((r_Status run == "running") && claimable step lease) (Coded StateConflict "executor-lease-step");;
  require (forallb (fun l => le_StepID l.2 != l_StepID lease) (map_to_list (target_execution_leases t)))
    (Coded RecoveryRequired "executor-lease-reconciliation");;
  t ← insertLease (l_LeaseID lease) (leaseRow "external" lease) t;
  t ← insertNonce (l_NonceDigest lease) (mkNonceRow (l_LeaseID lease) 0 (l_ClaimedAt lease)) t;
  let run := steppedRun (l_StepID lease) "running" "intent-recorded" (lc_At request) run in
  t ← moveStep (l_RunID lease) (l_StepID lease) "queued" "not-started" "executor-lease-step"
        (moveRow "running" "intent-recorded" (Some (l_LeaseID lease)) None (Some (r_UpdatedAt run)) None) t;
  Ok (updateRunning run t).

Definition claimLeaseIntent (request : ExecutorLeaseClaimRequest) : intentRequest :=
  let lease := lc_Lease request in
  leaseCallIntent "executor-lease-claim" (digestParts ["executor-lease-claim-key"; l_LeaseID lease])
    (digestParts ["executor-lease-claim"; leaseJSON lease; cl_PrincipalID (lc_Request request)])
    "run.external-lease-claimed" (l_RunID lease) "executor-lease" (l_LeaseID lease) (l_BindingDigest lease)
    (lc_Attribution request).

(** The guards of [Claim] before its transaction. *)
Definition claimAuthorized (request : ExecutorLeaseClaimRequest) : bool :=
  let lease := lc_Lease request in
  let claim := lc_Request request in
  (l_Status lease == "active") && (l_ClaimedAt lease == FormatRFC3339 (lc_At request))
  && (cl_ExecutorID claim == l_ExecutorID lease) && (cl_AdapterID claim == l_AdapterID lease)
  && (cl_NonceDigest claim == l_NonceDigest lease)
  && (cl_PrincipalID claim == at_PrincipalID (lc_Attribution request)).

Definition Claim (env : RunEnv) (request : ExecutorLeaseClaimRequest) : action Store ExecutorLease :=
  let lease := lc_Lease request in
  check (validUTCSecond (lc_At request) && validExecutorClaim (lc_Request request) && validLease lease)
    (Coded InputInvalid "executor-lease-claim");;
  check (claimAuthorized request) (Coded AuthorizationDenied "executor-lease-claim");;
  check (cl_RecoveryEpoch (lc_Request request) == l_RecoveryEpoch lease) (Coded RecoveryEpochMismatch "executor-lease-claim");;
  intent ← executeAuditIntent (re_tx env) (claimLeaseIntent request) false (Some (claimLeaseChange request));
  check (ir_Created intent) (Coded StateConflict "executor-lease-claim-replay");;
  mret lease.

(** ** Renewals *)

(** The next check-in, within the window of the lease. *)
Definition nextRenewal (at_ expiry : Time) : Time :=
  let next := Add at_ (seconds ExecutorCheckInSeconds) in if After next expiry then expiry else next.

Definition renewedRow (request : ExecutorLeaseRenewalRequest) (renewAfter : string) (l : LeaseRow) : LeaseRow :=
  let d := le_Document l in
  mkLeaseRow (le_RunID l) (le_StepID l) (le_TargetID l) (le_Status l)
    (rebuildLease (ln_NextNonceDigest request) renewAfter (l_Status d) d) (le_Kind l)
    (Some (FormatRFC3339 (ln_At request))) (le_RenewalCount l + 1).

(** The business change of [Renew]; it also yields the renewed lease. *)
Definition renewLease (request : ExecutorLeaseRenewalRequest) (current : RevisionToken) (t : RunTables)
    : result (ExecutorLease * RunTables) :=
  let renewal := ln_Request request in
  l ← readExecutorLeaseInTx (er_LeaseID renewal) t;
  let lease := le_Document l in
  require (er_RecoveryEpoch renewal == l_RecoveryEpoch lease) (Coded RecoveryEpochMismatch "executor-lease-renewal");;
  require ((er_BindingDigest renewal == l_BindingDigest lease) && (er_NonceDigest renewal == l_NonceDigest lease))
    (Coded AuthorizationDenied "executor-lease-renewal");;
  require (rt_RecoveryEpoch current == l_RecoveryEpoch lease) (Coded RecoveryEpochMismatch "executor-lease-renewal");;
  '(renewAfter, expiry) ← executorLeaseTimes lease;
  require ((le_Status l == "active") && negb (Before (ln_At request) renewAfter) && Before (ln_At request) expiry)
    (Coded StateConflict "executor-lease-renewal-window");;
  let row := renewedRow request (FormatRFC3339 (nextRenewal (ln_At request) expiry)) l in
  t ← insertNonce (ln_NextNonceDigest request)
        (mkNonceRow (l_LeaseID lease) (le_RenewalCount l + 1) (FormatRFC3339 (ln_At request))) t;
  Ok (le_Document row, setLeases (<[er_LeaseID renewal := row]> (target_execution_leases t)) t).

Definition renewLeaseIntent (request : ExecutorLeaseRenewalRequest) : intentRequest :=
  let renewal := ln_Request request in
  leaseCallIntent "executor-lease-renew"
    (digestParts ["executor-lease-renew-key"; er_LeaseID renewal; er_NonceDigest renewal])
    (digestParts ["executor-lease-renew"; ln_NextNonceDigest request; FormatRFC3339 (ln_At request)])
    "run.external-lease-renewed" (er_LeaseID renewal) "executor-lease" (er_LeaseID renewal) (er_BindingDigest renewal)
    (ln_Attribution request).

Definition Renew (env : RunEnv) (request : ExecutorLeaseRenewalRequest) : action Store ExecutorLease :=
  check (validUTCSecond (ln_At request) && validExecutorRenewal (ln_Request request)
         && ValidFingerprint (ln_NextNonceDigest request) && (ln_NextNonceDigest request != er_NonceDigest (ln_Request request)))
    (Coded InputInvalid "executor-lease-renewal");;
  renewed ← gets (fun store => tables (st_db store));
  intent ← executeAuditIntent (re_tx env) (renewLeaseIntent request) false
             (Some (fun current t => snd <$> renewLease request current t));
  check (ir_Created intent) (Coded AuthorizationDenied "executor-lease-renewal-replay");;
  lift (fst <$> renewLease request (mkRevisionToken 0 (er_RecoveryEpoch (ln_Request request))) renewed).

(** ** Expiry *)

(** A step under an expired lease whose effect nobody has settled. *)
Definition unsettled (runStatus status effect : string) : bool :=
  (runStatus == "running")
  && ((status == "running") && ((effect == "intent-recorded") || (effect == "receipt-recorded"))
      || (status == "partial") && (effect == "effect-unknown")).

(** [ORDER BY l.lease_id] *)
Definition leaseBefore (a b : string * LeaseRow) : Prop := String.leb a.1 b.1 = true.

#[local] Instance leaseBefore_dec (a b : string * LeaseRow) : Decision (leaseBefore a b).
Proof. unfold leaseBefore. apply _. Defined.

(** The join of the external leases past [at_] with their runs and steps, in the
    order of the lease identifiers. *)
Definition pastLeases (at_ : Time) (t : RunTables) : list (LeaseRow * RunRow * StepRow) :=
  omap (fun kv => row ← plan_runs t !! le_RunID kv.2;
                  srow ← plan_run_steps t !! le_StepID kv.2;
                  if (sr_RunID srow == le_RunID kv.2) && (le_Kind kv.2 == "external")
                     && String.leb (l_LeaseExpiresAt (le_Document kv.2)) (FormatRFC3339 at_)
                  then Some (kv.2, row, srow) else None)
    (merge_sort leaseBefore (map_to_list (target_execution_leases t))).

Definition owesRecovery (x : LeaseRow * RunRow * StepRow) : bool :=
  let '(l, row, srow) := x in
  (le_Status l == "expired") && unsettled (rr_Status row) (sr_Status srow) (sr_EffectState srow).

(** The leases [Expire] reports: what its loop over the rows collects. *)
Fixpoint reportExpired (rows : list (LeaseRow * RunRow * StepRow)) : result (list (LeaseRow * ExecutorLease)) :=
  match rows with
  | [] => Ok []
  | (l, row, srow) :: rest =>
      lease ← decodeStoredExecutorLease (le_Document l);
      rest ← reportExpired rest;
      Ok ((l, if le_Status l == "active" then leaseWithStatus "expired" lease else lease) :: rest)
  end.

(** The updates of the rows that were active. *)
Fixpoint expireActive (reported : list (LeaseRow * ExecutorLease)) (t : RunTables) : result RunTables :=
  match reported with
  | [] => Ok t
  | (l, lease) :: rest =>
      if le_Status l != "active" then expireActive rest t
      else let '(rows, t) := expireLease (l_LeaseID lease) t in
           require (rows == 1) (Coded StateConflict "executor-lease-expiry");;
           expireActive rest t
  end.

(** The business change of [Expire]; it also yields the leases. *)
Definition expireLeases (at_ : Time) (t : RunTables) : result (list ExecutorLease * RunTables) :=
  reported ← reportExpired (filter (fun x => (le_Status x.1.1 == "active") || owesRecovery x) (pastLeases at_ t));
  t ← expireActive reported t;
  Ok (map snd reported, t).

Definition expireIntent (request : ExecutorLeaseExpiryRequest) : intentRequest :=
  let at_ := FormatRFC3339 (lx_At request) in
  leaseCallIntent "executor-lease-expire" (digestParts ["executor-lease-expire-key"; at_])
    (digestParts ["executor-lease-expire"; at_]) "run.external-leases-expired" "external-lease-expiry" "executor-leases"
    "active" (digestParts ["executor-lease-expiry"; at_]) (lx_Attribution request).

(** The loop of [discoverExpiredRecovery]. *)
Fixpoint discovered (rows : list (LeaseRow * RunRow * StepRow)) : result (list ExecutorLease) :=
  match rows with
  | [] => Ok []
  | (l, row, srow) :: rest =>
      lease ← decodeStoredExecutorLease (le_Document l);
      require (l_Status lease == "expired") (Coded IntegrityFailure "executor-lease-status");;
      rest ← discovered rest;
      Ok (lease :: rest)
  end.

Definition discoverExpiredRecovery (env : RunEnv) (at_ : Time) : action Store (list ExecutorLease) :=
  Read (re_read env) (fun db => discovered (filter owesRecovery (pastLeases at_ (tables db)))).

Definition Expire (env : RunEnv) (request : ExecutorLeaseExpiryRequest) : action Store (list ExecutorLease) :=
  check (validUTCSecond (lx_At request)) (Coded InputInvalid "executor-lease-expiry");;
  before ← gets (fun store => tables (st_db store));
  intent ← executeAuditIntent (re_tx env) (expireIntent request) false
             (Some (fun _ t => snd <$> expireLeases (lx_At request) t));
  if negb (ir_Created intent) then discoverExpiredRecovery env (lx_At request)
  else lift (fst <$> expireLeases (lx_At request) before).

(** ** Denials *)

Definition authorizationDenialIntent (request : ExecutorAuthorizationDenialRequest) : intentRequest :=
  let target := ad_TargetFingerprint request in
  let reason := ad_ReasonFingerprint request in
  let a := ad_Attribution request in
  let at_ := FormatRFC3339 (ad_At request) in
  leaseCallIntent "executor-authorization-denial"
    (digestParts ["executor-authorization-denial-key"; target; reason; at_PrincipalID a; at_])
    (digestParts ["executor-authorization-denial"; target; reason; at_PrincipalID a; at_PrincipalMethod a; at_])
    "run.external-authorization-denied" target "executor-authorization" target reason a.

Definition RecordAuthorizationDenial (env : RunEnv) (request : ExecutorAuthorizationDenialRequest) : action Store unit :=
  check (validUTCSecond (ad_At request) && ValidFingerprint (ad_ReasonFingerprint request)
         && ValidFingerprint (ad_TargetFingerprint request)) (Coded InputInvalid "executor-authorization-denial");;
  executeAuditIntent (re_tx env) (authorizationDenialIntent request) false (Some (fun _ t => Ok t));;
  mret tt.

(** ** Receipts *)

(** A receipt after the window ends its lease first. *)
Definition endLapsed (at_ expiry : Time) (l : LeaseRow) (leaseID : string) (t : RunTables) : string * RunTables :=
  if (le_Status l == "active") && negb (Before at_ expiry) then ("expired", (expireLease leaseID t).2)
  else (le_Status l, t).

(** The terminal receipts of a lease. *)
Definition terminalObservation (leaseID : string) (x : ReceiptRow) : bool :=
  (xr_LeaseID x == leaseID) && (rc_Status (xr_Document x) != "running").

(** What a terminal receipt does to its run and step. *)
Definition settleReceipt (receipt : ExecutionReceipt) (at_ : Time) (t : RunTables) : result RunTables :=
  '(run, _) ← runAndPlanInTx (rc_RunID receipt) t;
  step ← of_option (Coded StateConflict "executor-receipt-step") (findStep run (rc_StepID receipt));
  require ((s_Status step == "running") && (s_EffectState step == "intent-recorded"))
    (Coded StateConflict "executor-receipt-step");;
  let run := steppedRun (rc_StepID receipt) (s_Status step) "receipt-recorded" at_ run in
  t ← moveStep (rc_RunID receipt) (rc_StepID receipt) "running" "intent-recorded" "executor-receipt-step"
        (fun row => moveRow (sr_Status row) "receipt-recorded" None (Some (rc_ResultDigest receipt)) None None row) t;
  insertDetail (mkDetailRow (r_RunID run) "run.external-receipt-recorded" (runFingerprint run) (r_UpdatedAt run))
    (updateRunning run t).

(** The business change of [RecordReceipt]. *)
Definition observeReceipt (request : ExecutorReceiptPersistenceRequest) (current : RevisionToken) (t : RunTables)
    : result RunTables :=
  let receipt := xp_Receipt (lp_Request request) in
  l ← readExecutorLeaseInTx (rc_LeaseID receipt) t;
  let lease := le_Document l in
  require (rc_RecoveryEpoch receipt == l_RecoveryEpoch lease) (Coded RecoveryEpochMismatch "executor-receipt");;
  require (ValidateExecutionReceiptBinding lease receipt) (Coded AuthorizationDenied "executor-receipt-binding");;
  '(_, expiry) ← executorLeaseTimes lease;
  let '(status, t) := endLapsed (lp_At request) expiry l (l_LeaseID lease) t in
  require ((status == "active") || (status == "expired")) (Coded AuthorizationDenied "executor-receipt-lease");;
  require (rt_RecoveryEpoch current == l_RecoveryEpoch lease) (Coded RecoveryEpochMismatch "executor-receipt");;
  require ((rc_Status receipt == "running")
           || negb (existsb (fun x => terminalObservation (rc_LeaseID receipt) x.2)
                      (map_to_list (external_execution_observations t))))
    (Coded StateConflict "executor-receipt-terminal");;
  t ← insertObservation (rc_ReceiptID receipt)
        (mkReceiptRow (rc_LeaseID receipt) (rc_RunID receipt) (rc_StepID receipt) receipt) t;
  if rc_Status receipt == "running" then Ok t else settleReceipt receipt (lp_At request) t.

Definition observeIntent (request : ExecutorReceiptPersistenceRequest) : intentRequest :=
  let receipt := xp_Receipt (lp_Request request) in
  leaseCallIntent "executor-receipt" (digestParts ["executor-receipt-key"; rc_ReceiptID receipt])
    (digestParts ["executor-receipt"; receiptJSON receipt; xp_ExpectedBindingDigest (lp_Request request)])
    "run.external-receipt-recorded" (rc_RunID receipt) "executor-lease" (rc_LeaseID receipt) (rc_ResultDigest receipt)
    (lp_Attribution request).

Definition RecordReceipt (env : RunEnv) (request : ExecutorReceiptPersistenceRequest) : action Store ExecutionReceipt :=
  let receipt := xp_Receipt (lp_Request request) in
  check (validUTCSecond (lp_At request) && validExecutionReceiptRequest (lp_Request request))
    (Coded InputInvalid "executor-receipt");;
  check (xp_ExpectedBindingDigest (lp_Request request) == rc_BindingDigest receipt)
    (Coded AuthorizationDenied "executor-receipt-binding");;
  check (match parseRFC3339 (rc_RecordedAt receipt) with
         | Some recordedAt => negb (After recordedAt (lp_At request))
         | None => false
         end) (Coded InputInvalid "executor-receipt-time");;
  intent ← executeAuditIntent (re_tx env) (observeIntent request) false (Some (observeReceipt request));
  check (ir_Created intent) (Coded StateConflict "executor-receipt-replay");;
  mret receipt.

(** ** Reads *)

Definition Get (env : RunEnv) (leaseID : string) : action Store ExecutorLease :=
  check (validRunToken leaseID) (Coded InputInvalid "executor-lease");;
  rows (Read (re_read env) (fun db => of_option errNoRows (externalLease leaseID (tables db))))
    (Err (Coded ResourceNotFound "executor-lease"))
    (fun l =>
      lease ← decodeStoredExecutorLease (le_Document l);
      require (l_Status lease == le_Status l) (Coded IntegrityFailure "executor-lease-status");;
      Ok lease).

End Repository.
