(* ===== verification/RunHistory.v ===== *)
(** The calls of the run store as data — the methods of
    [internal/store/run_repository.go] and of
    [internal/store/executor_lease_repository.go] — and what any history of them
    does to the tables: the invariant every call keeps, the state machines of
    runs, steps and leases, the receipts behind recorded effects, idempotent
    operations and the retention of runs. *)

From S2P Require Import Prelude GoTime Hash GoJson Contracts AuditLog AuditStore ExecutorLease RunRepository.

(** ** Calls of the repository

    The methods of both repositories as data: what a caller asks, and what it does
    to the store under an environment. The reads change no table. One method is
    missing, [RecordReceipt] of the external executors: it is the one that does
    not always keep the invariant below ([ExecutorHistory]). *)

Inductive RunCall :=
| CallCreate (request : RunCreateRequest)
| CallTransition (request : RunTransitionRequest)
| CallCancellation (runID : string) (at_ : Time) (attribution : Attribution)
| CallAcquire (lease : ExecutorLease) (attribution : Attribution)
| CallRelease (leaseID : string) (at_ : Time)
| CallReleaseRun (runID : string) (at_ : Time)
| CallBegin (request : StepBeginRequest)
| CallReceipt (request : ReceiptRecordRequest)
| CallFinish (request : StepFinishRequest)
| CallUnknown (runID stepID : string) (at_ : Time) (attribution : Attribution)
| CallFail (runID stepID : string) (at_ : Time) (attribution : Attribution)
| CallInterrupt (runID stepID : string) (at_ : Time) (attribution : Attribution)
| CallClaim (operation runID keyDigest requestDigest : string) (at_ : Time) (attribution : Attribution)
| CallComplete (operation runID keyDigest requestDigest : string) (run : Run) (errorCode : string) (at_ : Time)
    (attribution : Attribution)
| CallEvent (request : RunEventRequest)
| CallPrune (now : Time)
| CallGet (runID : string)
| CallActive
| CallClaimLease (request : ExecutorLeaseClaimRequest)
| CallRenewLease (request : ExecutorLeaseRenewalRequest)
| CallExpireLeases (request : ExecutorLeaseExpiryRequest)
| CallDenial (request : ExecutorAuthorizationDenialRequest)
| CallGetLease (leaseID : string).

Section Calls.
Context `{Hasher} `{RunSchemas}.

Definition perform (env : RunEnv) (call : RunCall) (store : Store RunTables) : Store RunTables :=
  match call with
  | CallCreate request => (Create env request store).2
  | CallTransition request => (TransitionRun env request store).2
  | CallCancellation runID at_ attribution => (RequestCancellation env runID at_ attribution store).2
  | CallAcquire lease attribution => (AcquireTargetLease env lease attribution store).2
  | CallRelease leaseID at_ => (ReleaseTargetLease env leaseID at_ store).2
  | CallReleaseRun runID at_ => (ReleaseRunLeases env runID at_ store).2
  | CallBegin request => (BeginStep env request store).2
  | CallReceipt request => (RecordReceipt env request store).2
  | CallFinish request => (FinishStep env request store).2
  | CallUnknown runID stepID at_ attribution => (MarkStepUnknown env runID stepID at_ attribution store).2
  | CallFail runID stepID at_ attribution => (FailStepBeforeEffect env runID stepID at_ attribution store).2
  | CallInterrupt runID stepID at_ attribution => (InterruptStepBeforeEffect env runID stepID at_ attribution store).2
  | CallClaim operation runID keyDigest requestDigest at_ attribution =>
      (ClaimRunOperation env operation runID keyDigest requestDigest at_ attribution store).2
  | CallComplete operation runID keyDigest requestDigest run errorCode at_ attribution =>
      (CompleteRunOperation env operation runID keyDigest requestDigest run errorCode at_ attribution store).2
  | CallEvent request => (AppendRunEvent env request store).2
  | CallPrune now => (PruneRunHistory env now store).2
  | CallGet runID => (Get env runID store).2
  | CallActive => (ActiveRuns env store).2
  | CallClaimLease request => (Claim env request store).2
  | CallRenewLease request => (Renew env request store).2
  | CallExpireLeases request => (Expire env request store).2
  | CallDenial request => (RecordAuthorizationDenial env request store).2
  | CallGetLease leaseID => (ExecutorLease.Get env leaseID store).2
  end.

(** The mutation of one run a call applies, if that is what it does: the run,
    the event type and the mutation. *)
Definition mutationOf (env : RunEnv) (call : RunCall) : option (string * string * Mutation) :=
  match call with
  | CallTransition request => Some (tq_RunID request, "run.transitioned", transitionMutation request)
  | CallCancellation runID at_ _ => Some (runID, "run.cancellation-requested", cancellationMutation at_)
  | CallBegin request => Some (bq_RunID request, "run.step-intent-recorded", beginMutation env request)
  | CallReceipt request => Some (xq_RunID request, "run.step-receipt-recorded", receiptMutation request)
  | CallFinish request => Some (fq_RunID request, "run.step-finished", finishMutation request)
  | CallUnknown runID stepID at_ _ => Some (runID, "run.step-effect-unknown",
      abandonMutation stepID ["intent-recorded"; "receipt-recorded"] "partial" "effect-unknown" true at_)
  | CallFail runID stepID at_ _ => Some (runID, "run.step-failed-before-effect",
      abandonMutation stepID ["intent-recorded"] "failed" "not-started" false at_)
  | CallInterrupt runID stepID at_ _ => Some (runID, "run.step-interrupted-before-effect",
      abandonMutation stepID ["intent-recorded"] "interrupted" "not-started" false at_)
  | _ => None
  end.

(** The guards of a method on its request alone. *)
Definition allowed (call : RunCall) : bool :=
  match call with
  | CallCreate request =>
      (r_Status (cq_Run request) == "queued") && negb (r_CancellationRequested (cq_Run request))
      && validRunDocument (cq_Run request)
  | CallTransition request => ValidateRunTransition (tq_From request) (tq_To request)
  | CallAcquire lease _ => validLease lease
  | CallReceipt request => validReceipt (xq_Receipt request)
  | CallFinish request =>
      (fq_EffectState request == "verified") && bool_decide (fq_Status request ∈ ["succeeded"; "failed"; "partial"])
  | CallComplete _ runID _ _ run _ _ _ => (r_RunID run == runID) && validRunDocument run
  | CallClaimLease request => validLease (lc_Lease request) && claimAuthorized request
  | CallRenewLease request => validUTCSecond (ln_At request)
  | _ => true
  end.

(** A transaction of the recovery epoch its call names: the only part of the
    revision that the changes of the external executors look at. *)
Definition atEpoch (epoch : Z) : RevisionToken := mkRevisionToken 0 epoch.

(** What a call that took effect did to the tables. *)
Definition callChange (env : RunEnv) (call : RunCall) (t : RunTables) : result RunTables :=
  match mutationOf env call with
  | Some (runID, eventType, mutate) => snd <$> applyMutation runID eventType mutate t
  | None =>
      match call with
      | CallCreate request => createChange env request t
      | CallAcquire lease _ => leaseChange env lease t
      | CallRelease leaseID _ => Ok (releaseLease leaseID t).2
      | CallReleaseRun runID _ => Ok (releaseLeases runID t)
      | CallClaim operation runID keyDigest requestDigest at_ _ => claimChange operation runID keyDigest requestDigest at_ t
      | CallComplete operation runID keyDigest requestDigest run errorCode at_ _ =>
          completeChange operation runID keyDigest requestDigest run errorCode at_ t
      | CallEvent request => insertDetail (mkDetailRow (eq_RunID request) (eq_EventType request) (eq_EventDigest request)
                               (FormatRFC3339 (eq_OccurredAt request))) t
      | CallPrune now => snd <$> pruneChange now t
      | CallClaimLease request => claimLeaseChange request (atEpoch (l_RecoveryEpoch (lc_Lease request))) t
      | CallRenewLease request => snd <$> renewLease request (atEpoch (er_RecoveryEpoch (ln_Request request))) t
      | CallExpireLeases request => snd <$> expireLeases (lx_At request) t
      | _ => Ok t
      end
  end.

(** ** What a call does to the tables *)

Lemma keeps_Get env runID : keeps_db (Get env runID).
Proof. unfold Get. apply keeps_bind; [apply keeps_check|intros _]. apply keeps_rows, keeps_Read. Qed.

Lemma keeps_ActiveRuns env : keeps_db (ActiveRuns env).
Proof. unfold ActiveRuns. apply keeps_bind; [apply keeps_Read|]. intros; apply keeps_lift. Qed.

(** A computation that leaves the database alone leaves the tables alone. *)
Lemma keeps_tables {A} (m : action (Store RunTables) A) store : keeps_db m -> st_db (m store).2 = st_db store.
Proof. intros Hm. destruct (m store) as [r s1] eqn:E. by apply Hm in E. Qed.

Lemma keeps_existing env key request : keeps_db (existing env key request).
Proof. apply keeps_rows, keeps_Read. Qed.

Lemma keeps_runOperation env operation runID key request : keeps_db (runOperation env operation runID key request).
Proof. unfold runOperation. apply keeps_bind; [apply keeps_Read|]. intros; apply keeps_lift. Qed.

Lemma keeps_role env runID : keeps_db (roleReservationSnapshot env runID).
Proof. unfold roleReservationSnapshot. apply keeps_bind; [apply keeps_Read|]. intros; apply keeps_lift. Qed.

(** The tables after a computation: as they were, or changed by [change]. *)
Definition changes (change : RunTables -> result RunTables) (before after : Store RunTables) : Prop :=
  tables (st_db after) = tables (st_db before) \/ change (tables (st_db before)) = Ok (tables (st_db after)).

Lemma changes_keeps {A} (m : action (Store RunTables) A) change store :
  keeps_db m -> changes change store (m store).2.
Proof. intros Hm. left. destruct (m store) as [r s1] eqn:E. cbn. by rewrite (Hm _ _ _ E). Qed.

Lemma changes_bind {A B} (m : action (Store RunTables) A) (f : A -> action (Store RunTables) B) change store :
  keeps_db m -> (forall x s1, tables (st_db s1) = tables (st_db store) -> changes change s1 (f x s1).2) ->
  changes change store ((m ≫= f) store).2.
Proof.
  intros Hm Hf. unfold mbind, action_bind. destruct (m store) as [[x|e] s1] eqn:E.
  - pose proof (Hm _ _ _ E) as Hdb. destruct (Hf x s1) as [?|?]; [by rewrite Hdb|left|right]; by rewrite <- Hdb.
  - left. cbn. by rewrite (Hm _ _ _ E).
Qed.

Lemma changes_then {A B} (m : action (Store RunTables) A) (f : A -> action (Store RunTables) B) change store :
  changes change store (m store).2 -> (forall x, keeps_db (f x)) -> changes change store ((m ≫= f) store).2.
Proof.
  intros Hm Hf. unfold mbind, action_bind. destruct (m store) as [[x|e] s1] eqn:E; [|done].
  destruct (f x s1) as [r s2] eqn:E2. pose proof (Hf x _ _ _ E2) as Hdb. unfold changes. cbn in *. by rewrite Hdb.
Qed.

Lemma changes_intent env request change store :
  changes change store (executeAuditIntent env request false (Some (fun _ => change)) store).2.
Proof.
  destruct (executeAuditIntent _ _ _ _ _) as [r s1] eqn:E. cbn.
  apply executeAuditIntent_outcome in E as [[E _]|(res & event & p & d & l & A & _)]; [left; by rewrite E|right].
  exact (ap_tables _ _ _ _ _ _ _ _ _ _ _ A).
Qed.

Lemma mutateRun_changes env runID eventType mutationID attribution mutate store :
  changes (fun t => snd <$> applyMutation runID eventType mutate t) store
    (mutateRun env runID eventType mutationID attribution mutate store).2.
Proof.
  unfold mutateRun. case_match; [by left|]. cbv zeta.
  pose proof (changes_intent (re_tx env) (mutationIntent runID eventType mutationID attribution)
    (fun t => snd <$> applyMutation runID eventType mutate t) store) as Hc.
  destruct (executeAuditIntent _ _ _ _ _) as [[intent|e] s1]; cbn in Hc; [|done].
  case_match; [done|]. destruct (Get env runID s1) as [[run|e] s2] eqn:E;
    apply keeps_Get in E; unfold changes in *; cbn; by rewrite E.
Qed.

Lemma after_changes env runID change k store :
  (forall s1, changes change s1 (k s1).2) -> changes change store (after (roleReservationSnapshot env runID) k store).2.
Proof.
  intros Hk. unfold after. destruct (roleReservationSnapshot env runID store) as [[u|e] s1] eqn:E;
    apply keeps_role in E; [|left; cbn; by rewrite E].
  specialize (Hk s1). unfold changes in *. by rewrite <- E.
Qed.

Lemma execTables_changes {A} env (f : RunTables -> A * RunTables) store :
  changes (fun t => Ok (f t).2) store (execTables env f store).2.
Proof.
  unfold execTables. apply changes_bind; [apply keeps_readyForTransaction|]. intros _ s1 _.
  destruct (te_sql env Business); [by left|right]. reflexivity.
Qed.

Lemma check_bind {A} b e (f : unit -> action (Store RunTables) A) store :
  (check b e ≫= f) store = if b then f tt store else (Err e, store).
Proof. by destruct b. Qed.

Lemma create_changes env request store :
  changes (createChange env request) store (Create env request store).2.
Proof.
  unfold Create. cbv zeta. rewrite check_bind. case_match; [|by left].
  apply changes_bind; [apply keeps_existing|]. intros [r|] s1 _; [by left|].
  apply changes_then; [apply changes_intent|]. intros intent. case_match.
  - apply keeps_mret.
  - apply keeps_bind; [apply keeps_existing|]. intros; apply keeps_lift.
Qed.

Lemma acquire_changes env lease attribution store :
  changes (leaseChange env lease) store (AcquireTargetLease env lease attribution store).2.
Proof.
  unfold AcquireTargetLease. rewrite check_bind. case_match; [|by left].
  apply changes_bind; [apply keeps_role|]. intros [] s1 _.
  apply changes_then; [apply changes_intent|]. intros; apply keeps_mret.
Qed.

Lemma prune_changes env now store :
  changes (fun t => snd <$> pruneChange now t) store (PruneRunHistory env now store).2.
Proof.
  unfold PruneRunHistory. rewrite check_bind. case_match; [|by left].
  apply changes_bind; [apply keeps_readyForTransaction|]. intros _ s1 _.
  destruct (te_sql (re_tx env) BeginTx); [by apply changes_keeps, keeps_transactionError|].
  destruct (te_sql (re_tx env) Business); [by left|].
  unfold mbind, action_bind, gets, mret, action_ret, modify. cbn.
  destruct (pruneChange now (tables (st_db s1))) as [[result t]|e] eqn:E; [|by left].
  destruct (te_sql (re_tx env) CommitTx) as [cause|]; [|right; cbn; by rewrite E].
  destruct (te_commitDurable (re_tx env)); rewrite transactionError_result; [right|left]; cbn [snd];
    case_match; cbn; by rewrite ?E.
Qed.

Lemma operation_changes env operation runID keyDigest requestDigest store :
  (forall at_ attribution, changes (claimChange operation runID keyDigest requestDigest at_) store
     (ClaimRunOperation env operation runID keyDigest requestDigest at_ attribution store).2)
  /\ (forall run errorCode at_ attribution,
      changes (completeChange operation runID keyDigest requestDigest run errorCode at_) store
       (CompleteRunOperation env operation runID keyDigest requestDigest run errorCode at_ attribution store).2).
Proof.
  split; intros; unfold ClaimRunOperation, CompleteRunOperation; rewrite check_bind; (case_match; [|by left]);
    (apply changes_then; [apply changes_intent|]; intros).
  - apply keeps_bind; [apply keeps_runOperation|]. intros; apply keeps_mret.
  - apply keeps_runOperation.
Qed.

Lemma event_changes env request store :
  changes (insertDetail (mkDetailRow (eq_RunID request) (eq_EventType request) (eq_EventDigest request)
             (FormatRFC3339 (eq_OccurredAt request)))) store (AppendRunEvent env request store).2.
Proof.
  unfold AppendRunEvent. rewrite check_bind. case_match; [|by left].
  apply changes_then; [apply changes_intent|]. intros; apply keeps_mret.
Qed.

Lemma release_changes env leaseID runID at_ store :
  changes (fun t => Ok (releaseLease leaseID t).2) store (ReleaseTargetLease env leaseID at_ store).2
  /\ changes (fun t => Ok (releaseLeases runID t)) store (ReleaseRunLeases env runID at_ store).2.
Proof.
  split; unfold ReleaseTargetLease, ReleaseRunLeases; rewrite check_bind; (case_match; [|by left]).
  - apply changes_then; [apply execTables_changes|]. intros; apply keeps_check.
  - apply execTables_changes.
Qed.

(** A change under the current revision, seen as a change of the tables alone. *)
Lemma changes_intentAt env request (change : RevisionToken -> RunTables -> result RunTables) change' store :
  (forall current t t', change current t = Ok t' -> change' t = Ok t') ->
  changes change' store (executeAuditIntent env request false (Some change) store).2.
Proof.
  intros Hc. destruct (executeAuditIntent _ _ _ _ _) as [r s1] eqn:E. cbn.
  apply executeAuditIntent_outcome in E as [[E _]|(res & event & p & d & l & A & _)]; [left; by rewrite E|right].
  eapply Hc. exact (ap_tables _ _ _ _ _ _ _ _ _ _ _ A).
Qed.

Lemma claimLease_changes env request store :
  changes (claimLeaseChange request (atEpoch (l_RecoveryEpoch (lc_Lease request)))) store (Claim env request store).2.
Proof.
  unfold Claim. cbv zeta. rewrite !check_bind. repeat (case_match; [|by left]).
  apply changes_then; [apply changes_intentAt|].
  - unfold claimLeaseChange. cbn [rt_RecoveryEpoch atEpoch]. intros current t t' E.
    apply bind_Ok in E as ([] & Ht & E). by rewrite bool_decide_refl.
  - intros intent. apply keeps_bind; [apply keeps_check|]. intros; apply keeps_mret.
Qed.

Lemma renewLease_epoch request current t r : renewLease request current t = Ok r ->
  renewLease request (atEpoch (er_RecoveryEpoch (ln_Request request))) t = Ok r.
Proof.
  unfold renewLease. cbv zeta. intros E. apply bind_Ok in E as (l & -> & E). cbn.
  apply bind_Ok in E as ([] & He & E). rewrite He. apply require_Ok in He. bool_hyps. cbn.
  apply bind_Ok in E as ([] & Hb & E). rewrite Hb. cbn. apply bind_Ok in E as ([] & _ & E).
  exact E.
Qed.

Lemma renewLease_changes env request store :
  changes (fun t => snd <$> renewLease request (atEpoch (er_RecoveryEpoch (ln_Request request))) t) store
    (Renew env request store).2.
Proof.
  unfold Renew. rewrite check_bind. case_match; [|by left].
  apply changes_bind; [apply keeps_gets|]. intros renewed s1 _. apply changes_then; [apply changes_intentAt|].
  - intros current t t' E. destruct (renewLease request current t) as [r|] eqn:Er; [|done].
    by rewrite (renewLease_epoch _ _ _ _ Er).
  - intros intent. apply keeps_bind; [apply keeps_check|]. intros; apply keeps_lift.
Qed.

Lemma expireLeases_changes env request store :
  changes (fun t => snd <$> expireLeases (lx_At request) t) store (Expire env request store).2.
Proof.
  unfold Expire. rewrite check_bind. case_match; [|by left].
  apply changes_bind; [apply keeps_gets|]. intros before s1 _. apply changes_then; [apply changes_intent|].
  intros intent. case_match; [apply keeps_Read|apply keeps_lift].
Qed.

Lemma denial_changes env request store : changes Ok store (RecordAuthorizationDenial env request store).2.
Proof.
  unfold RecordAuthorizationDenial. rewrite check_bind. case_match; [|by left].
  apply changes_then; [apply changes_intent|]. intros; apply keeps_mret.
Qed.

Lemma keeps_GetLease env leaseID : keeps_db (ExecutorLease.Get env leaseID).
Proof. unfold ExecutorLease.Get. apply keeps_bind; [apply keeps_check|intros _]. apply keeps_rows, keeps_Read. Qed.

(** A call leaves the tables alone or applies its change. *)
Lemma perform_changes env call store : changes (callChange env call) store (perform env call store).
Proof.
  destruct call; unfold callChange; cbn [mutationOf perform];
    try (unfold TransitionRun, RequestCancellation, BeginStep, RecordReceipt, FinishStep, MarkStepUnknown,
           FailStepBeforeEffect, InterruptStepBeforeEffect;
         first [apply mutateRun_changes | case_match; [by left|apply mutateRun_changes]
               | case_match; [by left|apply after_changes; intros; apply mutateRun_changes]]).
  - apply create_changes.
  - apply acquire_changes.
  - by apply release_changes.
  - by apply release_changes.
  - by apply operation_changes.
  - by apply operation_changes.
  - apply event_changes.
  - apply prune_changes.
  - left. by rewrite (keeps_tables _ _ (keeps_Get env runID)).
  - left. by rewrite (keeps_tables _ _ (keeps_ActiveRuns env)).
  - apply claimLease_changes.
  - apply renewLease_changes.
  - apply expireLeases_changes.
  - apply denial_changes.
  - left. by rewrite (keeps_tables _ _ (keeps_GetLease env leaseID)).
Qed.

(** A call that changed the tables passed the guards of its method. *)
Lemma perform_allowed env call store :
  tables (st_db (perform env call store)) = tables (st_db store) \/ allowed call = true.
Proof.
  destruct call; cbn [allowed perform]; try (by right).
  - unfold Create, validCreate. cbv zeta. rewrite check_bind. case_match; [right|by left]. bool_hyps.
    rewrite !andb_true_iff, negb_true_iff, bool_decide_eq_true. by split_and!.
  - unfold TransitionRun. case_match; [by left|right]. by bool_hyps.
  - unfold AcquireTargetLease. rewrite check_bind. case_match; [by right|by left].
  - unfold RecordReceipt. case_match; [by left|right]. by bool_hyps.
  - unfold FinishStep. case_match; [by left|right]. bool_hyps.
    rewrite andb_true_iff, !bool_decide_eq_true. by split.
  - unfold CompleteRunOperation. rewrite check_bind. case_match; [right|by left]. bool_hyps.
    rewrite andb_true_iff, bool_decide_eq_true. by split.
  - unfold Claim. cbv zeta. rewrite !check_bind. repeat (case_match; [|by left]). right. bool_hyps. by apply andb_true_iff.
  - unfold Renew. rewrite check_bind. case_match; [|by left]. right. by bool_hyps.
Qed.

End Calls.

(** ** The state machine of a step *)

(** The planned fields of a step, which no operation changes. *)
Definition planned (s : RunStep) : RunStep := withState "" "" s.

(** The moves of a step: its status with the state of its effect. *)
Inductive stepMoves (idempotent : bool) : string * string -> string * string -> Prop :=
| MoveBegin : stepMoves idempotent ("queued", "not-started") ("running", "intent-recorded")
| MoveReceipt : stepMoves idempotent ("running", "intent-recorded") ("running", "receipt-recorded")
| MoveFinish status : status ∈ ["succeeded"; "failed"; "partial"] ->
    stepMoves idempotent ("running", "receipt-recorded") (status, "verified")
| MoveUnknown effect : effect ∈ ["intent-recorded"; "receipt-recorded"] ->
    stepMoves idempotent ("running", effect) ("partial", "effect-unknown")
| MoveFail : stepMoves idempotent ("running", "intent-recorded") ("failed", "not-started")
| MoveInterrupt : stepMoves idempotent ("running", "intent-recorded") ("interrupted", "not-started")
| MoveResume : idempotent = true ->
    stepMoves idempotent ("interrupted", "not-started") ("queued", "not-started")
| MoveStop effect status : status ∈ ["interrupted"; "cancelled"] ->
    stepMoves idempotent ("queued", effect) (status, effect).

(** One operation on one step: nothing, or one move. *)
Definition stepMove (s s' : RunStep) : Prop :=
  planned s' = planned s
  /\ (s' = s \/ stepMoves (s_Idempotent s) (s_Status s, s_EffectState s) (s_Status s', s_EffectState s')).

(** A row shows a step of the document of its run. *)
Definition rowShows (runID : string) (s : RunStep) (row : StepRow) : Prop :=
  sr_RunID row = runID /\ planned (sr_Planned row) = planned s /\ sr_Status row = s_Status s
  /\ sr_EffectState row = s_EffectState s.

Definition mirrored (runID : string) (steps : list RunStep) (rows : gmap string StepRow) : Prop :=
  forall s, s ∈ steps -> exists row, rows !! s_StepID s = Some row /\ rowShows runID s row.

(** Rows as an update of the steps of one run leaves them. *)
Definition rowFrame (runID : string) (row row' : StepRow) : Prop :=
  sr_RunID row' = sr_RunID row /\ sr_Planned row' = sr_Planned row /\ (sr_RunID row <> runID -> row' = row).

Definition rowsFrame (runID : string) (rows rows' : gmap string StepRow) : Prop :=
  forall stepID, option_Forall2 (rowFrame runID) (rows !! stepID) (rows' !! stepID).

(** The steps of a document and the step rows change together. *)
Record syncs (runID : string) (steps steps' : list RunStep) (rows rows' : gmap string StepRow) : Prop := {
  sy_moves : Forall2 stepMove steps steps';
  sy_mirror : mirrored runID steps rows -> mirrored runID steps' rows';
  sy_frame : rowsFrame runID rows rows';
  sy_other : forall stepID, stepID ∉ map s_StepID steps -> rows' !! stepID = rows !! stepID
}.

Lemma rowFrame_refl runID row : rowFrame runID row row.
Proof. done. Qed.

Lemma rowsFrame_refl runID rows : rowsFrame runID rows rows.
Proof. intros stepID. destruct (rows !! stepID); constructor. apply rowFrame_refl. Qed.

Lemma rowsFrame_trans runID rows1 rows2 rows3 :
  rowsFrame runID rows1 rows2 -> rowsFrame runID rows2 rows3 -> rowsFrame runID rows1 rows3.
Proof.
  intros F1 F2 stepID. specialize (F1 stepID). specialize (F2 stepID).
  destruct F1 as [x y (E1 & E2 & E3)|]; inversion F2 as [y' z (E1' & E2' & E3')|]; subst; constructor.
  unfold rowFrame. split_and!; try congruence. intros Hn. rewrite E3', E3; congruence.
Qed.

Lemma stepMove_refl s : stepMove s s.
Proof. split; auto. Qed.

#[export] Hint Resolve rowFrame_refl rowsFrame_refl stepMove_refl : go.

Lemma stepMove_id s s' : stepMove s s' -> s_StepID s' = s_StepID s /\ s_Idempotent s' = s_Idempotent s.
Proof. intros [E _]. unfold planned, withState in E. by injection E. Qed.

Lemma moves_planned steps steps' : Forall2 stepMove steps steps' ->
  map planned steps' = map planned steps
  /\ Forall2 (fun s s' => (s_Status s', s_EffectState s') = (s_Status s, s_EffectState s)
       \/ stepMoves (s_Idempotent s) (s_Status s, s_EffectState s) (s_Status s', s_EffectState s')) steps steps'.
Proof.
  induction 1 as [|s s' steps steps' [Hp Hm] _ [IHp IHm]]; [done|]. split; [cbn; congruence|].
  constructor; [|done]. destruct Hm as [-> |Hm]; auto.
Qed.

Lemma planned_withState status effect s : planned (withState status effect s) = planned s.
Proof. done. Qed.

Lemma withState_same s : withState (s_Status s) (s_EffectState s) s = s.
Proof. by destruct s. Qed.

(** One [UPDATE] of a step row whose guard holds of the rows that show the step. *)
Lemma updateStepRow_other runID stepID guard f t x :
  x <> stepID -> plan_run_steps (updateStepRow runID stepID guard f t) !! x = plan_run_steps t !! x.
Proof.
  intros Hn. unfold updateStepRow. destruct (plan_run_steps t !! stepID) eqn:E; [|done].
  case_match; [|done]. cbn. by rewrite lookup_insert_ne by done.
Qed.

Lemma updateStepRow_frame runID stepID guard f t :
  (forall row, sr_RunID (f row) = sr_RunID row /\ sr_Planned (f row) = sr_Planned row) ->
  rowsFrame runID (plan_run_steps t) (plan_run_steps (updateStepRow runID stepID guard f t)).
Proof.
  intros Hf x. destruct (decide (x = stepID)) as [->|Hn].
  - unfold updateStepRow. destruct (plan_run_steps t !! stepID) as [row|] eqn:E; [|rewrite E; constructor].
    case_match; [|rewrite E; constructor; apply rowFrame_refl]. bool_hyps. cbn. rewrite lookup_insert_eq. constructor.
    destruct (Hf row) as [E1 E2]. by split_and!.
  - rewrite updateStepRow_other by done. destruct (plan_run_steps t !! x); constructor. apply rowFrame_refl.
Qed.

Lemma updateStepRow_tables runID stepID guard f t :
  updateStepRow runID stepID guard f t = setStepRows (plan_run_steps (updateStepRow runID stepID guard f t)) t.
Proof. unfold updateStepRow. repeat case_match; by destruct t. Qed.

Lemma updateStepRow_hit runID stepID guard f t row :
  plan_run_steps t !! stepID = Some row -> sr_RunID row = runID -> guard row = true ->
  plan_run_steps (updateStepRow runID stepID guard f t) !! stepID = Some (f row).
Proof.
  intros E Hr Hg. unfold updateStepRow. rewrite E, Hg, Hr, bool_decide_refl. cbn. by rewrite lookup_insert_eq.
Qed.

(** The move of one step and its row. *)
Lemma sync_one runID s s' guard f t :
  stepMove s s' ->
  (forall row, sr_RunID (f row) = sr_RunID row /\ sr_Planned (f row) = sr_Planned row) ->
  (forall row, rowShows runID s row -> guard row = true) ->
  (forall row, rowShows runID s row -> sr_Status (f row) = s_Status s' /\ sr_EffectState (f row) = s_EffectState s') ->
  syncs runID [s] [s'] (plan_run_steps t) (plan_run_steps (updateStepRow runID (s_StepID s) guard f t)).
Proof.
  intros Hm Hf Hg Hs. constructor.
  - by constructor.
  - intros Hmir x Hx. apply list_elem_of_singleton in Hx as ->.
    destruct (Hmir s) as (row & E & Hrow); [by apply list_elem_of_singleton|].
    rewrite (proj1 (stepMove_id _ _ Hm)). exists (f row). pose proof Hrow as (Hid & Hp & _).
    split; [by apply updateStepRow_hit; auto|].
    destruct (Hf row) as [E1 E2], (Hs row Hrow) as [E3 E4], Hm as [Hpl _]. unfold rowShows. split_and!; congruence.
  - by apply updateStepRow_frame.
  - intros x Hx. apply updateStepRow_other. intros ->. apply Hx. by left.
Qed.

Lemma sync_none runID steps rows : syncs runID steps steps rows rows.
Proof.
  constructor; auto with go. induction steps; constructor; auto with go.
Qed.

(** Disjoint parts of the list of steps, one after the other. *)
Lemma sync_cons runID s s' steps steps' rows1 rows2 rows3 :
  s_StepID s ∉ map s_StepID steps -> syncs runID [s] [s'] rows1 rows2 -> syncs runID steps steps' rows2 rows3 ->
  syncs runID (s :: steps) (s' :: steps') rows1 rows3.
Proof.
  intros Hn [M1 R1 F1 O1] [M2 R2 F2 O2]. inversion M1 as [|? ? ? ? Hm]; subst. constructor.
  - by constructor.
  - intros Hmir. assert (Hs : mirrored runID [s'] rows2).
    { apply R1. intros x Hx. apply list_elem_of_singleton in Hx as ->. apply Hmir. by left. }
    assert (Hr : mirrored runID steps' rows3).
    { apply R2. intros x Hx. destruct (Hmir x) as (row & E & Hrow); [by right|]. exists row. split; [|done].
      rewrite O1; [done|]. cbn. intros Hin. apply Hn. apply list_elem_of_singleton in Hin. rewrite <- Hin.
      by apply list_elem_of_fmap_2. }
    intros x Hx. apply elem_of_cons in Hx as [-> |Hx]; [|by apply Hr].
    destruct (Hs s') as (row & E & Hrow); [by left|]. exists row. split; [|done].
    rewrite O2; [done|]. by rewrite (proj1 (stepMove_id _ _ Hm)).
  - by eapply rowsFrame_trans.
  - intros x Hx. rewrite map_cons, elem_of_cons in Hx. rewrite O2, O1; [done| |]; cbn; rewrite ?elem_of_cons; set_solver.
Qed.

(** ** What the mutations do *)

Section Mutations.
Context `{Hasher} `{RunSchemas}.

Lemma sync_assign runID stepID status effect guard f steps t s :
  hd_error (filter (fun x => s_StepID x = stepID) steps) = Some s -> NoDup (map s_StepID steps) ->
  stepMove s (withState status effect s) ->
  (forall row, sr_RunID (f row) = sr_RunID row /\ sr_Planned (f row) = sr_Planned row) ->
  (forall row, rowShows runID s row -> guard row = true) ->
  (forall row, rowShows runID s row -> sr_Status (f row) = status /\ sr_EffectState (f row) = effect) ->
  syncs runID steps (assignStep stepID (withState status effect) steps) (plan_run_steps t)
    (plan_run_steps (updateStepRow runID stepID guard f t)).
Proof.
  intros Hs Hd Hm Hf Hg Hr. induction steps as [|x steps IH]; [done|]. cbn [assignStep].
  cbn [map] in Hd. apply NoDup_cons in Hd as [Hx Hd]. rewrite filter_cons in Hs.
  case_bool_decide as Hid; [rewrite decide_True in Hs by done|rewrite decide_False in Hs by done].
  - injection Hs as ->. rewrite <- Hid. eapply sync_cons; [done|by apply sync_one|apply sync_none].
  - eapply sync_cons; [done|apply sync_none|by apply IH].
Qed.

Lemma assignStep_ids stepID status effect steps :
  map s_StepID (assignStep stepID (withState status effect) steps) = map s_StepID steps.
Proof. induction steps as [|x steps IH]; [done|]. cbn. case_bool_decide; cbn; congruence. Qed.

Lemma resumeSteps_Ok runID steps t steps' t' :
  resumeSteps runID steps t = Ok (steps', t') -> NoDup (map s_StepID steps) ->
  syncs runID steps steps' (plan_run_steps t) (plan_run_steps t') /\ t' = setStepRows (plan_run_steps t') t
  /\ Forall2 (fun s s' => s_Status s = "interrupted" /\ s_Idempotent s = true
                          /\ s' = withState "queued" (s_EffectState s) s \/ s_Status s <> "interrupted" /\ s' = s) steps steps'.
Proof.
  revert t steps' t'. induction steps as [|s steps IH]; intros t steps' t' E Hd; cbn in E.
  - simplify_eq. split; [apply sync_none|]. split; [by destruct t'|constructor].
  - cbn [map] in Hd. apply NoDup_cons in Hd as [Hs Hd]. case_match eqn:Hi.
    + apply bind_Ok in E as ([rest t1] & E & ?). simplify_eq. apply IH in E as (Hy & Ht & Hf); [|done]. bool_hyps.
      split; [by eapply sync_cons; [done|apply sync_none|]|]. split; [done|]. constructor; auto.
    + apply bind_Ok in E as ([] & Hq & E). apply require_Ok in Hq. apply bind_Ok in E as ([rest t1] & E & ?).
      simplify_eq. apply IH in E as (Hy & Ht & Hf); [|done]. bool_hyps. split; [|split].
      * eapply sync_cons; [done| |exact Hy]. apply sync_one.
        -- split; [done|]. right. cbn. repeat match goal with E : _ s = _ |- _ => rewrite E end. by constructor.
        -- done.
        -- intros row (_ & _ & E1 & E2). unfold inState. rewrite E1, E2.
           repeat match goal with E : _ s = _ |- _ => rewrite E end. done.
        -- intros row (_ & _ & E1 & E2). cbn. split; [done|congruence].
      * rewrite Ht. rewrite updateStepRow_tables. by destruct t.
      * constructor; auto.
Qed.

Lemma stopSteps_Ok runID status steps t steps' t' :
  stopSteps runID status steps t = (steps', t') -> status ∈ ["interrupted"; "cancelled"] -> NoDup (map s_StepID steps) ->
  syncs runID steps steps' (plan_run_steps t) (plan_run_steps t') /\ t' = setStepRows (plan_run_steps t') t
  /\ Forall2 (fun s s' => s_Status s = "queued" /\ s' = withState status (s_EffectState s) s
                          \/ s_Status s <> "queued" /\ s' = s) steps steps'.
Proof.
  intros E Hst. revert t steps' t' E. induction steps as [|s steps IH]; intros t steps' t' E Hd; cbn in E.
  - simplify_eq. split; [apply sync_none|]. split; [by destruct t'|constructor].
  - cbn [map] in Hd. apply NoDup_cons in Hd as [Hs Hd]. case_match eqn:Hi.
    + destruct (stopSteps runID status steps t) as [rest t1] eqn:E1. simplify_eq.
      apply IH in E1 as (Hy & Ht & Hf); [|done]. bool_hyps.
      split; [by eapply sync_cons; [done|apply sync_none|]|]. split; [done|]. constructor; auto.
    + destruct (stopSteps runID status steps _) as [rest t1] eqn:E1. simplify_eq.
      apply IH in E1 as (Hy & Ht & Hf); [|done]. bool_hyps. split; [|split].
      * eapply sync_cons; [done| |exact Hy]. apply sync_one.
        -- split; [done|]. right. cbn. repeat match goal with E : _ s = _ |- _ => rewrite E end. by constructor.
        -- done.
        -- intros row (_ & _ & E2 & _). rewrite E2. by apply bool_decide_eq_true_2.
        -- intros row (_ & _ & _ & E2). by cbn.
      * rewrite Ht. rewrite updateStepRow_tables. by destruct t.
      * constructor; auto.
Qed.

(** A stored receipt: of a central execution, or an observation of an external
    executor. *)
Definition receiptOf (t : RunTables) (x : ReceiptRow) : Prop :=
  exists id, execution_receipts t !! id = Some x \/ external_execution_observations t !! id = Some x.

(** A step whose effect becomes a recorded receipt has one. *)
Definition recordedBy (t : RunTables) (s s' : RunStep) : Prop :=
  s_EffectState s' = "receipt-recorded" ->
  s_EffectState s = "receipt-recorded" \/ exists x, receiptOf t x /\ xr_StepID x = s_StepID s'.

Lemma recordedBy_same t steps : Forall2 (recordedBy t) steps steps.
Proof. induction steps; constructor; [by left|done]. Qed.

Lemma recordedBy_assign t stepID status effect steps :
  (effect = "receipt-recorded" -> exists x, receiptOf t x /\ xr_StepID x = stepID) ->
  Forall2 (recordedBy t) steps (assignStep stepID (withState status effect) steps).
Proof.
  intros He. induction steps as [|s steps IH]; cbn; [constructor|]. case_bool_decide as Hid.
  - constructor; [|apply recordedBy_same]. intros E. right. cbn in E |- *. rewrite Hid. auto.
  - constructor; [by left|done].
Qed.

(** What a successful mutation of a run may change: the mutable fields of the
    run, its steps and their rows, and the receipts. *)
Record mutated (run : Run) (t : RunTables) (run' : Run) (t' : RunTables) : Prop := {
  mu_identity : run' = rebuildRun run (r_Status run') (r_Steps run') (r_CancellationRequested run')
                  (r_RollbackStatus run') (r_VerificationStatus run') (r_VerificationDigest run') (r_Changed run')
                  (r_UpdatedAt run');
  mu_status : r_Status run' = r_Status run \/ ValidateRunTransition (r_Status run) (r_Status run') = true;
  mu_cancellation : r_CancellationRequested run = true -> r_CancellationRequested run' = true;
  mu_cancelled : r_CancellationRequested run' = r_CancellationRequested run
                 \/ terminalRunStatus (r_Status run) = false /\ r_Status run' = r_Status run;
  mu_sync : syncs (r_RunID run) (r_Steps run) (r_Steps run') (plan_run_steps t) (plan_run_steps t');
  mu_tables : t' = setReceipts (execution_receipts t') (setStepRows (plan_run_steps t') t);
  mu_receipts : execution_receipts t' = execution_receipts t \/
    exists leaseID lease stepID receipt,
      activeLease (r_RunID run) stepID leaseID t = Some lease
      /\ ValidateExecutionReceiptBinding (le_Document lease) receipt = true /\ rc_LeaseID receipt = leaseID
      /\ insertReceipt (rc_ReceiptID receipt) (mkReceiptRow leaseID (r_RunID run) stepID receipt) t
         = Ok (setReceipts (execution_receipts t') t);
  mu_recorded : Forall2 (recordedBy t') (r_Steps run) (r_Steps run')
}.

Lemma findStep_state run stepID s : findStep run stepID = Some s -> s ∈ r_Steps run /\ s_StepID s = stepID.
Proof.
  unfold findStep. intros E. assert (Hin : s ∈ filter (fun x => s_StepID x = stepID) (r_Steps run)).
  { destruct (filter _ _); [done|]. cbn in E. simplify_eq. by left. }
  apply list_elem_of_filter in Hin as [? ?]. auto.
Qed.

(** A mutation that moves one step. *)
Lemma mutated_step runID run t stepID s status effect guard f receipts run' :
  runID = r_RunID run ->
  findStep run stepID = Some s -> NoDup (map s_StepID (r_Steps run)) ->
  stepMoves (s_Idempotent s) (s_Status s, s_EffectState s) (status, effect) ->
  (forall row, sr_RunID (f row) = sr_RunID row /\ sr_Planned (f row) = sr_Planned row) ->
  (forall row, rowShows (r_RunID run) s row -> guard row = true) ->
  (forall row, rowShows (r_RunID run) s row -> sr_Status (f row) = status /\ sr_EffectState (f row) = effect) ->
  (receipts = execution_receipts t \/
    exists leaseID lease receipt,
      activeLease (r_RunID run) stepID leaseID t = Some lease
      /\ ValidateExecutionReceiptBinding (le_Document lease) receipt = true /\ rc_LeaseID receipt = leaseID
      /\ insertReceipt (rc_ReceiptID receipt) (mkReceiptRow leaseID (r_RunID run) stepID receipt) t
         = Ok (setReceipts receipts t)) ->
  (effect = "receipt-recorded" -> exists x, receiptOf (setReceipts receipts t) x /\ xr_StepID x = stepID) ->
  r_Steps run' = assignStep stepID (withState status effect) (r_Steps run) ->
  run' = rebuildRun run (r_Status run) (r_Steps run') (r_CancellationRequested run) (r_RollbackStatus run')
           (r_VerificationStatus run') (r_VerificationDigest run') (r_Changed run') (r_UpdatedAt run') ->
  mutated run t run' (updateStepRow runID stepID guard f (setReceipts receipts t)).
Proof.
  intros -> Hs Hd Hm Hf Hg Hr Hx Hrec Hst Hrun.
  assert (Hid : r_RunID run' = r_RunID run /\ r_Status run' = r_Status run
                /\ r_CancellationRequested run' = r_CancellationRequested run) by (by rewrite Hrun).
  destruct Hid as (Hid & Hstat & Hcan). constructor; try (by rewrite ?Hstat, ?Hcan; auto).
  - rewrite Hst. apply (sync_assign _ _ _ _ _ _ _ (setReceipts receipts t) s); auto.
    split; [done|]. by right.
  - rewrite updateStepRow_tables. by destruct t.
  - rewrite updateStepRow_tables. cbn. destruct Hx as [->|(l & lease & receipt & ? & ? & ? & ?)]; [by left|right].
    exists l, lease, stepID, receipt. by split_and!.
  - rewrite Hst, updateStepRow_tables. by apply recordedBy_assign.
Qed.

Lemma withStatus_rebuilt run status : withStatus status run =
  rebuildRun run status (r_Steps run) (r_CancellationRequested run) (r_RollbackStatus run) (r_VerificationStatus run)
    (r_VerificationDigest run) (r_Changed run) (r_UpdatedAt run).
Proof. done. Qed.

Lemma setReceipts_same t : setReceipts (execution_receipts t) t = t.
Proof. by destruct t. Qed.

Lemma mutated_step_only runID run t stepID s status effect guard f run' :
  runID = r_RunID run ->
  findStep run stepID = Some s -> NoDup (map s_StepID (r_Steps run)) ->
  stepMoves (s_Idempotent s) (s_Status s, s_EffectState s) (status, effect) ->
  (forall row, sr_RunID (f row) = sr_RunID row /\ sr_Planned (f row) = sr_Planned row) ->
  (forall row, rowShows (r_RunID run) s row -> guard row = true) ->
  (forall row, rowShows (r_RunID run) s row -> sr_Status (f row) = status /\ sr_EffectState (f row) = effect) ->
  effect <> "receipt-recorded" ->
  r_Steps run' = assignStep stepID (withState status effect) (r_Steps run) ->
  run' = rebuildRun run (r_Status run) (r_Steps run') (r_CancellationRequested run) (r_RollbackStatus run')
           (r_VerificationStatus run') (r_VerificationDigest run') (r_Changed run') (r_UpdatedAt run') ->
  mutated run t run' (updateStepRow runID stepID guard f t).
Proof.
  intros. pose proof (mutated_step runID run t stepID s status effect guard f (execution_receipts t) run') as M.
  rewrite setReceipts_same in M. apply M; auto. intros ?; contradiction.
Qed.

(** A result of a mutation that leaves the tables alone. *)
Lemma mutated_run run t run' :
  run' = rebuildRun run (r_Status run') (r_Steps run) (r_CancellationRequested run')
           (r_RollbackStatus run') (r_VerificationStatus run') (r_VerificationDigest run') (r_Changed run')
           (r_UpdatedAt run') ->
  r_Status run' = r_Status run \/ ValidateRunTransition (r_Status run) (r_Status run') = true ->
  (r_CancellationRequested run = true -> r_CancellationRequested run' = true) ->
  (r_CancellationRequested run' = r_CancellationRequested run
   \/ terminalRunStatus (r_Status run) = false /\ r_Status run' = r_Status run) ->
  mutated run t run' t.
Proof.
  intros E Hs Hc Hcc. assert (Est : r_Steps run' = r_Steps run) by (by rewrite E). constructor; auto.
  - by rewrite Est.
  - rewrite Est. apply sync_none.
  - by destruct t.
  - rewrite Est. apply recordedBy_same.
Qed.

(** Rebuilding a run twice, and reading the fields of a rebuilt run. *)
Lemma rebuild_rebuild r s st c rb v d ch u s' st' c' rb' v' d' ch' u' :
  rebuildRun (rebuildRun r s st c rb v d ch u) s' st' c' rb' v' d' ch' u' = rebuildRun r s' st' c' rb' v' d' ch' u'.
Proof. reflexivity. Qed.

Lemma rebuilt_fields run run' s st c rb v d ch u :
  run' = rebuildRun run s st c rb v d ch u ->
  run' = rebuildRun run (r_Status run') (r_Steps run') (r_CancellationRequested run') (r_RollbackStatus run')
           (r_VerificationStatus run') (r_VerificationDigest run') (r_Changed run') (r_UpdatedAt run').
Proof. intros ->. reflexivity. Qed.

Lemma run_rebuilt run : run = rebuildRun run (r_Status run) (r_Steps run) (r_CancellationRequested run)
  (r_RollbackStatus run) (r_VerificationStatus run) (r_VerificationDigest run) (r_Changed run) (r_UpdatedAt run).
Proof. by destruct run. Qed.

End Mutations.

(** Unfolds a computation over pairs that succeeded. *)
Ltac pair_hyps :=
  repeat (result_hyps; match goal with x : (_ * _)%type |- _ => destruct x end; cbv zeta in *); result_hyps.

(** A literal that is not in a literal list. *)
Ltac not_in_list H := exfalso; revert H; refine (bool_decide_eq_false_1 _ _); vm_compute; reflexivity.

(** The state of a step in the goal, from the equations about it. *)
Ltac step_state s := repeat match goal with E : _ s = _ |- _ => rewrite E end.

Section MutationSpecs.
Context `{Hasher} `{RunSchemas}.

Lemma begin_mutated env request run t run' t' :
  beginMutation env request run t = Ok (run', t') -> NoDup (map s_StepID (r_Steps run)) -> mutated run t run' t'.
Proof.
  intros E Hd. unfold beginMutation in E. pair_hyps. simplify_eq.
  apply (mutated_step_only _ run t (bq_StepID request) x "running" "intent-recorded"); auto.
  - step_state x. constructor.
  - intros row (_ & _ & E1 & E2). unfold inState. rewrite E1, E2. by step_state x.
Qed.

Lemma insertReceipt_Ok id row t t' :
  insertReceipt id row t = Ok t' -> t' = setReceipts (<[id := row]> (execution_receipts t)) t.
Proof. unfold insertReceipt. case_match; [done|]. congruence. Qed.

Lemma receipt_mutated request run t run' t' :
  receiptMutation request run t = Ok (run', t') -> NoDup (map s_StepID (r_Steps run)) -> mutated run t run' t'.
Proof.
  intros E Hd. unfold receiptMutation in E. result_hyps. unfold receiptNames in *. bool_hyps.
  pose proof (findStep_state _ _ _ H1) as [_ Hid]. case_match; pair_hyps.
  { simplify_eq. apply mutated_run; auto. apply run_rebuilt. }
  simplify_eq. match goal with E : insertReceipt _ _ _ = Ok _ |- _ => rename E into Hins end.
  pose proof (insertReceipt_Ok _ _ _ _ Hins) as Hx. rewrite Hx in *. rewrite <- Hid in H1.
  replace (s_Status x) with "running" by congruence.
  eapply (mutated_step _ run t (s_StepID x) x "running" "receipt-recorded"); auto.
  - step_state x. constructor.
  - intros row (_ & _ & E1 & E2). unfold inState. rewrite E1, E2. by step_state x.
  - intros row (_ & _ & E1 & E2). cbn. split; [congruence|done].
  - right. eexists _, _, (xq_Receipt request). by split_and!.
  - intros _. eexists. split; [eexists; left; apply lookup_insert_eq|done].
Qed.

Lemma finish_mutated request run t run' t' :
  finishMutation request run t = Ok (run', t') -> fq_EffectState request = "verified" ->
  fq_Status request ∈ ["succeeded"; "failed"; "partial"] -> NoDup (map s_StepID (r_Steps run)) -> mutated run t run' t'.
Proof.
  intros E Hv Hst Hd. unfold finishMutation in E. result_hyps. pose proof (findStep_state _ _ _ H1) as [_ Hid].
  case_match; pair_hyps.
  { simplify_eq. apply mutated_run; auto. apply run_rebuilt. }
  simplify_eq. rewrite <- Hid in H1. rewrite Hv.
  apply (mutated_step_only _ run t (s_StepID x) x (fq_Status request) "verified"); auto.
  - step_state x. by constructor.
  - intros row (_ & _ & E1 & E2). unfold inState. rewrite E1, E2. by step_state x.
Qed.

Lemma abandon_mutated stepID effects status effect changed at_ run t run' t' :
  abandonMutation stepID effects status effect changed at_ run t = Ok (run', t') ->
  (forall e i, e ∈ effects -> stepMoves i ("running", e) (status, effect)) -> effect <> "receipt-recorded" -> NoDup (map s_StepID (r_Steps run)) ->
  mutated run t run' t'.
Proof.
  intros E Hm He Hd. unfold abandonMutation in E. pair_hyps. simplify_eq.
  apply (mutated_step_only _ run t stepID x status effect); auto.
  - by destruct changed.
  - step_state x. by apply Hm.
  - intros row (_ & _ & E1 & E2). rewrite E1, E2. step_state x.
    rewrite bool_decide_refl. by apply bool_decide_eq_true_2.
  - by destruct changed.
  - by destruct changed.
Qed.

Lemma cancellation_mutated at_ run t run' t' :
  cancellationMutation at_ run t = Ok (run', t') -> mutated run t run' t'.
Proof.
  intros E. unfold cancellationMutation in E. result_hyps. simplify_eq. apply mutated_run; cbn; auto.
Qed.

(** Part of a transition: the steps and their rows change together, and nothing
    else does. *)
Definition stepsOnly (run : Run) (t : RunTables) (run' : Run) (t' : RunTables) : Prop :=
  run' = withSteps (r_Steps run') run /\ t' = setStepRows (plan_run_steps t') t
  /\ syncs (r_RunID run) (r_Steps run) (r_Steps run') (plan_run_steps t) (plan_run_steps t')
  /\ Forall2 (fun s s' => s_EffectState s' = s_EffectState s) (r_Steps run) (r_Steps run').

Lemma stepsOnly_same run t : stepsOnly run t run t.
Proof. split_and!; [by destruct run|by destruct t|apply sync_none|]. induction (r_Steps run); by constructor. Qed.

Lemma resumeRun_Ok request run t run' t' :
  resumeRun request run t = Ok (run', t') -> NoDup (map s_StepID (r_Steps run)) ->
  stepsOnly run t run' t' /\ (run' = run /\ t' = t \/ tq_To request = "running").
Proof.
  unfold resumeRun. destruct (_ && _) eqn:Hr; intros E Hd.
  - apply bind_Ok in E as ([steps t1] & E & ?). simplify_eq. apply resumeSteps_Ok in E as (Hy & Ht & Hf); [|done].
    bool_hyps. split; [|by right]. split_and!; try done. eapply Forall2_impl; [exact Hf|]. naive_solver.
  - simplify_eq. split; [apply stepsOnly_same|by left].
Qed.

Lemma stopRun_Ok request run t run' t' :
  stopRun request run t = (run', t') -> NoDup (map s_StepID (r_Steps run)) ->
  stepsOnly run t run' t' /\ (run' = run /\ t' = t \/ tq_To request <> "running").
Proof.
  unfold stopRun. destruct (bool_decide _) eqn:Hto; intros E Hd.
  - destruct (stopSteps _ _ _ _) as [steps t1] eqn:Est. simplify_eq.
    apply stopSteps_Ok in Est as (Hy & Ht & Hf); [|destruct (tq_To request == "cancelled"); in_list|done].
    split; [|right].
    { split_and!; try done. eapply Forall2_impl; [exact Hf|]. naive_solver. }
    intros Hrun. rewrite Hrun in Hto. discriminate Hto.
  - simplify_eq. split; [apply stepsOnly_same|by left].
Qed.

Lemma settleRun_rebuilt request run :
  exists verification digest rollback changed,
    settleRun request run = rebuildRun run (r_Status run) (r_Steps run) (r_CancellationRequested run) rollback
                              verification digest changed (r_UpdatedAt run).
Proof.
  unfold settleRun. cbv zeta. destruct run, (tq_VerificationStatus request != ""), (tq_RollbackStatus request != ""),
    (tq_Changed request); do 4 eexists; reflexivity.
Qed.

Lemma transition_mutated request run t run' t' :
  transitionMutation request run t = Ok (run', t') -> ValidateRunTransition (tq_From request) (tq_To request) = true ->
  NoDup (map s_StepID (r_Steps run)) -> mutated run t run' t'.
Proof.
  intros E Hv Hd. unfold transitionMutation in E. apply bind_Ok in E as ([] & Hf & E). apply require_Ok in Hf.
  bool_hyps. apply bind_Ok in E as ([run1 t1] & E1 & E). cbv zeta in E.
  destruct (stopRun request run1 t1) as [run2 t2] eqn:E2. injection E as <- <-.
  apply resumeRun_Ok in E1 as [H1 Hone]; [|done].
  assert (H2 : stepsOnly (withUpdatedAt (tq_At request) (withStatus (tq_To request) run)) t run2 t2).
  { destruct Hone as [[-> ->]|Hrun]; [by apply stopRun_Ok in E2 as [? _]|].
    unfold stopRun in E2. rewrite Hrun in E2. injection E2 as <- <-. done. }
  destruct H2 as (Er & Et & Hy & Hf2), (settleRun_rebuilt request run2) as (v & d & r & c & Es). rewrite Es. clear Es E2 Hone H1.
  set (steps2 := r_Steps run2) in *. clearbody steps2. subst run2. constructor.
  - eapply rebuilt_fields. unfold withSteps, withUpdatedAt, withStatus. by rewrite !rebuild_rebuild.
  - right. by rewrite Hf.
  - done.
  - by left.
  - exact Hy.
  - rewrite Et. by destruct t.
  - left. by rewrite Et.
  - eapply Forall2_impl; [exact Hf2|]. intros s s' Hs Hs'. left. congruence.
Qed.

(** Every mutation of a run that a call applies. *)
Lemma call_mutated env call runID eventType mutate run t run' t' :
  mutationOf env call = Some (runID, eventType, mutate) -> allowed call = true ->
  mutate run t = Ok (run', t') -> NoDup (map s_StepID (r_Steps run)) -> mutated run t run' t'.
Proof.
  destruct call; cbn [mutationOf allowed]; intros [= <- <- <-] Ha E Hd; bool_hyps.
  - by eapply transition_mutated.
  - by eapply cancellation_mutated.
  - by eapply begin_mutated.
  - by eapply receipt_mutated.
  - by eapply finish_mutated.
  - eapply abandon_mutated; [done| |done|done]. intros. by constructor.
  - eapply abandon_mutated; [done| |done|done]. intros e i He. apply list_elem_of_singleton in He as ->. constructor.
  - eapply abandon_mutated; [done| |done|done]. intros e i He. apply list_elem_of_singleton in He as ->. constructor.
Qed.

End MutationSpecs.

(** ** Well-formed tables *)

Section Invariant.
Context `{Hasher} `{RunSchemas}.

(** The columns of a run row repeat its document, which numbers its steps
    without gaps or repetition, is bound to a stored plan and has its steps mirrored in [plan_run_steps]. *)
Record row_wf (t : RunTables) (runID : string) (row : RunRow) : Prop := {
  rw_id : r_RunID (rr_Document row) = runID;
  rw_plan : rr_PlanID row = r_PlanID (rr_Document row);
  rw_acknowledgement : rr_AcknowledgementID row = r_AcknowledgementID (rr_Document row);
  rw_status : rr_Status row = r_Status (rr_Document row);
  rw_cancellation : rr_CancellationRequested row = r_CancellationRequested (rr_Document row);
  rw_rollback : rr_RollbackStatus row = r_RollbackStatus (rr_Document row);
  rw_verification : rr_VerificationStatus row = r_VerificationStatus (rr_Document row);
  rw_digest : rr_VerificationDigest row = r_VerificationDigest (rr_Document row);
  rw_changed : rr_Changed row = r_Changed (rr_Document row);
  rw_created : rr_CreatedAt row = r_CreatedAt (rr_Document row);
  rw_updated : rr_UpdatedAt row = r_UpdatedAt (rr_Document row);
  rw_numbered : wellNumbered (rr_Document row) = true;
  rw_bound : verifyPlanBindingInTx (rr_Document row) t = Ok tt;
  rw_steps : mirrored runID (r_Steps (rr_Document row)) (plan_run_steps t)
}.

(** The columns of a lease row repeat its document and name a step of its run;
    the nonce of an external lease is the last one of its history. *)
Record lease_wf (t : RunTables) (leaseID : string) (l : LeaseRow) : Prop := {
  lw_id : l_LeaseID (le_Document l) = leaseID;
  lw_run : l_RunID (le_Document l) = le_RunID l;
  lw_step : l_StepID (le_Document l) = le_StepID l;
  lw_target : l_TargetID (le_Document l) = le_TargetID l;
  lw_status : l_Status (le_Document l) = le_Status l;
  lw_row : exists row, plan_run_steps t !! le_StepID l = Some row /\ sr_RunID row = le_RunID l;
  lw_renewals : 0 <= le_RenewalCount l;
  lw_nonce : le_Kind l = "external" ->
    exists at_, executor_lease_nonce_history t !! l_NonceDigest (le_Document l)
                = Some (mkNonceRow leaseID (le_RenewalCount l) at_)
}.

(** A receipt is bound to its lease, field by field; a renewal since then may
    have rotated the nonce. *)
Definition receiptBound (l : LeaseRow) (receipt : ExecutionReceipt) : Prop :=
  let d := le_Document l in
  ValidateExecutionReceiptBinding (rebuildLease (rc_NonceDigest receipt) (l_RenewAfter d) (l_Status d) d) receipt = true
  /\ (le_RenewalCount l = 0 -> ValidateExecutionReceiptBinding d receipt = true).

Lemma receiptBound_exact l receipt :
  ValidateExecutionReceiptBinding (le_Document l) receipt = true -> receiptBound l receipt.
Proof.
  intros E. split; [|done]. rewrite <- E. unfold ValidateExecutionReceiptBinding in *. bool_hyps. cbn.
  match goal with E : l_NonceDigest _ = _ |- _ => by rewrite E end.
Qed.

(** A receipt is bound to the lease it was recorded under. *)
Record receipt_wf (t : RunTables) (receiptID : string) (x : ReceiptRow) : Prop := {
  xw_id : rc_ReceiptID (xr_Document x) = receiptID;
  xw_lease : exists l, target_execution_leases t !! xr_LeaseID x = Some l /\ le_RunID l = xr_RunID x
             /\ le_StepID l = xr_StepID x
             /\ receiptBound l (xr_Document x)
}.

Record tables_wf (t : RunTables) : Prop := {
  tw_runs : forall runID row, plan_runs t !! runID = Some row -> row_wf t runID row;
  tw_submit : forall a b rowA rowB, plan_runs t !! a = Some rowA -> plan_runs t !! b = Some rowB ->
      rr_SubmitKeyDigest rowA = rr_SubmitKeyDigest rowB -> a = b;
  tw_owned : forall stepID srow, plan_run_steps t !! stepID = Some srow ->
      exists row s, plan_runs t !! sr_RunID srow = Some row /\ s ∈ r_Steps (rr_Document row) /\ s_StepID s = stepID;
  tw_leases : forall leaseID l, target_execution_leases t !! leaseID = Some l -> lease_wf t leaseID l;
  tw_exclusive : forall a b la lb, target_execution_leases t !! a = Some la -> target_execution_leases t !! b = Some lb ->
      le_Status la = "active" -> le_Status lb = "active" ->
      le_TargetID la = le_TargetID lb \/ le_StepID la = le_StepID lb -> a = b;
  tw_receipts : forall receiptID x, execution_receipts t !! receiptID = Some x -> receipt_wf t receiptID x;
  tw_receipt : forall a b xa xb, execution_receipts t !! a = Some xa -> execution_receipts t !! b = Some xb ->
      xr_LeaseID xa = xr_LeaseID xb -> a = b;
  tw_observations : forall receiptID x, external_execution_observations t !! receiptID = Some x ->
      receipt_wf t receiptID x;
  tw_terminal : forall a b xa xb, external_execution_observations t !! a = Some xa ->
      external_execution_observations t !! b = Some xb -> rc_Status (xr_Document xa) <> "running" ->
      rc_Status (xr_Document xb) <> "running" -> xr_LeaseID xa = xr_LeaseID xb -> a = b;
  tw_nonces : forall nonce n, executor_lease_nonce_history t !! nonce = Some n ->
      exists l, target_execution_leases t !! nh_LeaseID n = Some l /\ le_Kind l = "external"
                /\ nh_Sequence n <= le_RenewalCount l
}.

(** A valid document numbers and names its steps without repetition. *)
Lemma checkSteps_NoDup index seenSteps seenOps steps :
  checkSteps index seenSteps seenOps steps = true ->
  NoDup (map s_StepID steps) /\ NoDup (map s_OperationID steps) /\ NoDup (map s_Sequence steps)
  /\ Forall (fun s => s_StepID s ∉ seenSteps /\ s_OperationID s ∉ seenOps /\ index < s_Sequence s) steps.
Proof.
  revert index seenSteps seenOps. induction steps as [|s steps IH]; intros index seenSteps seenOps E; cbn in E.
  { split_and!; constructor. }
  bool_hyps. match goal with E : checkSteps _ _ _ _ = true |- _ => apply IH in E as (N1 & N2 & N3 & F) end.
  rewrite Forall_forall in F. cbn [map]. split_and!.
  1-3: constructor; [|done]; intros (x & Hx & Hin)%list_elem_of_fmap; apply F in Hin as (Ha & Hb & Hc).
  - apply Ha. rewrite <- Hx. by left.
  - apply Hb. rewrite <- Hx. by left.
  - lia.
  - constructor; [split_and!; [done..|lia]|]. apply Forall_forall. intros x Hx. apply F in Hx as (Ha & Hb & Hc).
    split_and!; [set_solver..|lia].
Qed.

Lemma numbered_NoDup run : wellNumbered run = true ->
  NoDup (map s_StepID (r_Steps run)) /\ NoDup (map s_OperationID (r_Steps run)) /\ NoDup (map s_Sequence (r_Steps run)).
Proof.
  unfold wellNumbered. intros E. bool_hyps.
  match goal with E : checkSteps _ _ _ _ = true |- _ => apply checkSteps_NoDup in E as (N1 & N2 & N3 & _) end.
  assert (P : sortSteps (r_Steps run) ≡ₚ r_Steps run) by apply merge_sort_Permutation.
  split_and!; (eapply NoDup_Permutation_proper; [by apply Permutation_map; symmetry; exact P|done]).
Qed.

Lemma valid_numbered run : validRunDocument run = true -> wellNumbered run = true.
Proof. unfold validRunDocument. by intros [_ ?]%andb_prop. Qed.

Lemma valid_NoDup run : validRunDocument run = true ->
  NoDup (map s_StepID (r_Steps run)) /\ NoDup (map s_OperationID (r_Steps run)) /\ NoDup (map s_Sequence (r_Steps run)).
Proof. intros E. by apply numbered_NoDup, valid_numbered. Qed.

Lemma decodeRun_Ok run run' : decodeRun run = Ok run' -> run' = run /\ validRunDocument run = true.
Proof. unfold decodeRun. intros E. result_hyps. auto. Qed.

(** The result of [mutateRun]'s change. *)
Lemma applyMutation_Ok runID eventType mutate t run' t' :
  applyMutation runID eventType mutate t = Ok (run', t') ->
  exists row t1, plan_runs t !! runID = Some row /\ validRunDocument (rr_Document row) = true
    /\ mutate (rr_Document row) t = Ok (run', t1) /\ validRunDocument run' = true
    /\ exists row', plan_runs t1 !! r_RunID run' = Some row'
       /\ t' = setDetails (run_detail_events t1 ++ [mkDetailRow (r_RunID run') eventType (runFingerprint run') (r_UpdatedAt run')])
                 (setRuns (<[r_RunID run' :=
                    mkRunRow (rr_PlanID row') (rr_AcknowledgementID row') (r_Status run') (r_CancellationRequested run')
                      (r_RollbackStatus run') (r_VerificationStatus run') (r_VerificationDigest run') (r_Changed run')
                      (rr_SubmitKeyDigest row') (rr_RequestDigest row') run' (rr_CreatedAt row') (r_UpdatedAt run')]>
                    (plan_runs t1)) t1).
Proof.
  unfold applyMutation. intros E. apply bind_Ok in E as (row & Hrow & E). apply of_option_Ok in Hrow.
  apply bind_Ok in E as (run & Hrun & E). apply decodeRun_Ok in Hrun as [-> Hv].
  apply bind_Ok in E as ([run1 t1] & Hm & E). apply bind_Ok in E as ([] & Hv' & E). apply require_Ok in Hv'.
  exists row, t1. unfold updateRun in E. destruct (plan_runs t1 !! r_RunID run1) as [row'|] eqn:Hrow'; [|by result_hyps].
  apply bind_Ok in E as ([] & _ & E). apply bind_Ok in E as (t2 & Hd & E). injection E as -> ->.
  unfold insertDetail in Hd. case_match; [done|]. injection Hd as <-. split_and!; eauto.
Qed.

End Invariant.

(** No row of a table satisfies a refused condition. *)
Lemma existsb_lookup {K A} `{Countable K} (f : K * A -> bool) (m : gmap K A) k x :
  existsb f (map_to_list m) = false -> m !! k = Some x -> f (k, x) = false.
Proof.
  intros E Hk. destruct (f (k, x)) eqn:Hf; [|done]. rewrite <- E. symmetry. apply existsb_exists. exists (k, x).
  split; [|done]. apply list_elem_of_In. by apply elem_of_map_to_list.
Qed.

Section Preservation.
Context `{Hasher} `{RunSchemas}.

(** The row of a run with a new document. *)
Definition storedRow (row : RunRow) (run : Run) : RunRow :=
  mkRunRow (rr_PlanID row) (rr_AcknowledgementID row) (r_Status run) (r_CancellationRequested run)
    (r_RollbackStatus run) (r_VerificationStatus run) (r_VerificationDigest run) (r_Changed run)
    (rr_SubmitKeyDigest row) (rr_RequestDigest row) run (rr_CreatedAt row) (r_UpdatedAt run).

(** What a mutation does to well-formed tables. *)
Record moved (runID : string) (t : RunTables) (row : RunRow) (run : Run) (t' : RunTables) : Prop := {
  mv_row : plan_runs t !! runID = Some row;
  mv_numbered : wellNumbered run = true;
  mv_mutated : exists t1, mutated (rr_Document row) t run t1
                          /\ plan_run_steps t' = plan_run_steps t1 /\ execution_receipts t' = execution_receipts t1;
  mv_runs : plan_runs t' = <[runID := storedRow row run]> (plan_runs t);
  mv_leases : target_execution_leases t' = target_execution_leases t;
  mv_operations : run_operation_keys t' = run_operation_keys t;
  mv_plans : immutable_plans t' = immutable_plans t;
  mv_acknowledgements : acknowledgement_requests t' = acknowledgement_requests t;
  mv_references : run_references t' = run_references t;
  mv_observations : external_execution_observations t' = external_execution_observations t;
  mv_nonces : executor_lease_nonce_history t' = executor_lease_nonce_history t
}.

Lemma mutation_moved env call runID eventType mutate t run t' :
  tables_wf t -> mutationOf env call = Some (runID, eventType, mutate) -> allowed call = true ->
  applyMutation runID eventType mutate t = Ok (run, t') -> exists row, moved runID t row run t'.
Proof.
  intros W Hm Ha E. apply applyMutation_Ok in E as (row & t1 & Hrow & Hv & Hmut & Hv' & row' & Hrow' & ->).
  destruct (valid_NoDup _ Hv) as [Hd _]. pose proof (call_mutated _ _ _ _ _ _ _ _ _ Hm Ha Hmut Hd) as M.
  pose proof (tw_runs _ W _ _ Hrow) as R. pose proof (rw_id _ _ _ R) as Hid.
  assert (Hid' : r_RunID run = runID) by (rewrite (mu_identity _ _ _ _ M); exact Hid).
  pose proof (mu_tables _ _ _ _ M) as Ht. rewrite Hid' in Hrow'. rewrite Ht in Hrow'. cbn in Hrow'. simplify_eq.
  exists row. constructor; [done|by apply valid_numbered|exists t1; auto|..]; rewrite Ht; cbn; rewrite ?Hid'; done.
Qed.

Lemma moved_identity runID t row run t' : moved runID t row run t' ->
  r_RunID run = r_RunID (rr_Document row) /\ r_PlanID run = r_PlanID (rr_Document row)
  /\ r_PlanDigest run = r_PlanDigest (rr_Document row)
  /\ r_AcknowledgementID run = r_AcknowledgementID (rr_Document row)
  /\ r_StateRevision run = r_StateRevision (rr_Document row) /\ r_RecoveryEpoch run = r_RecoveryEpoch (rr_Document row)
  /\ r_CreatedAt run = r_CreatedAt (rr_Document row) /\ r_ExecutorMode run = r_ExecutorMode (rr_Document row).
Proof. intros [_ _ (t1 & [-> _ _ _ _ _ _ _] & _) _ _ _ _ _ _ _ _]. done. Qed.

Lemma frame_mirror runID other steps rows rows' :
  rowsFrame runID rows rows' -> other <> runID -> mirrored other steps rows -> mirrored other steps rows'.
Proof.
  intros F Hn M s Hs. destruct (M s Hs) as (row & E & Hrow). specialize (F (s_StepID s)). rewrite E in F.
  inversion F as [x y (E1 & E2 & E3)|]; subst. exists y. split; [done|]. destruct Hrow as (Hid & Hrow).
  rewrite E3 by congruence. by split.
Qed.

Lemma frame_lookup runID rows rows' stepID row' :
  rowsFrame runID rows rows' -> rows' !! stepID = Some row' ->
  exists row, rows !! stepID = Some row /\ sr_RunID row' = sr_RunID row /\ (sr_RunID row <> runID -> row' = row).
Proof.
  intros F E. specialize (F stepID). rewrite E in F. inversion F as [x y (E1 & E2 & E3)|]; subst. eauto.
Qed.

Lemma moves_member steps steps' s : Forall2 stepMove steps steps' -> s ∈ steps ->
  exists s', s' ∈ steps' /\ stepMove s s'.
Proof.
  intros M Hs. apply list_elem_of_lookup in Hs as [i Hi]. destruct (Forall2_lookup_l _ _ _ _ _ M Hi) as (s' & Hi' & Hm).
  exists s'. split; [|done]. by eapply list_elem_of_lookup_2.
Qed.

Lemma binding_run t t' run run' :
  immutable_plans t' = immutable_plans t -> r_PlanID run' = r_PlanID run -> r_PlanDigest run' = r_PlanDigest run ->
  r_StateRevision run' = r_StateRevision run -> r_RecoveryEpoch run' = r_RecoveryEpoch run ->
  verifyPlanBindingInTx run t = Ok tt -> verifyPlanBindingInTx run' t' = Ok tt.
Proof. unfold verifyPlanBindingInTx. by intros -> -> -> -> ->. Qed.

Lemma moved_runs runID t row run t' : tables_wf t -> moved runID t row run t' ->
  forall id row', plan_runs t' !! id = Some row' -> row_wf t' id row'.
Proof.
  intros W M id row' E. rewrite (mv_runs _ _ _ _ _ M) in E. pose proof (mv_mutated _ _ _ _ _ M) as (t1 & X & Hs & _).
  pose proof (tw_runs _ W _ _ (mv_row _ _ _ _ _ M)) as R. pose proof (rw_id _ _ _ R) as Hid.
  destruct (moved_identity _ _ _ _ _ M) as (I1 & I2 & I3 & I4 & I5 & I6 & I7 & I8).
  apply lookup_insert_Some in E as [[<- <-]|[Hn E]].
  - constructor; cbn; try done; try congruence; try (destruct R; congruence).
    + by apply M.
    + eapply binding_run; [by apply M|done..|apply R].
    + rewrite Hs. pose proof (mu_sync _ _ _ _ X) as Y. rewrite Hid in Y. apply (sy_mirror _ _ _ _ _ Y), R.
  - pose proof (tw_runs _ W _ _ E) as R'. destruct R'. constructor; try done.
    + eapply binding_run; [by apply M|done..].
    + rewrite Hs. eapply frame_mirror; [apply (sy_frame _ _ _ _ _ (mu_sync _ _ _ _ X))| |done]. congruence.
Qed.

(** A lease that keeps its run, its step and the receipts bound to it. *)
Definition leaseKept (l l' : LeaseRow) : Prop :=
  le_RunID l' = le_RunID l /\ le_StepID l' = le_StepID l
  /\ (forall receipt, receiptBound l receipt -> receiptBound l' receipt).

Definition leasesKept (t t' : RunTables) : Prop :=
  forall id l, target_execution_leases t !! id = Some l ->
    exists l', target_execution_leases t' !! id = Some l' /\ leaseKept l l'.

Lemma leaseKept_refl l : leaseKept l l.
Proof. by split_and!. Qed.

Lemma leasesKept_same t t' : target_execution_leases t' = target_execution_leases t -> leasesKept t t'.
Proof. intros E id l El. rewrite E. exists l. split; [done|apply leaseKept_refl]. Qed.

Lemma receipt_kept t t' id x : leasesKept t t' -> receipt_wf t id x -> receipt_wf t' id x.
Proof.
  intros K [Hid (l & El & E1 & E2 & E3)]. destruct (K _ _ El) as (l' & El' & K1 & K2 & K3). constructor; [done|].
  exists l'. split_and!; [done|congruence..|auto].
Qed.

Lemma lease_kept t t' id l : (forall srow, plan_run_steps t !! le_StepID l = Some srow ->
    exists srow', plan_run_steps t' !! le_StepID l = Some srow' /\ sr_RunID srow' = sr_RunID srow) ->
  executor_lease_nonce_history t ⊆ executor_lease_nonce_history t' -> lease_wf t id l -> lease_wf t' id l.
Proof.
  intros Hs Hn [? ? ? ? ? (srow & Es & Er) ? Hk]. constructor; try done.
  - destruct (Hs _ Es) as (srow' & Es' & Er'). exists srow'. split; congruence.
  - intros Hx. destruct (Hk Hx) as (at_ & E). exists at_. by eapply lookup_weaken.
Qed.

Lemma moved_receipts runID t row run t' : tables_wf t -> moved runID t row run t' ->
  (forall receiptID x, execution_receipts t' !! receiptID = Some x -> receipt_wf t' receiptID x)
  /\ (forall a b xa xb, execution_receipts t' !! a = Some xa -> execution_receipts t' !! b = Some xb ->
        xr_LeaseID xa = xr_LeaseID xb -> a = b).
Proof.
  intros W M. pose proof (mv_mutated _ _ _ _ _ M) as (t1 & X & _ & Hx). rewrite Hx.
  assert (Hold : forall receiptID x, execution_receipts t !! receiptID = Some x -> receipt_wf t' receiptID x).
  { intros receiptID x E. eapply receipt_kept; [apply leasesKept_same, M|by apply (tw_receipts _ W)]. }
  destruct (mu_receipts _ _ _ _ X) as [->|(l & lease & sid & rc & Ha & Hb & Hl & Hins)]; [split; [done|apply W]|].
  pose proof (insertReceipt_Ok _ _ _ _ Hins) as Hi. apply (f_equal execution_receipts) in Hi. cbn in Hi. rewrite Hi.
  unfold insertReceipt in Hins. case_match eqn:Hg; [done|]. bool_hyps. cbn in *. split.
  - intros receiptID x E. apply lookup_insert_Some in E as [[<- <-]|[_ E]]; [|auto]. unfold activeLease in Ha.
    apply bind_Some in Ha as (l0 & El & Ha). destruct (_ && _) eqn:Hact in Ha; [|done]. simplify_eq. bool_hyps.
    constructor; [done|]. rewrite (mv_leases _ _ _ _ _ M). cbn. exists lease. split_and!; [done..|].
    by apply receiptBound_exact.
  - assert (Hfresh : forall c x, execution_receipts t !! c = Some x -> xr_LeaseID x <> l).
    { intros c x Ec. match goal with E : existsb _ _ = false |- _ => apply (existsb_lookup _ _ _ _ E) in Ec end.
      by bool_hyps. }
    intros a b xa xb Ea Eb Ek. apply lookup_insert_Some in Ea as [[<- <-]|[Hna Ea]];
      apply lookup_insert_Some in Eb as [[<- <-]|[Hnb Eb]]; cbn in Ek; [done| | |by eapply (tw_receipt _ W)].
    + by apply Hfresh in Eb.
    + by apply Hfresh in Ea.
Qed.

Lemma moved_wf runID t row run t' : tables_wf t -> moved runID t row run t' -> tables_wf t'.
Proof.
  intros W M. pose proof (mv_mutated _ _ _ _ _ M) as (t1 & X & Hs & Hx).
  pose proof (sy_frame _ _ _ _ _ (mu_sync _ _ _ _ X)) as F. rewrite <- Hs in F. pose proof (mv_row _ _ _ _ _ M) as Hrow.
  constructor; try (by eapply moved_receipts; eauto).
  - by eapply moved_runs.
  - intros a b ra rb. rewrite (mv_runs _ _ _ _ _ M). intros Ea Eb Ek.
    apply lookup_insert_Some in Ea as [[<- <-]|[Hna Ea]]; apply lookup_insert_Some in Eb as [[<- <-]|[Hnb Eb]];
      cbn in Ek; [done|by eapply (tw_submit _ W)..].
  - intros stepID srow' E. destruct (frame_lookup _ _ _ _ _ F E) as (srow & E0 & Er & _).
    destruct (tw_owned _ W _ _ E0) as (row0 & s & Hr0 & Hin & Hid). rewrite Er, (mv_runs _ _ _ _ _ M).
    destruct (decide (sr_RunID srow = runID)) as [Hown|Hn]; [|rewrite lookup_insert_ne by done; eauto].
    rewrite Hown in Hr0 |- *. rewrite lookup_insert_eq. assert (row0 = row) as -> by congruence.
    destruct (moves_member _ _ _ (sy_moves _ _ _ _ _ (mu_sync _ _ _ _ X)) Hin) as (s' & Hin' & Hm).
    exists (storedRow row run), s'. split_and!; [done|done|]. by apply stepMove_id in Hm as [-> _].
  - rewrite (mv_leases _ _ _ _ _ M). intros leaseID l El. apply (lease_kept t); [|by rewrite (mv_nonces _ _ _ _ _ M)|].
    + intros srow Es. specialize (F (le_StepID l)). rewrite Es in F. inversion F as [? y (Ey & _)|]; subst. eauto.
    + by apply (tw_leases _ W).
  - rewrite (mv_leases _ _ _ _ _ M). apply W.
  - rewrite (mv_observations _ _ _ _ _ M). intros id x E.
    eapply receipt_kept; [apply leasesKept_same, M|by apply (tw_observations _ W)].
  - rewrite (mv_observations _ _ _ _ _ M). apply W.
  - rewrite (mv_nonces _ _ _ _ _ M), (mv_leases _ _ _ _ _ M). apply W.
Qed.

End Preservation.

Section Others.
Context `{Hasher} `{RunSchemas}.

(** Tables whose runs and steps are the same. *)
Lemma runs_same t t' : tables_wf t -> plan_runs t' = plan_runs t -> plan_run_steps t' = plan_run_steps t ->
  immutable_plans t' = immutable_plans t ->
  (forall id row, plan_runs t' !! id = Some row -> row_wf t' id row)
  /\ (forall a b rowA rowB, plan_runs t' !! a = Some rowA -> plan_runs t' !! b = Some rowB ->
        rr_SubmitKeyDigest rowA = rr_SubmitKeyDigest rowB -> a = b)
  /\ (forall stepID srow, plan_run_steps t' !! stepID = Some srow ->
        exists row s, plan_runs t' !! sr_RunID srow = Some row /\ s ∈ r_Steps (rr_Document row) /\ s_StepID s = stepID).
Proof.
  intros W Er Es Ep. rewrite Er, Es. split_and!; [|apply W..]. intros id row E. destruct (tw_runs _ W _ _ E).
  constructor; rewrite ?Es; try done. eapply binding_run; [exact Ep|done..].
Qed.

(** Tables that differ only where the invariant does not look. *)
Lemma wf_same t t' : tables_wf t -> plan_runs t' = plan_runs t -> plan_run_steps t' = plan_run_steps t ->
  target_execution_leases t' = target_execution_leases t -> execution_receipts t' = execution_receipts t ->
  immutable_plans t' = immutable_plans t ->
  external_execution_observations t' = external_execution_observations t ->
  executor_lease_nonce_history t' = executor_lease_nonce_history t -> tables_wf t'.
Proof.
  intros W Er Es El Ex Ep Eo En. destruct (runs_same t t' W Er Es Ep) as (R1 & R2 & R3).
  constructor; try assumption; rewrite ?El, ?Ex, ?Eo, ?En; try apply W; intros id l E.
  - apply (lease_kept t); [rewrite Es; eauto|by rewrite En|by apply (tw_leases _ W)].
  - eapply receipt_kept; [by apply leasesKept_same|by apply (tw_receipts _ W)].
  - eapply receipt_kept; [by apply leasesKept_same|by apply (tw_observations _ W)].
Qed.

Lemma insertDetail_Ok row t t' : insertDetail row t = Ok t' -> t' = setDetails (run_detail_events t ++ [row]) t.
Proof. unfold insertDetail. case_match; [done|]. congruence. Qed.

Lemma event_wf row t t' : tables_wf t -> insertDetail row t = Ok t' -> tables_wf t'.
Proof. intros W E. apply insertDetail_Ok in E as ->. by apply (wf_same t). Qed.

Lemma operation_wf t t' : tables_wf t ->
  (exists operation runID key request at_, claimChange operation runID key request at_ t = Ok t')
  \/ (exists operation runID key request run code at_, completeChange operation runID key request run code at_ t = Ok t') ->
  tables_wf t'.
Proof.
  intros W [(o & r & k & q & a & E)|(o & r & k & q & run & c & a & E)].
  - unfold claimChange in E. apply bind_Ok in E as ([] & _ & E). case_match; [done|]. simplify_eq. by apply (wf_same t).
  - unfold completeChange in E. case_match; [|done]. result_hyps. by apply (wf_same t).
Qed.

(** Leases that end, by a release or by their expiry, keep everything but their
    status. *)
Definition endedFrom (l l' : LeaseRow) : Prop :=
  l' = l \/ le_Status l = "active" /\ (l' = endedLease "released" l \/ l' = endedLease "expired" l).

Lemma endedFrom_kept l l' : endedFrom l l' -> leaseKept l l' /\ le_TargetID l' = le_TargetID l
  /\ (le_Status l' = "active" -> l' = l) /\ (le_Kind l' = le_Kind l /\ le_RenewalCount l' = le_RenewalCount l).
Proof.
  intros [->|[_ [-> | ->]]]; (split; [|split; [done|split; [done|done]]]); try apply leaseKept_refl;
    split_and!; try done; intros receipt [H1 H2]; by split.
Qed.

Lemma ended_wf t leases : tables_wf t ->
  (forall id, option_Forall2 endedFrom (target_execution_leases t !! id) (leases !! id)) ->
  tables_wf (setLeases leases t).
Proof.
  intros W R. assert (Hl : forall id l', leases !! id = Some l' -> exists l, target_execution_leases t !! id = Some l
    /\ endedFrom l l').
  { intros id l' E. specialize (R id). rewrite E in R. inversion R; subst; eauto. }
  assert (K : leasesKept t (setLeases leases t)).
  { intros id l E. specialize (R id). rewrite E in R. inversion R as [? l' Hk|]; subst. exists l'. cbn. split; [done|].
    by apply endedFrom_kept. }
  destruct (runs_same t (setLeases leases t) W) as (R1 & R2 & R3); [done..|]. constructor; try assumption; cbn; try apply W.
  - intros id l' E. apply Hl in E as (l & E & Hk). pose proof (tw_leases _ W _ _ E) as [? ? ? ? ? ? ? ?].
    destruct Hk as [-> |[_ [-> | ->]]]; by constructor.
  - intros a b la lb Ea Eb Ha Hb. apply Hl in Ea as (la0 & Ea & Ka). apply Hl in Eb as (lb0 & Eb & Kb).
    apply endedFrom_kept in Ka as (_ & _ & Ka & _), Kb as (_ & _ & Kb & _).
    pose proof (Ka Ha). pose proof (Kb Hb). subst. by apply (tw_exclusive _ W).
  - intros id x E. eapply receipt_kept; [exact K|by apply (tw_receipts _ W)].
  - intros id x E. eapply receipt_kept; [exact K|by apply (tw_observations _ W)].
  - intros nonce n E. destruct (tw_nonces _ W _ _ E) as (l & El & H1 & H2). specialize (R (nh_LeaseID n)). rewrite El in R.
    inversion R as [? l' Hk|]; subst. apply endedFrom_kept in Hk as (_ & _ & _ & E1 & E2). exists l'. split_and!; congruence.
Qed.

Lemma ended_one t leaseID l l' : tables_wf t -> target_execution_leases t !! leaseID = Some l -> endedFrom l l' ->
  tables_wf (setLeases (<[leaseID := l']> (target_execution_leases t)) t).
Proof.
  intros W E Hk. apply ended_wf; [done|]. intros id. destruct (decide (id = leaseID)) as [-> |Hn].
  - rewrite lookup_insert_eq, E. by constructor.
  - rewrite lookup_insert_ne by done. destruct (_ !! id); constructor. by left.
Qed.

Lemma release_wf leaseID t : tables_wf t -> tables_wf (releaseLease leaseID t).2.
Proof.
  intros W. unfold releaseLease. destruct (target_execution_leases t !! leaseID) as [l|] eqn:E; [|done].
  case_match; [|done]. bool_hyps. eapply ended_one; [done..|]. right. auto.
Qed.

Lemma releaseRun_wf runID t : tables_wf t -> tables_wf (releaseLeases runID t).
Proof.
  intros W. apply ended_wf; [done|]. intros id. rewrite lookup_fmap.
  destruct (target_execution_leases t !! id) as [l|]; constructor. unfold endedFrom. case_match; [bool_hyps|]; auto.
Qed.

Lemma runAndPlan_Ok runID t run plan : runAndPlanInTx runID t = Ok (run, plan) ->
  exists row, plan_runs t !! runID = Some row /\ rr_Document row = run /\ immutable_plans t !! rr_PlanID row = Some plan
              /\ validRunDocument run = true.
Proof.
  unfold runAndPlanInTx. intros E. apply bind_Ok in E as (row & Hrow & E). apply of_option_Ok in Hrow.
  apply bind_Ok in E as (plan' & Hplan & E). apply of_option_Ok in Hplan.
  apply bind_Ok in E as (run' & Hrun & E). apply decodeRun_Ok in Hrun as [-> Hv]. injection E as <- <-. eauto.
Qed.

(** A lease bound to a stored run names a step of that run. *)
Lemma bound_step t runID row plan lease : tables_wf t -> plan_runs t !! runID = Some row ->
  ValidateExecutorLeaseBinding plan (rr_Document row) lease = true ->
  exists srow, plan_run_steps t !! l_StepID lease = Some srow /\ sr_RunID srow = l_RunID lease.
Proof.
  intros W Hrow Hb. unfold ValidateExecutorLeaseBinding in Hb. bool_hyps.
  destruct (filter _ (r_Steps _)) as [|s [|]] eqn:Hf; [done| |done].
  assert (Hs : s ∈ filter (fun c => s_StepID c = l_StepID lease) (r_Steps (rr_Document row))) by (rewrite Hf; by left).
  apply list_elem_of_filter in Hs as [Hid Hin]. pose proof (tw_runs _ W _ _ Hrow) as R.
  destruct (rw_steps _ _ _ R _ Hin) as (srow & Esr & Hown & _). rewrite Hid in Esr. exists srow. split; [done|].
  rewrite Hown, <- (rw_id _ _ _ R). done.
Qed.

Lemma insertLease_Ok leaseID row t t' : insertLease leaseID row t = Ok t' ->
  t' = setLeases (<[leaseID := row]> (target_execution_leases t)) t /\ target_execution_leases t !! leaseID = None
  /\ (le_Status row = "active" -> forall id l, target_execution_leases t !! id = Some l -> le_Status l = "active" ->
      le_TargetID l <> le_TargetID row /\ le_StepID l <> le_StepID row).
Proof.
  unfold insertLease. destruct (_ || _) eqn:Hg; [done|]. intros [= <-]. bool_hyps. split; [done|]. split.
  - apply eq_None_not_Some. match goal with E : ~ is_Some _ |- _ => exact E end.
  - intros Hact id l El Ha. rewrite Hact, bool_decide_refl in *. cbn in *.
    match goal with E : existsb _ _ = false |- _ => pose proof (existsb_lookup _ _ _ _ E El) as Hf end.
    cbn in Hf. rewrite Ha, bool_decide_refl in Hf. cbn in Hf. by bool_hyps.
Qed.

(** The insertion of an active lease of a stored step, and of the first nonce of
    an external one. *)
Lemma lease_inserted kind lease t t1 nonces : tables_wf t ->
  insertLease (l_LeaseID lease) (leaseRow kind lease) t = Ok t1 ->
  (exists srow, plan_run_steps t !! l_StepID lease = Some srow /\ sr_RunID srow = l_RunID lease) ->
  executor_lease_nonce_history t ⊆ nonces ->
  (kind = "external" -> exists at_, nonces !! l_NonceDigest lease = Some (mkNonceRow (l_LeaseID lease) 0 at_)) ->
  (forall nonce n, nonces !! nonce = Some n -> executor_lease_nonce_history t !! nonce = Some n
     \/ kind = "external" /\ nh_LeaseID n = l_LeaseID lease /\ nh_Sequence n = 0) ->
  l_Status lease = "active" -> tables_wf (setNonces nonces t1).
Proof.
  intros W Hins Hstep Hsub Hext Hnew Hact. apply insertLease_Ok in Hins as (-> & Hfresh & Hone).
  specialize (Hone Hact). assert (K : leasesKept t (setLeases (<[l_LeaseID lease := leaseRow kind lease]>
    (target_execution_leases t)) t)).
  { intros id l E. exists l. cbn. rewrite lookup_insert_ne by congruence. split; [done|apply leaseKept_refl]. }
  edestruct (runs_same t (setNonces nonces (setLeases (<[l_LeaseID lease := leaseRow kind lease]>
    (target_execution_leases t)) t)) W) as (R1 & R2 & R3); [done..|]. constructor; try assumption; cbn; try apply W.
  - intros id l El. apply lookup_insert_Some in El as [[<- <-]|[_ El]].
    + by constructor.
    + apply (lease_kept t); [eauto|done|by apply (tw_leases _ W)].
  - intros a b la lb Ea Eb Ha Hb' Hor. apply lookup_insert_Some in Ea as [[<- <-]|[Hna Ea]];
      apply lookup_insert_Some in Eb as [[<- <-]|[Hnb Eb]]; [done| | |by eapply (tw_exclusive _ W)]; cbn in *.
    + destruct (Hone _ _ Eb Hb'); naive_solver.
    + destruct (Hone _ _ Ea Ha); naive_solver.
  - intros id x E. eapply receipt_kept; [exact K|by apply (tw_receipts _ W)].
  - intros id x E. eapply receipt_kept; [exact K|by apply (tw_observations _ W)].
  - intros nonce n [E|(Hk & Hid & Hseq)]%Hnew.
    + destruct (tw_nonces _ W _ _ E) as (l & El & Hl). exists l. split; [|done]. by rewrite lookup_insert_ne by congruence.
    + rewrite Hid, lookup_insert_eq. eexists. split; [done|]. rewrite Hseq. by split.
Qed.

Lemma setNonces_same t : setNonces (executor_lease_nonce_history t) t = t.
Proof. by destruct t. Qed.

Lemma lease_wf_insert env lease t t' : tables_wf t -> leaseChange env lease t = Ok t' -> tables_wf t'.
Proof.
  intros W E. unfold leaseChange in E. apply bind_Ok in E as ([run plan] & Erun & E).
  apply runAndPlan_Ok in Erun as (row & Hrow & <- & Hplan & Hv). apply bind_Ok in E as ([] & Hb & E).
  apply require_Ok in Hb. result_hyps. match goal with E : insertLease _ _ _ = _ |- _ => rename E into Hins end.
  bool_hyps. pose proof (lease_inserted "central" lease t t' (executor_lease_nonce_history t') W Hins) as L.
  rewrite setNonces_same in L. pose proof Hins as (-> & _ & _)%insertLease_Ok. apply L; auto; [by eapply bound_step|done].
Qed.

End Others.

Section CreateAndPrune.
Context `{Hasher} `{RunSchemas}.

Lemma insertSteps_Ok runID steps t t' : insertSteps runID steps t = Ok t' ->
  t' = setStepRows (plan_run_steps t') t
  /\ (forall sid, sid ∉ map s_StepID steps -> plan_run_steps t' !! sid = plan_run_steps t !! sid)
  /\ (forall s, s ∈ steps -> plan_run_steps t !! s_StepID s = None
        /\ plan_run_steps t' !! s_StepID s = Some (mkStepRow runID s (s_Status s) (s_EffectState s) None None None None)).
Proof.
  revert t. induction steps as [|s steps IH]; intros t E; cbn in E.
  { simplify_eq. split_and!; [by destruct t'|done|]. intros s Hs. by apply elem_of_nil in Hs. }
  apply bind_Ok in E as (t1 & E1 & E). apply IH in E as (Ht & Ho & Hs). unfold insertStep in E1. case_match eqn:Hg; [done|].
  simplify_eq. bool_hyps. cbn in *.
  assert (Hfresh : plan_run_steps t !! s_StepID s = None).
  { apply eq_None_not_Some. match goal with E : ~ is_Some _ |- _ => exact E end. }
  split; [done|]. split.
  - intros sid Hn. rewrite elem_of_cons in Hn. rewrite Ho by tauto. apply lookup_insert_ne. naive_solver.
  - intros x Hx. apply elem_of_cons in Hx as [-> |Hx].
    + split; [done|]. destruct (decide (s_StepID s ∈ map s_StepID steps)) as [Hin|Hn].
      * apply list_elem_of_fmap in Hin as (y & Hy & Hin). apply Hs in Hin as [Hin _]. rewrite <- Hy, lookup_insert_eq in Hin. done.
      * rewrite Ho by done. apply lookup_insert_eq.
    + destruct (Hs _ Hx) as [Hn Hi]. split; [|done]. destruct (decide (s_StepID s = s_StepID x)) as [He|He].
      * by rewrite He, lookup_insert_eq in Hn.
      * by rewrite lookup_insert_ne in Hn by done.
Qed.

(** What a creation leaves: a fresh run row, fresh step rows, and the rest. *)
Record created (request : RunCreateRequest) (t t' : RunTables) : Prop := {
  cd_fresh : plan_runs t !! r_RunID (cq_Run request) = None;
  cd_submit : forall id row, plan_runs t !! id = Some row -> rr_SubmitKeyDigest row <> cq_SubmitKeyDigest request;
  cd_bound : verifyPlanBindingInTx (cq_Run request) t = Ok tt;
  cd_runs : plan_runs t' = <[r_RunID (cq_Run request) := createRow request]> (plan_runs t);
  cd_old : forall sid, sid ∉ map s_StepID (r_Steps (cq_Run request)) -> plan_run_steps t' !! sid = plan_run_steps t !! sid;
  cd_new : forall s, s ∈ r_Steps (cq_Run request) -> plan_run_steps t !! s_StepID s = None
             /\ plan_run_steps t' !! s_StepID s
                = Some (mkStepRow (r_RunID (cq_Run request)) s (s_Status s) (s_EffectState s) None None None None);
  cd_leases : target_execution_leases t' = target_execution_leases t;
  cd_receipts : execution_receipts t' = execution_receipts t;
  cd_operations : run_operation_keys t' = run_operation_keys t;
  cd_plans : immutable_plans t' = immutable_plans t;
  cd_observations : external_execution_observations t' = external_execution_observations t;
  cd_nonces : executor_lease_nonce_history t' = executor_lease_nonce_history t
}.

Lemma createChange_Ok env request t t' : createChange env request t = Ok t' -> created request t t'.
Proof.
  unfold createChange. cbv zeta. intros E. apply bind_Ok in E as ([] & _ & E). apply bind_Ok in E as ([] & Hb & E).
  apply bind_Ok in E as (t1 & Hi & E). apply bind_Ok in E as (actor & _ & E). apply bind_Ok in E as (t2 & Hs & E).
  apply insertDetail_Ok in E as ->. apply insertSteps_Ok in Hs as (Ht & Ho & Hn). unfold insertRun in Hi.
  destruct (_ || _) eqn:Hg in Hi; [done|]. injection Hi as <-. bool_hyps. rewrite Ht.
  match goal with E : existsb _ _ = false |- _ => rename E into Hex end.
  constructor; cbn; try (by destruct actor).
  - apply eq_None_not_Some. match goal with E : ~ is_Some _ |- _ => exact E end.
  - intros id row Er. pose proof (existsb_lookup _ _ _ _ Hex Er) as Hf. cbn in Hf. by bool_hyps.
Qed.

Lemma created_wf request t t' : tables_wf t -> allowed (CallCreate request) = true -> created request t t' ->
  tables_wf t'.
Proof.
  intros W Ha C. cbn in Ha. bool_hyps.
  assert (Hkeep : forall sid row, plan_run_steps t !! sid = Some row -> plan_run_steps t' !! sid = Some row).
  { intros sid row E. rewrite (cd_old _ _ _ C); [done|]. intros (s & Hs & Hin)%list_elem_of_fmap.
    apply (cd_new _ _ _ C) in Hin as [Hn _]. rewrite <- Hs, E in Hn. done. }
  constructor; rewrite ?(cd_leases _ _ _ C), ?(cd_receipts _ _ _ C), ?(cd_observations _ _ _ C), ?(cd_nonces _ _ _ C);
    try apply W.
  - intros id row E. rewrite (cd_runs _ _ _ C) in E. apply lookup_insert_Some in E as [[<- <-]|[Hn E]].
    + constructor; cbn; try done.
      * by apply valid_numbered.
      * eapply binding_run; [apply C|done..|apply C].
      * intros s Hs. apply (cd_new _ _ _ C) in Hs as [_ E]. eexists. split; [exact E|]. by split_and!.
    + destruct (tw_runs _ W _ _ E). constructor; try done.
      * eapply binding_run; [apply C|done..].
      * intros s Hs. destruct (rw_steps0 s Hs) as (srow & Es & Hr). exists srow. split; [by apply Hkeep|done].
  - intros a b ra rb. rewrite (cd_runs _ _ _ C). intros Ea Eb Ek.
    apply lookup_insert_Some in Ea as [[<- <-]|[Hna Ea]]; apply lookup_insert_Some in Eb as [[<- <-]|[Hnb Eb]]; cbn in Ek.
    + done.
    + by apply (cd_submit _ _ _ C) in Eb.
    + by apply (cd_submit _ _ _ C) in Ea.
    + by eapply (tw_submit _ W).
  - intros sid srow E. rewrite (cd_runs _ _ _ C).
    destruct (decide (sid ∈ map s_StepID (r_Steps (cq_Run request)))) as [Hin|Hn].
    + apply list_elem_of_fmap in Hin as (s & -> & Hin). pose proof (proj2 (cd_new _ _ _ C s Hin)) as Es.
      rewrite Es in E. simplify_eq. cbn. rewrite lookup_insert_eq. by exists (createRow request), s.
    + rewrite (cd_old _ _ _ C) in E by done. destruct (tw_owned _ W _ _ E) as (row & s & Er & ? & ?).
      exists row, s. split_and!; [|done..]. rewrite lookup_insert_ne; [done|]. intros Heq.
      pose proof (cd_fresh _ _ _ C) as Hf. congruence.
  - intros id l E. apply (lease_kept t); [eauto|by rewrite (cd_nonces _ _ _ C)|by apply (tw_leases _ W)].
  - intros id x E. eapply receipt_kept; [apply leasesKept_same, C|by apply (tw_receipts _ W)].
  - intros id x E. eapply receipt_kept; [apply leasesKept_same, C|by apply (tw_observations _ W)].
Qed.

(** A pruning keeps the rows of the runs it keeps, unchanged. *)
Lemma deleteRuns_wf cutoff t n t' : tables_wf t -> deleteRuns cutoff t = Ok (n, t') -> tables_wf t'.
Proof.
  intros W E. unfold deleteRuns in E. cbv zeta in E. case_match; [done|].
  set (dead := filter (fun r => staleRun cutoff r.2 = true) (plan_runs t)) in *.
  injection E as <- Et. assert (Hreceipt : forall id x, receipt_wf t id x -> dead !! xr_RunID x = None -> receipt_wf t' id x).
  { intros id x [? (l & El & E1 & E2 & E3)] Hd. constructor; [done|]. exists l. split_and!; [|done..]. rewrite <- Et.
    apply map_lookup_filter_Some. split; [done|]. cbn in *. congruence. }
  rewrite <- Et in *. clear Et. constructor; cbn.
  - intros id row E. apply map_lookup_filter_Some in E as [E Hd]. destruct (tw_runs _ W _ _ E). constructor; try done.
    intros s Hs. destruct (rw_steps0 s Hs) as (srow & Es & Hr). exists srow. split; [|done].
    apply map_lookup_filter_Some. split; [done|]. cbn. by rewrite (proj1 Hr).
  - intros a b ra rb Ea Eb. apply map_lookup_filter_Some in Ea as [Ea _]. apply map_lookup_filter_Some in Eb as [Eb _].
    by apply (tw_submit _ W).
  - intros sid srow E. apply map_lookup_filter_Some in E as [E Hd]. destruct (tw_owned _ W _ _ E) as (row & s & Er & ? & ?).
    exists row, s. split_and!; [|done..]. by apply map_lookup_filter_Some.
  - intros id l E. apply map_lookup_filter_Some in E as [E Hd].
    destruct (tw_leases _ W _ _ E) as [? ? ? ? ? (srow & Es & Er) ? Hk]. constructor; try done.
    + exists srow. split; [|done]. apply map_lookup_filter_Some. split; [done|]. cbn in *. congruence.
    + intros Hx. destruct (Hk Hx) as (at_ & En). exists at_. apply map_lookup_filter_Some. split; [done|]. cbn.
      rewrite E. by apply bool_decide_eq_true_2.
  - intros a b la lb Ea Eb. apply map_lookup_filter_Some in Ea as [Ea _]. apply map_lookup_filter_Some in Eb as [Eb _].
    by apply (tw_exclusive _ W).
  - intros id x E. apply map_lookup_filter_Some in E as [E Hd]. by apply Hreceipt; [apply (tw_receipts _ W)|].
  - intros a b xa xb Ea Eb. apply map_lookup_filter_Some in Ea as [Ea _]. apply map_lookup_filter_Some in Eb as [Eb _].
    by apply (tw_receipt _ W).
  - intros id x E. apply map_lookup_filter_Some in E as [E Hd]. by apply Hreceipt; [apply (tw_observations _ W)|].
  - intros a b xa xb Ea Eb. apply map_lookup_filter_Some in Ea as [Ea _]. apply map_lookup_filter_Some in Eb as [Eb _].
    by apply (tw_terminal _ W).
  - intros nonce n E. apply map_lookup_filter_Some in E as [E Hd]. destruct (tw_nonces _ W _ _ E) as (l & El & Hl).
    exists l. split; [|done]. cbn in Hd. rewrite El in Hd. apply map_lookup_filter_Some. split; [done|].
    by apply bool_decide_eq_true in Hd.
Qed.

Lemma prune_wf now t r t' : tables_wf t -> pruneChange now t = Ok (r, t') -> tables_wf t'.
Proof.
  intros W E. unfold pruneChange in E. cbv zeta in E. apply bind_Ok in E as ([n t1] & E & ?). simplify_eq.
  eapply deleteRuns_wf; [|exact E]. by apply (wf_same t).
Qed.

End CreateAndPrune.

(** ** The changes of the external executors *)

Section External.
Context `{Hasher} `{RunSchemas}.

Lemma planned_fields s s' : planned s' = planned s ->
  s_Sequence s' = s_Sequence s /\ s_StepID s' = s_StepID s /\ s_OperationID s' = s_OperationID s.
Proof. intros [=]. by split_and!. Qed.

Lemma checkSteps_planned index ids ops steps steps' :
  Forall2 (fun s s' => planned s' = planned s) steps steps' ->
  checkSteps index ids ops steps' = checkSteps index ids ops steps.
Proof.
  intros F. revert index ids ops. induction F as [|s s' steps steps' Hp F IH]; intros index ids ops; [done|]. cbn.
  apply planned_fields in Hp as (-> & -> & ->). by rewrite IH.
Qed.

Lemma assign_planned stepID status effect steps :
  Forall2 (fun s s' => planned s' = planned s) steps (assignStep stepID (withState status effect) steps).
Proof.
  induction steps as [|s steps IH]; cbn; [constructor|]. case_bool_decide; constructor; try done.
  clear. induction steps; by constructor.
Qed.

Lemma stepped_numbered stepID status effect at_ run :
  wellNumbered (steppedRun stepID status effect at_ run) = wellNumbered run.
Proof.
  unfold wellNumbered. cbn. pose proof (assign_planned stepID status effect (r_Steps run)) as F.
  rewrite <- (Forall2_length _ _ _ F). f_equal. apply checkSteps_planned, merge_sort_Forall2; [|done].
  intros x x' y y' (-> & _)%planned_fields (-> & _)%planned_fields. done.
Qed.

Lemma moveStep_Ok runID stepID status effect target f t t' : moveStep runID stepID status effect target f t = Ok t' ->
  t' = updateStepRow runID stepID (inState status effect) f t.
Proof. unfold moveStep. intros E. by result_hyps. Qed.

Lemma moved_details runID t row run t' details : moved runID t row run t' -> moved runID t row run (setDetails details t').
Proof. intros []. by constructor. Qed.

Lemma updateRunning_stored t row run : plan_runs t !! r_RunID run = Some row -> rr_Status row = "running" ->
  rr_Status row = r_Status run -> rr_CancellationRequested row = r_CancellationRequested run ->
  rr_RollbackStatus row = r_RollbackStatus run -> rr_VerificationStatus row = r_VerificationStatus run ->
  rr_VerificationDigest row = r_VerificationDigest run -> rr_Changed row = r_Changed run ->
  updateRunning run t = setRuns (<[r_RunID run := storedRow row run]> (plan_runs t)) t.
Proof.
  intros E Hr E1 E2 E3 E4 E5 E6. unfold updateRunning, storedRow. rewrite E, Hr, bool_decide_refl.
  rewrite Hr in E1. congruence.
Qed.

(** A guarded move of one step of a running run, in its document and its row. *)
Lemma stepped_moved t row runID stepID step status effect target f at_ t1 :
  tables_wf t -> plan_runs t !! runID = Some row -> r_Status (rr_Document row) = "running" ->
  findStep (rr_Document row) stepID = Some step ->
  stepMoves (s_Idempotent step) (s_Status step, s_EffectState step) (status, effect) ->
  (forall r, sr_RunID (f r) = sr_RunID r /\ sr_Planned (f r) = sr_Planned r) ->
  (forall r, rowShows runID step r -> sr_Status (f r) = status /\ sr_EffectState (f r) = effect) ->
  (effect = "receipt-recorded" -> exists x, receiptOf t x /\ xr_StepID x = stepID) ->
  moveStep runID stepID (s_Status step) (s_EffectState step) target f t = Ok t1 ->
  moved runID t row (steppedRun stepID status effect at_ (rr_Document row)) (updateRunning (steppedRun stepID status effect at_ (rr_Document row)) t1).
Proof.
  intros W Hrow Hst Hfind Hm Hf Hg Hx E. apply moveStep_Ok in E as ->. pose proof (tw_runs _ W _ _ Hrow) as R.
  pose proof (rw_id _ _ _ R) as Hid. destruct (numbered_NoDup _ (rw_numbered _ _ _ R)) as [Hd _].
  set (run' := steppedRun stepID status effect at_ (rr_Document row)).
  assert (M : mutated (rr_Document row) t run' (updateStepRow runID stepID (inState (s_Status step) (s_EffectState step)) f t)).
  { rewrite <- (setReceipts_same t) at 2. apply (mutated_step _ (rr_Document row) t stepID step status effect); auto.
    - intros r (_ & _ & E1 & E2). unfold inState. by rewrite E1, E2, !bool_decide_refl.
    - by rewrite Hid. }
  pose proof (updateStepRow_tables runID stepID (inState (s_Status step) (s_EffectState step)) f t) as Ht.
  assert (Hu : updateRunning run' (updateStepRow runID stepID (inState (s_Status step) (s_EffectState step)) f t)
    = setRuns (<[runID := storedRow row run']> (plan_runs t))
        (updateStepRow runID stepID (inState (s_Status step) (s_EffectState step)) f t)).
  { rewrite (updateRunning_stored (updateStepRow runID stepID (inState (s_Status step) (s_EffectState step)) f t) row run');
      try (destruct R; done || congruence).
    - change (r_RunID run') with (r_RunID (rr_Document row)). by rewrite Hid, Ht.
    - change (r_RunID run') with (r_RunID (rr_Document row)). by rewrite Hid, Ht. }
  rewrite Hu. constructor; [done| |eexists; split; [exact M|by rewrite Ht]|..]; try (rewrite Ht; done).
  unfold run'. rewrite stepped_numbered. apply R.
Qed.

(** What a claim does to the tables of leases and operations. *)
Lemma claimLease_tables request current t t' : claimLeaseChange request current t = Ok t' ->
  let lease := lc_Lease request in
  run_operation_keys t' = run_operation_keys t
  /\ target_execution_leases t' = <[l_LeaseID lease := leaseRow "external" lease]> (target_execution_leases t)
  /\ executor_lease_nonce_history t
     ⊆ executor_lease_nonce_history t'
  /\ target_execution_leases t !! l_LeaseID lease = None
  /\ (forall id l, target_execution_leases t !! id = Some l -> le_StepID l <> l_StepID lease).
Proof.
  intros E lease. unfold claimLeaseChange in E. cbv zeta in E. fold lease in E. apply bind_Ok in E as ([] & _ & E).
  apply bind_Ok in E as ([run plan] & _ & E). do 2 (apply bind_Ok in E as ([] & _ & E)).
  apply bind_Ok in E as (step & _ & E). apply bind_Ok in E as ([] & _ & E). apply bind_Ok in E as ([] & Hprior & E).
  apply require_Ok in Hprior. apply bind_Ok in E as (t0 & Hins & E). apply bind_Ok in E as (t1 & Hnonce & E).
  apply bind_Ok in E as (t2 & Hmove & E). injection E as <-. apply insertLease_Ok in Hins as (-> & Hfresh & _).
  unfold insertNonce in Hnonce. destruct (_ || _) eqn:Hg in Hnonce; [done|]. injection Hnonce as <-.
  apply moveStep_Ok in Hmove as ->. bool_hyps.
  assert (Hs : forall run t, run_operation_keys (updateRunning run t) = run_operation_keys t
    /\ target_execution_leases (updateRunning run t) = target_execution_leases t
    /\ executor_lease_nonce_history (updateRunning run t) = executor_lease_nonce_history t)
    by (intros; unfold updateRunning; by repeat case_match).
  destruct (Hs (steppedRun (l_StepID lease) "running" "intent-recorded" (lc_At request) run)
    (updateStepRow (l_RunID lease) (l_StepID lease) (inState "queued" "not-started")
      (moveRow "running" "intent-recorded" (Some (l_LeaseID lease)) None
        (Some (r_UpdatedAt (steppedRun (l_StepID lease) "running" "intent-recorded" (lc_At request) run))) None)
      (setNonces (<[l_NonceDigest lease := mkNonceRow (l_LeaseID lease) 0 (l_ClaimedAt lease)]>
         (executor_lease_nonce_history t))
         (setLeases (<[l_LeaseID lease := leaseRow "external" lease]> (target_execution_leases t)) t)))) as (E1 & E2 & E3).
  rewrite updateStepRow_tables in E1, E2, E3 |- *. split_and!; [exact E1|exact E2| |done|].
  - cbn in *. rewrite E3. apply insert_subseteq, eq_None_not_Some.
    match goal with E : ~ is_Some _ |- _ => exact E end.
  - intros id l El. rewrite forallb_forall in Hprior. apply elem_of_map_to_list, list_elem_of_In, Hprior in El. by bool_hyps.
Qed.

(** A claim: the lease and its nonce are fresh, no lease ever named the step, and
    the step moves from waiting to its recorded intent. *)
Lemma claimLease_Ok request current t t' :
  let lease := lc_Lease request in
  tables_wf t -> l_Status lease = "active" -> claimLeaseChange request current t = Ok t' ->
  exists t1 row, plan_runs t1 = plan_runs t /\ plan_run_steps t1 = plan_run_steps t /\ tables_wf t1
    /\ t1 = setNonces (<[l_NonceDigest lease := mkNonceRow (l_LeaseID lease) 0 (l_ClaimedAt lease)]>
                         (executor_lease_nonce_history t))
              (setLeases (<[l_LeaseID lease := leaseRow "external" lease]> (target_execution_leases t)) t)
    /\ target_execution_leases t !! l_LeaseID lease = None
    /\ executor_lease_nonce_history t !! l_NonceDigest lease = None
    /\ (forall id l, target_execution_leases t !! id = Some l -> le_StepID l <> l_StepID lease)
    /\ moved (l_RunID lease) t1 row
         (steppedRun (l_StepID lease) "running" "intent-recorded" (lc_At request) (rr_Document row)) t'
    /\ rr_Status row = "running".
Proof.
  intros lease W Hact E. unfold claimLeaseChange in E. cbv zeta in E. fold lease in E.
  apply bind_Ok in E as ([] & _ & E). apply bind_Ok in E as ([run plan] & Erun & E).
  apply runAndPlan_Ok in Erun as (row & Hrow & <- & Hplan & Hv). apply bind_Ok in E as ([] & _ & E).
  apply bind_Ok in E as ([] & Hb & E). apply require_Ok in Hb. apply bind_Ok in E as (step & Hstep & E).
  apply of_option_Ok in Hstep. apply bind_Ok in E as ([] & Hst & E). apply require_Ok in Hst.
  apply bind_Ok in E as ([] & Hprior & E). apply require_Ok in Hprior. apply bind_Ok in E as (t0 & Hins & E).
  apply bind_Ok in E as (t1 & Hnonce & E). apply bind_Ok in E as (t2 & Hmove & E). injection E as <-.
  unfold claimable in Hst. bool_hyps. pose proof (insertLease_Ok _ _ _ _ Hins) as (Et0 & Hfresh & _).
  unfold insertNonce in Hnonce. destruct (_ || _) eqn:Hg in Hnonce; [done|]. injection Hnonce as Et1. bool_hyps.
  match goal with E : ~ is_Some _ |- _ => rename E into Hn end. subst t0. cbn in Hn, Et1. apply eq_None_not_Some in Hn.
  assert (Hsub : executor_lease_nonce_history t ⊆ <[l_NonceDigest lease := mkNonceRow (l_LeaseID lease) 0 (l_ClaimedAt lease)]>
    (executor_lease_nonce_history t)) by by apply insert_subseteq.
  assert (W1 : tables_wf t1).
  { rewrite <- Et1. eapply lease_inserted; [done|exact Hins|by eapply bound_step|done| | |done].
    - intros _. eexists. apply lookup_insert_eq.
    - intros nonce n En. apply lookup_insert_Some in En as [[<- <-]|[_ En]]; auto. }
  assert (Hr1 : plan_runs t1 = plan_runs t) by by rewrite <- Et1.
  exists t1, row. split_and!; try done; try (by rewrite <- Et1).
  - intros id l El. rewrite forallb_forall in Hprior. apply elem_of_map_to_list, list_elem_of_In, Hprior in El. by bool_hyps.
  - eapply (stepped_moved t1 row _ _ step _ _ _ (moveRow "running" "intent-recorded" _ _ _ _)); try done;
      step_state step; [by rewrite Hr1|constructor|exact Hmove].
  - pose proof (tw_runs _ W _ _ Hrow) as R. by rewrite (rw_status _ _ _ R).
Qed.

(** Leases that end one after the other. *)
Definition leasesEnded (t t' : RunTables) : Prop :=
  t' = setLeases (target_execution_leases t') t
  /\ forall id, option_Forall2 endedFrom (target_execution_leases t !! id) (target_execution_leases t' !! id).

Lemma leasesEnded_refl t : leasesEnded t t.
Proof. split; [by destruct t|]. intros id. destruct (_ !! id); constructor. by left. Qed.

Lemma endedFrom_trans l l' l'' : endedFrom l l' -> endedFrom l' l'' -> endedFrom l l''.
Proof.
  intros [->|[Ha Hl]] H2; [done|]. right. split; [done|]. destruct H2 as [->|[Ha' _]]; [done|].
  by destruct Hl as [-> | ->].
Qed.

Lemma leasesEnded_trans t t' t'' : leasesEnded t t' -> leasesEnded t' t'' -> leasesEnded t t''.
Proof.
  intros [E1 H1'] [E2 H2']. split; [rewrite E2; by rewrite E1|]. intros id. specialize (H1' id). specialize (H2' id).
  destruct H1' as [l l' K|]; inversion H2' as [? l'' K'|]; subst; constructor. by eapply endedFrom_trans.
Qed.

Lemma leasesEnded_wf t t' : tables_wf t -> leasesEnded t t' -> tables_wf t'.
Proof. intros W [-> Hl]. by apply ended_wf. Qed.

Lemma leasesEnded_lookup t t' id l : leasesEnded t t' -> target_execution_leases t !! id = Some l ->
  exists l', target_execution_leases t' !! id = Some l' /\ endedFrom l l'.
Proof. intros [_ Hl] E. specialize (Hl id). rewrite E in Hl. inversion Hl; subst; eauto. Qed.

Lemma expireLease_ended leaseID t : leasesEnded t (expireLease leaseID t).2.
Proof.
  unfold expireLease. destruct (target_execution_leases t !! leaseID) as [l|] eqn:E; [|apply leasesEnded_refl].
  case_match; [|apply leasesEnded_refl]. bool_hyps. split; [done|]. intros id. cbn.
  destruct (decide (id = leaseID)) as [-> |Hn].
  - rewrite lookup_insert_eq, E. constructor. right. auto.
  - rewrite lookup_insert_ne by done. destruct (_ !! id); constructor. by left.
Qed.

Lemma expireActive_ended reported t t' : expireActive reported t = Ok t' -> leasesEnded t t'.
Proof.
  revert t. induction reported as [|[l lease] rest IH]; intros t E; cbn in E.
  - injection E as ->. apply leasesEnded_refl.
  - case_match; [by apply IH|]. destruct (expireLease (l_LeaseID lease) t) as [n t1] eqn:Ex.
    apply bind_Ok in E as ([] & _ & E). eapply leasesEnded_trans; [|by apply IH].
    pose proof (expireLease_ended (l_LeaseID lease) t) as Hl. by rewrite Ex in Hl.
Qed.

Lemma expireLeases_ended at_ t leases t' : expireLeases at_ t = Ok (leases, t') -> leasesEnded t t'.
Proof.
  unfold expireLeases. intros E. apply bind_Ok in E as (reported & _ & E). apply bind_Ok in E as (t1 & E1 & E).
  injection E as _ <-. by eapply expireActive_ended.
Qed.

(** A lease of an external executor, as a transaction reads it. *)
Lemma readLease_Ok leaseID t l : readExecutorLeaseInTx leaseID t = Ok l ->
  target_execution_leases t !! leaseID = Some l /\ le_Kind l = "external" /\ validStoredExecutorLease (le_Document l) = true.
Proof.
  unfold readExecutorLeaseInTx. intros E. apply bind_Ok in E as (x & Hx & E). apply of_option_Ok in Hx.
  apply bind_Ok in E as (d & Hd & E). apply bind_Ok in E as ([] & _ & E). injection E as ->.
  unfold decodeStoredExecutorLease in Hd. apply bind_Ok in Hd as ([] & Hv & _). apply require_Ok in Hv.
  unfold externalLease in Hx. apply bind_Some in Hx as (l0 & El & Hx). case_match; [|done]. injection Hx as ->.
  by bool_hyps.
Qed.

(** A renewal: the lease is active and external, the old nonce is presented, the
    new one has never been seen, and the window stays as it is. *)
Lemma renewLease_Ok request current t lease t' : renewLease request current t = Ok (lease, t') ->
  let id := er_LeaseID (ln_Request request) in
  exists l renewAfter expiry, target_execution_leases t !! id = Some l /\ le_Kind l = "external" /\ le_Status l = "active"
    /\ validStoredExecutorLease (le_Document l) = true
    /\ l_NonceDigest (le_Document l) = er_NonceDigest (ln_Request request)
    /\ executor_lease_nonce_history t !! ln_NextNonceDigest request = None
    /\ executorLeaseTimes (le_Document l) = Ok (renewAfter, expiry)
    /\ Before (ln_At request) renewAfter = false /\ Before (ln_At request) expiry = true
    /\ let row := renewedRow request (FormatRFC3339 (nextRenewal (ln_At request) expiry)) l in
       lease = le_Document row
       /\ t' = setLeases (<[id := row]> (target_execution_leases t))
            (setNonces (<[ln_NextNonceDigest request :=
               mkNonceRow (l_LeaseID (le_Document l)) (le_RenewalCount l + 1) (FormatRFC3339 (ln_At request))]>
               (executor_lease_nonce_history t)) t).
Proof.
  unfold renewLease. cbv zeta. intros E. apply bind_Ok in E as (l & Hl & E). apply readLease_Ok in Hl as (El & Hk & Hv).
  apply bind_Ok in E as ([] & _ & E). apply bind_Ok in E as ([] & Hn & E). apply require_Ok in Hn.
  apply bind_Ok in E as ([] & _ & E). apply bind_Ok in E as ([renewAfter expiry] & Ht & E).
  apply bind_Ok in E as ([] & Hw & E). apply require_Ok in Hw. apply bind_Ok in E as (t1 & Hi & E). injection E as E1 E2.
  unfold insertNonce in Hi. destruct (_ || _) eqn:Hg in Hi; [done|]. injection Hi as <-. bool_hyps.
  exists l, renewAfter, expiry. split_and!; try done.
  apply eq_None_not_Some. match goal with E : ~ is_Some _ |- _ => exact E end.
Qed.

Lemma renewed_kept request renewAfter l : 0 <= le_RenewalCount l -> leaseKept l (renewedRow request renewAfter l).
Proof.
  intros Hc. split_and!; [done|done|]. intros receipt [H1' H2']. split; [exact H1'|]. cbn. lia.
Qed.

Lemma renew_wf request current t lease t' : tables_wf t -> renewLease request current t = Ok (lease, t') -> tables_wf t'.
Proof.
  intros W E. apply renewLease_Ok in E as (l & renewAfter & expiry & El & Hk & Ha & Hv & Hn & Hfresh & Ht & _ & _ & _ & ->).
  set (id := er_LeaseID (ln_Request request)) in *. set (row := renewedRow _ _ l).
  set (nonces := <[ln_NextNonceDigest request := _]> _).
  pose proof (tw_leases _ W _ _ El) as L. pose proof (lw_renewals _ _ _ L) as Hc.
  assert (Hsub : executor_lease_nonce_history t ⊆ nonces) by by apply insert_subseteq.
  edestruct (runs_same t (setLeases (<[id := row]> (target_execution_leases t)) (setNonces nonces t)) W)
    as (R1 & R2 & R3); [done..|].
  assert (K : leasesKept t (setLeases (<[id := row]> (target_execution_leases t)) (setNonces nonces t))).
  { intros id' l' E. cbn. destruct (decide (id' = id)) as [-> |Hne].
    - rewrite lookup_insert_eq. eexists. split; [done|]. assert (l' = l) as -> by congruence. by apply renewed_kept.
    - rewrite lookup_insert_ne by done. eexists. split; [done|apply leaseKept_refl]. }
  constructor; try assumption; cbn; try apply W.
  - intros id' l' E. apply lookup_insert_Some in E as [[<- <-]|[_ E]].
    + destruct L. constructor; cbn; try done; [lia|]. intros _. eexists. unfold nonces. by rewrite lookup_insert_eq, lw_id0.
    + apply (lease_kept t); [eauto|done|by apply (tw_leases _ W)].
  - intros a b la lb Ea Eb. apply lookup_insert_Some in Ea as [[<- <-]|[Hna Ea]];
      apply lookup_insert_Some in Eb as [[<- <-]|[Hnb Eb]]; try done; cbn; by apply (tw_exclusive _ W).
  - intros id' x E. eapply receipt_kept; [exact K|by apply (tw_receipts _ W)].
  - intros id' x E. eapply receipt_kept; [exact K|by apply (tw_observations _ W)].
  - intros nonce n E. unfold nonces in E. apply lookup_insert_Some in E as [[<- <-]|[_ E]]; cbn.
    + rewrite (lw_id _ _ _ L), lookup_insert_eq. by eexists.
    + destruct (tw_nonces _ W _ _ E) as (l' & El' & Hk' & Hs). destruct (decide (nh_LeaseID n = id)) as [Heq|Hne].
      * rewrite Heq in El' |- *. assert (l' = l) as -> by congruence. rewrite lookup_insert_eq. eexists. split; [done|].
        split; [done|]. cbn. lia.
      * rewrite lookup_insert_ne by done. eauto.
Qed.

End External.

Section Outcomes.
Context `{Hasher} `{RunSchemas}.

(** A transition leaves its target status. *)
Lemma transition_status request run t run' t' :
  transitionMutation request run t = Ok (run', t') -> NoDup (map s_StepID (r_Steps run)) -> r_Status run' = tq_To request.
Proof.
  intros E Hd. unfold transitionMutation in E. apply bind_Ok in E as ([] & _ & E).
  apply bind_Ok in E as ([run1 t1] & E1 & E). cbv zeta in E. destruct (stopRun request run1 t1) as [run2 t2] eqn:E2.
  injection E as <- <-. apply resumeRun_Ok in E1 as [H1 Hone]; [|done].
  assert (Hs : r_Status run2 = tq_To request).
  { destruct Hone as [[-> ->]|Hrun].
    - apply stopRun_Ok in E2 as [(-> & _) _]; done.
    - unfold stopRun in E2. rewrite Hrun in E2. injection E2 as <- <-. by destruct H1 as (-> & _). }
  destruct (settleRun_rebuilt request run2) as (v & d & r & c & ->). exact Hs.
Qed.

(** Only a transition changes the status of a run. *)
Lemma mutation_status env call runID eventType mutate run t run' t' :
  mutationOf env call = Some (runID, eventType, mutate) -> mutate run t = Ok (run', t') ->
  NoDup (map s_StepID (r_Steps run)) ->
  r_Status run' = r_Status run
  \/ exists request, call = CallTransition request /\ tq_RunID request = runID /\ r_Status run' = tq_To request.
Proof.
  destruct call; cbn [mutationOf]; intros [= <- <- <-] E Hd.
  - right. exists request. split_and!; [done..|].     by eapply transition_status; [exact E|].
  - left. unfold cancellationMutation in E. by result_hyps.
  - left. unfold beginMutation in E. pair_hyps. by simplify_eq.
  - left. unfold receiptMutation in E. apply bind_Ok in E as (s & _ & E). apply bind_Ok in E as ([] & _ & E).
    destruct (_ == _) in E; pair_hyps; by simplify_eq.
  - left. unfold finishMutation in E. apply bind_Ok in E as (s & _ & E). apply bind_Ok in E as ([] & _ & E).
    destruct (_ && _) in E; pair_hyps; by simplify_eq.
  - left. unfold abandonMutation in E. pair_hyps. by simplify_eq.
  - left. unfold abandonMutation in E. pair_hyps. by simplify_eq.
  - left. unfold abandonMutation in E. pair_hyps. by simplify_eq.
Qed.

(** The receipts a call leaves: all that were there. *)
Definition receiptsKept (t t' : RunTables) : Prop :=
  execution_receipts t ⊆ execution_receipts t'
  /\ external_execution_observations t ⊆ external_execution_observations t'.

(** What a call does to the runs: it moves one of them (after it may have changed
    leases and nonces), creates one, prunes some or touches none. *)
Inductive outcome (call : RunCall) (t t' : RunTables) : Prop :=
| OutcomeMoved runID t1 row run :
    plan_runs t1 = plan_runs t -> plan_run_steps t1 = plan_run_steps t -> tables_wf t1 -> receiptsKept t t1 ->
    moved runID t1 row run t' ->
    r_Status run = rr_Status row
    \/ (exists request, call = CallTransition request /\ tq_RunID request = runID /\ r_Status run = tq_To request) ->
    outcome call t t'
| OutcomeSame :
    plan_runs t' = plan_runs t -> plan_run_steps t' = plan_run_steps t -> tables_wf t' -> receiptsKept t t' ->
    outcome call t t'
| OutcomeCreated request : call = CallCreate request -> allowed call = true -> created request t t' -> outcome call t t'
| OutcomePruned now r : call = CallPrune now -> pruneChange now t = Ok (r, t') -> outcome call t t'.

Lemma receiptsKept_refl t : receiptsKept t t.
Proof. done. Qed.

Lemma outcome_same call t t' : tables_wf t -> plan_runs t' = plan_runs t -> plan_run_steps t' = plan_run_steps t ->
  tables_wf t' -> execution_receipts t' = execution_receipts t ->
  external_execution_observations t' = external_execution_observations t -> outcome call t t'.
Proof. intros W E1 E2 W' E3 E4. apply OutcomeSame; try done. split; by rewrite ?E3, ?E4. Qed.

Lemma mutation_outcome env call runID eventType mutate t run t' :
  tables_wf t -> mutationOf env call = Some (runID, eventType, mutate) -> allowed call = true ->
  applyMutation runID eventType mutate t = Ok (run, t') -> outcome call t t'.
Proof.
  intros W Hm Ha E. destruct (mutation_moved _ _ _ _ _ _ _ _ W Hm Ha E) as (row & M).
  apply (OutcomeMoved _ _ _ runID t row run); try done.
  apply applyMutation_Ok in E as (row1 & t2 & Hrow & Hv & Hmut & _). rewrite (mv_row _ _ _ _ _ M) in Hrow.
  injection Hrow as <-. destruct (valid_NoDup _ Hv) as [Hd _].
  rewrite (rw_status _ _ _ (tw_runs _ W _ _ (mv_row _ _ _ _ _ M))).
  destruct (mutation_status _ _ _ _ _ _ _ _ _ Hm Hmut Hd) as [?|(request & -> & <- & ->)]; eauto.
Qed.

Lemma call_outcome env call t t' :
  tables_wf t -> allowed call = true -> callChange env call t = Ok t' -> outcome call t t'.
Proof.
  intros W Ha E. unfold callChange in E. destruct (mutationOf env call) as [[[runID eventType] mutate]|] eqn:Hm.
  { destruct (applyMutation runID eventType mutate t) as [[run t1]|e] eqn:Em; [|done]. injection E as <-.
    by eapply mutation_outcome. }
  destruct call; try discriminate Hm; cbn in E; try (injection E as <-; by apply OutcomeSame).
  - eapply OutcomeCreated; [done|done|by eapply createChange_Ok].
  - pose proof (lease_wf_insert _ _ _ _ W E) as W'. unfold leaseChange in E. apply bind_Ok in E as ([run plan] & _ & E).
    result_hyps. match goal with E : insertLease _ _ _ = _ |- _ => apply insertLease_Ok in E as (-> & _) end.
    by apply outcome_same.
  - injection E as <-. pose proof (release_wf leaseID t W) as W'. unfold releaseLease in *.
    repeat case_match; by apply outcome_same.
  - injection E as <-. apply outcome_same; try done. by apply releaseRun_wf.
  - assert (W' : tables_wf t') by (apply (operation_wf t); [done|left; do 5 eexists; exact E]).
    unfold claimChange in E. apply bind_Ok in E as ([] & _ & E). case_match; [done|]. simplify_eq. by apply outcome_same.
  - assert (W' : tables_wf t') by (apply (operation_wf t); [done|right; do 7 eexists; exact E]).
    unfold completeChange in E. case_match; [|done]. result_hyps. by apply outcome_same.
  - pose proof (event_wf _ _ _ W E). apply insertDetail_Ok in E as ->. by apply outcome_same.
  - destruct (pruneChange now t) as [[r t1]|e] eqn:Ep; [|done]. injection E as <-. by eapply OutcomePruned.
  - cbn in Ha. unfold claimAuthorized in Ha. bool_hyps.
    apply claimLease_Ok in E as (t1 & row & E1 & E2 & W1 & -> & _ & _ & _ & M & Hst); [|done..].
    eapply OutcomeMoved; [exact E1|exact E2|done|done|exact M|]. left.
    by rewrite (rw_status _ _ _ (tw_runs _ W1 _ _ (mv_row _ _ _ _ _ M))).
  - destruct (renewLease _ _ t) as [[lease t1]|] eqn:Er; [|done]. injection E as <-. pose proof (renew_wf _ _ _ _ _ W Er).
    apply renewLease_Ok in Er as (l & renewAfter & expiry & _ & _ & _ & _ & _ & _ & _ & _ & _ & _ & Ht). subst t1.
    by apply outcome_same.
  - destruct (expireLeases _ t) as [[leases t1]|] eqn:Er; [|done]. injection E as <-.
    apply expireLeases_ended in Er as Hl. pose proof (leasesEnded_wf _ _ W Hl). destruct Hl as [Ht _].
    apply outcome_same; try done; by rewrite Ht.
Qed.

(** Every call keeps the tables well formed. *)
Lemma outcome_wf call t t' : tables_wf t -> outcome call t t' -> tables_wf t'.
Proof.
  intros W [runID t1 row run _ _ W1 _ M _|? ? ? _|request -> Ha C|now r -> E]; [by eapply moved_wf|done| |].
  - by eapply created_wf.
  - by eapply prune_wf.
Qed.

Lemma perform_outcome env call store : tables_wf (tables (st_db store)) ->
  outcome call (tables (st_db store)) (tables (st_db (perform env call store))).
Proof.
  intros W. destruct (perform_changes env call store) as [->|E]; [by apply OutcomeSame|].
  destruct (perform_allowed env call store) as [->|Ha]; [by apply OutcomeSame|]. by eapply call_outcome.
Qed.

(** A pruning keeps rows as they were. *)
Lemma pruned_subseteq now t r t' : pruneChange now t = Ok (r, t') ->
  plan_runs t' ⊆ plan_runs t /\ plan_run_steps t' ⊆ plan_run_steps t.
Proof.
  intros E. unfold pruneChange in E. cbv zeta in E.
  apply bind_Ok in E as ([n t2] & E & Hr). injection Hr as _ <-. unfold deleteRuns in E. cbv zeta in E.
  destruct (existsb _ _) in E; [discriminate E|]. injection E as _ E. rewrite <- E. cbn.
  split; apply map_filter_subseteq.
Qed.

Lemma perform_wf env call store :
  tables_wf (tables (st_db store)) -> tables_wf (tables (st_db (perform env call store))).
Proof. intros W. eapply outcome_wf; [exact W|by apply perform_outcome]. Qed.

End Outcomes.

(** ** Properties *)

Section Properties.
Context `{Hasher} `{RunSchemas}.

(** A history: calls in the order in which the store served them. *)
Definition performAll (history : list (RunEnv * RunCall)) (store : Store RunTables) : Store RunTables :=
  fold_left (fun s c => perform c.1 c.2 s) history store.

Definition isPrune (call : RunCall) : bool := match call with CallPrune _ => true | _ => false end.

Lemma performAll_app h1 h2 store : performAll (h1 ++ h2) store = performAll h2 (performAll h1 store).
Proof. apply fold_left_app. Qed.

Lemma performAll_wf history store :
  tables_wf (tables (st_db store)) -> tables_wf (tables (st_db (performAll history store))).
Proof.
  revert store. induction history as [|[env call] history IH]; intros store W; [done|]. apply IH. by apply perform_wf.
Qed.

(** What one call does to the row of one run. *)
Lemma outcome_row call t t' id row row' :
  tables_wf t -> outcome call t t' -> plan_runs t !! id = Some row -> plan_runs t' !! id = Some row' ->
  row' = row \/ exists t1 run, tables_wf t1 /\ moved id t1 row run t' /\ row' = storedRow row run.
Proof.
  intros W O Hr Hr'. destruct O as [runID t1 row0 run Er _ W1 _ M _|Er _ _ _|request -> _ C|now r -> E].
  - rewrite (mv_runs _ _ _ _ _ M), Er in Hr'. pose proof (mv_row _ _ _ _ _ M) as Hr0. rewrite Er in Hr0.
    apply lookup_insert_Some in Hr' as [[<- <-]|[_ ?]]; [|left; congruence].
    assert (row0 = row) as -> by congruence. right. eauto.
  - left. congruence.
  - left. rewrite (cd_runs _ _ _ C) in Hr'. apply lookup_insert_Some in Hr' as [[<- _]|[_ ?]]; [|congruence].
    by rewrite (cd_fresh _ _ _ C) in Hr.
  - left. apply pruned_subseteq in E as [E _]. pose proof (lookup_weaken _ _ _ _ Hr' E). congruence.
Qed.

Lemma perform_row env call store id row row' :
  tables_wf (tables (st_db store)) -> plan_runs (tables (st_db store)) !! id = Some row ->
  plan_runs (tables (st_db (perform env call store))) !! id = Some row' ->
  row' = row \/ exists t1 run, tables_wf t1 /\ moved id t1 row run (tables (st_db (perform env call store)))
                               /\ row' = storedRow row run.
Proof. intros W. exact (outcome_row call _ _ id row row' W (perform_outcome env call store W)). Qed.

(** No transition leaves a terminal status. *)
Lemma terminal_no_transition from to : terminalRunStatus from = true -> ValidateRunTransition from to = false.
Proof.
  intros Ht. unfold terminalRunStatus in Ht. rewrite !orb_true_iff, !bool_decide_eq_true in Ht.
  destruct Ht as [[[-> | ->] | ->] | ->]; reflexivity.
Qed.

(** What one call does to one step row. *)
Lemma moved_step runID t row run t' stepID srow srow' :
  tables_wf t -> moved runID t row run t' ->
  plan_run_steps t !! stepID = Some srow -> plan_run_steps t' !! stepID = Some srow' ->
  planned (sr_Planned srow') = planned (sr_Planned srow) /\ sr_RunID srow' = sr_RunID srow
  /\ (srow' = srow \/ (sr_Status srow', sr_EffectState srow') = (sr_Status srow, sr_EffectState srow)
      \/ stepMoves (s_Idempotent (sr_Planned srow)) (sr_Status srow, sr_EffectState srow)
           (sr_Status srow', sr_EffectState srow')).
Proof.
  intros W M E E'. pose proof (moved_wf _ _ _ _ _ W M) as W'.
  pose proof (mv_mutated _ _ _ _ _ M) as (t1 & X & Hs & _). rewrite Hs in E'.
  destruct (frame_lookup _ _ _ _ _ (sy_frame _ _ _ _ _ (mu_sync _ _ _ _ X)) E') as (srow0 & E0 & Hid & Hsame).
  assert (srow0 = srow) as -> by congruence. pose proof (mv_row _ _ _ _ _ M) as Hr.
  pose proof (tw_runs _ W _ _ Hr) as R. pose proof (rw_id _ _ _ R) as Hrid. rewrite Hrid in *.
  destruct (decide (sr_RunID srow = runID)) as [Hown|Hn]; [|rewrite (Hsame Hn); auto].
  destruct (tw_owned _ W _ _ E) as (row0 & s & Hr0 & Hin & Hsid). rewrite Hown in Hr0.
  assert (row0 = row) as -> by congruence.
  destruct (moves_member _ _ _ (sy_moves _ _ _ _ _ (mu_sync _ _ _ _ X)) Hin) as (s' & Hin' & Hm).
  destruct (rw_steps _ _ _ R _ Hin) as (x & Ex & Hx). rewrite Hsid in Ex. assert (x = srow) as -> by congruence.
  pose proof (tw_runs _ W' runID (storedRow row run)) as R'. rewrite (mv_runs _ _ _ _ _ M), lookup_insert_eq in R'.
  destruct (rw_steps _ _ _ (R' eq_refl) _ Hin') as (x & Ex' & Hx').
  destruct (stepMove_id _ _ Hm) as [Hi1 Hi2]. rewrite Hi1, Hsid, Hs in Ex'. assert (x = srow') as -> by congruence.
  destruct Hx as (_ & P1 & S1 & F1), Hx' as (_ & P2 & S2 & F2), Hm as [Hp Hm].
  assert (Hidem : s_Idempotent (sr_Planned srow) = s_Idempotent s) by (injection P1; auto).
  split_and!; [congruence|done|]. right. rewrite S1, F1, S2, F2, Hidem. destruct Hm as [-> |Hm]; auto.
Qed.

(** One call and one step row: it keeps its run and its planned fields, and it
    stays in its state or makes one move. *)
Lemma outcome_step call t t' stepID srow :
  tables_wf t -> outcome call t t' -> isPrune call = false -> plan_run_steps t !! stepID = Some srow ->
  exists srow', plan_run_steps t' !! stepID = Some srow'
    /\ planned (sr_Planned srow') = planned (sr_Planned srow) /\ sr_RunID srow' = sr_RunID srow
    /\ ((sr_Status srow', sr_EffectState srow') = (sr_Status srow, sr_EffectState srow)
        \/ stepMoves (s_Idempotent (sr_Planned srow)) (sr_Status srow, sr_EffectState srow)
             (sr_Status srow', sr_EffectState srow')).
Proof.
  intros W O Hp Hs. destruct O as [runID t1 row0 run _ Es W1 _ M _|_ Es _ _|request -> _ C|now r -> E]; [| | |done].
  - rewrite <- Es in Hs. pose proof (mv_mutated _ _ _ _ _ M) as (t2 & X & Hrows & _).
    pose proof (sy_frame _ _ _ _ _ (mu_sync _ _ _ _ X) stepID) as F. rewrite Hs, <- Hrows in F.
    inversion F as [? srow' _ Ex Hs'|]; subst. exists srow'. split; [done|].
    destruct (moved_step _ _ _ _ _ _ _ _ W1 M Hs (eq_sym Hs')) as (P1 & P2 & [-> |P3]); auto.
  - exists srow. rewrite Es. auto.
  - exists srow. rewrite (cd_old _ _ _ C); [auto|]. intros (s & -> & Hin)%list_elem_of_fmap.
    apply (cd_new _ _ _ C) in Hin as [Hn _]. congruence.
Qed.

Lemma perform_step env call store stepID srow :
  tables_wf (tables (st_db store)) -> isPrune call = false ->
  plan_run_steps (tables (st_db store)) !! stepID = Some srow ->
  exists srow', plan_run_steps (tables (st_db (perform env call store))) !! stepID = Some srow'
    /\ planned (sr_Planned srow') = planned (sr_Planned srow) /\ sr_RunID srow' = sr_RunID srow
    /\ ((sr_Status srow', sr_EffectState srow') = (sr_Status srow, sr_EffectState srow)
        \/ stepMoves (s_Idempotent (sr_Planned srow)) (sr_Status srow, sr_EffectState srow)
             (sr_Status srow', sr_EffectState srow')).
Proof. intros W. exact (outcome_step call _ _ stepID srow W (perform_outcome env call store W)). Qed.

End Properties.

(** ** Theorems *)

Section Theorems.
Context `{Hasher} `{RunSchemas}.

(** Whatever calls the store serves, in whatever order and under whatever
    failures, the tables stay well formed: every run row repeats its valid
    document and is bound to its stored plan, every step row mirrors its document
    and belongs to its run, at most one active lease holds a target or a step,
    and every receipt is bound to the one lease it was recorded under. *)
Theorem repository_keeps_tables_well_formed history store :
  tables_wf (tables (st_db store)) -> tables_wf (tables (st_db (performAll history store))).
Proof. apply performAll_wf. Qed.

(** C31: in one call the status of a run stays or moves along the contract's
    transition table, so a terminal run keeps its status and its cancellation
    flag for good, and a requested cancellation is never withdrawn. Everything a
    run was created with stays: its identity, its plan, its acknowledgement and
    authorization decision, its executor, its state revision and recovery epoch,
    its creation time and extensions, and the list of its steps with all that was
    planned of them; each of these stays in its state or makes one move of the
    machine of steps. *)
Theorem run_life_cycle env call store runID row row' :
  tables_wf (tables (st_db store)) -> plan_runs (tables (st_db store)) !! runID = Some row ->
  plan_runs (tables (st_db (perform env call store))) !! runID = Some row' ->
  let run := rr_Document row in
  let run' := rr_Document row' in
  (rr_Status row' = rr_Status row \/ ValidateRunTransition (rr_Status row) (rr_Status row') = true)
  /\ (terminalRunStatus (rr_Status row) = true -> rr_Status row' = rr_Status row
      /\ rr_CancellationRequested row' = rr_CancellationRequested row)
  /\ (rr_CancellationRequested row = true -> rr_CancellationRequested row' = true)
  /\ r_RunID run' = r_RunID run /\ rr_PlanID row' = rr_PlanID row /\ r_PlanDigest run' = r_PlanDigest run
  /\ rr_AcknowledgementID row' = rr_AcknowledgementID row
  /\ r_AuthorizationDecisionID run' = r_AuthorizationDecisionID run /\ r_PolicyVersion run' = r_PolicyVersion run
  /\ r_ExecutorMode run' = r_ExecutorMode run /\ r_ExecutorID run' = r_ExecutorID run
  /\ r_ExecutorBindingDigest run' = r_ExecutorBindingDigest run
  /\ r_StateRevision run' = r_StateRevision run /\ r_RecoveryEpoch run' = r_RecoveryEpoch run
  /\ r_CreatedAt run' = r_CreatedAt run /\ r_Extensions run' = r_Extensions run
  /\ rr_SubmitKeyDigest row' = rr_SubmitKeyDigest row
  /\ map planned (r_Steps run') = map planned (r_Steps run)
  /\ Forall2 (fun s s' => (s_Status s', s_EffectState s') = (s_Status s, s_EffectState s)
        \/ stepMoves (s_Idempotent s) (s_Status s, s_EffectState s) (s_Status s', s_EffectState s'))
       (r_Steps run) (r_Steps run').
Proof.
  intros W Hr Hr'. cbv zeta.
  destruct (perform_row env call store runID row row' W Hr Hr') as [-> |(t1 & run & W1 & M & ->)].
  { split_and!; auto. apply Forall2_same_length_lookup_2; [done|]. intros i s s' E E'. left. congruence. }
  pose proof (tw_runs _ W _ _ Hr) as R. pose proof (mv_mutated _ _ _ _ _ M) as (t2 & X & _ & _). cbn.
  rewrite (rw_status _ _ _ R), (rw_cancellation _ _ _ R).
  assert (Hs := mu_status _ _ _ _ X). assert (Hc := mu_cancelled _ _ _ _ X).
  pose proof (sy_moves _ _ _ _ _ (mu_sync _ _ _ _ X)) as Hm. destruct (moves_planned _ _ Hm) as [Hp Hmoves].
  assert (Hcan := mu_cancellation _ _ _ _ X).
  pose proof (mu_identity _ _ _ _ X) as Hid.
  split_and!; try done; try (rewrite Hid; done).
  intros Ht. destruct Hs as [Hs|Hs]; [|by rewrite terminal_no_transition in Hs]. split; [done|].
  destruct Hc as [Hc|[Hc _]]; [done|congruence].
Qed.

(** C30: a step of a run is never lost and never rewritten: in one call it keeps
    its run and all its planned fields, and its status with its effect state
    stays or makes one move of the machine, in which an intent precedes a
    receipt, a receipt precedes a verification, a verified or unknown effect is
    final and only an idempotent step that did not start is queued again. *)
Theorem step_state_machine env call store stepID srow :
  tables_wf (tables (st_db store)) -> isPrune call = false ->
  plan_run_steps (tables (st_db store)) !! stepID = Some srow ->
  exists srow', plan_run_steps (tables (st_db (perform env call store))) !! stepID = Some srow'
    /\ planned (sr_Planned srow') = planned (sr_Planned srow) /\ sr_RunID srow' = sr_RunID srow
    /\ ((sr_Status srow', sr_EffectState srow') = (sr_Status srow, sr_EffectState srow)
        \/ stepMoves (s_Idempotent (sr_Planned srow)) (sr_Status srow, sr_EffectState srow)
             (sr_Status srow', sr_EffectState srow')).
Proof. apply perform_step. Qed.

(** A call that records the intent of a step: the write-ahead record of the
    effect the engine is about to execute. *)
Definition beginsStep (env : RunEnv) (call : RunCall) (store : Store RunTables) (stepID : string) : Prop :=
  exists srow srow', plan_run_steps (tables (st_db store)) !! stepID = Some srow
    /\ plan_run_steps (tables (st_db (perform env call store))) !! stepID = Some srow'
    /\ sr_EffectState srow <> "intent-recorded" /\ sr_EffectState srow' = "intent-recorded".

(** A non-idempotent step that has started is not waiting, for good. *)
Definition startedOnce (stepID : string) (t : RunTables) : Prop :=
  exists srow, plan_run_steps t !! stepID = Some srow /\ s_Idempotent (sr_Planned srow) = false
    /\ sr_Status srow <> "queued".

Lemma moves_to_queued i a e : ~ stepMoves i a ("queued", e) \/ i = true.
Proof.
  destruct i; [by right|left]. intros M. inversion M; subst;
    match goal with E : "queued" ∈ _ |- _ => not_in_list E | _ => done end.
Qed.

Lemma startedOnce_kept env call store stepID :
  tables_wf (tables (st_db store)) -> isPrune call = false ->
  startedOnce stepID (tables (st_db store)) -> startedOnce stepID (tables (st_db (perform env call store))).
Proof.
  intros W Hp (srow & Hs & Hi & Hq). destruct (perform_step env call store stepID srow W Hp Hs) as (srow' & Hs' & P & _ & Hm).
  exists srow'. split; [done|]. assert (Hi' : s_Idempotent (sr_Planned srow') = false) by (injection P; congruence).
  split; [done|]. intros Hq'. destruct Hm as [Hm|Hm]; [congruence|]. rewrite Hq' in Hm.
  destruct (moves_to_queued (s_Idempotent (sr_Planned srow)) (sr_Status srow, sr_EffectState srow) (sr_EffectState srow'));
    [done|congruence].
Qed.

(** The intent of a step that is not idempotent is recorded at most once:
    in any history of calls without a pruning, under any interleaving, failures
    and retries, once one call has recorded the intent no later call does, so
    the effect of such a step is started at most once across crashes, resumes
    and reconciliations. *)
Theorem intent_recorded_at_most_once env call between env' call' store stepID srow :
  tables_wf (tables (st_db store)) -> Forall (fun c => isPrune c.2 = false) ((env, call) :: between) ->
  isPrune call' = false ->
  plan_run_steps (tables (st_db store)) !! stepID = Some srow -> s_Idempotent (sr_Planned srow) = false ->
  beginsStep env call store stepID ->
  ~ beginsStep env' call' (performAll between (perform env call store)) stepID.
Proof.
  intros W Hall Hp' Hs Hi (x & x' & Ex & Ex' & Hn & He). assert (x = srow) as -> by congruence.
  apply Forall_cons in Hall as [Hp Hall]. cbn in Hp.
  destruct (perform_step env call store stepID srow W Hp Hs) as (srow' & Hs' & P & _ & Hm).
  assert (x' = srow') as -> by congruence.
  assert (S0 : startedOnce stepID (tables (st_db (perform env call store)))).
  { exists srow'. split; [done|]. split; [injection P; congruence|]. destruct Hm as [Hm|Hm]; [congruence|].
    rewrite He in Hm. inversion Hm; subst; congruence. }
  pose proof (perform_wf env call store W) as W0. clear W Hs Ex Ex' Hs'.
  revert W0 S0. generalize (perform env call store). clear -Hall Hp'. induction between as [|[e c] between IH]; intros s W0 S0.
  - cbn. intros (y & y' & Ey & Ey' & Hn & He). destruct S0 as (y0 & Ey0 & Hi & Hq). assert (y0 = y) as -> by congruence.
    destruct (perform_step env' call' s stepID y W0 Hp' Ey) as (z & Ez & _ & _ & Hm). assert (z = y') as -> by congruence.
    destruct Hm as [Hm|Hm]; [congruence|]. rewrite He in Hm. inversion Hm; subst; congruence.
  - apply Forall_cons in Hall as [Hc Hall]. cbn in Hc. apply IH; [done|by apply perform_wf|by apply startedOnce_kept].
Qed.

End Theorems.

Section Receipts.
Context `{Hasher} `{RunSchemas}.

(** No effect is recorded or verified without a stored receipt of its step. *)
Definition receipted (t : RunTables) : Prop :=
  forall stepID srow, plan_run_steps t !! stepID = Some srow ->
    sr_EffectState srow = "receipt-recorded" \/ sr_EffectState srow = "verified" ->
    exists x, receiptOf t x /\ xr_StepID x = stepID.

(** A creation whose steps have not started, as the engine makes them. *)
Definition freshCall (call : RunCall) : bool :=
  match call with
  | CallCreate request => forallb (fun s => (s_Status s == "queued") && (s_EffectState s == "not-started"))
                            (r_Steps (cq_Run request))
  | _ => true
  end.

Lemma receiptOf_kept t t' x : receiptsKept t t' -> receiptOf t x -> receiptOf t' x.
Proof. intros [H1' H2'] (id & [E|E]); exists id; [left|right]; by eapply lookup_weaken. Qed.

Lemma moved_receipts_grow runID t row run t' : moved runID t row run t' -> receiptsKept t t'.
Proof.
  intros M. split; [|by rewrite (mv_observations _ _ _ _ _ M)]. pose proof (mv_mutated _ _ _ _ _ M) as (t1 & X & _ & ->).
  destruct (mu_receipts _ _ _ _ X) as [->|(l & lease & sid & rc & _ & _ & _ & Hins)]; [done|].
  pose proof (insertReceipt_Ok _ _ _ _ Hins) as Hi. apply (f_equal execution_receipts) in Hi. cbn in Hi. rewrite Hi.
  unfold insertReceipt in Hins. destruct (_ || _) eqn:Hg in Hins; [done|]. bool_hyps. apply insert_subseteq.
  apply eq_None_not_Some. match goal with E : ~ is_Some _ |- _ => exact E end.
Qed.

(** The step rows of a moved run, with the documents before and after. *)
Lemma moved_documents runID t row run t' stepID srow' :
  tables_wf t -> moved runID t row run t' -> plan_run_steps t' !! stepID = Some srow' ->
  exists srow, plan_run_steps t !! stepID = Some srow
    /\ (srow' = srow \/ exists i s s', r_Steps (rr_Document row) !! i = Some s /\ r_Steps run !! i = Some s'
          /\ stepMove s s' /\ s_StepID s' = stepID /\ sr_EffectState srow = s_EffectState s
          /\ sr_EffectState srow' = s_EffectState s').
Proof.
  intros W M Es'. pose proof (moved_wf _ _ _ _ _ W M) as W'. pose proof (mv_mutated _ _ _ _ _ M) as (t1 & X & Hs & Hx).
  pose proof Es' as Es1. rewrite Hs in Es1.
  destruct (frame_lookup _ _ _ _ _ (sy_frame _ _ _ _ _ (mu_sync _ _ _ _ X)) Es1) as (srow & Es & Hid & Hsame).
  exists srow. split; [done|].
  pose proof (tw_runs _ W _ _ (mv_row _ _ _ _ _ M)) as R. pose proof (rw_id _ _ _ R) as Hrid. rewrite Hrid in *.
  destruct (decide (sr_RunID srow = runID)) as [Hown|Hn]; [right|left; by apply Hsame].
  destruct (tw_owned _ W' _ _ Es') as (row' & s' & Er' & Hin' & Hsid). rewrite Hid, Hown in Er'.
  rewrite (mv_runs _ _ _ _ _ M), lookup_insert_eq in Er'. injection Er' as <-. cbn in Hin'.
  pose proof (tw_runs _ W' runID (storedRow row run)) as R'. rewrite (mv_runs _ _ _ _ _ M), lookup_insert_eq in R'.
  destruct (rw_steps _ _ _ (R' eq_refl) _ Hin') as (y & Ey & _ & _ & _ & Fy). rewrite Hsid in Ey.
  assert (y = srow') as -> by congruence. apply list_elem_of_lookup in Hin' as [i Hi].
  destruct (Forall2_lookup_r _ _ _ _ _ (sy_moves _ _ _ _ _ (mu_sync _ _ _ _ X)) Hi) as (s & His & Hm).
  destruct (rw_steps _ _ _ R _ (list_elem_of_lookup_2 _ _ _ His)) as (z & Ez & _ & _ & _ & Fz).
  rewrite <- (proj1 (stepMove_id _ _ Hm)), Hsid in Ez. assert (z = srow) as -> by congruence.
  exists i, s, s'. by split_and!.
Qed.

Lemma moved_receipted runID t row run t' :
  tables_wf t -> moved runID t row run t' -> receipted t -> receipted t'.
Proof.
  intros W M Hr stepID srow' Es' He. pose proof (moved_receipts_grow _ _ _ _ _ M) as Hg.
  assert (Hgrow : forall srow, plan_run_steps t !! stepID = Some srow ->
    sr_EffectState srow = "receipt-recorded" \/ sr_EffectState srow = "verified" ->
    exists x, receiptOf t' x /\ xr_StepID x = stepID).
  { intros srow E E'. destruct (Hr _ _ E E') as (x & Hx & Hid). exists x. split; [by eapply receiptOf_kept|done]. }
  destruct (moved_documents _ _ _ _ _ _ _ W M Es') as (srow & Es & [->|(i & s & s' & Hi & Hi' & Hm & Hsid & Fs & Fs')]);
    [by eapply Hgrow|]. rewrite Fs' in He. pose proof (mv_mutated _ _ _ _ _ M) as (t1 & X & Hs & Hx).
  destruct (Forall2_lookup_r _ _ _ _ _ (mu_recorded _ _ _ _ X) Hi') as (s2 & His2 & Hrec).
  assert (s2 = s) as -> by congruence. destruct He as [He|He].
  - destruct (Hrec He) as [He0|(x & (id & Hx0) & Hxs)]; [eapply Hgrow; [done|left; congruence]|].
    exists x. split; [|congruence]. exists id. rewrite Hx. destruct Hx0 as [Hx0|Hx0]; [by left|right].
    rewrite (mu_tables _ _ _ _ X) in Hx0. by rewrite (mv_observations _ _ _ _ _ M).
  - eapply Hgrow; [done|]. rewrite Fs. destruct Hm as [_ [-> |Hm]]; [by right|]. rewrite He in Hm. inversion Hm; subst; auto.
Qed.

(** A pruning keeps the receipts of the steps it keeps. *)
Lemma pruned_receipted now t r t' : tables_wf t -> pruneChange now t = Ok (r, t') -> receipted t -> receipted t'.
Proof.
  intros W Ep Hr. unfold pruneChange in Ep. cbv zeta in Ep. apply bind_Ok in Ep as ([n t2] & Ep & ?). simplify_eq.
  unfold deleteRuns in Ep. cbv zeta in Ep. destruct (existsb _ _) in Ep; [done|]. injection Ep as <- <-.
  intros sid srow Es He. cbn in *. apply map_lookup_filter_Some in Es as [Es Ha].
  destruct (Hr _ _ Es He) as (x & (id & Hx) & Hid). exists x. split; [|done]. exists id. cbn.
  assert (Hw : receipt_wf t id x) by (destruct Hx; [by apply (tw_receipts _ W)|by apply (tw_observations _ W)]).
  destruct Hw as [_ (l & El & E1 & E2 & _)].
  destruct (tw_leases _ W _ _ El) as [_ _ _ _ _ (srow0 & Es0 & Er0) _ _]. rewrite E2, Hid, Es in Es0. injection Es0 as <-.
  destruct Hx as [Hx|Hx]; [left|right]; (apply map_lookup_filter_Some; split; [done|]; cbn in *;
    rewrite <- E1, <- Er0; exact Ha).
Qed.

Lemma outcome_receipted call t t' :
  tables_wf t -> outcome call t t' -> freshCall call = true -> receipted t -> receipted t'.
Proof.
  intros W O Hf Hr. destruct O as [runID t1 row run _ Es W1 K M _|_ Es _ K|request -> _ C|now r -> E].
  - eapply moved_receipted; [exact W1|exact M|]. intros sid srow E He. rewrite Es in E.
    destruct (Hr _ _ E He) as (x & Hx & Hid). exists x. split; [by eapply receiptOf_kept|done].
  - intros sid srow E He. rewrite Es in E. destruct (Hr _ _ E He) as (x & Hx & Hid). exists x.
    split; [by eapply receiptOf_kept|done].
  - assert (K : receiptsKept t t') by (split; by rewrite ?(cd_receipts _ _ _ C), ?(cd_observations _ _ _ C)).
    intros sid srow Es He. destruct (decide (sid ∈ map s_StepID (r_Steps (cq_Run request)))) as [Hin|Hn].
    + apply list_elem_of_fmap in Hin as (s & -> & Hin). rewrite (proj2 (cd_new _ _ _ C _ Hin)) in Es. simplify_eq.
      cbn in He, Hf. rewrite forallb_forall in Hf. apply list_elem_of_In, Hf in Hin. bool_hyps. destruct He; congruence.
    + rewrite (cd_old _ _ _ C) in Es by done. destruct (Hr _ _ Es He) as (x & Hx & Hid). exists x.
      split; [by eapply receiptOf_kept|done].
  - by eapply pruned_receipted.
Qed.

(** What a stored receipt of a step says: it names the step, and it is bound to
    a lease of the step and of its run. *)
Lemma receiptOf_bound t x srow : tables_wf t -> receiptOf t x -> plan_run_steps t !! xr_StepID x = Some srow ->
  exists l, target_execution_leases t !! xr_LeaseID x = Some l /\ le_StepID l = xr_StepID x
            /\ le_RunID l = sr_RunID srow /\ receiptBound l (xr_Document x).
Proof.
  intros W (id & Hx) Es.
  assert (Hw : receipt_wf t id x) by (destruct Hx; [by apply (tw_receipts _ W)|by apply (tw_observations _ W)]).
  destruct Hw as [_ (l & El & E1 & E2 & E3)]. destruct (tw_leases _ W _ _ El) as [_ _ _ _ _ (srow0 & Es0 & Er0) _ _].
  rewrite E2, Es in Es0. injection Es0 as <-. exists l. split_and!; congruence.
Qed.

(** In every history whose runs are created with steps that have not
    started, an effect is only ever marked as recorded or verified when a
    receipt of that step is durably stored, of a central execution or as an
    observation of an external executor, bound field by field to a lease of the
    same run and step. *)
Theorem recorded_effect_has_receipt history store :
  tables_wf (tables (st_db store)) -> receipted (tables (st_db store)) ->
  Forall (fun c => freshCall c.2 = true) history ->
  let t := tables (st_db (performAll history store)) in
  forall stepID srow, plan_run_steps t !! stepID = Some srow ->
    sr_EffectState srow = "receipt-recorded" \/ sr_EffectState srow = "verified" ->
    exists x l, receiptOf t x /\ xr_StepID x = stepID /\ target_execution_leases t !! xr_LeaseID x = Some l
      /\ le_StepID l = stepID /\ le_RunID l = sr_RunID srow /\ receiptBound l (xr_Document x).
Proof.
  intros W Hr Hall t stepID srow Es He. subst t. revert store W Hr Es. induction Hall as [|[env call] history Hc Hall IH];
    intros store W Hr Es.
  - cbn in *. destruct (Hr _ _ Es He) as (x & Hx & <-). destruct (receiptOf_bound _ _ _ W Hx Es) as (l & El & E1 & E2 & E3).
    exists x, l. by split_and!.
  - apply (IH (perform env call store)); [by apply perform_wf| |exact Es].
    eapply outcome_receipted; [exact W|by apply perform_outcome|exact Hc|exact Hr].
Qed.

End Receipts.

Section Idempotence.
Context `{Hasher} `{RunSchemas}.

(** Recorded intent keys stay recorded. *)
Definition grows {A} (m : action (Store RunTables) A) : Prop :=
  forall store, intent_keys (st_db store) ⊆ intent_keys (st_db (m store).2).

Lemma grows_keeps {A} (m : action (Store RunTables) A) : keeps_db m -> grows m.
Proof. intros Hm store. destruct (m store) as [r s1] eqn:E. cbn. by rewrite (Hm _ _ _ E). Qed.

Lemma grows_bind {A B} (m : action (Store RunTables) A) (f : A -> action (Store RunTables) B) :
  grows m -> (forall x, grows (f x)) -> grows (m ≫= f).
Proof.
  intros Hm Hf store. unfold mbind, action_bind. specialize (Hm store). destruct (m store) as [[x|e] s1]; [|done].
  etrans; [exact Hm|]. apply Hf.
Qed.

Lemma grows_intent env request change : grows (executeAuditIntent (T:=RunTables) env request false change).
Proof.
  intros store. destruct (executeAuditIntent _ _ _ _ _) as [r s1] eqn:E. cbn.
  apply executeAuditIntent_outcome in E as [[E _]|(res & event & p & d & l & A & _)]; [by rewrite E|].
  rewrite (ap_intents _ _ _ _ _ _ _ _ _ _ _ A). apply insert_subseteq, A.
Qed.

Lemma grows_exec {A} env (f : RunTables -> A * RunTables) : grows (execTables env f).
Proof.
  unfold execTables. apply grows_bind; [apply grows_keeps, keeps_readyForTransaction|]. intros _ store.
  by destruct (te_sql env Business).
Qed.

(** Walks through the code of a method: writes, and computations that leave the
    database alone. *)
Ltac grows_code :=
  repeat (intros; lazymatch goal with
    | |- grows (executeAuditIntent _ _ _ _) => apply grows_intent
    | |- grows (execTables _ _) => apply grows_exec
    | |- grows (_ ≫= _) => apply grows_bind
    | |- grows (check _ _) => apply grows_keeps, keeps_check
    | |- grows (mret _) => apply grows_keeps, keeps_mret
    | |- grows (lift _) => apply grows_keeps, keeps_lift
    | |- grows (gets _) => apply grows_keeps, keeps_gets
    | |- grows (existing _ _ _) => apply grows_keeps, keeps_existing
    | |- grows (existingRequired _ _ _) => unfold existingRequired
    | |- grows (roleReservationSnapshot _ _) => apply grows_keeps, keeps_role
    | |- grows (runOperation _ _ _ _ _) => apply grows_keeps, keeps_runOperation
    | |- grows (discoverExpiredRecovery _ _) => apply grows_keeps, keeps_Read
    | |- grows (match ?x with _ => _ end) => destruct x
    end).

Lemma mutateRun_grows env runID eventType mutationID attribution mutate store :
  intent_keys (st_db store) ⊆ intent_keys (st_db (mutateRun env runID eventType mutationID attribution mutate store).2).
Proof.
  unfold mutateRun. destruct (negb _); [done|]. cbv zeta.
  pose proof (grows_intent (re_tx env) (mutationIntent runID eventType mutationID attribution)
    (Some (fun _ t => snd <$> applyMutation runID eventType mutate t)) store) as Hg.
  destruct (executeAuditIntent _ _ _ _ _) as [[intent|e] s1]; cbn in Hg; [|done].
  destruct (ir_Created intent); [done|]. destruct (Get env runID s1) as [[run|e] s2] eqn:E;
    apply keeps_Get in E; cbn; by rewrite E.
Qed.

Lemma after_grows env runID k store :
  (forall s1, intent_keys (st_db s1) ⊆ intent_keys (st_db (k s1).2)) ->
  intent_keys (st_db store) ⊆ intent_keys (st_db (after (roleReservationSnapshot env runID) k store).2).
Proof.
  intros Hk. unfold after. destruct (roleReservationSnapshot env runID store) as [[u|e] s1] eqn:E;
    apply keeps_role in E; rewrite <- E; [apply Hk|done].
Qed.

Lemma perform_grows env call store :
  intent_keys (st_db store) ⊆ intent_keys (st_db (perform env call store)).
Proof.
  destruct call; cbn [perform];
    try (unfold TransitionRun, RequestCancellation, BeginStep, RecordReceipt, FinishStep, MarkStepUnknown,
           FailStepBeforeEffect, InterruptStepBeforeEffect;
         first [apply mutateRun_grows | destruct (negb _); [done|]; first [apply mutateRun_grows
               | apply after_grows; intros; apply mutateRun_grows]]).
  - revert store. change (grows (Create env request)). unfold Create. cbv zeta. grows_code.
  - revert store. change (grows (AcquireTargetLease env lease attribution)). unfold AcquireTargetLease. cbv zeta. grows_code.
  - revert store. change (grows (ReleaseTargetLease env leaseID at_)). unfold ReleaseTargetLease. cbv zeta. grows_code.
  - revert store. change (grows (ReleaseRunLeases env runID at_)). unfold ReleaseRunLeases. cbv zeta. grows_code.
  - revert store. change (grows (ClaimRunOperation env operation runID keyDigest requestDigest at_ attribution)). unfold ClaimRunOperation. cbv zeta. grows_code.
  - revert store. change (grows (CompleteRunOperation env operation runID keyDigest requestDigest run errorCode at_ attribution)). unfold CompleteRunOperation. cbv zeta. grows_code.
  - revert store. change (grows (AppendRunEvent env request)). unfold AppendRunEvent. cbv zeta. grows_code.
  - unfold PruneRunHistory. apply grows_bind; [apply grows_keeps, keeps_check|]. intros _.
    apply grows_bind; [apply grows_keeps, keeps_readyForTransaction|]. intros _ s1.
    destruct (te_sql (re_tx env) BeginTx); [by apply grows_keeps, keeps_transactionError|].
    destruct (te_sql (re_tx env) Business); [done|].
    unfold mbind, action_bind, gets, mret, action_ret, modify. cbn.
    destruct (pruneChange now (tables (st_db s1))) as [[result t]|e] eqn:E; [|done].
    destruct (te_sql (re_tx env) CommitTx) as [cause|]; [|done].
    destruct (te_commitDurable (re_tx env)); rewrite transactionError_result; cbn [snd];
      by destruct (Code _ == _).
  - by rewrite (keeps_tables _ _ (keeps_Get env runID)).
  - by rewrite (keeps_tables _ _ (keeps_ActiveRuns env)).
  - revert store. change (grows (Claim env request)). unfold Claim. cbv zeta. grows_code.
  - revert store. change (grows (Renew env request)). unfold Renew. cbv zeta. grows_code.
  - revert store. change (grows (Expire env request)). unfold Expire. cbv zeta. grows_code.
  - revert store. change (grows (RecordAuthorizationDenial env request)). unfold RecordAuthorizationDenial. cbv zeta. grows_code.
  - by rewrite (keeps_tables _ _ (keeps_GetLease env leaseID)).
Qed.

Lemma performAll_grows history store :
  intent_keys (st_db store) ⊆ intent_keys (st_db (performAll history store)).
Proof.
  revert store. induction history as [|[env call] history IH]; intros store; [done|].
  etrans; [apply (perform_grows env call)|apply IH].
Qed.

(** The intent key of a mutation. *)
Definition mutationKey (runID eventType mutationID : string) : string * string :=
  ("run-mutation", digestParts ["run-mutation-key"; runID; eventType; mutationID]).

Lemma mutateRun_replayed env runID eventType mutationID attribution mutate store :
  is_Some (intent_keys (st_db store) !! mutationKey runID eventType mutationID) ->
  st_db (mutateRun env runID eventType mutationID attribution mutate store).2 = st_db store.
Proof.
  intros [row Hk]. unfold mutateRun. destruct (negb _); [done|]. cbv zeta.
  destruct (executeAuditIntent _ _ _ _ _) as [r s1] eqn:E.
  assert (Hdb : st_db s1 = st_db store).
  { apply executeAuditIntent_outcome in E as [[E _]|(res & event & p & d & l & A & _)]; [done|].
    pose proof (ap_fresh _ _ _ _ _ _ _ _ _ _ _ A) as Hn. unfold mutationKey in Hk. cbn in Hn. congruence. }
  destruct r as [intent|e]; [|done]. destruct (ir_Created intent); [done|].
  destruct (Get env runID s1) as [[run|e] s2] eqn:E2; apply keeps_Get in E2; cbn; congruence.
Qed.

(** A mutation that took effect has recorded its key. *)
Lemma mutateRun_records env runID eventType mutationID attribution mutate store :
  let s1 := (mutateRun env runID eventType mutationID attribution mutate store).2 in
  st_db s1 = st_db store \/ is_Some (intent_keys (st_db s1) !! mutationKey runID eventType mutationID).
Proof.
  cbv zeta. unfold mutateRun. destruct (negb _); [by left|]. cbv zeta.
  destruct (executeAuditIntent _ _ _ _ _) as [r s1] eqn:E.
  assert (Hdb : st_db s1 = st_db store \/ is_Some (intent_keys (st_db s1) !! mutationKey runID eventType mutationID)).
  { apply executeAuditIntent_outcome in E as [[E _]|(res & event & p & d & l & A & _)]; [by left|right].
    rewrite (ap_intents _ _ _ _ _ _ _ _ _ _ _ A). unfold mutationKey. cbn. rewrite lookup_insert_eq. by eexists. }
  destruct r as [intent|e]; [|done]. destruct (ir_Created intent); [done|].
  destruct (Get env runID s1) as [[run|e] s2] eqn:E2; apply keeps_Get in E2; cbn; by rewrite E2.
Qed.

(** A transition is identified by its run, its two statuses and its instant:
    once a call of [TransitionRun] changed the store, a later call with the same
    identity, whatever happened between the two, leaves the database alone. *)
Theorem transition_applied_at_most_once env request between env' request' store :
  tq_RunID request' = tq_RunID request -> tq_From request' = tq_From request -> tq_To request' = tq_To request ->
  tq_At request' = tq_At request ->
  st_db (TransitionRun env request store).2 <> st_db store ->
  let later := performAll between (TransitionRun env request store).2 in
  st_db (TransitionRun env' request' later).2 = st_db later.
Proof.
  intros E1 E2 E3 E4 Hch later. subst later. unfold TransitionRun at 1.
  destruct (negb _); [done|]. apply mutateRun_replayed. rewrite E1, E2, E3, E4.
  unfold TransitionRun in *. destruct (negb _) in Hch |- *; [done|].
  destruct (mutateRun_records env (tq_RunID request) "run.transitioned"
    (Join ":" [tq_From request; tq_To request; FormatRFC3339Nano (tq_At request)]) (tq_Attribution request)
    (transitionMutation request) store) as [Hs|[row Hk]]; [contradiction|].
  exists row. eapply lookup_weaken; [exact Hk|apply performAll_grows].
Qed.

End Idempotence.

Section Operations.
Context `{Hasher} `{RunSchemas}.

(** A store that can serve a call. *)
Definition ready (store : Store RunTables) : Prop :=
  st_closed store = false /\ h_Ready (st_health store) = true /\ h_MutationEnabled (st_health store) = true.

Lemma Read_quiet {A} clock (f : Db RunTables -> result A) store :
  st_closed store = false -> Read (quietEnv clock) f store = (f (st_db store), store).
Proof.
  intros Hc. unfold Read, readyForRead, mbind, action_bind, check, lift, require, gets. cbn. rewrite Hc. cbn.
  by destruct (f (st_db store)).
Qed.

(** A run operation is claimed once and completed once: once the row of an
    operation is there its request digest never changes, and once it is
    completed its result and its error code are final, so every retry of a
    cancellation or a resumption under the same key replays the same answer. *)
Theorem operation_result_final env call store key row :
  isPrune call = false -> run_operation_keys (tables (st_db store)) !! key = Some row ->
  exists row', run_operation_keys (tables (st_db (perform env call store))) !! key = Some row'
    /\ or_RequestDigest row' = or_RequestDigest row /\ or_CreatedAt row' = or_CreatedAt row
    /\ (or_Status row <> "pending" -> row' = row)
    /\ (row' = row \/ or_Status row' = "completed" /\ is_Some (or_Result row')).
Proof.
  intros Hp Hk. destruct (perform_changes env call store) as [-> |E]; [eauto 10|].
  unfold callChange in E. destruct (mutationOf env call) as [[[runID eventType] mutate]|] eqn:Hm.
  { destruct (perform_allowed env call store) as [-> |Ha]; [eauto 10|].
    destruct (applyMutation _ _ _ _) as [[run t1]|e] eqn:Em; [|done].
    assert (Et : t1 = tables (st_db (perform env call store))) by (by injection E). rewrite <- Et.
    apply applyMutation_Ok in Em as (r0 & t2 & Hr0 & Hv & Hmut & _ & r1 & _ & ->). cbn.
    destruct (valid_NoDup _ Hv) as [Hd _]. pose proof (call_mutated _ _ _ _ _ _ _ _ _ Hm Ha Hmut Hd) as X.
    rewrite (mu_tables _ _ _ _ X). cbn. eauto 10. }
  revert E. generalize (tables (st_db (perform env call store))). intros t' E.
  destruct call; try discriminate Hm; try discriminate Hp; cbn in E.
  - apply createChange_Ok in E. rewrite (cd_operations _ _ _ E). eauto 10.
  - unfold leaseChange in E. apply bind_Ok in E as ([run plan] & _ & E). result_hyps.
    match goal with E : insertLease _ _ _ = _ |- _ => unfold insertLease in E; destruct (_ || _) in E; [done|]; injection E as <- end.
    cbn. eauto 10.
  - injection E as <-. unfold releaseLease. repeat case_match; cbn; eauto 10.
  - injection E as <-. cbn. eauto 10.
  - unfold claimChange in E. apply bind_Ok in E as ([] & _ & E). destruct (bool_decide _) eqn:Hb in E; [done|]. simplify_eq.
    cbn. rewrite lookup_insert_ne; [eauto 10|]. intros Heq. bool_hyps. apply Hb. rewrite Heq. by exists row.
  - unfold completeChange in E. destruct (_ !! (operation, runID, keyDigest)) as [old|] eqn:Ho; [|done].
    apply bind_Ok in E as ([] & Hr & E). apply require_Ok in Hr. bool_hyps. injection E as <-. cbn.
    destruct (decide ((operation, runID, keyDigest) = key)) as [<-|Hn]; [|rewrite lookup_insert_ne by done; eauto 10].
    assert (old = row) as -> by congruence. rewrite lookup_insert_eq. eexists. split; [done|]. cbn.
    split_and!; [done|done|congruence|by right].
  - apply insertDetail_Ok in E as ->. eauto 10.
  - injection E as <-. eauto 10.
  - injection E as <-. eauto 10.
  - destruct (claimLease_tables _ _ _ _ E) as (-> & _). eauto 10.
  - destruct (renewLease _ _ _) as [[lease t1]|] eqn:Er; [|done]. injection E as <-.
    apply renewLease_Ok in Er as (l & renewAfter & expiry & _ & _ & _ & _ & _ & _ & _ & _ & _ & _ & ->). eauto 10.
  - destruct (expireLeases _ _) as [[leases t1]|] eqn:Er; [|done]. injection E as <-.
    apply expireLeases_ended in Er as [-> _]. eauto 10.
  - injection E as <-. eauto 10.
  - injection E as <-. eauto 10.
Qed.

(** A repeated submission is answered from the first one, whose stored document
    still satisfies its schema: with the same
    request digest the run as it is now is returned, nothing is created and the
    store is untouched; with another request digest the submission is a
    conflict. *)
Theorem create_idempotent clock request store id row :
  tables_wf (tables (st_db store)) -> st_closed store = false ->
  plan_runs (tables (st_db store)) !! id = Some row -> exactRun (rr_Document row) = true ->
  rr_SubmitKeyDigest row = cq_SubmitKeyDigest request ->
  Create (quietRunEnv clock) request store =
  (if negb (validCreate request) then Err (Coded InputInvalid "run")
   else if rr_RequestDigest row == cq_RequestDigest request then Ok (mkRunCreateResult (rr_Document row) false 0)
   else Err (Coded StateConflict "run-submit-key"), store).
Proof.
  intros W Hc Hr Hx Hk. unfold Create. cbv zeta. rewrite check_bind.
  destruct (validCreate request); [|done]. cbn [negb].
  unfold mbind, action_bind, existing, rows. cbn [re_read quietRunEnv]. rewrite Read_quiet by done.
  destruct (List.find _ (map_to_list (plan_runs (tables (st_db store))))) as [[id' row']|] eqn:Hf; cbn.
  2: { apply find_none with (x := (id, row)) in Hf.
       - cbn in Hf. bool_hyps. congruence.
       - apply list_elem_of_In. by apply elem_of_map_to_list. }
  apply find_some in Hf as [Hin Hkey]. apply list_elem_of_In, elem_of_map_to_list in Hin. cbn in Hkey. bool_hyps.
  assert (id' = id) as -> by (apply (tw_submit _ W id' id row' row); congruence). assert (row' = row) as -> by congruence.
  unfold require. case_bool_decide; cbn; [|done]. unfold decodeRun.
  unfold validRunDocument. by rewrite Hx, (rw_numbered _ _ _ (tw_runs _ W _ _ Hr)).
Qed.

(** A run past the retention that another component refers to blocks the whole
    pruning. *)
Lemma deleteRuns_referenced cutoff t id row :
  plan_runs t !! id = Some row -> staleRun cutoff row = true -> id ∈ run_references t -> deleteRuns cutoff t = violates.
Proof.
  intros Hr Hs Hin. unfold deleteRuns. cbv zeta. destruct (existsb _ _) eqn:Hex; [done|].
  apply not_true_iff_false in Hex. destruct Hex. apply existsb_exists. exists id.
  split; [by apply list_elem_of_In, elem_of_elements|]. apply bool_decide_eq_true_2. exists row. by apply map_lookup_filter_Some.
Qed.

Lemma prune_referenced clock now store id row : ready store -> validAt now = true ->
  plan_runs (tables (st_db store)) !! id = Some row ->
  staleRun (FormatRFC3339 (Add now (- runSummaryRetention))) row = true -> id ∈ run_references (tables (st_db store)) ->
  PruneRunHistory (quietRunEnv clock) now store = (Err (Coded StateConflict "database"), store).
Proof.
  intros (Hc & Hrd & Hm) Hv Hr Hs Hin. unfold PruneRunHistory. rewrite check_bind, Hv. unfold mbind, action_bind.
  change (re_tx (quietRunEnv clock)) with (quietEnv clock). rewrite readyForTransaction_quiet by done.
  unfold gets, fail. cbn [te_sql quietEnv]. unfold pruneChange. cbv zeta. by erewrite (deleteRuns_referenced _ _ id row).
Qed.

(** The retention of runs is all or nothing: when no run past the retention
    is referred to by another component, exactly the finished and interrupted
    runs last updated before the cutoff are deleted; when one of them is, the
    whole pruning fails with a conflict and deletes nothing, in every later call
    as well, for the referring rows are durable. *)
Theorem prune_all_or_nothing clock now store :
  ready store -> validAt now = true ->
  let t := tables (st_db store) in
  let stale row := staleRun (FormatRFC3339 (Add now (- runSummaryRetention))) row in
  ((exists id row, plan_runs t !! id = Some row /\ stale row = true /\ id ∈ run_references t) ->
   PruneRunHistory (quietRunEnv clock) now store = (Err (Coded StateConflict "database"), store))
  /\ ((forall id row, plan_runs t !! id = Some row -> stale row = true -> id ∉ run_references t) ->
      exists result store', PruneRunHistory (quietRunEnv clock) now store = (Ok result, store')
        /\ forall id row, plan_runs (tables (st_db store')) !! id = Some row
                          <-> plan_runs t !! id = Some row /\ stale row = false).
Proof.
  intros Hready Hv t stale. split; [intros (id & row & Hr & Hs & Hin); by eapply prune_referenced|]. intros Hno.
  destruct Hready as (Hc & Hrd & Hm). unfold PruneRunHistory. rewrite check_bind, Hv. unfold mbind, action_bind.
  change (re_tx (quietRunEnv clock)) with (quietEnv clock). rewrite readyForTransaction_quiet by done.
  unfold gets, modify, mret, action_ret. cbn [te_sql quietEnv].
  unfold pruneChange. cbv zeta. set (cutoff := FormatRFC3339 (Add now (- runSummaryRetention))) in *. clearbody cutoff.
  set (dead := filter (fun r => staleRun cutoff r.2 = true) (plan_runs t)). unfold deleteRuns. cbv zeta.
  change (plan_runs (setDetails _ (tables (st_db store)))) with (plan_runs t). fold dead.
  change (run_references (setDetails _ (tables (st_db store)))) with (run_references t).
  destruct (existsb _ (elements (run_references t))) eqn:Hex.
  - apply existsb_exists in Hex as (id & Hin & Hd). bool_hyps. destruct Hd as [row Hd].
    apply map_lookup_filter_Some in Hd as [Hr Hs]. apply list_elem_of_In, elem_of_elements in Hin.
    destruct (Hno _ _ Hr Hs Hin).
  - do 2 eexists. split; [reflexivity|]. cbn. intros id row. rewrite map_lookup_filter_Some. cbn. split.
    + intros [Hr Hd]. split; [done|]. apply not_true_is_false. intros Hs. assert (Hn : dead !! id = Some row); [|congruence].
      by apply map_lookup_filter_Some.
    + intros [Hr Hs]. split; [done|]. apply eq_None_not_Some. intros [row' Hd]. apply map_lookup_filter_Some in Hd as [Hr' Hs'].
      assert (Heq : Some row' = Some row) by (etrans; [symmetry; exact Hr'|exact Hr]). injection Heq as ->.
      cbn in Hs'. unfold stale in Hs. congruence.
Qed.

End Operations.

(** ** Witnesses: one run of one step *)

Section RunWitnesses.

(** The histories are evaluated with the checksum of [Hash]. *)
#[local] Instance sampleHasher : Hasher := Checksum.

(** Schemas that look at one field of each document. *)
#[local] Instance sampleSchemas : RunSchemas :=
  {| exactRun run := sha256Digest (r_PlanDigest run); exactLease lease := sha256Digest (l_NonceDigest lease);
     exactReceipt receipt := sha256Digest (rc_ResultDigest receipt);
     exactClaimRequest request := sha256Digest (cl_NonceDigest request);
     exactRenewRequest request := sha256Digest (er_NonceDigest request);
     exactReceiptRequest request := sha256Digest (xp_ExpectedBindingDigest request) |}.

Definition sampleDigest (part : string) : string := hashString part.

Definition samplePlan : Plan :=
  mkPlan "plan-1" (sampleDigest "plan") "host-1"
    (mkPlanBinding 0 0 0 1 (sampleDigest "o") (sampleDigest "t") (sampleDigest "r") "v1" "v1" "v1")
    [mkPlanOperation 1 "op-1" "backup.snapshot" "core.backup" "executor-1" "host-1" (sampleDigest "input")
       (sampleDigest "artifact") false]
    "planned" "routine" "preauthorized" "central" None "2026-09-16T01:10:00Z" "2026-09-16T01:40:00Z"
    None None None None None None None None None [].

Definition sampleRun : Run :=
  mkRun "run-1" "plan-1" (sampleDigest "plan") "decision-1" None "v1" "central" "executor-1" (sampleDigest "binding")
    "queued"
    [mkRunStep 1 "op-1" "backup.snapshot" "core.backup" "executor-1" "host-1" (sampleDigest "input")
       (sampleDigest "artifact") false "step-1" "queued" "not-started"]
    false "not-requested" "pending" None false 0 0 "2026-09-16T01:10:00Z" "2026-09-16T01:10:00Z" [].

Definition sampleActor : Attribution := mkAttribution "alice" "local-os-peer" None None.
Definition sampleCreate : RunCreateRequest :=
  mkRunCreateRequest sampleRun (sampleDigest "submit") (sampleDigest "request") sampleActor.

Definition sampleTransition (from to : string) (at_ : Time) : RunTransitionRequest :=
  mkRunTransitionRequest "run-1" from to at_ "" None "" None sampleActor.

Definition later (n : Z) : Time := Add demoTime (n * Second).

Definition sampleLease : ExecutorLease :=
  mkExecutorLease "lease-1" "plan-1" (sampleDigest "plan") "run-1" "step-1" "op-1" "executor-1" "core.backup" "host-1"
    (sampleDigest "artifact") (sampleDigest "binding") (sampleDigest "nonce") 0 (FormatRFC3339 (later 1))
    (FormatRFC3339 (later 21)) (FormatRFC3339 (later 61)) (FormatRFC3339 (later 61)) "active" [].

Definition sampleReceipt : ExecutionReceipt :=
  mkExecutionReceipt "lease-1" "plan-1" (sampleDigest "plan") "run-1" "step-1" "op-1" "executor-1" "core.backup" "host-1"
    (sampleDigest "artifact") (sampleDigest "binding") (sampleDigest "nonce") 0 "receipt-1" "succeeded"
    (sampleDigest "result") None (FormatRFC3339 (later 2)) [].

Definition sampleBegin : RunCall := CallBegin (mkStepBeginRequest "run-1" "step-1" "lease-1" (later 1) sampleActor).

Definition sampleEnv : RunEnv := quietRunEnv demoTime.

Definition sampleTables : RunTables :=
  mkRunTables empty empty empty empty empty [] {["plan-1" := samplePlan]} empty empty {["run-0"]} empty.

Definition sampleStart : Store RunTables := readyStore (emptyDb sampleTables).

Definition begun : list (RunEnv * RunCall) :=
  [(sampleEnv, CallCreate sampleCreate); (sampleEnv, CallTransition (sampleTransition "queued" "running" (later 1)));
   (sampleEnv, CallAcquire sampleLease sampleActor)].

Definition finished : list (RunEnv * RunCall) :=
  [(sampleEnv, sampleBegin);
   (sampleEnv, CallReceipt (mkReceiptRecordRequest "run-1" "step-1" "lease-1" sampleReceipt (later 2) sampleActor));
   (sampleEnv, CallFinish (mkStepFinishRequest "run-1" "step-1" "lease-1" sampleReceipt "succeeded" "verified"
                             (sampleDigest "verification") true (later 3) sampleActor));
   (sampleEnv, CallTransition (sampleTransition "running" "succeeded" (later 3)))].

(** The store before the intent is recorded, after it, and at the end. *)
Notation atBegin := (performAll begun sampleStart).
Notation atIntent := (perform sampleEnv sampleBegin atBegin).
Notation atEnd := (performAll finished atBegin).

Definition runStatus (store : Store RunTables) : option (string * string * string) :=
  row ← plan_runs (tables (st_db store)) !! "run-1";
  srow ← plan_run_steps (tables (st_db store)) !! "step-1";
  Some (rr_Status row, sr_Status srow, sr_EffectState srow).

(** What the witnesses read in a store, evaluated once per store. *)
Definition view (store : Store RunTables) :=
  ((fun row => (rr_SubmitKeyDigest row, rr_RequestDigest row, rr_Status row, rr_UpdatedAt row))
     <$> plan_runs (tables (st_db store)) !! "run-1",
   (fun srow => (sr_Status srow, sr_EffectState srow, s_Idempotent (sr_Planned srow)))
     <$> plan_run_steps (tables (st_db store)) !! "step-1",
   (st_closed store, h_Ready (st_health store), h_MutationEnabled (st_health store)),
   (elements (run_references (tables (st_db store))),
    bool_decide (plan_runs (tables (st_db store)) !! "run-0" = None))).

Definition viewed (status at_ step effect : string) :=
  (Some (cq_SubmitKeyDigest sampleCreate, cq_RequestDigest sampleCreate, status, at_), Some (step, effect, false),
   (false, true, true), (["run-0"], true)).

Lemma begin_view : view atBegin = viewed "running" (FormatRFC3339 (later 1)) "queued" "not-started".
Proof. vm_compute. reflexivity. Qed.
Lemma intent_view : view atIntent = viewed "running" (FormatRFC3339 (later 1)) "running" "intent-recorded".
Proof. vm_compute. reflexivity. Qed.
Lemma end_view : view atEnd = viewed "succeeded" (FormatRFC3339 (later 3)) "succeeded" "verified".
Proof. vm_compute. reflexivity. Qed.

(** A row of a store, found by evaluating a part of it. *)
Lemma row_found {A B} (o : option A) (f : A -> B) b : f <$> o = Some b -> exists x, o = Some x /\ f x = b.
Proof. destruct o; [intros E; injection E as <-; eauto|discriminate]. Qed.

Lemma view_run store status at_ step effect : view store = viewed status at_ step effect ->
  exists row, plan_runs (tables (st_db store)) !! "run-1" = Some row
    /\ rr_SubmitKeyDigest row = cq_SubmitKeyDigest sampleCreate /\ rr_RequestDigest row = cq_RequestDigest sampleCreate
    /\ rr_Status row = status /\ rr_UpdatedAt row = at_.
Proof.
  intros V. apply (f_equal (fun v => v.1.1.1)), row_found in V as (row & E & Hv). exists row. split; [exact E|].
  apply pair_eq in Hv as [Hv ?]. apply pair_eq in Hv as [Hv ?]. by apply pair_eq in Hv as [? ?].
Qed.

Lemma view_step store status at_ step effect : view store = viewed status at_ step effect ->
  exists srow, plan_run_steps (tables (st_db store)) !! "step-1" = Some srow
    /\ sr_Status srow = step /\ sr_EffectState srow = effect /\ s_Idempotent (sr_Planned srow) = false.
Proof.
  intros V. apply (f_equal (fun v => v.1.1.2)), row_found in V as (srow & E & Hv). exists srow. split; [exact E|].
  apply pair_eq in Hv as [Hv ?]. by apply pair_eq in Hv as [? ?].
Qed.

Lemma view_ready store status at_ step effect : view store = viewed status at_ step effect -> ready store.
Proof. intros V. apply (f_equal (fun v => v.1.2)), pair_eq in V as [V ?]. by apply pair_eq in V as [? ?]. Qed.

Lemma view_references store status at_ step effect : view store = viewed status at_ step effect ->
  run_references (tables (st_db store)) = {["run-0"]} /\ plan_runs (tables (st_db store)) !! "run-0" = None.
Proof.
  intros V. pose proof (f_equal (fun v => v.2.1) V) as R. pose proof (f_equal (fun v => v.2.2) V) as N.
  cbn in R, N. split; [|by apply bool_decide_eq_true_1 in N].
  apply set_eq. intros id. rewrite <- elem_of_elements, R. set_solver.
Qed.

Lemma end_ready : ready atEnd.
Proof. exact (view_ready _ _ _ _ _ end_view). Qed.

Lemma sampleTables_wf : tables_wf sampleTables.
Proof. constructor; cbn; intros *; rewrite ?lookup_empty; done. Qed.

Lemma atBegin_wf : tables_wf (tables (st_db atBegin)).
Proof. apply performAll_wf, sampleTables_wf. Qed.

Lemma end_wf : tables_wf (tables (st_db atEnd)).
Proof. exact (performAll_wf finished atBegin atBegin_wf). Qed.

Lemma repository_keeps_tables_well_formed_witness :
  tables_wf (tables (st_db atEnd))
  /\ view atEnd = viewed "succeeded" (FormatRFC3339 (later 3)) "succeeded" "verified".
Proof.
  split; [|exact end_view].
  exact (repository_keeps_tables_well_formed finished atBegin atBegin_wf).
Defined.

Lemma run_life_cycle_witness :
  exists row row', plan_runs (tables (st_db atBegin)) !! "run-1" = Some row
    /\ plan_runs (tables (st_db atIntent)) !! "run-1" = Some row'
    /\ r_PlanDigest (rr_Document row') = r_PlanDigest (rr_Document row).
Proof.
  destruct (view_run _ _ _ _ _ begin_view) as (row & E & _), (view_run _ _ _ _ _ intent_view) as (row' & E' & _).
  exists row, row'. split; [exact E|]. split; [exact E'|].
  apply (run_life_cycle sampleEnv sampleBegin atBegin "run-1" row row' atBegin_wf E E').
Defined.

Lemma step_state_machine_witness :
  exists srow srow', plan_run_steps (tables (st_db atBegin)) !! "step-1" = Some srow
    /\ plan_run_steps (tables (st_db atIntent)) !! "step-1" = Some srow' /\ sr_RunID srow' = sr_RunID srow.
Proof.
  destruct (view_step _ _ _ _ _ begin_view) as (srow & E & _).
  destruct (step_state_machine sampleEnv sampleBegin atBegin "step-1" srow atBegin_wf eq_refl E) as (x & Ex & _ & Hr & _).
  exists srow, x. split; [exact E|]. split; [exact Ex|exact Hr].
Defined.

Lemma sample_begins : beginsStep sampleEnv sampleBegin atBegin "step-1".
Proof.
  destruct (view_step _ _ _ _ _ begin_view) as (srow & E & _ & Hs & _), (view_step _ _ _ _ _ intent_view) as (srow' & E' & _ & Hs' & _).
  exists srow, srow'. split; [exact E|]. split; [exact E'|]. split; [rewrite Hs; discriminate|exact Hs'].
Qed.

Lemma intent_recorded_at_most_once_witness :
  beginsStep sampleEnv sampleBegin atBegin "step-1"
  /\ ~ beginsStep sampleEnv sampleBegin (performAll (tail finished) (perform sampleEnv sampleBegin atBegin)) "step-1".
Proof.
  split; [exact sample_begins|]. destruct (view_step _ _ _ _ _ begin_view) as (srow & E & _ & _ & Hi).
  refine (intent_recorded_at_most_once sampleEnv sampleBegin (tail finished) sampleEnv sampleBegin atBegin "step-1" srow
    atBegin_wf _ eq_refl E Hi sample_begins). repeat constructor.
Defined.

Lemma recorded_effect_has_receipt_witness :
  exists x, receiptOf (tables (st_db atEnd)) x /\ xr_StepID x = "step-1".
Proof.
  destruct (view_step _ _ _ _ _ end_view) as (srow & E & _ & Hv & _).
  destruct (recorded_effect_has_receipt (begun ++ finished) sampleStart sampleTables_wf) with (stepID := "step-1") (srow := srow)
    as (x & l & Hx & Hid & _).
  - intros stepID s Hs. discriminate Hs.
  - repeat constructor.
  - rewrite performAll_app. exact E.
  - right. exact Hv.
  - rewrite performAll_app in Hx. exists x. split; [exact Hx|exact Hid].
Defined.

(** A run of one idempotent step that was started, interrupted and, within the
    second of the interruption, resumed. *)
Definition idempotentRun : Run :=
  withSteps (map (fun s => mkRunStep (s_Sequence s) (s_OperationID s) (s_OperationType s) (s_AdapterID s)
    (s_ExecutorID s) (s_TargetID s) (s_InputDigest s) (s_ArtifactDigest s) true (s_StepID s) (s_Status s)
    (s_EffectState s)) (r_Steps sampleRun)) sampleRun.

Definition resumed : list (RunEnv * RunCall) :=
  [(sampleEnv, CallCreate (mkRunCreateRequest idempotentRun (sampleDigest "submit") (sampleDigest "request") sampleActor));
   (sampleEnv, CallTransition (sampleTransition "queued" "running" (later 1)));
   (sampleEnv, CallTransition (sampleTransition "running" "interrupted" (later 2)));
   (sampleEnv, CallTransition (sampleTransition "interrupted" "running" (later 2)))].

(** An engine whose clock is truncated to seconds and that stops, resumes
    and again stops a run within one second loses the second stop: the call is
    taken for a replay of the first one, reports no error and returns a run that
    still runs, and the stored run stays running. *)
Theorem second_interruption_in_one_second_lost :
  let outcome := TransitionRun sampleEnv (sampleTransition "running" "interrupted" (later 2))
                   (performAll resumed sampleStart) in
  (outcome.1.2, r_Status outcome.1.1, runStatus outcome.2, audit_sequence (st_db outcome.2))
  = (None, "running", Some ("running", "queued", "not-started"), 4).
Proof. vm_compute. reflexivity. Qed.

Lemma transition_applied_at_most_once_witness :
  let request := sampleTransition "queued" "running" (later 1) in
  let created := perform sampleEnv (CallCreate sampleCreate) sampleStart in
  let between := [(sampleEnv, CallTransition (sampleTransition "running" "interrupted" (later 2)))] in
  st_db (TransitionRun sampleEnv request (performAll between (TransitionRun sampleEnv request created).2)).2
  = st_db (performAll between (TransitionRun sampleEnv request created).2).
Proof.
  cbv zeta. refine (transition_applied_at_most_once sampleEnv (sampleTransition "queued" "running" (later 1))
    [(sampleEnv, CallTransition (sampleTransition "running" "interrupted" (later 2)))] sampleEnv
    (sampleTransition "queued" "running" (later 1)) _ eq_refl eq_refl eq_refl eq_refl _).
  intros E. apply (f_equal audit_sequence) in E. revert E. vm_compute. discriminate.
Defined.

Definition claimed : Store RunTables :=
  perform sampleEnv (CallClaim "cancel" "run-1" (sampleDigest "key") (sampleDigest "request") (later 3) sampleActor)
    (perform sampleEnv (CallCreate sampleCreate) sampleStart).

Lemma claimed_row : exists row,
  run_operation_keys (tables (st_db claimed)) !! ("cancel", "run-1", sampleDigest "key") = Some row
  /\ or_Status row = "pending".
Proof. apply row_found. vm_compute. reflexivity. Qed.

Lemma operation_result_final_witness :
  let key := ("cancel", "run-1", sampleDigest "key") in
  exists row row', run_operation_keys (tables (st_db claimed)) !! key = Some row
    /\ run_operation_keys (tables (st_db (perform sampleEnv (CallReleaseRun "run-1" (later 4)) claimed))) !! key = Some row'
    /\ or_RequestDigest row' = or_RequestDigest row.
Proof.
  cbv zeta. destruct claimed_row as (row & E & _).
  destruct (operation_result_final sampleEnv (CallReleaseRun "run-1" (later 4)) claimed _ row eq_refl E)
    as (row' & E' & Hd & _).
  exists row, row'. split; [exact E|]. split; [exact E'|exact Hd].
Defined.

Lemma create_idempotent_witness :
  exists run, Create sampleEnv sampleCreate atEnd = (Ok (mkRunCreateResult run false 0), atEnd).
Proof.
  destruct (view_run _ _ _ _ _ end_view) as (row & E & Hk & Hq & _).
  pose proof (create_idempotent demoTime sampleCreate atEnd "run-1" row) as C.
  exists (rr_Document row). unfold sampleEnv.
  assert (Hx : exactRun (rr_Document row) = true).
  { assert (V : (fun r => exactRun (rr_Document r)) <$> plan_runs (tables (st_db atEnd)) !! "run-1" = Some true)
      by (vm_compute; reflexivity). apply row_found in V as (x & Ex & V). rewrite E in Ex. injection Ex as ->. exact V. }
  rewrite C; [|exact end_wf|exact (proj1 end_ready)|exact E|exact Hx|exact Hk].
  rewrite Hq, bool_decide_refl. replace (validCreate sampleCreate) with true by (vm_compute; reflexivity).
  reflexivity.
Defined.

(** A century later the sample run is past the retention. *)
Definition centuryLater : Time := later (100 * 365 * 86400).

Lemma end_references : run_references (tables (st_db atEnd)) = {["run-0"]}
  /\ plan_runs (tables (st_db atEnd)) !! "run-0" = None.
Proof. exact (view_references _ _ _ _ _ end_view). Qed.

Lemma prune_all_or_nothing_witness :
  ready atEnd /\ exists result store', PruneRunHistory sampleEnv centuryLater atEnd = (Ok result, store')
    /\ plan_runs (tables (st_db store')) !! "run-1" = None.
Proof.
  split; [exact end_ready|].
  destruct (prune_all_or_nothing demoTime centuryLater atEnd end_ready eq_refl) as [_ [result [store' [E Hrows]]]].
  - intros id row Hrow _ Hin. rewrite (proj1 end_references) in Hin. apply elem_of_singleton in Hin as ->.
    rewrite (proj2 end_references) in Hrow. discriminate Hrow.
  - exists result, store'. split; [exact E|].
    destruct (plan_runs (tables (st_db store')) !! "run-1") as [row'|] eqn:E'; [|reflexivity].
    apply Hrows in E' as [E1 E2]. destruct (view_run _ _ _ _ _ end_view) as (row & Er & _ & _ & Hs & Hu). rewrite Er in E1. injection E1 as <-.
    exfalso. revert E2. unfold staleRun. rewrite (rw_status _ _ _ (tw_runs _ (end_wf) _ _ Er)) in Hs |- *.
    rewrite Hs, Hu. vm_compute. discriminate.
Defined.

End RunWitnesses.
