(* ===== verification/RunFacts.v ===== *)
(** What a call of the run repository does to single runs and steps, seen from
    the state after it, and what the answers of the calls say about the store:
    the facts the proofs about the engine use. *)

From S2P Require Import Prelude GoTime Hash GoJson Contracts AuditLog AuditStore ExecutorLease RunRepository RunHistory.

(** ** What the answers of the repository say about the store *)

Section Answers.
Context `{Hasher} `{RunSchemas}.

Lemma fmap_Ok {A B} (f : A -> B) (r : result A) y : f <$> r = Ok y <-> exists x, r = Ok x /\ f x = y.
Proof. destruct r; cbn; naive_solver. Qed.

(** A run that is read is the stored document. *)
Lemma Get_Ok env id store run store' : Get env id store = (Ok run, store') ->
  exists row, plan_runs (tables (st_db store)) !! id = Some row /\ rr_Document row = run.
Proof.
  unfold Get. intros E. apply action_bind_Ok in E as ([] & s1 & E1 & E). apply check_Ok in E1 as [_ ->].
  unfold rows in E. destruct (Read _ _ _) as [[doc|e] s2] eqn:Er; injection E as E _.
  - apply Read_Ok in Er. apply of_option_Ok in Er. destruct (plan_runs _ !! id) as [row|]; [|discriminate Er].
    injection Er as <-. apply decodeRun_Ok in E as [-> _]. eauto.
  - by case_bool_decide.
Qed.

(** A successful mutation is either a replay, which changed nothing, or the
    first one, which applied the change. *)
Lemma mutateRun_Ok env runID eventType mutationID attribution mutate store run store' :
  mutateRun env runID eventType mutationID attribution mutate store = ((run, None), store') ->
  is_Some (intent_keys (st_db store) !! mutationKey runID eventType mutationID) /\ st_db store' = st_db store
    /\ (exists row, plan_runs (tables (st_db store)) !! runID = Some row /\ rr_Document row = run)
  \/ intent_keys (st_db store) !! mutationKey runID eventType mutationID = None
     /\ applyMutation runID eventType mutate (tables (st_db store)) = Ok (run, tables (st_db store')).
Proof.
  unfold mutateRun. destruct (negb _); [discriminate|]. cbv zeta.
  destruct (executeAuditIntent _ _ _ _ _) as [[intent|e] s1] eqn:E; [|discriminate].
  apply executeAuditIntent_outcome in E as [[Hdb Hk]|(res & event & p & d & l & A & Hr)].
  - destruct (Hk _ eq_refl) as (row & Hrow & _ & ->). cbn [ir_Created]. intros Hg. left.
    destruct (Get env runID s1) as [[run'|e] s2] eqn:Eg; [|discriminate]. injection Hg as <- <-.
    pose proof (keeps_Get _ _ _ _ _ Eg) as Hs2. apply Get_Ok in Eg. rewrite Hdb in Eg.
    split; [by exists row|]. split; [congruence|done].
  - destruct Hr as [Hr|[[e He] _]]; [|discriminate]. injection Hr as ->. rewrite (ap_result _ _ _ _ _ _ _ _ _ _ _ A).
    cbn [ir_Created]. intros Hres. injection Hres as <- <-. right. split; [apply (ap_fresh _ _ _ _ _ _ _ _ _ _ _ A)|].
    pose proof (ap_tables _ _ _ _ _ _ _ _ _ _ _ A) as Ht. cbn beta in Ht.
    apply fmap_Ok in Ht as ([run1 t1] & Ea & Et). rewrite Ea. cbn in Et. by subst t1.
Qed.

Definition beginKey (request : StepBeginRequest) : string * string :=
  mutationKey (bq_RunID request) "run.step-intent-recorded"
    (Join ":" [bq_StepID request; bq_LeaseID request; FormatRFC3339Nano (bq_At request)]).

Lemma after_Ok env runID k store run store' :
  after (roleReservationSnapshot env runID) k store = ((run, None), store') ->
  exists s1, st_db s1 = st_db store /\ k s1 = ((run, None), store').
Proof.
  unfold after. destruct (roleReservationSnapshot env runID store) as [[u|e] s1] eqn:E; [|discriminate].
  apply keeps_role in E. eauto.
Qed.

(** A step that was begun, and not begun before under the same lease, waited. *)
Lemma BeginStep_fresh env request store run store' :
  BeginStep env request store = ((run, None), store') -> intent_keys (st_db store) !! beginKey request = None ->
  applyMutation (bq_RunID request) "run.step-intent-recorded" (beginMutation env request) (tables (st_db store))
  = Ok (run, tables (st_db store')).
Proof.
  unfold BeginStep. destruct (negb _); [discriminate|]. intros E Hn. apply after_Ok in E as (s1 & Hdb & E).
  apply mutateRun_Ok in E as [([x Hk] & _)|[_ E]]; rewrite Hdb in *; [|done]. unfold beginKey in Hn. congruence.
Qed.

(** What a fresh intent found and left: a step that waited, and that now runs. *)
Lemma begun_step env request store run store' :
  tables_wf (tables (st_db store)) -> BeginStep env request store = ((run, None), store') ->
  intent_keys (st_db store) !! beginKey request = None ->
  exists srow srow', plan_run_steps (tables (st_db store)) !! bq_StepID request = Some srow
    /\ sr_Status srow = "queued"
    /\ plan_run_steps (tables (st_db store')) !! bq_StepID request = Some srow' /\ sr_Status srow' = "running"
    /\ (forall step, List.find (fun s => s_StepID s == bq_StepID request) (r_Steps run) = Some step ->
         s_Idempotent step = s_Idempotent (sr_Planned srow) /\ s_StepID step = bq_StepID request).
Proof.
  intros W E Hn. apply BeginStep_fresh in E; [|done].
  destruct (mutation_moved env (CallBegin request) _ _ _ _ _ _ W eq_refl eq_refl E) as (row & M).
  pose proof (moved_wf _ _ _ _ _ W M) as W'. pose proof (tw_runs _ W _ _ (mv_row _ _ _ _ _ M)) as R.
  apply applyMutation_Ok in E as (row1 & t1 & Hrow & Hv & Hm & _). rewrite (mv_row _ _ _ _ _ M) in Hrow. injection Hrow as <-.
  unfold beginMutation in Hm. apply bind_Ok in Hm as (s & Hf & Hm). apply of_option_Ok in Hf.
  apply bind_Ok in Hm as ([] & Hq & Hm). apply require_Ok in Hq. bool_hyps. apply findStep_state in Hf as Hs. destruct Hs as [Hin Hid].
  destruct (rw_steps _ _ _ R _ Hin) as (srow & Hsrow & _ & Hp & Hst & _). rewrite Hid in Hsrow.
  assert (Hrun : r_Steps run = assignStep (bq_StepID request) (withState "running" "intent-recorded") (r_Steps (rr_Document row))).
  { repeat (apply bind_Ok in Hm as (? & _ & Hm)). destruct x0. repeat (apply bind_Ok in Hm as (? & _ & Hm)).
    by injection Hm as <- _. }
  clear Hm. destruct (valid_NoDup _ Hv) as [Hd _].
  assert (Hfind : List.find (fun s => s_StepID s == bq_StepID request) (r_Steps run) = Some (withState "running" "intent-recorded" s)).
  { rewrite Hrun. clear -Hin Hid Hd. induction (r_Steps (rr_Document row)) as [|x steps IH]; [by apply not_elem_of_nil in Hin|].
    cbn [map] in Hd. apply NoDup_cons in Hd as [Hx Hd]. cbn [assignStep]. case_bool_decide as Hc.
    - apply elem_of_cons in Hin as [-> |Hin].
      + cbn. by rewrite Hc, bool_decide_refl.
      + destruct Hx. rewrite Hc, <- Hid. by apply list_elem_of_fmap_2.
    - apply elem_of_cons in Hin as [-> |Hin]; [congruence|]. cbn. rewrite bool_decide_eq_false_2 by done. by apply IH. }
  exists srow. assert (Hin' : withState "running" "intent-recorded" s ∈ r_Steps run).
  { apply find_some in Hfind as [Hi _]. by apply list_elem_of_In. }
  pose proof (tw_runs _ W' (bq_RunID request) (storedRow row run)) as R'. rewrite (mv_runs _ _ _ _ _ M), lookup_insert_eq in R'.
  destruct (rw_steps _ _ _ (R' eq_refl) _ Hin') as (srow' & Hsrow' & _ & _ & Hst' & _). cbn in Hsrow', Hst'.
  exists srow'. rewrite <- Hid at 2. split_and!; [done|congruence|done|done|]. intros step Hstep. rewrite Hfind in Hstep.
  injection Hstep as <-. cbn. injection Hp as. split; congruence.
Qed.

End Answers.

(** ** Single runs and steps *)

Section Rows.
Context `{Hasher} `{RunSchemas}.

Lemma moves_ids steps steps' : Forall2 stepMove steps steps' -> map s_StepID steps' = map s_StepID steps.
Proof. induction 1 as [|s s' steps steps' [Hp _] _ IH]; [done|]. cbn. rewrite IH. f_equal. by injection Hp. Qed.

(** A run after a call: one that was there, whose steps are the same and whose
    status only a transition changed, or the one the call created. *)
Lemma run_back call t t' id row' :
  tables_wf t -> outcome call t t' -> plan_runs t' !! id = Some row' ->
  (exists row, plan_runs t !! id = Some row
     /\ map s_StepID (r_Steps (rr_Document row')) = map s_StepID (r_Steps (rr_Document row))
     /\ (rr_Status row' = rr_Status row
         \/ exists request, call = CallTransition request /\ tq_RunID request = id /\ tq_To request = rr_Status row'))
  \/ exists request, call = CallCreate request /\ row' = createRow request /\ allowed call = true.
Proof.
  intros W O E. destruct O as [runID t1 row run Er _ W1 _ M Hst|Er _ _ _|request -> Ha C|now r -> Ep].
  - left. rewrite (mv_runs _ _ _ _ _ M), Er in E. pose proof (mv_row _ _ _ _ _ M) as Hrow. rewrite Er in Hrow.
    apply lookup_insert_Some in E as [[<- <-]|[_ E]]; [|eauto 10]. exists row. split; [done|].
    pose proof (mv_mutated _ _ _ _ _ M) as (t2 & X & _). cbn. split; [apply moves_ids, (sy_moves _ _ _ _ _ (mu_sync _ _ _ _ X))|].
    destruct Hst as [?|(request & -> & <- & ->)]; eauto.
  - rewrite Er in E. left. eauto 10.
  - rewrite (cd_runs _ _ _ C) in E. apply lookup_insert_Some in E as [[_ <-]|[_ E]]; eauto 10.
  - left. exists row'. split; [|by auto]. eapply lookup_weaken; [exact E|by eapply pruned_subseteq].
Qed.

(** A run that is there stays, unless runs are pruned. *)
Lemma run_kept call t t' id row :
  tables_wf t -> outcome call t t' -> isPrune call = false -> plan_runs t !! id = Some row ->
  is_Some (plan_runs t' !! id).
Proof.
  intros W O Hp E. destruct O as [runID t1 row0 run Er _ W1 _ M _|Er _ _ _|request -> Ha C|now r -> Ep]; [| | |done].
  - rewrite (mv_runs _ _ _ _ _ M), Er. apply lookup_insert_is_Some. destruct (decide (runID = id)); eauto.
  - rewrite Er. eauto.
  - rewrite (cd_runs _ _ _ C). apply lookup_insert_is_Some. destruct (decide (r_RunID (cq_Run request) = id)); eauto.
Qed.

(** A step row after a call: one that was there, moved at most once, or one the
    call created. *)
Lemma step_back call t t' id srow' :
  tables_wf t -> outcome call t t' -> plan_run_steps t' !! id = Some srow' ->
  (exists srow, plan_run_steps t !! id = Some srow
     /\ planned (sr_Planned srow') = planned (sr_Planned srow)
     /\ ((sr_Status srow', sr_EffectState srow') = (sr_Status srow, sr_EffectState srow)
         \/ stepMoves (s_Idempotent (sr_Planned srow)) (sr_Status srow, sr_EffectState srow)
              (sr_Status srow', sr_EffectState srow')))
  \/ exists request s, call = CallCreate request /\ s ∈ r_Steps (cq_Run request)
       /\ (sr_Status srow', sr_EffectState srow') = (s_Status s, s_EffectState s).
Proof.
  intros W O E. destruct O as [runID t1 row run _ Es W1 _ M _|_ Es _ _|request -> Ha C|now r -> Ep].
  - left. pose proof (mv_mutated _ _ _ _ _ M) as (t2 & X & Hrows & _). pose proof E as E'. rewrite Hrows in E'.
    destruct (frame_lookup _ _ _ _ _ (sy_frame _ _ _ _ _ (mu_sync _ _ _ _ X)) E') as (srow & Esr & _). rewrite Es in Esr.
    exists srow. split; [done|]. rewrite <- Es in Esr.
    destruct (moved_step _ _ _ _ _ _ _ _ W1 M Esr E) as (P & _ & [->|Hm]); auto.
  - left. exists srow'. rewrite Es in E. auto.
  - destruct (decide (id ∈ map s_StepID (r_Steps (cq_Run request)))) as [Hin|Hn].
    + right. apply list_elem_of_fmap in Hin as (s & -> & Hin). destruct (cd_new _ _ _ C _ Hin) as [_ En].
      exists request, s. split_and!; [done..|]. rewrite En in E. by injection E as <-.
    + left. rewrite (cd_old _ _ _ C) in E by done. eauto.
  - left. exists srow'. split; [|auto]. eapply lookup_weaken; [exact E|by eapply pruned_subseteq].
Qed.

End Rows.

(** ** The run an answer shows *)

Section Shown.
Context `{Hasher} `{RunSchemas}.

(** A run that a mutation answers is the stored document. *)
Lemma mutateRun_stored env call runID eventType mutate mutationID attribution store run store' :
  tables_wf (tables (st_db store)) -> mutationOf env call = Some (runID, eventType, mutate) -> allowed call = true ->
  mutateRun env runID eventType mutationID attribution mutate store = ((run, None), store') ->
  exists row, plan_runs (tables (st_db store')) !! runID = Some row /\ rr_Document row = run.
Proof.
  intros W Hm Ha E. apply mutateRun_Ok in E as [(_ & Hdb & Hrow)|[_ E]]; [by rewrite Hdb|].
  destruct (mutation_moved _ _ _ _ _ _ _ _ W Hm Ha E) as (row & M). exists (storedRow row run).
  rewrite (mv_runs _ _ _ _ _ M), lookup_insert_eq. done.
Qed.

Ltac answer_of call := intros W E;
  match type of E with (if ?g then _ else _) _ = _ => destruct g eqn:Hg in E; [discriminate E|] end;
  eapply (mutateRun_stored _ call) in E; [exact E|done|reflexivity|cbn; bool_hyps; rewrite ?bool_decide_eq_true_2 by done; done].

Lemma TransitionRun_stored env request store run store' : tables_wf (tables (st_db store)) ->
  TransitionRun env request store = ((run, None), store') ->
  exists row, plan_runs (tables (st_db store')) !! tq_RunID request = Some row /\ rr_Document row = run.
Proof. unfold TransitionRun. answer_of (CallTransition request). Qed.

Lemma RecordReceipt_stored env request store run store' : tables_wf (tables (st_db store)) ->
  RecordReceipt env request store = ((run, None), store') ->
  exists row, plan_runs (tables (st_db store')) !! xq_RunID request = Some row /\ rr_Document row = run.
Proof. unfold RecordReceipt. answer_of (CallReceipt request). Qed.

Lemma FinishStep_stored env request store run store' : tables_wf (tables (st_db store)) ->
  FinishStep env request store = ((run, None), store') ->
  exists row, plan_runs (tables (st_db store')) !! fq_RunID request = Some row /\ rr_Document row = run.
Proof. unfold FinishStep. answer_of (CallFinish request). Qed.

Lemma BeginStep_stored env request store run store' : tables_wf (tables (st_db store)) ->
  BeginStep env request store = ((run, None), store') ->
  exists row, plan_runs (tables (st_db store')) !! bq_RunID request = Some row /\ rr_Document row = run.
Proof.
  unfold BeginStep. destruct (negb _); [discriminate|]. intros W E. apply after_Ok in E as (s1 & Hdb & E).
  eapply (mutateRun_stored _ (CallBegin request)) in E; [exact E|by rewrite Hdb|reflexivity|done].
Qed.

Lemma Get_stored env id store run store' : Get env id store = (Ok run, store') ->
  exists row, plan_runs (tables (st_db store')) !! id = Some row /\ rr_Document row = run.
Proof. intros E. rewrite (keeps_Get _ _ _ _ _ E). by eapply Get_Ok. Qed.

Lemma ActiveRuns_stored env store runs store' : tables_wf (tables (st_db store)) ->
  ActiveRuns env store = (Ok runs, store') ->
  Forall (fun run => exists row, plan_runs (tables (st_db store')) !! r_RunID run = Some row /\ rr_Document row = run) runs.
Proof.
  intros W E. rewrite (keeps_ActiveRuns _ _ _ _ E). unfold ActiveRuns in E.
  apply action_bind_Ok in E as (canonical & s1 & Er & E). apply Read_Ok in Er. injection Er as <-.
  unfold lift in E. injection E as E _. revert runs E.
  match goal with |- forall runs, foldr _ _ ?found = _ -> _ => assert (Hall : Forall (fun run =>
    exists row, plan_runs (tables (st_db store)) !! r_RunID run = Some row /\ rr_Document row = run) found) end.
  { apply Forall_map, Forall_forall. intros [id row] Hin. cbn.
    rewrite merge_sort_Permutation, list_elem_of_filter, elem_of_map_to_list in Hin. destruct Hin as [_ Hin].
    exists row. split; [|done]. by rewrite (rw_id _ _ _ (tw_runs _ W _ _ Hin)). }
  induction Hall as [|run rest Hrun Hrest IH]; cbn; intros runs E; [by injection E as <-|].
  apply bind_Ok in E as (run' & Hd & E). apply bind_Ok in E as (runs' & Hr & E). injection E as <-.
  apply decodeRun_Ok in Hd as [-> _]. constructor; auto.
Qed.

Lemma assigned_step id status effect steps : id ∈ map s_StepID steps ->
  exists s, s ∈ assignStep id (withState status effect) steps /\ s_StepID s = id /\ s_Status s = status
    /\ s_EffectState s = effect.
Proof.
  induction steps as [|x steps IH]; cbn [map assignStep]; [by intros ?%not_elem_of_nil|]. intros Hin. case_bool_decide as Hc.
  - exists (withState status effect x). split_and!; [apply elem_of_cons; by left|done..].
  - apply elem_of_cons in Hin as [?|Hin]; [congruence|]. destruct (IH Hin) as (s & ? & ?). exists s.
    split; [apply elem_of_cons; by right|done].
Qed.

(** A finished step whose receipt is new is what the request says. *)
Lemma FinishStep_fresh env request store run store' : tables_wf (tables (st_db store)) ->
  FinishStep env request store = ((run, None), store') ->
  intent_keys (st_db store) !! mutationKey (fq_RunID request) "run.step-finished" (rc_ReceiptID (fq_Receipt request)) = None ->
  exists srow, plan_run_steps (tables (st_db store')) !! fq_StepID request = Some srow
    /\ sr_Status srow = fq_Status request /\ sr_EffectState srow = "verified".
Proof.
  unfold FinishStep. destruct (negb _) eqn:Hg; [discriminate|]. intros W E Hn.
  apply mutateRun_Ok in E as [([x Hk] & _)|[_ E]]; [congruence|].
  assert (Ha : allowed (CallFinish request) = true) by (cbn; bool_hyps; rewrite ?bool_decide_eq_true_2 by done; done).
  destruct (mutation_moved env (CallFinish request) _ _ _ _ _ _ W eq_refl Ha E) as (row & M).
  pose proof (moved_wf _ _ _ _ _ W M) as W'. apply applyMutation_Ok in E as (row1 & t1 & Hrow & _ & Hm & _).
  rewrite (mv_row _ _ _ _ _ M) in Hrow. injection Hrow as <-.
  assert (He : fq_EffectState request = "verified") by (by bool_hyps).
  assert (Hstep : exists s, s ∈ r_Steps run /\ s_StepID s = fq_StepID request /\ s_Status s = fq_Status request
    /\ s_EffectState s = "verified").
  { unfold finishMutation in Hm. apply bind_Ok in Hm as (s & Hf & Hm). apply of_option_Ok in Hf.
    apply findStep_state in Hf as [Hin Hid]. apply bind_Ok in Hm as ([] & _ & Hm). destruct (_ && _) eqn:Hsame in Hm.
    - apply bind_Ok in Hm as ([] & _ & Hm). injection Hm as <- _. exists s. bool_hyps. split_and!; congruence.
    - apply bind_Ok in Hm as ([] & _ & Hm). apply bind_Ok in Hm as ([] & _ & Hm). injection Hm as <- _. cbn.
      destruct (assigned_step (s_StepID s) (fq_Status request) (fq_EffectState request) (r_Steps (rr_Document row)))
        as (s' & ? & ? & ? & ?); [by apply list_elem_of_fmap_2|]. exists s'. split_and!; congruence. }
  destruct Hstep as (s & Hin & Hid & Hs & Hv).
  pose proof (tw_runs _ W' (fq_RunID request) (storedRow row run)) as R. rewrite (mv_runs _ _ _ _ _ M), lookup_insert_eq in R.
  destruct (rw_steps _ _ _ (R eq_refl) _ Hin) as (srow & Hsrow & _ & _ & H1' & H2'). rewrite Hid in Hsrow.
  exists srow. split_and!; congruence.
Qed.

End Shown.
