(* ===== verification/RunSuccess.v ===== *)
(** Runs that succeeded and the verified effects of their steps: what every call
    of the repositories preserves. *)

From S2P Require Import Prelude GoTime Hash GoJson Contracts AuditLog AuditStore Authorization Adapter ExecutorLease RunRepository RunHistory.
From S2P Require Import RunFacts.

(** ** Verified steps *)

Section Verified.
Context `{Hasher} `{RunSchemas}.

Definition verifiedStep (t : RunTables) (id : string) : Prop :=
  exists srow, plan_run_steps t !! id = Some srow /\ sr_Status srow = "succeeded" /\ sr_EffectState srow = "verified".

Definition allVerified (t : RunTables) (id : string) : Prop :=
  forall row, plan_runs t !! id = Some row -> forall s, s ∈ r_Steps (rr_Document row) -> verifiedStep t (s_StepID s).

(** Every run that succeeded is verified, step by step. *)
Definition complete (t : RunTables) : Prop :=
  forall id row, plan_runs t !! id = Some row -> rr_Status row = "succeeded" -> allVerified t id.

(** No step succeeded without a verification. *)
Definition sound (t : RunTables) : Prop :=
  forall id srow, plan_run_steps t !! id = Some srow -> sr_Status srow = "succeeded" -> sr_EffectState srow = "verified".

(** A call that declares no run successful too early. *)
Definition honest (t : RunTables) (call : RunCall) : Prop :=
  match call with
  | CallTransition request => tq_To request = "succeeded" -> allVerified t (tq_RunID request)
  | _ => True
  end.

Lemma moves_from_verified i st : ~ stepMoves i ("succeeded", "verified") st.
Proof. intros M. inversion M. Qed.

Lemma outcome_verified call t t' id :
  tables_wf t -> outcome call t t' -> verifiedStep t id -> is_Some (plan_run_steps t' !! id) -> verifiedStep t' id.
Proof.
  intros W O (srow & E & Hs & He) [srow' E']. exists srow'. split; [done|].
  assert (Hst : (sr_Status srow', sr_EffectState srow') = ("succeeded", "verified")).
  { destruct (step_back _ _ _ _ _ W O E') as [(x & Ex & _ & Hm)|(request & s & -> & Hin & _)].
    - assert (x = srow) as -> by congruence. rewrite Hs, He in Hm. destruct Hm as [?|Hm]; [done|].
      by apply moves_from_verified in Hm.
    - destruct (outcome_step (CallCreate request) _ _ id srow W O eq_refl E) as (x & Ex & _ & _ & Hm).
      assert (x = srow') as -> by congruence. rewrite Hs, He in Hm. destruct Hm as [?|Hm]; [done|].
      by apply moves_from_verified in Hm. }
  by injection Hst.
Qed.

(** The steps of a stored run have rows. *)
Lemma stored_step t id row s :
  tables_wf t -> plan_runs t !! id = Some row -> s ∈ r_Steps (rr_Document row) ->
  exists srow, plan_run_steps t !! s_StepID s = Some srow /\ sr_Status srow = s_Status s
    /\ sr_EffectState srow = s_EffectState s.
Proof.
  intros W E Hin. destruct (rw_steps _ _ _ (tw_runs _ W _ _ E) _ Hin) as (srow & Es & _ & _ & H1' & H2'). eauto.
Qed.

Lemma outcome_sound call t t' : tables_wf t -> outcome call t t' -> freshCall call = true -> sound t -> sound t'.
Proof.
  intros W O Hf S id srow' E Hs. destruct (step_back _ _ _ _ _ W O E) as [(x & Ex & _ & Hm)|(request & s & -> & Hin & Hst)].
  - pose proof (S _ _ Ex) as Hx. destruct Hm as [Hm|Hm].
    + injection Hm as E1 E2. rewrite E2. apply Hx. congruence.
    + rewrite Hs in Hm. inversion Hm; subst; try done.
      match goal with E : "succeeded" ∈ _ |- _ => not_in_list E end.
  - cbn in Hf. rewrite forallb_forall in Hf. apply list_elem_of_In, Hf in Hin. bool_hyps. injection Hst as E1 E2. congruence.
Qed.

Lemma outcome_complete call t t' : tables_wf t -> outcome call t t' -> honest t call -> complete t -> complete t'.
Proof.
  intros W O Hh C id row' E Hs row1 E1 s Hin. assert (row1 = row') as -> by congruence.
  pose proof (outcome_wf _ _ _ W O) as W'. destruct (stored_step _ _ _ _ W' E Hin) as (srow' & Es' & _).
  destruct (run_back _ _ _ _ _ W O E) as [(row & Er & Hids & Hst)|(request & -> & -> & Ha)].
  - assert (Hv : allVerified t id).
    { destruct Hst as [Hst|(request & -> & <- & Hto)]; [apply (C _ _ Er); congruence|]. apply Hh. congruence. }
    assert (Hids' : s_StepID s ∈ map s_StepID (r_Steps (rr_Document row))) by (rewrite <- Hids; by apply list_elem_of_fmap_2).
    apply list_elem_of_fmap in Hids' as (s0 & Hid & Hin0). apply (outcome_verified call t t'); [done..| |eauto].
    rewrite Hid. by eapply Hv.
  - exfalso. cbn in Ha, Hs. bool_hyps. congruence.
Qed.

(** A run and what is known of it: the identifiers of its steps and which of
    them are verified. *)
Definition knows (id : string) (all done : list string) (t : RunTables) : Prop :=
  (exists row, plan_runs t !! id = Some row /\ map s_StepID (r_Steps (rr_Document row)) = all)
  /\ Forall (verifiedStep t) done.

Lemma outcome_knows call t t' id all done :
  tables_wf t -> outcome call t t' -> isPrune call = false -> knows id all done t -> knows id all done t'.
Proof.
  intros W O Hp [(row & Er & Hids) Hd]. split.
  - destruct (run_kept call t t' id row W O Hp Er) as [row' Er']. exists row'. split; [done|].
    destruct (run_back _ _ _ _ _ W O Er') as [(x & Ex & Hi & _)|(request & -> & -> & Ha)]; [congruence|].
    destruct (outcome_row (CallCreate request) _ _ id row _ W O Er Er') as [Hrow|(t0 & run & _ & M & Hrow)];
      [by rewrite Hrow|]. rewrite Hrow. cbn. pose proof (mv_mutated _ _ _ _ _ M) as (t1 & X & _).
    rewrite <- Hids. apply moves_ids, (sy_moves _ _ _ _ _ (mu_sync _ _ _ _ X)).
  - eapply Forall_impl; [exact Hd|]. intros x Hx. apply (outcome_verified call t t'); [done..|]. destruct Hx as (srow & Es & _).
    destruct (outcome_step call t t' x srow W O Hp Es) as (y & Ey & _). eauto.
Qed.

Lemma knows_allVerified id all done t :
  knows id all done t -> (forall x, x ∈ all -> x ∈ done) -> allVerified t id.
Proof.
  intros [(row & Er & Hids) Hd] Hsub row1 E1 s Hin. assert (row1 = row) as -> by congruence.
  rewrite Forall_forall in Hd. apply Hd, Hsub. rewrite <- Hids. by apply list_elem_of_fmap_2.
Qed.

(** The same for the calls of the repositories. *)
Lemma sound_kept env call store :
  tables_wf (tables (st_db store)) -> freshCall call = true -> sound (tables (st_db store)) ->
  sound (tables (st_db (perform env call store))).
Proof. intros W. exact (outcome_sound call _ _ W (perform_outcome env call store W)). Qed.

Lemma complete_kept env call store :
  tables_wf (tables (st_db store)) -> honest (tables (st_db store)) call -> complete (tables (st_db store)) ->
  complete (tables (st_db (perform env call store))).
Proof. intros W. exact (outcome_complete call _ _ W (perform_outcome env call store W)). Qed.

Lemma knows_kept env call store id all done :
  tables_wf (tables (st_db store)) -> isPrune call = false -> knows id all done (tables (st_db store)) ->
  knows id all done (tables (st_db (perform env call store))).
Proof. intros W. exact (outcome_knows call _ _ id all done W (perform_outcome env call store W)). Qed.

Lemma verified_kept env call store id :
  tables_wf (tables (st_db store)) -> isPrune call = false -> verifiedStep (tables (st_db store)) id ->
  verifiedStep (tables (st_db (perform env call store))) id.
Proof.
  intros W Hp Hx. apply (outcome_verified call _ _ id W (perform_outcome env call store W) Hx).
  destruct Hx as (srow & Es & _). destruct (perform_step env call store id srow W Hp Es) as (y & Ey & _). eauto.
Qed.

End Verified.
