(* ===== verification/ExecutorHistory.v ===== *)
(** Histories of the store of runs in which external executors take part: the
    calls of [RunHistory] together with the receipts the executors report.

    A lease keeps its binding and its window whatever happens, a step is handed
    to an external executor at most once, and a nonce that was rotated out is
    spent for good. The receipts keep the tables well formed as long as each
    terminal one arrives while its run is running; [late_receipt_splits_step]
    is a history in which one does not. *)

From S2P Require Import Prelude GoTime Hash GoJson Contracts AuditLog AuditStore ExecutorLease RunRepository RunHistory.
From S2P Require Import RunFacts.

(** ** Calls *)

Inductive StoreCall :=
| Ordinary (call : RunCall)
| Observe (request : ExecutorReceiptPersistenceRequest).

Definition keepsRows (c : StoreCall) : bool :=
  match c with Ordinary call => negb (isPrune call) | Observe _ => true end.

Section Calls.
Context `{Hasher} `{RunSchemas}.

Definition performCall (env : RunEnv) (c : StoreCall) (store : Store RunTables) : Store RunTables :=
  match c with
  | Ordinary call => perform env call store
  | Observe request => (ExecutorLease.RecordReceipt env request store).2
  end.

Definition performCalls (history : list (RunEnv * StoreCall)) (store : Store RunTables) : Store RunTables :=
  fold_left (fun s c => performCall c.1 c.2 s) history store.

(** A terminal receipt arrives while its run is running. *)
Definition timely (c : StoreCall) (t : RunTables) : Prop :=
  match c with
  | Ordinary _ => True
  | Observe request =>
      let receipt := xp_Receipt (lp_Request request) in
      rc_Status receipt <> "running" -> forall row, plan_runs t !! rc_RunID receipt = Some row -> rr_Status row = "running"
  end.

Fixpoint allTimely (history : list (RunEnv * StoreCall)) (store : Store RunTables) : Prop :=
  match history with
  | [] => True
  | (env, c) :: rest => timely c (tables (st_db store)) /\ allTimely rest (performCall env c store)
  end.

Lemma observe_changes env request store :
  changes (observeReceipt request (atEpoch (rc_RecoveryEpoch (xp_Receipt (lp_Request request))))) store
    (ExecutorLease.RecordReceipt env request store).2.
Proof.
  unfold ExecutorLease.RecordReceipt. cbv zeta. rewrite !check_bind. repeat (case_match; [|by left]).
  apply changes_then; [apply changes_intentAt|].
  - intros current t0 t1 E. unfold observeReceipt in *. cbv zeta in *. apply bind_Ok in E as (l & -> & E). cbn.
    apply bind_Ok in E as ([] & He & E). rewrite He. apply require_Ok in He. bool_hyps. cbn.
    apply bind_Ok in E as ([] & Hb & E). rewrite Hb. cbn.
    apply bind_Ok in E as ([renewAfter expiry] & -> & E). cbn. destruct (endLapsed _ _ _ _ _) as [status t2].
    apply bind_Ok in E as ([] & Hs & E). rewrite Hs. cbn. apply bind_Ok in E as ([] & _ & E).
    exact E.
  - intros intent. apply keeps_bind; [apply keeps_check|]. intros; apply keeps_mret.
Qed.

End Calls.

Section Observations.
Context `{Hasher} `{RunSchemas}.

(** A receipt of an external executor: it is bound to an external lease, which
    may have ended meanwhile, it is stored as a fresh observation, and when it
    is terminal no terminal one was stored before and the step moves from its
    recorded intent to its recorded receipt. *)
Lemma observe_Ok request current t t' :
  let receipt := xp_Receipt (lp_Request request) in
  observeReceipt request current t = Ok t' ->
  exists l t0 t1, target_execution_leases t !! rc_LeaseID receipt = Some l /\ le_Kind l = "external"
    /\ (le_Status l = "active" \/ le_Status l = "expired")
    /\ ValidateExecutionReceiptBinding (le_Document l) receipt = true
    /\ leasesEnded t t0 /\ external_execution_observations t !! rc_ReceiptID receipt = None
    /\ t1 = setObservations (<[rc_ReceiptID receipt :=
              mkReceiptRow (rc_LeaseID receipt) (rc_RunID receipt) (rc_StepID receipt) receipt]>
              (external_execution_observations t)) t0
    /\ (rc_Status receipt <> "running" -> forall id x, external_execution_observations t !! id = Some x ->
        terminalObservation (rc_LeaseID receipt) x = false)
    /\ (rc_Status receipt = "running" /\ t' = t1
        \/ rc_Status receipt <> "running" /\ settleReceipt receipt (lp_At request) t1 = Ok t').
Proof.
  intros receipt E. unfold observeReceipt in E. cbv zeta in E. fold receipt in E.
  apply bind_Ok in E as (l & Hl & E). apply readLease_Ok in Hl as (El & Hk & Hv). apply bind_Ok in E as ([] & _ & E).
  apply bind_Ok in E as ([] & Hb & E). apply require_Ok in Hb. apply bind_Ok in E as ([renewAfter expiry] & _ & E).
  destruct (endLapsed _ _ _ _ _) as [status t0] eqn:Hend. apply bind_Ok in E as ([] & Hs & E). apply require_Ok in Hs.
  apply bind_Ok in E as ([] & _ & E). apply bind_Ok in E as ([] & Hterm & E). apply require_Ok in Hterm.
  apply bind_Ok in E as (t1 & Hi & E). unfold insertObservation in Hi. destruct (_ || _) eqn:Hg in Hi; [done|].
  injection Hi as <-. bool_hyps.
  assert (Ht0 : leasesEnded t t0 /\ (le_Status l = "active" \/ le_Status l = "expired")).
  { unfold endLapsed in Hend. destruct (_ && _) eqn:Hlap in Hend; injection Hend as <- <-; bool_hyps.
    - split; [apply expireLease_ended|by left].
    - split; [apply leasesEnded_refl|]. apply orb_true_iff in Hs as [Hs|Hs]; bool_hyps; auto. }
  destruct Ht0 as [Ht0 Hact]. assert (Ho : external_execution_observations t0 = external_execution_observations t)
    by by rewrite (proj1 Ht0).
  rewrite Ho in *. eexists l, t0, _. split_and!; try done.
  - apply eq_None_not_Some. match goal with E : ~ is_Some _ |- _ => exact E end.
  - intros Hr id x Ex. apply orb_true_iff in Hterm as [Hterm|Hterm]; bool_hyps; [done|].
    match goal with E : existsb _ _ = false |- _ => by apply (existsb_lookup _ _ _ _ E) in Ex end.
  - destruct (rc_Status receipt == "running") eqn:Hr; bool_hyps; [left|right]; split; congruence.
Qed.

(** The observation keeps the tables well formed. *)
Lemma observed_wf request current t t' :
  tables_wf t -> observeReceipt request current t = Ok t' ->
  (rc_Status (xp_Receipt (lp_Request request)) <> "running" ->
   forall row, plan_runs t !! rc_RunID (xp_Receipt (lp_Request request)) = Some row -> rr_Status row = "running") ->
  exists t1, plan_runs t1 = plan_runs t /\ plan_run_steps t1 = plan_run_steps t /\ tables_wf t1
    /\ execution_receipts t1 = execution_receipts t
    /\ external_execution_observations t ⊆ external_execution_observations t1
    /\ (t' = t1 \/ exists row run, moved (rc_RunID (xp_Receipt (lp_Request request))) t1 row run t'
                                   /\ r_Status run = rr_Status row).
Proof.
  intros W E Hrunning.
  apply observe_Ok in E as (l & t0 & t1 & El & Hk & Ha & Hb & Ht0 & Hfresh & Ht1 & Hterm & E).
  set (receipt := xp_Receipt (lp_Request request)) in *. pose proof (leasesEnded_wf _ _ W Ht0) as W0.
  pose proof (tw_leases _ W _ _ El) as L. destruct (leasesEnded_lookup _ _ _ _ Ht0 El) as (l0 & El0 & He).
  apply endedFrom_kept in He as ((K1 & K2 & K3) & _). assert (Hd : external_execution_observations t0
    = external_execution_observations t /\ plan_runs t0 = plan_runs t /\ plan_run_steps t0 = plan_run_steps t
      /\ execution_receipts t0 = execution_receipts t) by by rewrite (proj1 Ht0). destruct Hd as (Eo & Er & Es & Ex).
  assert (Hrow : receipt_wf t1 (rc_ReceiptID receipt)
    (mkReceiptRow (rc_LeaseID receipt) (rc_RunID receipt) (rc_StepID receipt) receipt)).
  { rewrite Ht1. constructor; [done|]. exists l0. cbn. split; [done|]. pose proof Hb as Hb'.
    unfold ValidateExecutionReceiptBinding in Hb'. bool_hyps. destruct L. split_and!; [congruence|congruence|].
    by apply K3, receiptBound_exact. }
  assert (W1 : tables_wf t1).
  { destruct (runs_same t0 t1 W0) as (R1 & R2 & R3); [by rewrite Ht1..|].
    assert (Hold : forall id x, receipt_wf t0 id x -> receipt_wf t1 id x).
    { intros id x. apply receipt_kept. rewrite Ht1. by apply leasesKept_same. }
    constructor; try assumption.
    - intros id x Elx. rewrite Ht1 in Elx. apply (lease_kept t0); [rewrite Ht1; eauto|by rewrite Ht1|].
      by apply (tw_leases _ W0).
    - rewrite Ht1. apply W0.
    - intros id x E1. rewrite Ht1 in E1. by apply Hold, (tw_receipts _ W0).
    - rewrite Ht1. apply W0.
    - intros id x E1. rewrite Ht1 in E1. cbn in E1. apply lookup_insert_Some in E1 as [[<- <-]|[_ E1]]; [done|].
      rewrite <- Eo in E1. by apply Hold, (tw_observations _ W0).
    - intros a b xa xb Ea Eb Ra Rb Hl. rewrite Ht1 in Ea, Eb. cbn in Ea, Eb.
      apply lookup_insert_Some in Ea as [[<- <-]|[Hna Ea]]; apply lookup_insert_Some in Eb as [[<- <-]|[Hnb Eb]];
        [done| | |by eapply (tw_terminal _ W)]; cbn in *.
      + pose proof (Hterm Ra _ _ Eb) as Hx. unfold terminalObservation in Hx.
        rewrite <- Hl, bool_decide_refl in Hx. cbn in Hx. by bool_hyps.
      + pose proof (Hterm Rb _ _ Ea) as Hx. unfold terminalObservation in Hx.
        rewrite Hl, bool_decide_refl in Hx. cbn in Hx. by bool_hyps.
    - intros nonce n E1. rewrite Ht1 in E1 |- *. by apply (tw_nonces _ W0 nonce). }
  destruct E as [[_ ->]|[Hr E]].
  { exists t1. split_and!; [by rewrite Ht1..|done|by rewrite Ht1|rewrite Ht1; by apply insert_subseteq|by left]. }
  unfold settleReceipt in E. apply bind_Ok in E as ([run plan] & Erun & E).
  apply runAndPlan_Ok in Erun as (row & Hrrow & <- & _ & _). apply bind_Ok in E as (step & Hstep & E).
  apply of_option_Ok in Hstep. apply bind_Ok in E as ([] & Hst & E). apply require_Ok in Hst. bool_hyps. cbv zeta in E.
  apply bind_Ok in E as (t2 & Hmove & E). apply insertDetail_Ok in E as ->.
  exists t1. split_and!; [by rewrite Ht1..|done|by rewrite Ht1|rewrite Ht1; by apply insert_subseteq|].
  right. exists row. eexists. split.
  - apply moved_details.
    eapply (stepped_moved t1 row _ _ step _ _ _ (fun r => moveRow (sr_Status r) "receipt-recorded" _ _ _ _ r)); try done.
    + pose proof (tw_runs _ W1 _ _ Hrrow) as R. rewrite <- (rw_status _ _ _ R). apply (Hrunning Hr).
      rewrite Ht1 in Hrrow. cbn in Hrrow. by rewrite Er in Hrrow.
    + step_state step. constructor.
    + intros r (_ & _ & Es' & _). by rewrite Es'.
    + intros _. eexists. split; [eexists; right; rewrite Ht1; apply lookup_insert_eq|done].
    + step_state step. exact Hmove.
  - pose proof (tw_runs _ W1 _ _ Hrrow) as R. by rewrite (rw_status _ _ _ R).
Qed.

End Observations.

(** ** What histories do to the tables *)

Section Histories.
Context `{Hasher} `{RunSchemas}.

Lemma timely_wf env c store : tables_wf (tables (st_db store)) -> timely c (tables (st_db store)) ->
  tables_wf (tables (st_db (performCall env c store))).
Proof.
  intros W T. destruct c as [call|request]; [by apply perform_wf|]. cbn.
  destruct (observe_changes env request store) as [->|E]; [done|].
  apply observed_wf in E as (t1 & _ & _ & W1 & _ & _ & [->|(row & run & M & _)]); [done|by eapply moved_wf|done|done].
Qed.

(** What a call does to the runs: a timely receipt at most moves one of them, and
    does not change its status. *)
Definition callOf (c : StoreCall) : RunCall := match c with Ordinary call => call | Observe _ => CallActive end.

Lemma performCall_outcome env c store : tables_wf (tables (st_db store)) -> timely c (tables (st_db store)) ->
  outcome (callOf c) (tables (st_db store)) (tables (st_db (performCall env c store))).
Proof.
  intros W T. destruct c as [call|request]; [by apply perform_outcome|]. cbn [callOf performCall].
  destruct (observe_changes env request store) as [->|E]; [by apply outcome_same|].
  apply observed_wf in E as (t1 & Er & Es & W1 & Ex & Eo & [->|(row & run & M & Hst)]); [|by eapply OutcomeMoved; eauto; split; rewrite ?Ex|done|done].
  apply OutcomeSame; try done. split; [by rewrite Ex|done].
Qed.

(** What the life of a lease leaves in place. *)
Record leaseEvolves (l l' : LeaseRow) : Prop := {
  lv_columns : le_RunID l' = le_RunID l /\ le_StepID l' = le_StepID l /\ le_TargetID l' = le_TargetID l
               /\ le_Kind l' = le_Kind l;
  lv_document : exists nonce renewAfter status, le_Document l' = rebuildLease nonce renewAfter status (le_Document l);
  lv_ended : le_Status l <> "active" -> l' = l;
  lv_status : le_Status l' = le_Status l \/ le_Status l' = "released" \/ le_Status l' = "expired";
  lv_renewals : le_RenewalCount l <= le_RenewalCount l';
  lv_nonce : le_RenewalCount l' = le_RenewalCount l -> l_NonceDigest (le_Document l') = l_NonceDigest (le_Document l)
}.

Lemma leaseEvolves_refl l : leaseEvolves l l.
Proof.
  constructor; try done; [|by left]. exists (l_NonceDigest (le_Document l)), (l_RenewAfter (le_Document l)), (l_Status (le_Document l)).
  by destruct l as [? ? ? ? []].
Qed.

Lemma leaseEvolves_trans l l' l'' : leaseEvolves l l' -> leaseEvolves l' l'' -> leaseEvolves l l''.
Proof.
  intros [(C1 & C2 & C3 & C4) (n & r & s & D) E S R N] [(C1' & C2' & C3' & C4') (n' & r' & s' & D') E' S' R' N'].
  constructor; [split_and!; congruence| | | |lia|].
  - exists n', r', s'. by rewrite D', D.
  - intros Hl. specialize (E Hl). subst l'. auto.
  - destruct S' as [S'|S']; [rewrite S'|]; auto.
  - intros Hc. rewrite N' by lia. apply N. lia.
Qed.

Lemma ended_evolves l l' : endedFrom l l' -> leaseEvolves l l'.
Proof.
  intros [->|[Ha [-> | ->]]]; [apply leaseEvolves_refl|..]; constructor; cbn; try done; auto; by do 3 eexists.
Qed.

Lemma renewed_evolves request renewAfter l : le_Status l = "active" -> leaseEvolves l (renewedRow request renewAfter l).
Proof. intros Ha. constructor; cbn; try done; [by do 3 eexists|by left|lia|lia]. Qed.

(** The leases and the nonces after some calls. *)
Record evolves (t t' : RunTables) : Prop := {
  ev_leases : forall id l, target_execution_leases t !! id = Some l ->
    exists l', target_execution_leases t' !! id = Some l' /\ leaseEvolves l l';
  ev_nonces : executor_lease_nonce_history t ⊆ executor_lease_nonce_history t'
}.

Lemma evolves_same t t' : target_execution_leases t' = target_execution_leases t ->
  executor_lease_nonce_history t' = executor_lease_nonce_history t -> evolves t t'.
Proof. intros El En. constructor; [|by rewrite En]. intros id l E. exists l. rewrite El. split; [done|apply leaseEvolves_refl]. Qed.

Lemma evolves_refl t : evolves t t.
Proof. by apply evolves_same. Qed.

Lemma evolves_trans t t' t'' : evolves t t' -> evolves t' t'' -> evolves t t''.
Proof.
  intros [L N] [L' N']. constructor; [|by etrans]. intros id l E. destruct (L _ _ E) as (l' & E' & V).
  destruct (L' _ _ E') as (l'' & E'' & V'). exists l''. split; [done|]. by eapply leaseEvolves_trans.
Qed.

Lemma evolves_ended t t' : leasesEnded t t' -> evolves t t'.
Proof.
  intros Hl. constructor; [|destruct Hl as [-> _]; done]. intros id l E.
  destruct (leasesEnded_lookup _ _ _ _ Hl E) as (l' & E' & V). exists l'. split; [done|by apply ended_evolves].
Qed.

Lemma evolves_insert t t' id l : target_execution_leases t' = <[id := l]> (target_execution_leases t) ->
  (forall l0, target_execution_leases t !! id = Some l0 -> leaseEvolves l0 l) ->
  executor_lease_nonce_history t ⊆ executor_lease_nonce_history t' -> evolves t t'.
Proof.
  intros El Hl Hn. constructor; [|done]. intros id' l' E. rewrite El. destruct (decide (id' = id)) as [-> |Hne].
  - rewrite lookup_insert_eq. eauto.
  - rewrite lookup_insert_ne by done. exists l'. split; [done|apply leaseEvolves_refl].
Qed.

Lemma call_evolves env call t t' :
  isPrune call = false -> allowed call = true -> callChange env call t = Ok t' -> evolves t t'.
Proof.
  intros Hp Ha E. unfold callChange in E. destruct (mutationOf env call) as [[[runID eventType] mutate]|] eqn:Hm.
  { destruct (applyMutation _ _ _ _) as [[run t1]|e] eqn:Em; [|done]. injection E as <-.
    apply applyMutation_Ok in Em as (r0 & t2 & Hr0 & Hv & Hmut & _ & r1 & _ & ->). destruct (valid_NoDup _ Hv) as [Hd _].
    pose proof (call_mutated _ _ _ _ _ _ _ _ _ Hm Ha Hmut Hd) as X. rewrite (mu_tables _ _ _ _ X). by apply evolves_same. }
  destruct call; try discriminate Hm; try discriminate Hp; cbn in E; try (injection E as <-; apply evolves_refl).
  - apply createChange_Ok in E. apply evolves_same; apply E.
  - unfold leaseChange in E. apply bind_Ok in E as ([run plan] & _ & E). result_hyps.
    match goal with E : insertLease _ _ _ = _ |- _ => apply insertLease_Ok in E as (-> & Hf & _) end.
    eapply evolves_insert; [done| |done]. intros l0 El. congruence.
  - injection E as <-. unfold releaseLease. destruct (_ !! leaseID) as [l|] eqn:El; [|apply evolves_refl].
    case_match; [|apply evolves_refl]. bool_hyps. eapply evolves_insert; [done| |done]. intros l0 E0.
    assert (l0 = l) as -> by congruence. apply ended_evolves. right. auto.
  - injection E as <-. constructor; [|done]. intros id l El. cbn. rewrite lookup_fmap, El. eexists. split; [done|].
    apply ended_evolves. unfold endedFrom. case_match; [bool_hyps|]; auto.
  - unfold claimChange in E. apply bind_Ok in E as ([] & _ & E). case_match; [done|]. simplify_eq. by apply evolves_same.
  - unfold completeChange in E. case_match; [|done]. result_hyps. by apply evolves_same.
  - apply insertDetail_Ok in E as ->. by apply evolves_same.
  - apply claimLease_tables in E as (_ & El & Hn & Hf & _). eapply evolves_insert; [exact El| |done].
    intros l0 E0. congruence.
  - destruct (renewLease _ _ _) as [[lease t1]|] eqn:Er; [|done]. injection E as <-.
    apply renewLease_Ok in Er as (l & renewAfter & expiry & El & _ & Hact & _ & _ & Hfresh & _ & _ & _ & _ & ->).
    eapply evolves_insert; [done| |by apply insert_subseteq]. intros l0 E0. assert (l0 = l) as -> by congruence.
    by apply renewed_evolves.
  - destruct (expireLeases _ _) as [[leases t1]|] eqn:Er; [|done]. injection E as <-.
    by eapply evolves_ended, expireLeases_ended.
Qed.

Lemma settleReceipt_tables receipt at_ t t' : settleReceipt receipt at_ t = Ok t' ->
  target_execution_leases t' = target_execution_leases t
  /\ executor_lease_nonce_history t' = executor_lease_nonce_history t.
Proof.
  unfold settleReceipt. intros E. apply bind_Ok in E as ([run plan] & _ & E). apply bind_Ok in E as (step & _ & E).
  apply bind_Ok in E as ([] & _ & E). cbv zeta in E. apply bind_Ok in E as (t1 & Hm & E). apply insertDetail_Ok in E as ->.
  apply moveStep_Ok in Hm as ->. unfold updateRunning. repeat case_match; cbn; by rewrite updateStepRow_tables.
Qed.

Lemma observe_evolves request current t t' : observeReceipt request current t = Ok t' -> evolves t t'.
Proof.
  intros E. apply observe_Ok in E as (l & t0 & t1 & _ & _ & _ & _ & Ht0 & _ & Ht1 & _ & E).
  eapply evolves_trans; [by apply evolves_ended|]. destruct E as [[_ ->]|[_ E]]; [rewrite Ht1; by apply evolves_same|].
  apply settleReceipt_tables in E as [E1 E2]. rewrite Ht1 in E1, E2. by apply evolves_same.
Qed.

Lemma performCall_evolves env c store : keepsRows c = true ->
  evolves (tables (st_db store)) (tables (st_db (performCall env c store))).
Proof.
  intros Hk. destruct c as [call|request]; cbn in *.
  - bool_hyps. destruct (perform_changes env call store) as [->|E]; [apply evolves_refl|].
    destruct (perform_allowed env call store) as [->|Ha]; [apply evolves_refl|]. by eapply call_evolves.
  - destruct (observe_changes env request store) as [->|E]; [apply evolves_refl|]. by eapply observe_evolves.
Qed.

Lemma performCalls_evolves history store : Forall (fun c => keepsRows c.2 = true) history ->
  evolves (tables (st_db store)) (tables (st_db (performCalls history store))).
Proof.
  intros Hall. revert store. induction Hall as [|[env c] history Hk Hall IH]; intros store; [apply evolves_refl|].
  eapply evolves_trans; [by apply (performCall_evolves env c)|apply IH].
Qed.

Lemma performCalls_wf history store : tables_wf (tables (st_db store)) -> allTimely history store ->
  tables_wf (tables (st_db (performCalls history store))).
Proof.
  revert store. induction history as [|[env c] history IH]; intros store W T; [done|]. destruct T as [T Ts].
  apply IH; [by apply timely_wf|done].
Qed.

(** A claim that was answered with a lease stored it. *)
Lemma Claim_Ok env request store lease store' : Claim env request store = (Ok lease, store') ->
  lease = lc_Lease request
  /\ exists current, claimLeaseChange request current (tables (st_db store)) = Ok (tables (st_db store')).
Proof.
  unfold Claim. cbv zeta. rewrite !check_bind. repeat (case_match; [|discriminate]). intros E.
  apply action_bind_Ok in E as (intent & s1 & E1 & E). apply action_bind_Ok in E as ([] & s2 & E2 & E).
  apply check_Ok in E2 as [Hc ->]. injection E as <- <-. split; [done|].
  apply executeAuditIntent_outcome in E1 as [[_ Hk]|(res & event & p & d & l & A & _)].
  - destruct (Hk _ eq_refl) as (row & _ & _ & ->). discriminate Hc.
  - eexists. exact (ap_tables _ _ _ _ _ _ _ _ _ _ _ A).
Qed.

(** A renewal that was answered with a lease rotated the nonce. *)
Lemma Renew_Ok env request store lease store' : Renew env request store = (Ok lease, store') ->
  exists current, renewLease request current (tables (st_db store)) = Ok (lease, tables (st_db store')).
Proof.
  unfold Renew. rewrite check_bind. case_match; [|discriminate]. intros E.
  apply action_bind_Ok in E as (before & s0 & E0 & E). injection E0 as <- <-.
  apply action_bind_Ok in E as (intent & s1 & E1 & E). apply action_bind_Ok in E as ([] & s2 & E2 & E).
  apply check_Ok in E2 as [Hc ->]. unfold lift in E. injection E as E <-.
  apply executeAuditIntent_outcome in E1 as [[_ Hk]|(res & event & p & d & l & A & _)].
  - destruct (Hk _ eq_refl) as (row & _ & _ & ->). discriminate Hc.
  - pose proof (ap_tables _ _ _ _ _ _ _ _ _ _ _ A) as Ht. cbn beta in Ht. eexists.
    apply fmap_Ok in Ht as ([lease' t1] & Er & Et). cbn in Et. subst t1. rewrite Er. f_equal. f_equal.
    apply renewLease_epoch in Er. unfold atEpoch in Er. rewrite Er in E. by injection E.
Qed.

End Histories.

(** ** Theorems *)

Section Theorems.
Context `{Hasher} `{RunSchemas}.

(** C8: the receipts of external executors keep the tables of the runs well
    formed, in every history in which each terminal receipt arrives while its run
    is running. The columns of a run repeat its document, which numbers and names
    its steps without repetition, is bound to the stored plan and is mirrored step
    by step in the rows of its steps, and every such row is of a step of its run.
    A lease names a step of its run and, when it is of an external executor, holds
    the last nonce of its history; at most one active lease holds a target or a
    step. A receipt is bound to the lease it was recorded under, and a lease has at
    most one receipt and at most one terminal observation. (Whether the documents
    satisfy the schema of the contract is not part of it: a claim and a receipt
    store their run without validating it again.) *)
Theorem timely_receipts_keep_tables_well_formed history store :
  tables_wf (tables (st_db store)) -> allTimely history store ->
  tables_wf (tables (st_db (performCalls history store))).
Proof. apply performCalls_wf. Qed.

(** C33: in every history without a pruning a lease stays, and its binding, its
    target, its claim and the end of its window never change; a lease that has
    ended never changes at all, and an active one can only end by a release or
    by its expiry. So no statement meets the triggers that guard leases. *)
Theorem lease_binding_immutable history store id l :
  Forall (fun c => keepsRows c.2 = true) history ->
  target_execution_leases (tables (st_db store)) !! id = Some l ->
  exists l', target_execution_leases (tables (st_db (performCalls history store))) !! id = Some l'
    /\ le_RunID l' = le_RunID l /\ le_StepID l' = le_StepID l /\ le_TargetID l' = le_TargetID l
    /\ l_BindingDigest (le_Document l') = l_BindingDigest (le_Document l)
    /\ l_ExecutorID (le_Document l') = l_ExecutorID (le_Document l)
    /\ l_ClaimedAt (le_Document l') = l_ClaimedAt (le_Document l)
    /\ l_LeaseExpiresAt (le_Document l') = l_LeaseExpiresAt (le_Document l)
    /\ l_MaximumExpiresAt (le_Document l') = l_MaximumExpiresAt (le_Document l)
    /\ (le_Status l <> "active" -> l' = l)
    /\ (le_Status l' = le_Status l \/ le_Status l' = "released" \/ le_Status l' = "expired").
Proof.
  intros Hall E. destruct (performCalls_evolves history store Hall) as [L _].
  destruct (L _ _ E) as (l' & E' & [(C1 & C2 & C3 & C4) (n & r & s & D) He Hs _ _]). exists l'.
  rewrite D. by split_and!.
Qed.

(** C32: a step is handed to an external executor at most once: after one claim
    of the step was answered with a lease, no later claim of the step is, under
    whatever calls, failures, expiries, renewals and receipts in between, as long
    as the run is not pruned. *)
Theorem external_step_claimed_once env request store lease store' between env' request' lease' :
  Claim env request store = (Ok lease, store') -> Forall (fun c => keepsRows c.2 = true) between ->
  l_StepID (lc_Lease request') = l_StepID (lc_Lease request) ->
  (Claim env' request' (performCalls between store')).1 <> Ok lease'.
Proof.
  intros E Hall Hs E'. apply Claim_Ok in E as [_ (current & E)]. apply claimLease_tables in E as (_ & El & _).
  destruct (Claim env' request' (performCalls between store')) as [r s2] eqn:E2. cbn in E'. subst r.
  apply Claim_Ok in E2 as [_ (current' & E2)]. apply claimLease_tables in E2 as (_ & _ & _ & _ & Hprior).
  destruct (performCalls_evolves between store' Hall) as [L _].
  destruct (L (l_LeaseID (lc_Lease request)) (leaseRow "external" (lc_Lease request))) as (l & Hl & V);
    [rewrite El; apply lookup_insert_eq|].
  apply (Hprior _ _ Hl). rewrite Hs. apply (lv_columns _ _ V).
Qed.

(** C34: a renewal is a check-in, not an extension, and spends its nonce. One that
    was answered on well-formed tables presented the current nonce of an active
    external lease, between its check-in time and the end of its window; it keeps
    the window and puts the next check-in within it. After it, and any further
    calls, failures included, that prune nothing and in which every terminal
    receipt arrives while its run is running, no renewal of the lease that presents
    that nonce is answered with a lease. *)
Theorem renewal_spends_nonce env request store lease store' between env' request' lease' :
  tables_wf (tables (st_db store)) -> Renew env request store = (Ok lease, store') ->
  Forall (fun c => keepsRows c.2 = true) between -> allTimely between store' ->
  er_LeaseID (ln_Request request') = er_LeaseID (ln_Request request) ->
  er_NonceDigest (ln_Request request') = er_NonceDigest (ln_Request request) ->
  (exists l, target_execution_leases (tables (st_db store)) !! er_LeaseID (ln_Request request) = Some l
     /\ le_Kind l = "external" /\ le_Status l = "active"
     /\ l_NonceDigest (le_Document l) = er_NonceDigest (ln_Request request)
     /\ lease = rebuildLease (ln_NextNonceDigest request) (l_RenewAfter lease) "active" (le_Document l)
     /\ exists renewAfter expiry, executorLeaseTimes (le_Document l) = Ok (renewAfter, expiry)
        /\ ns renewAfter <= ns (ln_At request) < ns expiry
        /\ l_RenewAfter lease = FormatRFC3339 (nextRenewal (ln_At request) expiry)
        /\ ns (nextRenewal (ln_At request) expiry) <= ns expiry)
  /\ (Renew env' request' (performCalls between store')).1 <> Ok lease'.
Proof.
  intros W E Hall T Hid Hn. apply Renew_Ok in E as (current & E). pose proof (renew_wf _ _ _ _ _ W E) as W1.
  apply renewLease_Ok in E as (l & renewAfter & expiry & El & Hk & Ha & _ & Hnonce & Hfresh & Ht & Hb & He & -> & Et).
  pose proof (tw_leases _ W _ _ El) as Lw. split.
  - exists l. split_and!; try done; [cbn; by rewrite (lw_status _ _ _ Lw), Ha|]. exists renewAfter, expiry.
    unfold Before in *. bool_hyps. split_and!; [done|lia|lia|done|]. unfold nextRenewal, After. case_match; [done|lia].
  - intros E'. destruct (Renew env' request' (performCalls between store')) as [r s2] eqn:E2. cbn in E'. subst r.
    apply Renew_Ok in E2 as (current' & E2). rewrite <- Hid in El, Et.
    apply renewLease_Ok in E2 as (l2 & r2 & e2 & El2 & Hk2 & _ & _ & Hn2 & _).
    destruct (performCalls_evolves between store' Hall) as [L N]. rewrite Et in L, N.
    destruct (L (er_LeaseID (ln_Request request')) (renewedRow request (FormatRFC3339 (nextRenewal (ln_At request) expiry)) l))
      as (l3 & El3 & V); [apply lookup_insert_eq|]. assert (l3 = l2) as -> by congruence.
    assert (W2 : tables_wf (tables (st_db (performCalls between store')))) by (apply performCalls_wf; [done|exact T]).
    destruct (lw_nonce _ _ _ (tw_leases _ W2 _ _ El2) Hk2) as (at2 & H2').
    destruct (lw_nonce _ _ _ Lw Hk) as (at1 & H1'). rewrite Hn2, Hn, <- Hnonce in H2'.
    assert (H3 : executor_lease_nonce_history (tables (st_db (performCalls between store')))
                 !! l_NonceDigest (le_Document l) = Some (mkNonceRow (er_LeaseID (ln_Request request)) (le_RenewalCount l) at1)).
    { eapply lookup_weaken; [|exact N]. cbn. rewrite lookup_insert_ne by congruence. done. }
    rewrite H3 in H2'. injection H2' as _ Hcount _. pose proof (lv_renewals _ _ V) as Hr. cbn in Hr. lia.
Qed.

End Theorems.

(** ** Witnesses: an external run of one step *)

Section ExternalWitnesses.

#[local] Existing Instance sampleHasher.
#[local] Existing Instance sampleSchemas.

Definition externalPlan : Plan :=
  mkPlan "plan-1" (sampleDigest "plan") "host-1"
    (mkPlanBinding 0 0 0 1 (sampleDigest "o") (sampleDigest "t") (sampleDigest "r") "v1" "v1" "v1")
    (p_Operations samplePlan) "planned" "routine" "preauthorized" "external" (Some "executor-1") "2026-09-16T01:10:00Z"
    "2026-09-16T01:40:00Z" None None None None None None None None None [].

Definition externalRun : Run :=
  mkRun "run-1" "plan-1" (sampleDigest "plan") "decision-1" None "v1" "external" "executor-1" (sampleDigest "binding")
    "queued" (r_Steps sampleRun) false "not-requested" "pending" None false 0 0 "2026-09-16T01:10:00Z" "2026-09-16T01:10:00Z" [].

Definition externalStart : Store RunTables :=
  readyStore (emptyDb (mkRunTables empty empty empty empty empty [] {["plan-1" := externalPlan]} empty empty empty empty)).

Definition executorActor : Attribution := mkAttribution "worker" "local-os-peer" None None.

Definition sampleClaim : ExecutorLeaseClaimRequest :=
  mkLeaseClaim (mkExecutorClaim "executor-1" "worker" "core.backup" 0 (sampleDigest "nonce") [])
    sampleLease (later 1) executorActor.

Definition sampleRenewal (at_ : Z) : ExecutorLeaseRenewalRequest :=
  mkLeaseRenewal (mkExecutorRenew "lease-1" (sampleDigest "binding") (sampleDigest "nonce") 0 [])
    (sampleDigest "nonce-2") (later at_) executorActor.

Definition sampleObservation (at_ : Z) : ExecutorReceiptPersistenceRequest :=
  mkReceiptPersistence (mkExecutionReceiptRequest sampleReceipt (sampleDigest "binding") []) (later at_) executorActor.

(** The run is created and started. *)
Definition claimHistory : list (RunEnv * StoreCall) :=
  [(sampleEnv, Ordinary (CallCreate (mkRunCreateRequest externalRun (sampleDigest "submit") (sampleDigest "request") sampleActor)));
   (sampleEnv, Ordinary (CallTransition (sampleTransition "queued" "running" (later 1))))].

Definition interruption : StoreCall := Ordinary (CallTransition (sampleTransition "running" "interrupted" (later 2))).
Definition resumption : StoreCall := Ordinary (CallTransition (sampleTransition "interrupted" "running" (later 4))).

Notation atClaim := (performCalls claimHistory externalStart).
Notation afterClaim := (Claim sampleEnv sampleClaim atClaim).2.

Definition sampleFinish : StepFinishRequest :=
  mkStepFinishRequest "run-1" "step-1" "lease-1" sampleReceipt "succeeded" "verified" (sampleDigest "verification") true
    (later 5) sampleActor.

(** The status of the run, the effect of the step in its row, and its effect in
    the stored document of the run. *)
Definition twoViews (store : Store RunTables) : option (string * string * option string) :=
  srow ← plan_run_steps (tables (st_db store)) !! "step-1";
  row ← plan_runs (tables (st_db store)) !! "run-1";
  Some (rr_Status row, sr_EffectState srow, s_EffectState <$> findStep (rr_Document row) "step-1").

Definition accepted {A} (r : result A) : bool := match r with Ok _ => true | Err _ => false end.

(** A run can be interrupted while an external executor works on its step,
    and the terminal receipt that then arrives is accepted but splits the step:
    the row of the step takes the recorded receipt while the stored document of
    the run, which is only written while the run is running, keeps the recorded
    intent. When the run is resumed the step can no longer be finished. *)
Theorem late_receipt_splits_step :
  let interrupted := performCall sampleEnv interruption afterClaim in
  let recorded := ExecutorLease.RecordReceipt sampleEnv (sampleObservation 3) interrupted in
  let resumed := performCall sampleEnv resumption recorded.2 in
  (twoViews interrupted, accepted recorded.1, twoViews recorded.2, twoViews resumed,
   (FinishStep sampleEnv sampleFinish resumed).1.2)
  = (Some ("interrupted", "intent-recorded", Some "intent-recorded"), true,
     Some ("interrupted", "receipt-recorded", Some "intent-recorded"),
     Some ("running", "receipt-recorded", Some "intent-recorded"),
     Some (Coded StateConflict "run-step-result")).
Proof. vm_compute. reflexivity. Qed.

Lemma externalStart_wf : tables_wf (tables (st_db externalStart)).
Proof. constructor; cbn; intros *; rewrite ?lookup_empty; done. Qed.

Lemma claim_wf env request store : tables_wf (tables (st_db store)) ->
  tables_wf (tables (st_db (Claim env request store).2)).
Proof. intros W. exact (timely_wf env (Ordinary (CallClaimLease request)) store W I). Qed.

Lemma afterClaim_wf : tables_wf (tables (st_db afterClaim)).
Proof. apply claim_wf, performCalls_wf; [exact externalStart_wf|]. split; [exact I|split; exact I]. Qed.

(** What an external call answers, evaluated once. *)
Lemma accepted_Ok {A} (r : result A) : accepted r = true -> exists x, r = Ok x.
Proof. destruct r; [eauto|discriminate]. Qed.

Lemma sampleClaim_Ok : exists lease, Claim sampleEnv sampleClaim atClaim = (Ok lease, afterClaim).
Proof.
  destruct (accepted_Ok (Claim sampleEnv sampleClaim atClaim).1) as [lease E]; [vm_compute; reflexivity|].
  exists lease. rewrite <- E. apply surjective_pairing.
Qed.

Lemma sampleRenewal_Ok : exists lease,
  Renew sampleEnv (sampleRenewal 25) afterClaim = (Ok lease, (Renew sampleEnv (sampleRenewal 25) afterClaim).2).
Proof.
  destruct (accepted_Ok (Renew sampleEnv (sampleRenewal 25) afterClaim).1) as [lease E]; [vm_compute; reflexivity|].
  exists lease. rewrite <- E. apply surjective_pairing.
Qed.

Lemma claimed_lease : exists l, target_execution_leases (tables (st_db afterClaim)) !! "lease-1" = Some l
  /\ le_Status l = "active".
Proof. apply row_found. vm_compute. reflexivity. Qed.

Lemma timely_receipts_keep_tables_well_formed_witness :
  let history := [(sampleEnv, Observe (sampleObservation 3))] in
  allTimely history afterClaim /\ tables_wf (tables (st_db (performCalls history afterClaim)))
  /\ twoViews (performCalls history afterClaim) = Some ("running", "receipt-recorded", Some "receipt-recorded").
Proof.
  cbv zeta. assert (T : allTimely [(sampleEnv, Observe (sampleObservation 3))] afterClaim).
  { split; [|exact I]. intros _ row E.
    assert (V : rr_Status <$> plan_runs (tables (st_db afterClaim)) !! "run-1" = Some "running") by (vm_compute; reflexivity).
    apply row_found in V as (x & Ex & V). change (plan_runs (tables (st_db afterClaim)) !! "run-1" = Some row) in E.
    rewrite Ex in E. injection E as <-. exact V. }
  split; [exact T|]. split; [|vm_compute; reflexivity].
  exact (timely_receipts_keep_tables_well_formed _ afterClaim afterClaim_wf T).
Defined.

Lemma lease_binding_immutable_witness :
  let history := [(sampleEnv, Ordinary (CallExpireLeases (mkLeaseExpiry (later 90) sampleActor)))] in
  exists l l', target_execution_leases (tables (st_db afterClaim)) !! "lease-1" = Some l
    /\ target_execution_leases (tables (st_db (performCalls history afterClaim))) !! "lease-1" = Some l'
    /\ l_BindingDigest (le_Document l') = l_BindingDigest (le_Document l).
Proof.
  cbv zeta. destruct claimed_lease as (l & E & _).
  destruct (lease_binding_immutable [(sampleEnv, Ordinary (CallExpireLeases (mkLeaseExpiry (later 90) sampleActor)))]
    afterClaim "lease-1" l) as (l' & E' & _ & _ & _ & Hb & _); [repeat constructor|exact E|].
  exists l, l'. split; [exact E|]. split; [exact E'|exact Hb].
Defined.

(** The claim of the step after the first lease has expired. *)
Definition secondClaim : ExecutorLeaseClaimRequest :=
  mkLeaseClaim (lc_Request sampleClaim)
    (mkExecutorLease "lease-2" "plan-1" (sampleDigest "plan") "run-1" "step-1" "op-1" "executor-1" "core.backup" "host-1"
       (sampleDigest "artifact") (sampleDigest "binding") (sampleDigest "nonce-3") 0 (FormatRFC3339 (later 91))
       (FormatRFC3339 (later 111)) (FormatRFC3339 (later 151)) (FormatRFC3339 (later 151)) "active" []) (later 91) executorActor.

Definition expiries (at_ : Z) : list (RunEnv * StoreCall) :=
  [(sampleEnv, Ordinary (CallExpireLeases (mkLeaseExpiry (later at_) sampleActor)))].

Lemma expiries_keep at_ : Forall (fun c => keepsRows c.2 = true) (expiries at_).
Proof. repeat constructor. Qed.

Lemma second_same_step : l_StepID (lc_Lease secondClaim) = l_StepID (lc_Lease sampleClaim).
Proof. vm_compute. reflexivity. Qed.

Lemma external_step_claimed_once_witness :
  accepted (Claim sampleEnv sampleClaim atClaim).1 = true
  /\ forall lease, (Claim sampleEnv secondClaim (performCalls (expiries 90) afterClaim)).1 <> Ok lease.
Proof.
  split; [vm_compute; reflexivity|]. intros lease. destruct sampleClaim_Ok as [first E].
  exact (external_step_claimed_once sampleEnv sampleClaim atClaim first afterClaim (expiries 90) sampleEnv secondClaim lease
    E (expiries_keep 90) second_same_step).
Defined.

Lemma renewal_spends_nonce_witness :
  accepted (Renew sampleEnv (sampleRenewal 25) afterClaim).1 = true
  /\ forall lease, (Renew sampleEnv (sampleRenewal 46)
                      (performCalls (expiries 30) (Renew sampleEnv (sampleRenewal 25) afterClaim).2)).1 <> Ok lease.
Proof.
  split; [vm_compute; reflexivity|]. intros lease. destruct sampleRenewal_Ok as [first E].
  refine (proj2 (renewal_spends_nonce sampleEnv (sampleRenewal 25) afterClaim first _ (expiries 30) sampleEnv
    (sampleRenewal 46) lease afterClaim_wf E (expiries_keep 30) _ _ _)); [split; exact I|vm_compute; reflexivity..].
Defined.

End ExternalWitnesses.
