(* ===== verification/RunEngine.v ===== *)
(** The run engine of [internal/run/engine.go] and [state.go]: submission,
    execution of the steps of a run, resumption, cancellation, idempotent
    operations, startup and reconciliation.

    The engine is a state monad over a world: the store of the repository, a
    counter of the interactions so far, and the trace of what happened. Each
    interaction with the outside (the clock, the adapters, the identifiers, the
    plan source, the admission gate, the failures of a repository call) asks an
    oracle of [Surroundings] indexed by the counter, so a theorem about every
    [Surroundings] covers every behaviour of the outside. Before each repository
    call other clients of the store may have made calls of their own: they are
    part of the trace as well. *)

From S2P Require Import Prelude GoTime Hash GoJson Contracts AuditLog AuditStore Authorization Adapter ExecutorLease RunRepository RunHistory.

(** ** Classes of operations *)

Definition isGateOperation (kind : string) : bool :=
  bool_decide (kind ∈ ["gate.evidence.apply"; "gate.evidence.supersede"; "gate.evidence.revoke"; "gate.profile.bind"]).

Definition isCredentialLifecycleOperation (kind : string) : bool :=
  bool_decide (kind ∈ ["credential.stage"; "credential.activate"; "credential.rotate"; "credential.revoke";
                       "credential.recover"]).

Definition isCoreOperation (adapterID kind : string) : bool :=
  (adapterID == "core.ci-enrollment") && (kind == "ci.enrollment.register")
  || (adapterID == "hosting-lifecycle") && (kind == "hosting.lifecycle.apply")
  || (adapterID == "core.service-recovery") && (kind == "service.recover")
  || (adapterID == "core.service-deployment") && (kind == "service.deploy")
  || (adapterID == "core.service-import") && (kind == "service.import")
  || (adapterID == "core.network-endpoint") && (kind == "network.endpoint.change")
  || (adapterID == "core.authorization") && (kind == "identity.change")
  || (adapterID == "core.host-replacement")
     && ((kind == "host.alias.claim") || (kind == "host.replacement.freeze") || (kind == "host.replacement.commit"))
  || (adapterID == "core.host-adoption") && (kind == "host.adopt")
  || (adapterID == "core.host-discovery-target")
     && ((kind == "host.discovery-target.activate") || (kind == "host.discovery-target.revoke"))
  || (adapterID == "core.gate") && isGateOperation kind
  || (adapterID == "core.audit") && (kind == "audit.checkpoint.anchor")
  || (adapterID == "core.recovery") && (kind == "recovery.canary.noop")
  || (adapterID == "core.schedule") && (kind == "schedule.policy.activate")
  || (adapterID == "core.schedule-observe")
     && ((kind == "schedule.gate.check") || (kind == "schedule.observation.refresh")).

Definition isRetentionLockOperation (adapterID kind : string) : bool :=
  (adapterID == "core.retention-locks") && (kind == "backup.retention-locks.activate").

Definition GrantBatchAdapter := "core.authorization".

(** The digest that binds the credentials of a plan, or the empty string. *)
Definition credentialPlanDigest (plan : Plan) : string :=
  match List.find (fun x => (x_Name x == "x-credential-bindings") || (x_Name x == "x-scheduled-credential-bindings"))
          (p_Extensions plan) with
  | Some x => x_ValueDigest x
  | None => ""
  end.

Definition hasExtension (name : string) (plan : Plan) : bool := existsb (fun x => x_Name x == name) (p_Extensions plan).

Definition scheduledCredentialPlan (plan : Plan) : bool :=
  hasExtension "x-scheduled-policy" plan && hasExtension "x-scheduled-occurrence" plan
  && hasExtension "x-scheduled-credential-bindings" plan
  && (p_AuthorizationBranch plan == "preauthorized") && (p_ExecutorMode plan == "central").

(** The proofs of a plan a request context may carry: the plan's identifier and
    digest, as prepared by [submit] or by a managed deployment. *)
Record RequestContext := mkRequestContext {
  cx_preparation : option (string * string);
  cx_deployment : option (string * string)
}.

Definition credentialExternalAdmitted (ctx : RequestContext) (p : Plan) : bool :=
  let proves (proof : option (string * string)) := proof == Some (p_PlanID p, p_PlanDigest p) in
  if (p_ExecutorMode p != "external") || (p_AuthorizationBranch p != "human") then false
  else proves (cx_preparation ctx) || proves (cx_deployment ctx).

Definition ControllerSetupPlan (p : Plan) : bool :=
  if (p_AuthorizationBranch p != "human") || (p_ExecutorMode p != "central") || (length (p_Operations p) != 1%nat)
     || (p_HostAction p != None) || (p_HostRoleScope p != None) || (p_HostAccessSequence p != None)
     || (credentialPlanDigest p != "")
  then false
  else match p_Operations p with
       | op :: _ => (op_AdapterID op == "core.controller-setup") && (op_OperationType op == "controller.setup.bootstrap")
                    && negb (op_Idempotent op) && sha256Digest (op_InputDigest op) && sha256Digest (op_ArtifactDigest op)
       | [] => false
       end.

(** ** Identifiers and bindings *)

(** [terminal(status)]; [terminalRunStatus] of the store is the same test. *)
Definition terminal (status : string) : bool :=
  (status == "succeeded") || (status == "failed") || (status == "partial") || (status == "cancelled").

Section Identifiers.
Context `{Hasher}.

Definition digest (values : list string) : string := digestParts values.

Definition stepID (id : string) (sequence : Z) : string :=
  "step-" +:+ pretty sequence +:+ "-"
    +:+ take_string 16 (TrimPrefix (digest ["step"; id; pretty sequence]) "sha256:").

Definition receiptID (leaseID : string) : string :=
  "receipt-" +:+ take_string 32 (TrimPrefix (digest ["receipt"; leaseID]) "sha256:").

End Identifiers.

Definition findRunStep (run : Run) (id : string) : option RunStep :=
  List.find (fun s => s_StepID s == id) (r_Steps run).

(** The planned operation of a step, when every planned field agrees. *)
Definition exactOperation (plan : Plan) (step : RunStep) : result Operation :=
  match List.find (fun operation => op_OperationID operation == s_OperationID step) (p_Operations plan) with
  | None => Err (Coded IntegrityFailure "run-step-binding")
  | Some operation =>
      if (op_Sequence operation != s_Sequence step) || (op_OperationType operation != s_OperationType step)
         || (op_AdapterID operation != s_AdapterID step) || (op_ExecutorID operation != s_ExecutorID step)
         || (op_TargetID operation != s_TargetID step) || (op_InputDigest operation != s_InputDigest step)
         || (op_ArtifactDigest operation != s_ArtifactDigest step) || (op_Idempotent operation != s_Idempotent step)
      then Err (Coded IntegrityFailure "run-step-binding")
      else
        let result := mkOperation (op_OperationID operation) (op_OperationType operation) (op_AdapterID operation)
                        (op_ExecutorID operation) (op_TargetID operation) (op_InputDigest operation)
                        (op_ArtifactDigest operation) (op_Idempotent operation) [] in
        match ValidateOperation result with
        | Some err => Err err
        | None => Ok result
        end
  end.

Definition planExecutorID (plan : Plan) : result string :=
  match p_Operations plan with
  | [] => Err (Coded InputInvalid "plan-operations")
  | first :: _ =>
      let executor := op_ExecutorID first in
      if existsb (fun operation => op_ExecutorID operation != executor) (p_Operations plan)
      then Err (Coded InputInvalid "plan-executor")
      else if (p_ExecutorMode plan == "external") && (p_ExecutorID plan != Some executor)
      then Err (Coded InputInvalid "plan-executor")
      else if (p_ExecutorMode plan == "central") && (p_ExecutorID plan != None)
      then Err (Coded InputInvalid "plan-executor")
      else Ok executor
  end.

Fixpoint firstError (values : list (option error)) : error :=
  match values with
  | [] => Plain "unspecified failure"
  | Some value :: _ => value
  | None :: rest => firstError rest
  end.

Definition storedOperationError (operation code : string) : option error :=
  if code == "" then None else Some (Coded code ("run-" +:+ operation)).

Definition systemAttribution : Attribution := mkAttribution "system-run-engine" "local-system" None None.

(** ** The surroundings of the engine *)

Inductive Boundary :=
| BoundaryRunCreated | BoundaryAdmissionActivated | BoundaryRunStarted | BoundaryLeaseAcquired | BoundaryIntentRecorded
| BoundaryEffectReturned | BoundaryReceiptRecorded | BoundaryVerified | BoundaryRunCompleted.

Record ExactStepBinding := mkExactStepBinding {
  sb_Plan : Plan;
  sb_Run : Run;
  sb_Step : RunStep;
  sb_Lease : ExecutorLease;
  sb_Attribution : Attribution
}.

(** Which implementation of an operation the engine calls: one of the effects of
    the control process, or the adapter the registry resolves, with or without
    the delivery of credentials ([executeSecretStep]). *)
Inductive Implementation := CoreEffect | RetentionEffect | CredentialEffect | AdapterEffect | SecretEffect.

(** The oracles. Those that take a number may answer differently every time they
    are asked: the number counts the interactions so far. *)
Class Surroundings := {
  su_clock : nat -> Time;
  su_repository : nat -> RunEnv;
  su_others : nat -> list (RunEnv * RunCall);
  su_done : nat -> bool;
  su_plan : nat -> string -> result Plan;
  su_current : nat -> Plan -> option error;
  su_managed : nat -> Plan -> option (option error);
  su_verify : nat -> Plan -> AuthorizationDecision -> option Acknowledgement -> option error;
  su_activate : nat -> Plan -> AuthorizationDecision -> Run -> option Acknowledgement -> option error;
  su_verifyRun : nat -> Plan -> Run -> option error;
  su_scheduled : option (nat -> Plan -> Time -> option error);
  su_resolve : string -> option error;
  su_lease : nat -> RunStep -> result (string * string);
  su_execute : nat -> Implementation -> ExactStepBinding -> Operation -> Effect * option error;
  su_check : nat -> Implementation -> ExactStepBinding -> Operation -> Effect -> Verification * option error;
  su_boundary : Boundary -> option error;
  su_core : bool;
  su_retention : bool;
  su_credential : bool;
  su_reference : PlanReferenceRequest -> bool;
  su_decision : AuthorizationDecision -> bool;
  su_runReference : RunReferenceRequest -> bool
}.

(** What happened: calls of the repository by the engine and by the others, and
    the effects the engine executed and had verified, with the verdict. *)
Inductive Event :=
| Own (env : RunEnv) (call : RunCall)
| Other (env : RunEnv) (call : RunCall)
| Executed (implementation : Implementation) (binding : ExactStepBinding) (operation : Operation)
| Verified (binding : ExactStepBinding) (effect : Effect) (answer : Verification * option error).

Record World := mkWorld { w_store : Store RunTables; w_tick : nat; w_trace : list Event }.

Definition M (A : Type) : Type := World -> A * World.
#[global] Instance M_ret : MRet M := fun _ x w => (x, w).
#[global] Instance M_bind : MBind M := fun _ _ f m w => let '(x, w') := m w in f x w'.

(** What most of the methods return: a run and an error, both of which count. *)
Definition Outcome : Type := Run * option error.
Definition return_ (run : Run) (err : option error) : M Outcome := mret (run, err).

Section Engine.
Context `{Hasher} `{RunSchemas} `{HostReplacementContract} `{Surroundings}.

(** ** Interactions *)

Definition ask {A} (oracle : nat -> A) : M A := fun w =>
  (oracle (w_tick w), mkWorld (w_store w) (S (w_tick w)) (w_trace w)).

(** One call of the repository, after the calls of others. *)
Definition invoke {A} (call : RunCall) (method : RunEnv -> Store RunTables -> A * Store RunTables) : M A := fun w =>
  let others := su_others (w_tick w) in
  let env := su_repository (w_tick w) in
  let answer := method env (performAll others (w_store w)) in
  (answer.1, mkWorld answer.2 (S (w_tick w)) (w_trace w ++ map (fun c => Other c.1 c.2) others ++ [Own env call])).

Definition happens (event : Event) : M unit := fun w => (tt, mkWorld (w_store w) (w_tick w) (w_trace w ++ [event])).

(** [engine.clock().UTC()] and [engine.clock().UTC().Truncate(time.Second)] *)
Definition clock : M Time := t ← ask su_clock; mret (UTC t).
Definition now : M Time := t ← clock; mret (TruncateSecond t).

Definition boundary (b : Boundary) : M (option error) := mret (su_boundary b).

Definition ofRun (r : result Run) : Outcome :=
  match r with Ok run => (run, None) | Err e => (zeroRun, Some e) end.
Definition ofUnit (r : result unit) : option error :=
  match r with Ok _ => None | Err e => Some e end.

Definition getRun (id : string) : M Outcome :=
  r ← invoke (CallGet id) (fun env => Get env id); mret (ofRun r).
Definition transition (request : RunTransitionRequest) : M Outcome :=
  invoke (CallTransition request) (fun env => TransitionRun env request).
Definition requestCancellation (id : string) (at_ : Time) (attribution : Attribution) : M Outcome :=
  invoke (CallCancellation id at_ attribution) (fun env => RequestCancellation env id at_ attribution).
Definition acquireLease (lease : ExecutorLease) (attribution : Attribution) : M (option error) :=
  r ← invoke (CallAcquire lease attribution) (fun env => AcquireTargetLease env lease attribution); mret (ofUnit r).
Definition releaseTargetLease (leaseID : string) (at_ : Time) : M (option error) :=
  r ← invoke (CallRelease leaseID at_) (fun env => ReleaseTargetLease env leaseID at_); mret (ofUnit r).
Definition releaseRunLeases (id : string) (at_ : Time) : M (option error) :=
  r ← invoke (CallReleaseRun id at_) (fun env => ReleaseRunLeases env id at_); mret (ofUnit r).
Definition beginStep (request : StepBeginRequest) : M Outcome :=
  invoke (CallBegin request) (fun env => BeginStep env request).
Definition recordReceipt (request : ReceiptRecordRequest) : M Outcome :=
  invoke (CallReceipt request) (fun env => RecordReceipt env request).
Definition finishStep (request : StepFinishRequest) : M Outcome :=
  invoke (CallFinish request) (fun env => FinishStep env request).
Definition markStepUnknown (id step : string) (at_ : Time) (attribution : Attribution) : M Outcome :=
  invoke (CallUnknown id step at_ attribution) (fun env => MarkStepUnknown env id step at_ attribution).
Definition failStepBeforeEffect (id step : string) (at_ : Time) (attribution : Attribution) : M Outcome :=
  invoke (CallFail id step at_ attribution) (fun env => FailStepBeforeEffect env id step at_ attribution).
Definition interruptStepBeforeEffect (id step : string) (at_ : Time) (attribution : Attribution) : M Outcome :=
  invoke (CallInterrupt id step at_ attribution) (fun env => InterruptStepBeforeEffect env id step at_ attribution).
Definition activeRuns : M (result (list Run)) := invoke CallActive ActiveRuns.
Definition pruneRunHistory (at_ : Time) : M (result RunPruneResult) :=
  invoke (CallPrune at_) (fun env => PruneRunHistory env at_).
Definition createRun (request : RunCreateRequest) : M (result RunCreateResult) :=
  invoke (CallCreate request) (fun env => Create env request).
Definition claimOperation (operation id key request : string) (at_ : Time) (attribution : Attribution)
    : M (result RunOperationResult) :=
  invoke (CallClaim operation id key request at_ attribution)
    (fun env => ClaimRunOperation env operation id key request at_ attribution).
Definition completeOperation (operation id key request : string) (run : Run) (errorCode : string) (at_ : Time)
    (attribution : Attribution) : M (result RunOperationResult) :=
  invoke (CallComplete operation id key request run errorCode at_ attribution)
    (fun env => CompleteRunOperation env operation id key request run errorCode at_ attribution).

(** The transitions the engine asks for. *)
Definition move (run : Run) (from to : string) (at_ : Time) (attribution : Attribution) : RunTransitionRequest :=
  mkRunTransitionRequest (r_RunID run) from to at_ "" None "" None attribution.
Definition interrupt (run : Run) (at_ : Time) (attribution : Attribution) : RunTransitionRequest :=
  mkRunTransitionRequest (r_RunID run) "running" "interrupted" at_ "incomplete" None "" None attribution.
Definition failRun (run : Run) (changed : option bool) (at_ : Time) (attribution : Attribution) : RunTransitionRequest :=
  mkRunTransitionRequest (r_RunID run) "running" "failed" at_ "failed" None "" changed attribution.
Definition partialRun (run : Run) (changed : bool) (at_ : Time) (attribution : Attribution) : RunTransitionRequest :=
  mkRunTransitionRequest (r_RunID run) "running" "partial" at_ "incomplete" None "required" (Some changed) attribution.
Definition succeedRun (run : Run) (verification : string) (at_ : Time) (attribution : Attribution)
    : RunTransitionRequest :=
  mkRunTransitionRequest (r_RunID run) "running" "succeeded" at_ "verified" (Some verification) "" None attribution.

(** ** Admission of scheduled plans *)

(** A plan bound to an occurrence needs the scheduler's word; a plan bound to a
    policy alone may only activate that policy, by a human, on its own. *)
Definition validateScheduled (plan : Plan) : M (option error) :=
  let policyBound := hasExtension "x-scheduled-policy" plan in
  let occurrenceBound := hasExtension "x-scheduled-occurrence" plan in
  if negb policyBound && negb occurrenceBound then mret None
  else if policyBound && negb occurrenceBound then
    mret (match p_Operations plan with
          | [operation] =>
              if (p_AuthorizationBranch plan == "human") && (p_ExecutorMode plan == "central")
                 && (op_AdapterID operation == "core.schedule") && (op_OperationType operation == "schedule.policy.activate")
              then None else Some (Coded AuthorizationDenied "scheduled-plan-binding")
          | _ => Some (Coded AuthorizationDenied "scheduled-plan-binding")
          end)
  else if negb policyBound then mret (Some (Coded AuthorizationDenied "scheduled-plan-binding"))
  else match su_scheduled with
       | None => mret (Some (Coded PrerequisiteBlocked "scheduled-admission-unavailable"))
       | Some validate => at_ ← now; ask (fun n => validate n plan at_)
       end.

(** ** The ends of a step whose effect did not complete *)

(** A step whose effect did not start goes back: its run can be resumed. *)
Definition interruptBeforeEffect (current : Run) (step : RunStep) (attribution : Attribution) : M Outcome :=
  t1 ← now;
  '(current, err) ← interruptStepBeforeEffect (r_RunID current) (s_StepID step) t1 attribution;
  match err with Some _ => return_ current err | None =>
    t2 ← now;
    err ← releaseRunLeases (r_RunID current) t2;
    match err with Some _ => return_ current err | None =>
      t3 ← now;
      '(current, err) ← transition (interrupt current t3 attribution);
      match err with Some _ => return_ current err | None =>
        return_ current (Some (Coded Interrupted "run"))
      end
    end
  end.

(** A step that was refused or failed without an effect fails its run. *)
Definition failBeforeEffect (current : Run) (step : RunStep) (attribution : Attribution) (cause : error) : M Outcome :=
  t1 ← now;
  '(current, err) ← failStepBeforeEffect (r_RunID current) (s_StepID step) t1 attribution;
  match err with Some _ => return_ current err | None =>
    t2 ← now;
    err ← releaseRunLeases (r_RunID current) t2;
    match err with Some _ => return_ current err | None =>
      t3 ← now;
      '(current, err) ← transition (failRun current None t3 attribution);
      match err with Some _ => return_ current err | None =>
        return_ current (Some (if Code (Some cause) != "" then cause else Coded ExecutionFailed "adapter"))
      end
    end
  end.

(** A step whose effect is in doubt ends its run as partial. *)
Definition partial (current : Run) (step : RunStep) (attribution : Attribution) (cause : error) : M Outcome :=
  t1 ← now;
  '(current, err) ← markStepUnknown (r_RunID current) (s_StepID step) t1 attribution;
  match err with Some _ => return_ current err | None =>
    t2 ← now;
    err ← releaseRunLeases (r_RunID current) t2;
    match err with Some _ => return_ current err | None =>
      t3 ← now;
      '(current, err) ← transition (partialRun current true t3 attribution);
      match err with Some _ => return_ current err | None =>
        return_ current (Some (Coded RecoveryRequired "run"))
      end
    end
  end.

(** ** One step *)

(** The implementation of an operation, or why there is none. *)
Definition implementationOf (plan : Plan) (operation : Operation) : result Implementation :=
  let adapterID := ao_AdapterID operation in
  let kind := ao_OperationType operation in
  let central := p_ExecutorMode plan == "central" in
  if isCoreOperation adapterID kind then
    if negb su_core
       || (adapterID != "core.schedule-observe") && (adapterID != GrantBatchAdapter)
          && (ao_InputDigest operation != ao_ArtifactDigest operation)
       || negb central
    then Err (Coded PrerequisiteBlocked "core-effect-unavailable") else Ok CoreEffect
  else if isRetentionLockOperation adapterID kind then
    if negb su_retention || negb central
    then Err (Coded PrerequisiteBlocked "core-retention-locks-unavailable") else Ok RetentionEffect
  else if adapterID == "core.credential" then
    if negb su_credential || negb (isCredentialLifecycleOperation kind) || negb central
    then Err (Coded PrerequisiteBlocked "core-credential-unavailable") else Ok CredentialEffect
  else match su_resolve adapterID with
       | Some err => Err err
       | None => Ok (if credentialPlanDigest plan != "" then SecretEffect else AdapterEffect)
       end.

Definition execute (implementation : Implementation) (binding : ExactStepBinding) (operation : Operation)
    : M (Effect * option error) :=
  happens (Executed implementation binding operation);;
  ask (fun n => su_execute n implementation binding operation).

Definition verify (implementation : Implementation) (binding : ExactStepBinding) (operation : Operation)
    (effect : Effect) : M (Verification * option error) :=
  answer ← ask (fun n => su_check n implementation binding operation effect);
  happens (Verified binding effect answer);;
  mret answer.

Definition isExpired (deadline : Time) : M bool := t ← clock; mret (negb (Before t deadline)).

(** What follows a step: the next one with the run as it now is, or the return. *)
Definition Next : Type := Run + Outcome.
Definition continue (current : Run) : M Next := mret (inl current).
Definition stop (m : M Outcome) : M Next := r ← m; mret (inr r).
Definition leave (current : Run) (err : option error) : M Next := mret (inr (current, err)).

Definition newLease (plan : Plan) (run : Run) (step : RunStep) (leaseID nonceDigest : string) (claimed : Time)
    : ExecutorLease :=
  mkExecutorLease leaseID (p_PlanID plan) (p_PlanDigest plan) (r_RunID run) (s_StepID step) (s_OperationID step)
    (s_ExecutorID step) (s_AdapterID step) (s_TargetID step) (s_ArtifactDigest step) (r_ExecutorBindingDigest run)
    nonceDigest (r_RecoveryEpoch run) (FormatRFC3339 claimed)
    (FormatRFC3339 (Add claimed (seconds ExecutorCheckInSeconds)))
    (FormatRFC3339 (Add claimed (seconds ExecutorLeaseSeconds)))
    (FormatRFC3339 (Add claimed (seconds ExecutorLeaseSeconds))) "active" [].

Definition newReceipt (lease : ExecutorLease) (effect : Effect) (recorded : Time) : ExecutionReceipt :=
  mkExecutionReceipt (l_LeaseID lease) (l_PlanID lease) (l_PlanDigest lease) (l_RunID lease) (l_StepID lease)
    (l_OperationID lease) (l_ExecutorID lease) (l_AdapterID lease) (l_TargetID lease) (l_ArtifactDigest lease)
    (l_BindingDigest lease) (l_NonceDigest lease) (l_RecoveryEpoch lease) (receiptID (l_LeaseID lease))
    (ef_Status effect) (ef_ResultDigest effect) (ef_PendingPointID effect) (FormatRFC3339 recorded) [].

(** From the verified effect of a step to the next step. *)
Definition concludeStep (current : Run) (lease : ExecutorLease) (effect : Effect) (attribution : Attribution) : M Next :=
  t ← now;
  err ← releaseTargetLease (l_LeaseID lease) t;
  match err with Some _ => leave current err | None =>
    err ← boundary BoundaryVerified;
    match err with Some _ => leave current err | None =>
      if ef_Status effect == "failed" then
        t ← now;
        '(ended, err) ← transition (failRun current (Some (r_Changed current || ef_Changed effect)) t attribution);
        leave ended (Some (firstError [err; Some (Coded ExecutionFailed "run")]))
      else if ef_Status effect == "partial" then
        t ← now;
        '(ended, err) ← transition (partialRun current (r_Changed current || ef_Changed effect) t attribution);
        leave ended (Some (firstError [err; Some (Coded ExecutionPartial "run")]))
      else continue current
    end
  end.

(** From the receipt of an effect to its verification. *)
Definition verifyStep (current : Run) (live : RunStep) (implementation : Implementation) (binding : ExactStepBinding)
    (operation : Operation) (effect : Effect) (attribution : Attribution) : M Next :=
  let lease := sb_Lease binding in
  recorded ← now;
  let receipt := newReceipt lease effect recorded in
  '(current, err) ← recordReceipt (mkReceiptRecordRequest (r_RunID current) (s_StepID live) (l_LeaseID lease) receipt
                                     recorded attribution);
  match err with Some _ => leave current err | None =>
    err ← boundary BoundaryReceiptRecorded;
    match err with Some _ => leave current err | None =>
      '(verification, verifyErr) ← verify implementation binding operation effect;
      expired ← isExpired (parseTime (l_MaximumExpiresAt lease));
      if (expired : bool) then stop (partial current live attribution DeadlineExceeded)
      else if bool_decide (verifyErr <> None) || bool_decide (ValidateVerification verification <> None)
              || negb (vf_Verified verification)
      then stop (partial current live attribution (firstError [verifyErr; ValidateVerification verification]))
      else
        t ← now;
        '(current, err) ← finishStep (mkStepFinishRequest (r_RunID current) (s_StepID live) (l_LeaseID lease) receipt
                                        (ef_Status effect) "verified" (vf_Digest verification) (ef_Changed effect) t
                                        attribution);
        match err with Some _ => leave current err | None => concludeStep current lease effect attribution end
    end
  end.

(** From the intent of a step to its effect. *)
Definition executeStep (plan : Plan) (current : Run) (live : RunStep) (implementation : Implementation)
    (operation : Operation) (lease : ExecutorLease) (attribution : Attribution) : M Next :=
  let deadline := parseTime (l_MaximumExpiresAt lease) in
  expired ← isExpired deadline;
  if (expired : bool) then stop (interruptBeforeEffect current live attribution)
  else match findRunStep current (s_StepID live) with
       | None => leave current (Some (Coded IntegrityFailure "run-step-binding"))
       | Some intentStep =>
           let binding := mkExactStepBinding plan current intentStep lease attribution in
           err ← validateScheduled plan;
           match err with Some cause => stop (failBeforeEffect current live attribution cause) | None =>
             '(effect, executeErr) ← execute implementation binding operation;
             err ← boundary BoundaryEffectReturned;
             match err with Some _ => leave current err | None =>
               expired ← isExpired deadline;
               if (expired : bool) then
                 if ef_EffectObserved effect then stop (partial current live attribution DeadlineExceeded)
                 else stop (interruptBeforeEffect current live attribution)
               else if bool_decide (executeErr <> None) || bool_decide (ValidateEffect effect <> None) then
                 let cause := firstError [executeErr; ValidateEffect effect] in
                 if negb (ef_EffectObserved effect) then
                   if (executeErr == Some Canceled) || (executeErr == Some DeadlineExceeded)
                   then stop (interruptBeforeEffect current live attribution)
                   else stop (failBeforeEffect current live attribution cause)
                 else stop (partial current live attribution cause)
               else verifyStep current live implementation binding operation effect attribution
             end
           end
       end.

(** From a step that waits to its intent. *)
Definition leaseStep (plan : Plan) (current : Run) (live : RunStep) (implementation : Implementation)
    (operation : Operation) (attribution : Attribution) : M Next :=
  claimed ← now;
  identity ← ask (fun n => su_lease n live);
  match identity with
  | Err _ =>
      t ← now;
      '(interrupted, err) ← transition (interrupt current t attribution);
      match err with
      | Some _ => leave current err
      | None => leave interrupted (Some (Coded IntegrityFailure "lease-identity"))
      end
  | Ok (leaseID, nonceDigest) =>
      let lease := newLease plan current live leaseID nonceDigest claimed in
      acquired ← acquireLease lease attribution;
      match acquired with
      | Some _ =>
          t ← now;
          '(interrupted, err) ← transition (interrupt current t attribution);
          match err with Some _ => leave current err | None => leave interrupted acquired end
      | None =>
          err ← boundary BoundaryLeaseAcquired;
          match err with Some _ => leave current err | None =>
            '(current, err) ← beginStep (mkStepBeginRequest (r_RunID current) (s_StepID live) leaseID claimed attribution);
            match err with Some _ => leave current err | None =>
              err ← boundary BoundaryIntentRecorded;
              match err with Some _ => leave current err | None =>
                executeStep plan current live implementation operation lease attribution
              end
            end
          end
      end
  end.

(** The body of the loop of [start]. *)
Definition runStep (plan : Plan) (attribution : Attribution) (step : RunStep) (current : Run) : M Next :=
  '(refreshed, err) ← getRun (r_RunID current);
  match err with Some _ => leave current err | None =>
    let current := refreshed in
    cancelled ← ask su_done;
    if (cancelled : bool) then
      t ← now;
      '(current, err) ← transition (interrupt current t attribution);
      match err with Some _ => leave current err | None =>
        t ← now;
        err ← releaseRunLeases (r_RunID current) t;
        match err with Some _ => leave current err | None => leave current (Some (Coded Interrupted "run")) end
      end
    else if r_CancellationRequested current then
      t ← now; stop (transition (interrupt current t attribution))
    else match findRunStep current (s_StepID step) with
         | None => continue current
         | Some live =>
             if s_Status live == "succeeded" then continue current
             else if s_Status live != "queued" then leave current (Some (Coded RecoveryRequired "run-step"))
             else match exactOperation plan live with
                  | Err err => leave current (Some err)
                  | Ok operation =>
                      match implementationOf plan operation with
                      | Err cause =>
                          t ← now;
                          '(current, err) ← transition (failRun current None t attribution);
                          match err with Some _ => leave current err | None => leave current (Some cause) end
                      | Ok implementation => leaseStep plan current live implementation operation attribution
                      end
                  end
         end
  end.

(** ** A run *)

Fixpoint runSteps (plan : Plan) (attribution : Attribution) (steps : list RunStep) (current : Run) : M Next :=
  match steps with
  | [] => continue current
  | step :: rest =>
      next ← runStep plan attribution step current;
      match next with
      | inl current => runSteps plan attribution rest current
      | inr r => mret (inr r)
      end
  end.

(** All steps are done: the run succeeds. *)
Definition completeRun (current : Run) (attribution : Attribution) : M Outcome :=
  let verification := digest ["run-verification"; r_RunID current; r_PlanDigest current] in
  t ← now;
  '(current, err) ← transition (succeedRun current verification t attribution);
  match err with Some _ => return_ current err | None =>
    err ← boundary BoundaryRunCompleted; return_ current err
  end.

Definition execution (plan : Plan) (current : Run) (attribution : Attribution) : M Outcome :=
  err ← boundary BoundaryRunStarted;
  match err with Some _ => return_ current err | None =>
    next ← runSteps plan attribution (r_Steps current) current;
    match next with inl current => completeRun current attribution | inr r => mret r end
  end.

Definition start (plan : Plan) (current : Run) (attribution : Attribution) : M Outcome :=
  t ← now;
  if r_Status current == "queued" then
    '(refreshed, err) ← getRun (r_RunID current);
    match err with Some _ => return_ current err | None =>
      let current := refreshed in
      if terminal (r_Status current) then return_ current None
      else if r_CancellationRequested current then transition (move current "queued" "cancelled" t attribution)
      else
        '(current, err) ← transition (move current "queued" "running" t attribution);
        match err with Some _ => return_ current err | None => execution plan current attribution end
    end
  else if r_Status current == "interrupted" then
    '(current, err) ← transition (move current "interrupted" "running" t attribution);
    match err with Some _ => return_ current err | None => execution plan current attribution end
  else execution plan current attribution.

(** ** Submission *)

Record SubmitRequest := mkSubmitRequest {
  sq_Reference : PlanReferenceRequest;
  sq_Authorization : AuthorizationDecision;
  sq_Acknowledgement : option Acknowledgement;
  sq_Attribution : Attribution
}.

Definition planReferenceJSON (r : PlanReferenceRequest) : string :=
  jsonObject
    [("schema", jsonString "vegastack-labs.dev/plan-reference-request"); ("schemaVersion", jsonString "1.0.0");
     ("planId", jsonString (pr_PlanID r)); ("planDigest", jsonString (pr_PlanDigest r));
     ("recoveryEpoch", jsonInt (pr_RecoveryEpoch r)); ("idempotencyKey", jsonString (pr_IdempotencyKey r));
     ("extensions", jsonArray (map extensionJSON (pr_Extensions r)))].

Definition runReferenceJSON (r : RunReferenceRequest) : string :=
  jsonObject
    [("schema", jsonString "vegastack-labs.dev/run-reference-request"); ("schemaVersion", jsonString "1.0.0");
     ("runId", jsonString (rr_RunID r)); ("idempotencyKey", jsonString (rr_IdempotencyKey r));
     ("recoveryEpoch", jsonInt (rr_RecoveryEpoch r)); ("extensions", jsonArray (map extensionJSON (rr_Extensions r)))].

(** The checks of [verifyAdmission] on the plan and the decision themselves. *)
Definition admissible (plan : Plan) (decision : AuthorizationDecision) : bool :=
  negb (length (p_Operations plan) =? 0)%nat && ad_Allowed decision && (ad_Action decision == "execute")
  && FirstExecutionTarget plan (ad_TargetID decision) && (ad_PlanDigest decision == p_PlanDigest plan)
  && (ad_RecoveryEpoch decision =? b_RecoveryEpoch (p_Binding plan))
  && (ad_Branch decision == Some (p_AuthorizationBranch plan)).

Definition verifyAdmission (plan : Plan) (decision : AuthorizationDecision) (acknowledgement : option Acknowledgement)
    : M (option error) :=
  stale ← ask (fun n => su_current n plan);
  match stale with Some _ => mret (Some (Coded PlanStale "plan")) | None =>
    if negb (admissible plan decision) then mret (Some (Coded AuthorizationDenied "run-admission"))
    else if (p_AuthorizationBranch plan == "human") && isNil acknowledgement
    then mret (Some (Coded ApprovalRequired "acknowledgement"))
    else if (p_AuthorizationBranch plan == "preauthorized") && negb (isNil acknowledgement)
    then mret (Some (Coded AuthorizationDenied "acknowledgement"))
    else ask (fun n => su_verify n plan decision acknowledgement)
  end.

(** A plan whose credentials an external executor would use: its source must
    know it as a managed deployment, of a human, for an external executor. *)
Definition externalCredentials (plan : Plan) : M (option error) :=
  if (credentialPlanDigest plan == "") || (p_ExecutorMode plan == "central") then mret None
  else
    managed ← ask (fun n => su_managed n plan);
    mret (match managed with
          | None => Some (Coded AuthorizationDenied "credential-external-execution")
          | Some err => err
          end).

(** The request context as [submit] hands it on once [externalCredentials] has
    passed: it carries the proof of this plan. *)
Definition preparedContext (plan : Plan) : RequestContext :=
  mkRequestContext (Some (p_PlanID plan, p_PlanDigest plan)) None.

Definition newSteps (id : string) (plan : Plan) : list RunStep :=
  map (fun operation =>
         mkRunStep (op_Sequence operation) (op_OperationID operation) (op_OperationType operation)
           (op_AdapterID operation) (op_ExecutorID operation) (op_TargetID operation) (op_InputDigest operation)
           (op_ArtifactDigest operation) (op_Idempotent operation) (stepID id (op_Sequence operation)) "queued"
           "not-started") (p_Operations plan).

Definition newRun (request : SubmitRequest) (plan : Plan) (executorID : string) (at_ : Time) : Run :=
  let decision := sq_Authorization request in
  let id := runID (p_PlanID plan) (pr_IdempotencyKey (sq_Reference request)) in
  mkRun id (p_PlanID plan) (p_PlanDigest plan) (ad_DecisionID decision)
    (ak_AcknowledgementID <$> sq_Acknowledgement request) (b_PolicyVersion (p_Binding plan)) (p_ExecutorMode plan)
    executorID
    (digest ["executor-binding"; p_PlanID plan; p_PlanDigest plan; executorID; ad_DecisionID decision])
    "queued" (newSteps id plan) false "not-requested" "pending" None false (b_StateRevision (p_Binding plan))
    (b_RecoveryEpoch (p_Binding plan)) (FormatRFC3339 at_) (FormatRFC3339 at_) [].

Definition createRequest (request : SubmitRequest) (run : Run) : RunCreateRequest :=
  mkRunCreateRequest run (digest ["run-submit-key"; pr_IdempotencyKey (sq_Reference request)])
    (digest ["run-submit-request"; planReferenceJSON (sq_Reference request); ad_PrincipalID (sq_Authorization request);
             default "" (ad_Branch (sq_Authorization request));
             default "" (ak_AcknowledgementID <$> sq_Acknowledgement request)])
    (sq_Attribution request).

(** From a stored, still queued run to its start. *)
Definition activate (request : SubmitRequest) (plan : Plan) (created : Run) (controllerSetup : bool) (at_ : Time)
    : M Outcome :=
  err ← ask (fun n => su_activate n plan (sq_Authorization request) created (sq_Acknowledgement request));
  match err with Some _ => return_ created err | None =>
    err ← boundary BoundaryAdmissionActivated;
    match err with Some _ => return_ created err | None =>
      if (p_ExecutorMode plan == "external") || controllerSetup then
        '(started, err) ← transition (move created "queued" "running" at_ (sq_Attribution request));
        match err with Some _ => return_ created err | None =>
          err ← boundary BoundaryRunStarted; return_ started err
        end
      else start plan created (sq_Attribution request)
    end
  end.

Definition submitPlan (request : SubmitRequest) (plan : Plan) (controllerSetup : bool) : M Outcome :=
  at_ ← now;
  if negb (Before at_ (parseTime (p_ExpiresAt plan))) then return_ zeroRun (Some (Coded PlanStale "plan"))
  else match planExecutorID plan with
       | Err err => return_ zeroRun (Some err)
       | Ok executorID =>
           created ← createRun (createRequest request (newRun request plan executorID at_));
           match created with
           | Err err => return_ zeroRun (Some err)
           | Ok created =>
               if negb (cs_Created created) then
                 if r_Status (cs_Run created) != "queued" then return_ (cs_Run created) None
                 else activate request plan (cs_Run created) controllerSetup at_
               else
                 err ← boundary BoundaryRunCreated;
                 match err with
                 | Some _ => return_ (cs_Run created) err
                 | None => activate request plan (cs_Run created) controllerSetup at_
                 end
           end
       end.

Definition submit (request : SubmitRequest) (controllerSetup : bool) : M Outcome :=
  let reference := sq_Reference request in
  if negb (su_reference reference) || negb (su_decision (sq_Authorization request))
  then return_ zeroRun (Some (Coded InputInvalid "run-submit"))
  else
    stored ← ask (fun n => su_plan n (pr_PlanID reference));
    match stored with
    | Err err => return_ zeroRun (Some err)
    | Ok plan =>
        if controllerSetup && negb (ControllerSetupPlan plan)
        then return_ zeroRun (Some (Coded AuthorizationDenied "controller-setup-class"))
        else if (p_PlanID plan != pr_PlanID reference) || (p_PlanDigest plan != pr_PlanDigest reference)
                || (b_RecoveryEpoch (p_Binding plan) != pr_RecoveryEpoch reference) || (p_Status plan != "planned")
        then return_ zeroRun (Some (Coded PlanStale "plan"))
        else
          err ← externalCredentials plan;
          match err with Some _ => return_ zeroRun err | None =>
            err ← verifyAdmission plan (sq_Authorization request) (sq_Acknowledgement request);
            match err with Some _ => return_ zeroRun err | None =>
              err ← validateScheduled plan;
              match err with Some _ => return_ zeroRun err | None =>
                if (credentialPlanDigest plan != "") && (p_ExecutorMode plan != "central")
                   && negb (credentialExternalAdmitted (preparedContext plan) plan)
                then return_ zeroRun (Some (Coded AuthorizationDenied "credential-external-execution"))
                else submitPlan request plan controllerSetup
              end
            end
          end
    end.

Definition Submit (request : SubmitRequest) : M Outcome := submit request false.
Definition SubmitControllerSetup (request : SubmitRequest) : M Outcome := submit request true.

(** The run an exact duplicate of a submission already made. *)
Definition Existing (reference : PlanReferenceRequest) : M (Run * bool * option error) :=
  if negb (su_reference reference) then mret (zeroRun, false, Some (Coded InputInvalid "run-submit"))
  else
    '(value, err) ← getRun (runID (pr_PlanID reference) (pr_IdempotencyKey reference));
    if Code err == ResourceNotFound then mret (zeroRun, false, None)
    else match err with
         | Some _ => mret (zeroRun, false, err)
         | None =>
             if (r_PlanID value != pr_PlanID reference) || (r_PlanDigest value != pr_PlanDigest reference)
                || (r_RecoveryEpoch value != pr_RecoveryEpoch reference)
             then mret (zeroRun, false, Some (Coded StateConflict "run-submit-key"))
             else mret (value, true, None)
         end.

(** ** Resumption and cancellation *)

(** Every step either succeeded or waits, interrupted before an effect that may
    be repeated. *)
Definition resumable (run : Run) : bool :=
  forallb (fun step => (s_Status step == "succeeded")
                       || (s_Status step == "interrupted") && s_Idempotent step && (s_EffectState step == "not-started"))
    (r_Steps run).

Definition ResumeAs (id : string) (attribution : Attribution) : M Outcome :=
  '(run, err) ← getRun id;
  match err with Some _ => return_ zeroRun err | None =>
    if r_Status run == "partial" then return_ run (Some (Coded RecoveryRequired "run-resume"))
    else if r_Status run != "interrupted" then return_ run (Some (Coded StateConflict "run-resume"))
    else if negb (resumable run) then return_ run (Some (Coded RecoveryRequired "run-resume"))
    else
      stored ← ask (fun n => su_plan n (r_PlanID run));
      match stored with
      | Err err => return_ run (Some err)
      | Ok plan =>
          stale ← ask (fun n => su_current n plan);
          match stale with Some _ => return_ run (Some (Coded PlanStale "plan")) | None =>
            err ← ask (fun n => su_verifyRun n plan run);
            match err with Some _ => return_ run err | None => start plan run attribution end
          end
      end
  end.

Definition inFlight (run : Run) : bool :=
  existsb (fun step => (s_Status step == "running") || (s_EffectState step == "intent-recorded")
                       || (s_EffectState step == "receipt-recorded")) (r_Steps run).

Definition CancelAs (id : string) (attribution : Attribution) : M Outcome :=
  '(run, err) ← getRun id;
  match err with Some _ => return_ zeroRun err | None =>
    t ← now;
    let request from to verification := mkRunTransitionRequest id from to t verification None "" None attribution in
    if r_Status run == "queued" then transition (request "queued" "cancelled" "")
    else if r_Status run == "running" then
      if (r_ExecutorMode run == "external") && negb (inFlight run)
      then transition (request "running" "interrupted" "incomplete")
      else requestCancellation id t attribution
    else if r_Status run == "interrupted" then transition (request "interrupted" "cancelled" "")
    else return_ run (Some (Coded StateConflict "run-cancel"))
  end.

Definition Resume (id : string) : M Outcome := ResumeAs id systemAttribution.
Definition Cancel (id : string) : M Outcome := CancelAs id systemAttribution.

(** What a cancellation or a resumption does to the run it found. *)
Definition operate (operation : string) (current : Run) (id : string) (attribution : Attribution) : M Outcome :=
  if operation == "cancel" then
    if (r_Status current == "cancelled") || r_CancellationRequested current then return_ current None
    else CancelAs id attribution
  else
    if r_Status current == "succeeded" then return_ current None
    else if r_Status current == "failed" then return_ current (Some (Coded ExecutionFailed "run"))
    else if r_Status current == "partial" then return_ current (Some (Coded RecoveryRequired "run"))
    else if bool_decide (r_Status current ∈ ["cancelled"; "running"; "queued"])
    then return_ current (Some (Coded StateConflict "run-resume"))
    else ResumeAs id attribution.

Definition MutateAs (operation : string) (reference : RunReferenceRequest) (attribution : Attribution) : M Outcome :=
  if ((operation != "cancel") && (operation != "resume")) || negb (su_runReference reference)
  then return_ zeroRun (Some (Coded InputInvalid "run-operation"))
  else
    let id := rr_RunID reference in
    '(current, err) ← getRun id;
    match err with Some _ => return_ zeroRun err | None =>
      if r_RecoveryEpoch current != rr_RecoveryEpoch reference
      then return_ current (Some (Coded RecoveryEpochMismatch "run"))
      else
        let keyDigest := digest ["run-operation-key"; operation; rr_IdempotencyKey reference] in
        let requestDigest := digest ["run-operation-request"; operation; runReferenceJSON reference] in
        t ← now;
        claim ← claimOperation operation id keyDigest requestDigest t attribution;
        match claim with
        | Err err => return_ current (Some err)
        | Ok claim =>
            if os_Completed claim then return_ (os_Run claim) (storedOperationError operation (os_ErrorCode claim))
            else
              '(result, operationErr) ← operate operation current id attribution;
              let errorCode := if bool_decide (operationErr <> None) && (Code operationErr == "")
                               then IntegrityFailure else Code operationErr in
              t ← now;
              completed ← completeOperation operation id keyDigest requestDigest result errorCode t attribution;
              match completed with
              | Err err => return_ result (Some err)
              | Ok completed => return_ (os_Run completed) (storedOperationError operation (os_ErrorCode completed))
              end
        end
    end.

(** ** Startup and reconciliation *)

(** What reconciliation makes of the steps of a run that was running: whether an
    effect is in doubt, whether one failed, whether all succeeded. *)
Record Findings := mkFindings { fi_ambiguous : bool; fi_failed : bool; fi_allSucceeded : bool }.

Definition inspectStep (f : Findings) (step : RunStep) : Findings * bool :=
  let all := fi_allSucceeded f && negb ((s_Status step != "succeeded") || (s_EffectState step != "verified")) in
  if (s_Status step == "partial") || (s_EffectState step == "effect-unknown")
  then (mkFindings true (fi_failed f) all, false)
  else if s_Status step == "failed" then (mkFindings (fi_ambiguous f) true all, false)
  else if (s_Status step == "running")
          && ((s_EffectState step == "intent-recorded") || (s_EffectState step == "receipt-recorded"))
  then (mkFindings true (fi_failed f) all, true)
  else (mkFindings (fi_ambiguous f) (fi_failed f) all, false).

(** The steps of a run, those whose effect was under way marked as unknown. *)
Fixpoint inspectSteps (id : string) (at_ : Time) (steps : list RunStep) (f : Findings) : M (result Findings) :=
  match steps with
  | [] => mret (Ok f)
  | step :: rest =>
      let '(f, mark) := inspectStep f step in
      if mark then
        '(_, err) ← markStepUnknown id (s_StepID step) at_ systemAttribution;
        match err with Some e => mret (Err e) | None => inspectSteps id at_ rest f end
      else inspectSteps id at_ rest f
  end.

(** The transition that classifies a run found running. *)
Definition settle (run : Run) (at_ : Time) (f : Findings) : RunTransitionRequest :=
  if fi_ambiguous f then partialRun run true at_ systemAttribution
  else if fi_failed f then failRun run None at_ systemAttribution
  else if fi_allSucceeded f then succeedRun run (digest ["run-verified"; r_RunID run]) at_ systemAttribution
  else interrupt run at_ systemAttribution.

Definition reconcileRun (run : Run) : M (option error) :=
  t ← now;
  err ← releaseRunLeases (r_RunID run) t;
  match err with Some _ => mret err | None =>
    if (r_Status run == "queued") || (r_Status run == "interrupted") then mret None
    else
      found ← inspectSteps (r_RunID run) t (r_Steps run)
                (mkFindings false false (negb (length (r_Steps run) =? 0)%nat));
      match found with
      | Err e => mret (Some e)
      | Ok f => '(_, err) ← transition (settle run t f); mret err
      end
  end.

Fixpoint reconcileRuns (runs : list Run) : M (option error) :=
  match runs with
  | [] => mret None
  | run :: rest =>
      err ← reconcileRun run;
      match err with Some _ => mret err | None => reconcileRuns rest end
  end.

Definition Reconcile : M (option error) :=
  runs ← activeRuns;
  match runs with Err e => mret (Some e) | Ok runs => reconcileRuns runs end.

Definition Startup : M (option error) :=
  t ← now;
  pruned ← pruneRunHistory t;
  match pruned with Err e => mret (Some e) | Ok _ => Reconcile end.

(** ** Histories of engine calls *)

Inductive EngineCall :=
| DoSubmit (request : SubmitRequest)
| DoSubmitControllerSetup (request : SubmitRequest)
| DoExisting (reference : PlanReferenceRequest)
| DoResume (id : string) (attribution : Attribution)
| DoCancel (id : string) (attribution : Attribution)
| DoMutate (operation : string) (reference : RunReferenceRequest) (attribution : Attribution)
| DoStartup
| DoReconcile.

Definition serve (call : EngineCall) : M unit :=
  match call with
  | DoSubmit request => Submit request;; mret tt
  | DoSubmitControllerSetup request => SubmitControllerSetup request;; mret tt
  | DoExisting reference => Existing reference;; mret tt
  | DoResume id attribution => ResumeAs id attribution;; mret tt
  | DoCancel id attribution => CancelAs id attribution;; mret tt
  | DoMutate operation reference attribution => MutateAs operation reference attribution;; mret tt
  | DoStartup => Startup;; mret tt
  | DoReconcile => Reconcile;; mret tt
  end.

Fixpoint serveAll (history : list EngineCall) : M unit :=
  match history with [] => mret tt | call :: rest => serve call;; serveAll rest end.

Definition initially (store : Store RunTables) : World := mkWorld store 0 [].

End Engine.
