(* ===== verification/EngineLogic.v ===== *)
(** A program logic for the run engine: Hoare triples over the engine monad whose
    assertions speak of the store and of the trace, and the stores a trace leads
    through. The theorems about the engine are about whole histories of engine
    calls, with any behaviour of the outside world and any interleaved calls of
    other clients of the store. *)

From S2P Require Import Prelude GoTime Hash GoJson Contracts AuditLog AuditStore Authorization Adapter ExecutorLease RunRepository RunHistory.
From S2P Require Import RunFacts RunEngine.

Create HintDb engine.

(** ** Triples *)

Definition Assertion : Type := Store RunTables -> list Event -> Prop.

(** [triple P m Q]: from a world in which [P] holds, [m] ends in one in which [Q]
    holds of its answer. The number of interactions is not observable. *)
Definition triple {A} (P : Assertion) (m : M A) (Q : A -> Assertion) : Prop :=
  forall w, P (w_store w) (w_trace w) -> Q (m w).1 (w_store (m w).2) (w_trace (m w).2).

Lemma triple_ret {A} (P : Assertion) (x : A) (Q : A -> Assertion) :
  (forall s tr, P s tr -> Q x s tr) -> triple P (mret x) Q.
Proof. intros HPQ w. apply HPQ. Qed.

Lemma triple_bind {A B} (P : Assertion) (m : M A) (f : A -> M B) (R : A -> Assertion) (Q : B -> Assertion) :
  triple P m R -> (forall x, triple (R x) (f x) Q) -> triple P (m ≫= f) Q.
Proof.
  intros Hm Hf w Hw. specialize (Hm w Hw). unfold mbind, M_bind. destruct (m w) as [x w1]. exact (Hf x w1 Hm).
Qed.

Lemma triple_weaken {A} (P P' : Assertion) (m : M A) (Q Q' : A -> Assertion) :
  triple P' m Q' -> (forall s tr, P s tr -> P' s tr) -> (forall x s tr, Q' x s tr -> Q x s tr) -> triple P m Q.
Proof. intros Hm HP HQ w Hw. apply HQ, Hm, HP, Hw. Qed.

Lemma triple_pure {A} (P : Assertion) (C : Prop) (m : M A) Q :
  (C -> triple P m Q) -> triple (fun s tr => C /\ P s tr) m Q.
Proof. intros Hm w [HC HP]. by apply Hm. Qed.

Section Rules.
Context `{Hasher} `{RunSchemas} `{HostReplacementContract} `{Surroundings}.

Lemma triple_ask {A} (P : Assertion) (oracle : nat -> A) : triple P (ask oracle) (fun _ => P).
Proof. intros w Hw. exact Hw. Qed.

Lemma triple_happens (P : Assertion) event (Q : unit -> Assertion) :
  (forall s tr, P s tr -> Q tt s (tr ++ [event])) -> triple P (happens event) Q.
Proof. intros HPQ w Hw. by apply HPQ. Qed.

Lemma triple_now (P : Assertion) : triple P now (fun _ => P).
Proof. intros w Hw. exact Hw. Qed.

Lemma triple_boundary (P : Assertion) b : triple P (boundary b) (fun _ => P).
Proof. intros w Hw. exact Hw. Qed.

Lemma triple_isExpired (P : Assertion) deadline : triple P (isExpired deadline) (fun _ => P).
Proof. intros w Hw. exact Hw. Qed.

Lemma triple_scheduled (P : Assertion) plan : triple P (validateScheduled plan) (fun _ => P).
Proof.
  unfold validateScheduled. repeat case_match; try (apply triple_ret; done);
    (eapply triple_bind; [apply triple_now|intros; apply triple_ask]).
Qed.

(** The trace after the calls of others and one call of the engine. *)
Definition extended (tr : list Event) (others : list (RunEnv * RunCall)) (env : RunEnv) (call : RunCall) : list Event :=
  tr ++ map (fun c => Other c.1 c.2) others ++ [Own env call].

Lemma triple_invoke {A} (P : Assertion) call (method : RunEnv -> Store RunTables -> A * Store RunTables) (Q : A -> Assertion) :
  (forall s tr others env, P s tr ->
     let answer := method env (performAll others s) in Q answer.1 answer.2 (extended tr others env call)) ->
  triple P (invoke call method) Q.
Proof. intros HPQ w Hw. apply HPQ, Hw. Qed.

End Rules.

(** ** Stores and traces *)

Section Traces.
Context `{Hasher} `{RunSchemas}.

(** The calls of a trace, in the order in which the store served them. *)
Definition calls (tr : list Event) : list (RunEnv * RunCall) :=
  omap (fun event => match event with Own env call | Other env call => Some (env, call) | _ => None end) tr.

(** The store a trace leads to from [s0]. *)
Definition storeAt (s0 : Store RunTables) (tr : list Event) : Store RunTables := performAll (calls tr) s0.

Lemma calls_app tr1 tr2 : calls (tr1 ++ tr2) = calls tr1 ++ calls tr2.
Proof. apply omap_app. Qed.

Lemma storeAt_app s0 tr1 tr2 : storeAt s0 (tr1 ++ tr2) = storeAt (storeAt s0 tr1) tr2.
Proof. unfold storeAt. by rewrite calls_app, performAll_app. Qed.

Lemma calls_others others : calls (map (fun c => Other c.1 c.2) others) = others.
Proof. unfold calls. induction others as [|[e c] others IH]; cbn; [done|]. by rewrite IH. Qed.

Lemma storeAt_extended s0 tr others env call :
  storeAt s0 (extended tr others env call) = perform env call (performAll others (storeAt s0 tr)).
Proof.
  unfold extended. rewrite !storeAt_app. unfold storeAt at 1 2. rewrite calls_others. reflexivity.
Qed.

(** A prefix of an extended trace: the last call is the engine's. *)
Lemma extended_snoc tr others env call :
  extended tr others env call = (tr ++ map (fun c => Other c.1 c.2) others) ++ [Own env call].
Proof. unfold extended. by rewrite app_assoc. Qed.

Lemma storeAt_others s0 tr others :
  storeAt s0 (tr ++ map (fun c => Other c.1 c.2) others) = performAll others (storeAt s0 tr).
Proof. rewrite storeAt_app. unfold storeAt at 1. by rewrite calls_others. Qed.

End Traces.

(** ** Invariants of the engine's code

    An invariant that the ordinary calls keep — those that declare no run
    successful, prune nothing and create only runs that have not started — is
    kept by all the code that makes only such calls. *)

Definition modest (call : RunCall) : bool :=
  freshCall call && negb (isPrune call)
  && match call with CallTransition request => tq_To request != "succeeded" | CallFinish _ => false | _ => true end.

(** The last thing that happened is that the effect of a step was verified: the
    verdict was returned without an error, is well formed and accepts the effect;
    and this is what the request finishes the step with. *)
Definition verifiedBy `{Hasher} (before : list Event) (request : StepFinishRequest) : Prop :=
  exists tr b effect verification recorded,
    before = tr ++ [Verified b effect (verification, None)]
    /\ vf_Verified verification = true /\ ValidateVerification verification = None
    /\ fq_StepID request = l_StepID (sb_Lease b) /\ fq_LeaseID request = l_LeaseID (sb_Lease b)
    /\ fq_Receipt request = newReceipt (sb_Lease b) effect recorded
    /\ fq_Status request = ef_Status effect /\ fq_VerificationDigest request = vf_Digest verification.

(** The assertions that survive a modest call of the engine, after the calls of
    others, a verification, and the finish of a step right after the verification
    that accepted its effect. *)
Class Stable `{Hasher} `{RunSchemas} (I : Assertion) : Prop := {
  stable_call : forall s tr others env call,
    modest call = true -> I s tr -> I (perform env call (performAll others s)) (extended tr others env call);
  stable_finish : forall s tr others env request,
    verifiedBy tr request -> I s tr ->
    I (perform env (CallFinish request) (performAll others s)) (extended tr others env (CallFinish request));
  stable_verified : forall s tr b effect answer, I s tr -> I s (tr ++ [Verified b effect answer])
}.

(** An invariant is kept by a computation. *)
Definition kept (I : Assertion) {A} (m : M A) : Prop := triple I m (fun _ => I).

Lemma kept_bind I {A B} (m : M A) (f : A -> M B) : kept I m -> (forall x, kept I (f x)) -> kept I (m ≫= f).
Proof. intros Hm Hf. eapply triple_bind; [exact Hm|exact Hf]. Qed.

(** Walks through the code of a method: binds, answers and branches. *)
Ltac kept_code :=
  repeat (intros; first
    [ solve [auto with engine]
    | progress unfold return_, leave, continue, stop
    | apply kept_bind
    | match goal with |- kept _ (match ?x with _ => _ end) => destruct x end
    | match goal with |- kept _ (let _ := _ in _) => cbv zeta end ]).

Section Invariants.
Context `{Hasher} `{RunSchemas} `{HostReplacementContract} `{Surroundings}.
Context (I : Assertion) `{!Stable I}.

Lemma kept_invoke {A} call (method : RunEnv -> Store RunTables -> A * Store RunTables) :
  modest call = true -> (forall env s, (method env s).2 = perform env call s) -> kept I (invoke call method).
Proof. intros Hc Hm. apply triple_invoke. intros s tr others env Hi. cbv zeta. rewrite Hm. by apply stable_call. Qed.

Lemma kept_ret {A} (x : A) : kept I (mret x).
Proof. by apply triple_ret. Qed.

Lemma kept_ask {A} (oracle : nat -> A) : kept I (ask oracle).
Proof. apply triple_ask. Qed.
Lemma kept_boundary b : kept I (boundary b).
Proof. apply triple_boundary. Qed.
Lemma kept_isExpired deadline : kept I (isExpired deadline).
Proof. apply triple_isExpired. Qed.
Lemma kept_scheduled plan : kept I (validateScheduled plan).
Proof. apply triple_scheduled. Qed.
Lemma kept_now : kept I now.
Proof. apply triple_now. Qed.

(** After a verification the trace ends in its verdict. *)
Lemma triple_verify impl b op effect :
  triple I (verify impl b op effect) (fun answer s tr => I s tr /\ exists tr', tr = tr' ++ [Verified b effect answer]).
Proof. intros w Hi. cbn. split; [by apply stable_verified|eauto]. Qed.

Lemma kept_verify impl b op effect : kept I (verify impl b op effect).
Proof. eapply triple_weaken; [apply triple_verify|done|by intros x s tr [? _]]. Qed.

#[local] Hint Resolve kept_ret kept_ask kept_now kept_boundary kept_isExpired kept_scheduled kept_verify : engine.

Ltac kept_call :=
  first [apply kept_bind; [by apply kept_invoke|intros; apply kept_ret] | by apply kept_invoke].

Lemma kept_getRun id : kept I (getRun id). Proof. kept_call. Qed.
Lemma kept_transition request : (tq_To request != "succeeded") = true -> kept I (transition request).
Proof. intros Hto. by apply kept_invoke. Qed.
Lemma kept_requestCancellation id t a : kept I (requestCancellation id t a). Proof. kept_call. Qed.
Lemma kept_acquireLease lease a : kept I (acquireLease lease a). Proof. kept_call. Qed.
Lemma kept_releaseTargetLease id t : kept I (releaseTargetLease id t). Proof. kept_call. Qed.
Lemma kept_releaseRunLeases id t : kept I (releaseRunLeases id t). Proof. kept_call. Qed.
Lemma kept_recordReceipt request : kept I (recordReceipt request). Proof. kept_call. Qed.
Lemma kept_beginStep request : kept I (beginStep request). Proof. kept_call. Qed.
Lemma triple_finish request :
  triple (fun s tr => I s tr /\ verifiedBy tr request) (finishStep request) (fun _ => I).
Proof. apply triple_invoke. intros s tr others env [Hi Hv]. cbv zeta. by apply stable_finish. Qed.
Lemma kept_markStepUnknown id step t a : kept I (markStepUnknown id step t a). Proof. kept_call. Qed.
Lemma kept_failStep id step t a : kept I (failStepBeforeEffect id step t a). Proof. kept_call. Qed.
Lemma kept_interruptStep id step t a : kept I (interruptStepBeforeEffect id step t a). Proof. kept_call. Qed.
Lemma kept_activeRuns : kept I activeRuns. Proof. kept_call. Qed.
Lemma kept_claim operation id key request t a : kept I (claimOperation operation id key request t a). Proof. kept_call. Qed.
Lemma kept_complete operation id key request run code t a : kept I (completeOperation operation id key request run code t a).
Proof. kept_call. Qed.
#[local] Hint Resolve kept_getRun kept_transition kept_requestCancellation kept_acquireLease kept_releaseTargetLease
  kept_releaseRunLeases kept_recordReceipt kept_beginStep kept_markStepUnknown kept_failStep
  kept_interruptStep kept_activeRuns kept_claim kept_complete : engine.

Lemma kept_interruptBeforeEffect current step a : kept I (interruptBeforeEffect current step a).
Proof. unfold interruptBeforeEffect. kept_code. Qed.
Lemma kept_failBeforeEffect current step a cause : kept I (failBeforeEffect current step a cause).
Proof. unfold failBeforeEffect. kept_code. Qed.
Lemma kept_partial current step a cause : kept I (partial current step a cause).
Proof. unfold partial. kept_code. Qed.
Lemma kept_concludeStep current lease effect a : kept I (concludeStep current lease effect a).
Proof. unfold concludeStep. kept_code. Qed.
#[local] Hint Resolve kept_interruptBeforeEffect kept_failBeforeEffect kept_partial kept_concludeStep : engine.

Lemma kept_verifyStep current live impl b op effect a : s_StepID live = l_StepID (sb_Lease b) ->
  kept I (verifyStep current live impl b op effect a).
Proof.
  intros Hid. unfold verifyStep. cbv zeta. apply kept_bind; [auto with engine|]. intros recorded.
  apply kept_bind; [auto with engine|]. intros [run1 [e|]]; [kept_code|].
  apply kept_bind; [auto with engine|]. intros [e|]; [kept_code|].
  eapply triple_bind; [apply triple_verify|]. intros [verification verifyErr].
  assert (Hleave : forall m : M Next, kept I m ->
    triple (fun s tr => I s tr /\ exists tr', tr = tr' ++ [Verified b effect (verification, verifyErr)]) m (fun _ => I)).
  { intros m Hm. eapply triple_weaken; [exact Hm|by intros s tr [? _]|done]. }
  eapply triple_bind; [apply triple_isExpired|]. intros [|]; [apply Hleave; kept_code|].
  destruct (_ || _) eqn:Hv; [apply Hleave; kept_code|]. apply orb_false_iff in Hv as [[E1 E2]%orb_false_iff E3%negb_false_iff].
  apply bool_decide_eq_false_1, dec_stable in E1, E2. subst verifyErr.
  eapply triple_bind; [apply triple_now|]. intros t. apply triple_bind with (R := fun _ => I); [|intros [run2 [e|]]; [exact (kept_ret (inr (run2, Some e) : Next))|exact (kept_concludeStep run2 _ effect a)]].
  eapply triple_weaken; [apply triple_finish| |done]. intros s tr [Hi [tr' ->]]. split; [done|].
  exists tr', b, effect, verification, recorded. split_and!; first [done|reflexivity].
Qed.

Lemma kept_CancelAs id a : kept I (CancelAs id a).
Proof. unfold CancelAs. kept_code. Qed.

Lemma kept_inspectSteps id t steps f : kept I (inspectSteps id t steps f).
Proof. revert f. induction steps as [|step steps IH]; intros f; cbn [inspectSteps]; kept_code. Qed.

(** A run that was created waits: [Submit] starts it only then. *)
Lemma Create_queued env request store created store' :
  Create env request store = (Ok created, store') -> cs_Created created = true ->
  cs_Run created = cq_Run request /\ r_Status (cq_Run request) = "queued".
Proof.
  unfold Create. cbv zeta. rewrite check_bind. destruct (validCreate request) eqn:Hv; [|discriminate].
  intros E Hc. apply action_bind_Ok in E as (found & s1 & E1 & E). destruct found as [r|].
  - injection E as <- <-. exfalso. unfold existing, rows in E1. destruct (Read _ _ _) as [[[id row]|e] s2]; cbn in E1.
    + destruct (_ == _) in E1; [|discriminate E1]. destruct (decodeRun _) in E1; [|discriminate E1]. injection E1 as <- <-.
      discriminate Hc.
    + by destruct (_ == _) in E1.
  - apply action_bind_Ok in E as (intent & s2 & E2 & E). destruct (ir_Created intent).
    + injection E as <- <-. split; [done|]. unfold validCreate in Hv. by bool_hyps.
    + exfalso. apply action_bind_Ok in E as (again & s3 & E3 & E). unfold existing, rows in E3.
      destruct (Read _ _ _) as [[[id row]|e] s4]; cbn in E3.
      * destruct (_ == _) in E3; [|discriminate E3]. destruct (decodeRun _) in E3; [|discriminate E3].
        injection E3 as <- <-. cbn in E. injection E as <- <-. discriminate Hc.
      * destruct (_ == _) in E3; [|discriminate E3]. injection E3 as <- <-. discriminate E.
Qed.

(** What is left to show for a particular invariant: that it survives the start
    of a run and the startup of the engine. *)
Hypothesis kept_start : forall plan current a,
  r_Status current = "queued" \/ r_Status current = "interrupted" -> kept I (start plan current a).
Hypothesis kept_Startup : kept I Startup.
Hypothesis kept_Reconcile : kept I Reconcile.

#[local] Hint Resolve kept_CancelAs kept_inspectSteps kept_start : engine.

Lemma kept_activate request plan created setup t :
  r_Status created = "queued" -> kept I (activate request plan created setup t).
Proof. intros Hq. unfold activate. kept_code. Qed.

Lemma kept_submitPlan request plan setup : kept I (submitPlan request plan setup).
Proof.
  unfold submitPlan. apply kept_bind; [auto with engine|]. intros t.
  destruct (negb _); [kept_code|]. destruct (planExecutorID plan) as [executor|e]; [|kept_code].
  set (run := newRun request plan executor t).
  apply triple_bind with (R := fun created s tr => I s tr /\ match created with
    | Ok created => cs_Created created = true -> r_Status (cs_Run created) = "queued" | Err _ => True end).
  { apply triple_invoke. intros s tr others env Hi. cbv zeta. split.
    - change (Create env (createRequest request run) (performAll others s)).2
        with (perform env (CallCreate (createRequest request run)) (performAll others s)).
      apply stable_call; [|done]. unfold modest. cbn. unfold newSteps.
      rewrite !andb_true_r. apply forallb_forall. intros x Hx. apply in_map_iff in Hx as (op & <- & _). done.
    - destruct (Create env _ _) as [[created|e] s'] eqn:E; [|done]. cbn. intros Hc.
      destruct (Create_queued _ _ _ _ _ E Hc) as [-> Hq]. exact Hq. }
  intros [created|e]; [|apply triple_ret; by intros s tr [? _]].
  destruct (cs_Created created) eqn:Hc; cbn [negb].
  - intros w [Hi Hq]. specialize (Hq eq_refl). revert w Hi.
    change (kept I (err ← boundary BoundaryRunCreated;
      match err with Some _ => return_ (cs_Run created) err | None => activate request plan (cs_Run created) setup t end)).
    apply kept_bind; [auto with engine|]. intros [e|]; [kept_code|]. by apply kept_activate.
  - apply triple_weaken with (P' := I) (Q' := fun _ => I); [|by intros s tr [? _]|done].
    destruct (decide (r_Status (cs_Run created) = "queued")) as [Hq|Hq];
      [rewrite (bool_decide_eq_true_2 _ Hq)|rewrite (bool_decide_eq_false_2 _ Hq)]; cbn [negb];
      [by apply kept_activate|by apply triple_ret].
Qed.
#[local] Hint Resolve kept_submitPlan : engine.

Lemma kept_submit request setup : kept I (submit request setup).
Proof. unfold submit, externalCredentials, verifyAdmission. kept_code. Qed.

Lemma kept_ResumeAs id a : kept I (ResumeAs id a).
Proof.
  unfold ResumeAs. apply kept_bind; [auto with engine|]. intros [run [e|]]; [kept_code|].
  destruct (r_Status run == "partial"); [kept_code|].
  destruct (decide (r_Status run = "interrupted")) as [Hq|Hq];
    [rewrite (bool_decide_eq_true_2 _ Hq)|rewrite (bool_decide_eq_false_2 _ Hq)]; cbn [negb]; kept_code.
Qed.
#[local] Hint Resolve kept_submit kept_ResumeAs : engine.

Lemma kept_MutateAs operation reference a : kept I (MutateAs operation reference a).
Proof. unfold MutateAs, operate. kept_code. Qed.
#[local] Hint Resolve kept_MutateAs : engine.

Lemma kept_serveAll history : kept I (serveAll history).
Proof.
  induction history as [|call history IH]; cbn [serveAll]; [kept_code|]. apply kept_bind; [|auto].
  destruct call; cbn [serve]; unfold Submit, SubmitControllerSetup, Existing; kept_code.
Qed.

End Invariants.

#[export] Hint Resolve kept_ret kept_ask kept_now kept_boundary kept_isExpired kept_scheduled kept_verify kept_getRun
  kept_transition kept_requestCancellation kept_acquireLease kept_releaseTargetLease
  kept_releaseRunLeases kept_recordReceipt kept_beginStep kept_markStepUnknown
  kept_failStep kept_interruptStep kept_activeRuns kept_claim kept_complete kept_interruptBeforeEffect
  kept_failBeforeEffect kept_partial kept_concludeStep kept_CancelAs kept_inspectSteps : engine.
#[export] Hint Extern 1 (kept _ (verifyStep _ _ _ _ _ _ _)) =>
  apply kept_verifyStep; [typeclasses eauto|cbn; congruence] : engine.
#[export] Hint Extern 0 (Stable _) => typeclasses eauto : engine.
