(* ===== verification/EngineSafety.v ===== *)
(** Safety of the run engine: an effect is executed only under its own, freshly
    recorded intent, and at most once for a step that is not idempotent; a step is
    finished only with what its own verification, just before, accepted. *)

From S2P Require Import Prelude GoTime Hash GoJson Contracts AuditLog AuditStore Authorization Adapter ExecutorLease RunRepository RunHistory.
From S2P Require Import RunFacts RunEngine EngineLogic.

(** ** Write-ahead: every effect follows its own intent *)

Section Guarded.
Context `{Hasher} `{RunSchemas} `{HostReplacementContract} `{Surroundings}.
Variable s0 : Store RunTables.

(** The last thing before the effect was the engine's own successful call that
    records the intent of this step under this lease, and the operation is the
    planned one. *)
Definition guardedBy (before : list Event) (b : ExactStepBinding) (operation : Operation) : Prop :=
  exists pre env request store' live,
    before = pre ++ [Own env (CallBegin request)]
    /\ BeginStep env request (storeAt s0 pre) = ((sb_Run b, None), store')
    /\ findRunStep (sb_Run b) (bq_StepID request) = Some (sb_Step b)
    /\ bq_StepID request = l_StepID (sb_Lease b) /\ bq_LeaseID request = l_LeaseID (sb_Lease b)
    /\ bq_RunID request = l_RunID (sb_Lease b)
    /\ exactOperation (sb_Plan b) live = Ok operation /\ s_StepID live = bq_StepID request.

Definition guarded (tr : list Event) : Prop :=
  forall pre implementation b operation post,
    tr = pre ++ Executed implementation b operation :: post -> guardedBy pre b operation.

(** Every step is finished right after its effect was verified: only calls of
    others come in between. *)
Definition endorsedBy (before : list Event) (request : StepFinishRequest) : Prop :=
  exists tr others, before = tr ++ map (fun c => Other c.1 c.2) others /\ verifiedBy tr request.

Definition endorsed (tr : list Event) : Prop :=
  forall pre env request post, tr = pre ++ Own env (CallFinish request) :: post -> endorsedBy pre request.

Definition isFinish (call : RunCall) : bool := match call with CallFinish _ => true | _ => false end.
Definition finishes (event : Event) : bool := match event with Own _ call => isFinish call | _ => false end.

(** An event of an extended trace that none of the new ones is like. *)
Lemma found_before (f : Event -> bool) (tr events pre post : list Event) event :
  tr ++ events = pre ++ event :: post -> Forall (fun event => f event = false) events -> f event = true ->
  exists post', tr = pre ++ event :: post'.
Proof.
  intros E Hn He. apply app_eq_app in E as (l & [[E1 E2]|[E1 E2]]).
  - destruct l as [|x l]; cbn in E2.
    + symmetry in E2. rewrite E2 in Hn. apply Forall_cons in Hn as [Hn _]. congruence.
    + injection E2 as -> E2. eauto.
  - rewrite E2 in Hn. apply Forall_app in Hn as [_ Hn]. apply Forall_cons in Hn as [Hn _]. congruence.
Qed.

Lemma endorsed_app tr events :
  endorsed tr -> Forall (fun event => finishes event = false) events -> endorsed (tr ++ events).
Proof. intros He Hn pre env request post E. apply (found_before finishes) in E as [post' E]; [by eapply He|done..]. Qed.

Lemma endorsed_finish tr others env request :
  endorsed tr -> verifiedBy tr request -> endorsed (extended tr others env (CallFinish request)).
Proof.
  intros He Hv pre env' request' post E. rewrite extended_snoc in E. destruct post as [|x post _] using rev_ind.
  - apply app_inj_tail in E as [<- E]. injection E as _ <-. by exists tr, others.
  - rewrite app_comm_cons, app_assoc in E. apply app_inj_tail in E as [E _].
    apply (found_before finishes) in E as [post' E]; [by eapply He| |done].
    apply Forall_forall. by intros e (c & -> & _)%list_elem_of_fmap.
Qed.

Definition isExecuted (event : Event) : bool := match event with Executed _ _ _ => true | _ => false end.

Lemma guarded_app tr events :
  guarded tr -> Forall (fun event => isExecuted event = false) events -> guarded (tr ++ events).
Proof.
  intros Hg Hn pre impl b op post E. apply (found_before isExecuted) in E as [post' E]; [by eapply Hg|done..].
Qed.

Lemma guarded_execute tr impl b op : guarded tr -> guardedBy tr b op -> guarded (tr ++ [Executed impl b op]).
Proof.
  intros Hg Hb pre impl' b' op' post E. destruct post as [|x post] using rev_ind.
  - apply app_inj_tail in E as [-> E]. injection E as _ -> ->. done.
  - rewrite app_comm_cons, app_assoc in E. apply app_inj_tail in E as [-> _]. by eapply Hg.
Qed.

Definition inv : Assertion := fun s tr => s = storeAt s0 tr /\ guarded tr /\ endorsed tr.

Lemma others_not_executed (others : list (RunEnv * RunCall)) env call :
  Forall (fun event => isExecuted event = false) (map (fun c => Other c.1 c.2) others ++ [Own env call]).
Proof.
  apply Forall_app. split; [|by repeat constructor]. apply Forall_forall. intros e (c & -> & _)%list_elem_of_fmap. done.
Qed.

Lemma others_not_finishing (others : list (RunEnv * RunCall)) env call : isFinish call = false ->
  Forall (fun event => finishes event = false) (map (fun c => Other c.1 c.2) others ++ [Own env call]).
Proof.
  intros Hc. apply Forall_app. split; [|by repeat constructor]. apply Forall_forall. by intros e (c & -> & _)%list_elem_of_fmap.
Qed.

Lemma inv_extended s tr others env call : isFinish call = false ->
  inv s tr -> inv (perform env call (performAll others s)) (extended tr others env call).
Proof.
  intros Hc (-> & Hg & He). split_and!; [by rewrite storeAt_extended|..].
  - apply guarded_app; [done|]. apply others_not_executed.
  - apply endorsed_app; [done|]. by apply others_not_finishing.
Qed.

Lemma inv_event s tr event :
  inv s tr -> guarded (tr ++ [event]) -> finishes event = false -> storeAt s [event] = s -> inv s (tr ++ [event]).
Proof.
  intros (-> & _ & He) Hg Hn Hs. split_and!; [by rewrite storeAt_app|done|]. apply endorsed_app; [done|]. by constructor.
Qed.

#[local] Instance inv_stable : Stable inv.
Proof.
  constructor.
  - intros s tr others env call Hm. apply inv_extended. unfold modest in Hm. bool_hyps. by destruct call.
  - intros s tr others env request Hv (-> & Hg & He). split_and!; [by rewrite storeAt_extended| |by apply endorsed_finish].
    apply guarded_app; [done|]. apply others_not_executed.
  - intros s tr b effect answer Hi. apply inv_event; [done| |done|done]. destruct Hi as (_ & Hg & _).
    apply guarded_app; [done|]. by repeat constructor.
Qed.

(** Success and pruning are as good as any other call here. *)
Lemma kept_any {A} call (method : RunEnv -> Store RunTables -> A * Store RunTables) : isFinish call = false ->
  (forall env s, (method env s).2 = perform env call s) -> kept inv (invoke call method).
Proof. intros Hc Hm. apply triple_invoke. intros s tr others env Hi. cbv zeta. rewrite Hm. by apply inv_extended. Qed.

Lemma kept_moved request : kept inv (transition request).
Proof. by apply kept_any. Qed.
Lemma kept_pruned t : kept inv (pruneRunHistory t).
Proof. by apply kept_any. Qed.
#[local] Hint Resolve kept_moved kept_pruned : engine.

(** From the intent to the effect, the engine only looks at the clock and asks
    the scheduler. *)
Definition began (request : StepBeginRequest) (current : Run) : Assertion := fun s tr =>
  inv s tr /\ exists pre env store', tr = pre ++ [Own env (CallBegin request)]
    /\ BeginStep env request (storeAt s0 pre) = ((current, None), store').

Lemma began_inv request current s tr : began request current s tr -> inv s tr.
Proof. by intros [? _]. Qed.

(** A computation that keeps the invariant may follow the intent. *)
Lemma after_intent {A} request current (m : M A) : kept inv m -> triple (began request current) m (fun _ => inv).
Proof. intros Hm. eapply triple_weaken; [exact Hm|apply began_inv|done]. Qed.

Lemma triple_beginStep request :
  triple inv (beginStep request) (fun answer s tr => match answer with (current, None) => began request current s tr
                                                     | (_, Some _) => inv s tr end).
Proof.
  apply triple_invoke. intros s tr others env Hi. cbv zeta.
  assert (Hext : inv (BeginStep env request (performAll others s)).2 (extended tr others env (CallBegin request)))
    by (change (BeginStep env request (performAll others s)).2 with (perform env (CallBegin request) (performAll others s));
        by apply inv_extended).
  destruct (BeginStep env request (performAll others s)) as [[current err] s'] eqn:E. cbn in Hext |- *.
  destruct err; [done|]. split; [done|]. destruct Hi as [-> _].
  exists (tr ++ map (fun c => Other c.1 c.2) others), env, s'. split; [apply extended_snoc|].
  by rewrite storeAt_others.
Qed.

Lemma triple_execute request current impl b op live :
  sb_Run b = current -> findRunStep current (bq_StepID request) = Some (sb_Step b) ->
  bq_StepID request = l_StepID (sb_Lease b) -> bq_LeaseID request = l_LeaseID (sb_Lease b) ->
  bq_RunID request = l_RunID (sb_Lease b) -> exactOperation (sb_Plan b) live = Ok op -> s_StepID live = bq_StepID request ->
  triple (began request current) (execute impl b op) (fun _ => inv).
Proof.
  intros Hr Hf H1' H2' H3' Ho Hl. apply triple_bind with (R := fun _ => inv); [|intros; apply triple_ask].
  apply triple_happens. intros s tr [Hi (pre & env & store' & Htr & Hb)]. apply inv_event; [done| |done|done].
  destruct Hi as (_ & Hg & _). apply guarded_execute; [done|]. exists pre, env, request, store', live. rewrite Hr. by split_and!.
Qed.

Lemma kept_executeStep plan current live impl op lease a request :
  bq_StepID request = s_StepID live -> bq_StepID request = l_StepID lease -> bq_LeaseID request = l_LeaseID lease ->
  bq_RunID request = l_RunID lease -> exactOperation plan live = Ok op ->
  triple (began request current) (executeStep plan current live impl op lease a) (fun _ => inv).
Proof.
  intros Hid H1' H2' H3' Ho. unfold executeStep.
  eapply triple_bind; [apply triple_isExpired|]. intros [|].
  { apply after_intent. kept_code. }
  destruct (findRunStep current (s_StepID live)) as [intentStep|] eqn:Hf; [|apply after_intent; kept_code].
  cbv zeta. eapply triple_bind; [apply triple_scheduled|]. intros [cause|].
  { apply after_intent. kept_code. }
  eapply triple_bind with (R := fun _ => inv); [eapply (triple_execute _ _ _ _ _ live);
    [done|cbn; rewrite Hid; exact Hf|done|done|done|done|done]|].
  intros [effect err]. kept_code.
Qed.

Lemma kept_leaseStep plan current live impl op a :
  exactOperation plan live = Ok op -> kept inv (leaseStep plan current live impl op a).
Proof.
  intros Ho. unfold leaseStep. apply kept_bind; [auto with engine|]. intros claimed.
  apply kept_bind; [auto with engine|]. intros [[leaseID nonce]|e]; [|kept_code].
  cbv zeta. apply kept_bind; [auto with engine|]. intros [e|]; [kept_code|].
  apply kept_bind; [auto with engine|]. intros [e|]; [kept_code|].
  eapply triple_bind; [apply triple_beginStep|]. intros [begun [e|]]; [by apply triple_ret|].
  eapply triple_bind; [apply triple_boundary|]. intros [e|].
  { apply after_intent. kept_code. }
  by apply kept_executeStep.
Qed.

Lemma kept_runStep plan a step current : kept inv (runStep plan a step current).
Proof.
  unfold runStep. apply kept_bind; [auto with engine|]. intros [run [e|]]; [kept_code|]. cbv zeta.
  apply kept_bind; [auto with engine|]. intros [|]; [kept_code|].
  destruct (r_CancellationRequested run); [kept_code|]. destruct (findRunStep run (s_StepID step)) as [live|]; [|kept_code].
  destruct (s_Status live == "succeeded"); [kept_code|]. destruct (s_Status live != "queued"); [kept_code|].
  destruct (exactOperation plan live) as [op|e] eqn:Ho; [|kept_code]. destruct (implementationOf plan op); [|kept_code].
  by apply kept_leaseStep.
Qed.
#[local] Hint Resolve kept_runStep : engine.

Lemma kept_runSteps plan a steps current : kept inv (runSteps plan a steps current).
Proof. revert current. induction steps as [|step steps IH]; intros current; cbn; kept_code. Qed.
#[local] Hint Resolve kept_runSteps : engine.

Lemma kept_execution plan current a : kept inv (execution plan current a).
Proof. unfold execution, completeRun. kept_code. Qed.
#[local] Hint Resolve kept_execution : engine.

Lemma kept_start plan current a : kept inv (start plan current a).
Proof. unfold start. kept_code. Qed.
#[local] Hint Resolve kept_start : engine.

Lemma kept_reconcileRuns runs : kept inv (reconcileRuns runs).
Proof. induction runs as [|run runs IH]; cbn [reconcileRuns]; unfold reconcileRun; kept_code. Qed.
#[local] Hint Resolve kept_reconcileRuns : engine.

Lemma kept_history history : kept inv (serveAll history).
Proof.
  apply kept_serveAll; [by apply inv_stable|intros; apply kept_start| |]; unfold Startup, Reconcile; kept_code.
Qed.

(** The trace of a history accounts for its store and guards its effects. *)
Lemma serveAll_inv history :
  let w := (serveAll history (initially s0)).2 in inv (w_store w) (w_trace w).
Proof.
  apply (kept_history history (initially s0)). split_and!; [reflexivity|intros [|? ?] ? ? ? ? E; discriminate E|].
  intros [|? ?] ? ? ? E; discriminate E.
Qed.

End Guarded.

(** ** At most once *)

Section AtMostOnce.
Context `{Hasher} `{RunSchemas} `{HostReplacementContract} `{Surroundings}.
Variable s0 : Store RunTables.

(** The lease identifiers of the engine are fresh: no intent was recorded under
    the key of an intent it is about to record. *)
Definition freshIntents (tr : list Event) : Prop :=
  forall pre env request post, tr = pre ++ Own env (CallBegin request) :: post ->
    intent_keys (st_db (storeAt s0 pre)) !! beginKey request = None.

(** The run of the step is not pruned while the trace lasts. *)
Definition neverPruned (id : string) (tr : list Event) : Prop :=
  forall pre event post, tr = pre ++ event :: post ->
    is_Some (plan_run_steps (tables (st_db (storeAt s0 pre))) !! id) ->
    is_Some (plan_run_steps (tables (st_db (storeAt s0 (pre ++ [event])))) !! id).

Hypothesis s0_wf : tables_wf (tables (st_db s0)).

Lemma storeAt_wf tr : tables_wf (tables (st_db (storeAt s0 tr))).
Proof. by apply performAll_wf. Qed.

(** The row of a step under one event: it keeps its plan, and a step that is not
    idempotent and does not wait never waits again. *)
Definition lives (id : string) (srow : StepRow) (t : RunTables) : Prop :=
  exists srow', plan_run_steps t !! id = Some srow' /\ s_Idempotent (sr_Planned srow') = s_Idempotent (sr_Planned srow)
    /\ (s_Idempotent (sr_Planned srow) = false -> sr_Status srow <> "queued" -> sr_Status srow' <> "queued").

Lemma lives_refl id srow t : plan_run_steps t !! id = Some srow -> lives id srow t.
Proof. intros E. by exists srow. Qed.

Lemma lives_trans id srow t srow1 t1 :
  lives id srow t -> plan_run_steps t !! id = Some srow1 -> lives id srow1 t1 -> lives id srow t1.
Proof.
  intros (x & Ex & Hx1 & Hx2) E (y & Ey & Hy1 & Hy2). assert (x = srow1) as -> by congruence.
  exists y. split; [done|]. split; [congruence|]. intros Hi Hq. apply Hy2; [congruence|auto].
Qed.

Lemma lives_call env call store id srow :
  tables_wf (tables (st_db store)) -> plan_run_steps (tables (st_db store)) !! id = Some srow ->
  is_Some (plan_run_steps (tables (st_db (perform env call store))) !! id) ->
  lives id srow (tables (st_db (perform env call store))).
Proof.
  intros W E [srow' E']. exists srow'. split; [done|].
  destruct (step_back _ _ _ _ _ W (perform_outcome env call store W) E') as [(x & Ex & P & Hm)|(request & s & -> & Hin & _)].
  - assert (x = srow) as -> by congruence. split; [by injection P|]. intros Hi Hq Hq'. destruct Hm as [Hm|Hm]; [congruence|].
    rewrite Hq' in Hm.
    destruct (moves_to_queued (s_Idempotent (sr_Planned srow)) (sr_Status srow, sr_EffectState srow) (sr_EffectState srow'));
      [done|congruence].
  - destruct (perform_step env (CallCreate request) store id srow W eq_refl E) as (x & Ex & P & _ & Hm).
    assert (x = srow') as -> by congruence. split; [by injection P|]. intros Hi Hq Hq'.
    destruct Hm as [Hm|Hm]; [congruence|]. rewrite Hq' in Hm.
    destruct (moves_to_queued (s_Idempotent (sr_Planned srow)) (sr_Status srow, sr_EffectState srow) (sr_EffectState srow'));
      [done|congruence].
Qed.

Lemma lives_later id srow pre mid post :
  neverPruned id ((pre ++ mid) ++ post) -> plan_run_steps (tables (st_db (storeAt s0 pre))) !! id = Some srow ->
  lives id srow (tables (st_db (storeAt s0 (pre ++ mid)))).
Proof.
  intros Hn E. revert post Hn. induction mid as [|event mid IH] using rev_ind; intros post Hn.
  - rewrite app_nil_r. by apply lives_refl.
  - rewrite app_assoc in Hn |- *. rewrite <- app_assoc in Hn. specialize (IH _ Hn). pose proof IH as (x & Ex & _).
    eapply lives_trans; [exact IH|exact Ex|]. pose proof (Hn _ _ _ eq_refl (ex_intro _ _ Ex)) as Hx.
    rewrite storeAt_app in Hx |- *.
    destruct event as [env call|env call| |b' effect answer]; try (by apply lives_refl);
      apply lives_call; try done; apply storeAt_wf.
Qed.

(** Two effects on one step that is not idempotent are one. *)
Lemma executions_ordered tr i j impl b op impl' b' op' :
  guarded s0 tr -> freshIntents tr -> neverPruned (s_StepID (sb_Step b)) tr ->
  tr !! i = Some (Executed impl b op) -> tr !! j = Some (Executed impl' b' op') ->
  s_StepID (sb_Step b') = s_StepID (sb_Step b) -> (i < j)%nat ->
  s_Idempotent (sb_Step b') = s_Idempotent (sb_Step b) /\ s_Idempotent (sb_Step b) = true.
Proof.
  intros Hg Hf Hn Hi Hj Hid Hlt.
  destruct (Hg _ _ _ _ _ (eq_sym (take_drop_middle _ _ _ Hi))) as (pre & env & request & s1 & live & Etr & Eb & Hs & _).
  destruct (Hg _ _ _ _ _ (eq_sym (take_drop_middle _ _ _ Hj))) as (pre' & env' & request' & s1' & live' & Etr' & Eb' & Hs' & _).
  assert (Efull : tr = pre ++ Own env (CallBegin request) :: drop i tr).
  { rewrite <- (take_drop i tr) at 1. rewrite Etr, <- app_assoc. done. }
  assert (Efull' : tr = pre' ++ Own env' (CallBegin request') :: drop j tr).
  { rewrite <- (take_drop j tr) at 1. rewrite Etr', <- app_assoc. done. }
  destruct (begun_step _ _ _ _ _ (storeAt_wf pre) Eb (Hf _ _ _ _ Efull)) as (srow & srow' & Er & Eq & Er' & Eq' & Hplan).
  destruct (begun_step _ _ _ _ _ (storeAt_wf pre') Eb' (Hf _ _ _ _ Efull')) as (trow & trow' & Ft & Fq & _ & _ & Hplan').
  destruct (Hplan _ Hs) as [Hi1 Hi2], (Hplan' _ Hs') as [Hj1 Hj2]. rewrite <- Hi2 in *. rewrite <- Hj2, Hid in *.
  (* the intent of the first effect is in the past of the second *)
  assert (Hs1 : storeAt s0 (take i tr) = s1).
  { rewrite Etr, storeAt_app. change (perform env (CallBegin request) (storeAt s0 pre) = s1). cbn [perform]. by rewrite Eb. }
  assert (Hle : (i <= length pre')%nat).
  { apply (f_equal length) in Etr'. rewrite length_app, length_take in Etr'. cbn in Etr'.
    apply lookup_lt_Some in Hj. lia. }
  assert (Hpre' : pre' = take i tr ++ drop i pre').
  { rewrite <- (take_drop i pre') at 1. f_equal. rewrite Efull'. by rewrite take_app_le. }
  rewrite <- Hs1 in Er'.
  assert (Hl0 : lives (s_StepID (sb_Step b)) srow (tables (st_db (storeAt s0 (take i tr))))).
  { rewrite Etr. apply (lives_later _ _ pre [_] (drop i tr)); [|done]. rewrite <- app_assoc. cbn. by rewrite <- Efull. }
  assert (Hl : lives (s_StepID (sb_Step b)) srow' (tables (st_db (storeAt s0 pre')))).
  { rewrite Hpre'. apply (lives_later _ _ (take i tr) (drop i pre') (Own env' (CallBegin request') :: drop j tr)); [|done].
    rewrite <- Hpre'. by rewrite <- Efull'. }
  destruct Hl0 as (x & Ex & Hx & _). assert (x = srow') as -> by congruence.
  destruct Hl as (y & Ey & Hy & Hwait). assert (y = trow) as -> by congruence.
  assert (Hsame : s_Idempotent (sb_Step b') = s_Idempotent (sb_Step b)) by congruence. split; [done|].
  apply not_false_is_true. intros Hfalse. apply Hwait; [congruence|congruence|done].
Qed.

End AtMostOnce.

(** ** Theorems *)

Section Theorems.
Context `{Hasher} `{RunSchemas} `{HostReplacementContract} `{Surroundings}.

(** C3: whatever the outside does, every effect the engine executes directly
    follows the engine's own successful record of the intent to run that step
    under that lease; the run and the step it hands to the adapter are those the
    repository returned, and the operation is the one the plan gives the step. *)
Theorem effect_follows_its_intent history store :
  let trace := w_trace (serveAll history (initially store)).2 in
  w_store (serveAll history (initially store)).2 = storeAt store trace /\ guarded store trace.
Proof. destruct (serveAll_inv store history) as (Hs & Hg & _). by split. Qed.

(** C1: over any history of submissions, resumptions, cancellations, startups
    and reconciliations, with any failures in between and any calls of other
    clients interleaved, the effect of a step that is not idempotent is executed
    at most once, as long as lease identifiers are fresh and the run of the step
    is not pruned. *)
Theorem effect_executed_at_most_once history store i j impl b op impl' b' op' :
  tables_wf (tables (st_db store)) ->
  let trace := w_trace (serveAll history (initially store)).2 in
  freshIntents store trace -> neverPruned store (s_StepID (sb_Step b)) trace ->
  trace !! i = Some (Executed impl b op) -> trace !! j = Some (Executed impl' b' op') ->
  s_StepID (sb_Step b') = s_StepID (sb_Step b) -> s_Idempotent (sb_Step b) = false -> i = j.
Proof.
  intros W trace Hf Hn Hi Hj Hid Hidem. destruct (serveAll_inv store history) as (_ & Hg & _).
  destruct (Nat.lt_total i j) as [Hlt|[Heq|Hlt]]; [|done|].
  - destruct (executions_ordered store W _ _ _ _ _ _ _ _ _ Hg Hf Hn Hi Hj Hid Hlt) as [_ ?]. congruence.
  - rewrite <- Hid in Hn.
    destruct (executions_ordered store W _ _ _ _ _ _ _ _ _ Hg Hf Hn Hj Hi (eq_sym Hid) Hlt) as [? ?]. congruence.
Qed.

End Theorems.
