(* ===== verification/EngineSuccess.v ===== *)
(** Success of a run: a run is declared successful only when each of its steps
    was executed, verified and recorded as such.

    The argument is of the rely-guarantee kind. The engine relies on the other
    clients of the store to declare no run successful whose steps are not all
    verified, to create runs whose steps have not started and to prune nothing;
    it guarantees the first two itself. *)

From S2P Require Import Prelude GoTime Hash GoJson Contracts AuditLog AuditStore Authorization Adapter ExecutorLease RunRepository RunHistory.
From S2P Require Import RunFacts RunSuccess RunEngine EngineLogic EngineSafety.

Section Success.
Context `{Hasher} `{RunSchemas} `{HostReplacementContract} `{Surroundings}.

(** ** What the engine relies on *)

Definition finishKey (request : StepFinishRequest) : string * string :=
  mutationKey (fq_RunID request) "run.step-finished" (rc_ReceiptID (fq_Receipt request)).

Section Rely.
Variable s0 : Store RunTables.

(** The other clients prune nothing, create runs that have not started and
    declare no run successful too early; a receipt of the engine's is fresh. *)
Definition relies (store : Store RunTables) (event : Event) : Prop :=
  match event with
  | Other _ call => freshCall call = true /\ isPrune call = false /\ honest (tables (st_db store)) call
  | Own _ (CallFinish request) => intent_keys (st_db store) !! finishKey request = None
  | _ => True
  end.

Definition rely (tr : list Event) : Prop :=
  forall pre event post, tr = pre ++ event :: post -> relies (storeAt s0 pre) event.

Lemma rely_snoc tr event : rely (tr ++ [event]) <-> rely tr /\ relies (storeAt s0 tr) event.
Proof.
  split.
  - intros R. split; [|by eapply R]. intros pre e post ->. eapply (R pre e (post ++ [event])). by rewrite <- app_assoc.
  - intros [R He] pre e post E. destruct post as [|x post _] using rev_ind.
    + apply app_inj_tail in E as [-> ->]. done.
    + rewrite app_comm_cons, app_assoc in E. apply app_inj_tail in E as [-> _]. by eapply R.
Qed.

Hypothesis s0_wf : tables_wf (tables (st_db s0)).

Lemma tables_at_wf tr : tables_wf (tables (st_db (storeAt s0 tr))).
Proof. by apply performAll_wf. Qed.

(** Facts about the tables that every call but a prune preserves. *)
Class Lasting (F : RunTables -> Prop) : Prop :=
  lasting : forall env call store, tables_wf (tables (st_db store)) -> isPrune call = false ->
    F (tables (st_db store)) -> F (tables (st_db (perform env call store))).

#[local] Instance lasting_knows id all done : Lasting (knows id all done).
Proof. intros env call store. apply knows_kept. Qed.
#[local] Instance lasting_pure (C : Prop) : Lasting (fun _ => C).
Proof. by intros env call store _ _ HC. Qed.
#[local] Instance lasting_and F G : Lasting F -> Lasting G -> Lasting (fun t => F t /\ G t).
Proof. intros HF HG env call store W Hp [? ?]. split; [by apply HF|by apply HG]. Qed.
#[local] Instance lasting_implies (C : Prop) F : Lasting F -> Lasting (fun t => C -> F t).
Proof. intros HF env call store W Hp Hx HC. by apply HF; auto. Qed.
#[local] Instance lasting_verified id : Lasting (fun t => verifiedStep t id).
Proof.
  intros env call store W Hp. by apply verified_kept.
Qed.
#[local] Instance lasting_all {A} (xs : list A) F : (forall x, Lasting (F x)) -> Lasting (fun t => Forall (fun x => F x t) xs).
Proof. intros HF env call store W Hp Hx. eapply Forall_impl; [exact Hx|]. intros x. by apply HF. Qed.

(** What holds of a world of the engine, provided the others behaved so far. *)
Definition ensures (F : RunTables -> Prop) : Assertion := fun s tr =>
  s = storeAt s0 tr /\ (rely tr -> sound (tables (st_db s)) /\ complete (tables (st_db s)) /\ F (tables (st_db s))).

Lemma ensures_weaken (F G : RunTables -> Prop) s tr : (forall t, F t -> G t) -> ensures F s tr -> ensures G s tr.
Proof. intros HFG [-> HF]. split; [done|]. naive_solver. Qed.

(** The calls of the others before a call of the engine. *)
Lemma ensures_others F `{!Lasting F} s tr others env call : ensures F s tr -> rely (extended tr others env call) ->
  let store := performAll others s in
  sound (tables (st_db store)) /\ complete (tables (st_db store)) /\ F (tables (st_db store))
  /\ tables_wf (tables (st_db store)) /\ relies store (Own env call).
Proof.
  intros [-> HF]. rewrite extended_snoc, rely_snoc, storeAt_others. intros [R Hcall]. cbv zeta.
  enough (sound (tables (st_db (performAll others (storeAt s0 tr)))) /\ complete (tables (st_db (performAll others (storeAt s0 tr))))
    /\ F (tables (st_db (performAll others (storeAt s0 tr)))))
    by (split_and!; naive_solver eauto using performAll_wf, tables_at_wf).
  clear Hcall. revert R. induction others as [|[e c] others IH] using rev_ind.
  - cbn [map]. rewrite app_nil_r. exact HF.
  - rewrite map_app, app_assoc. cbn [map]. rewrite rely_snoc. intros [R (Hc1 & Hc2 & Hc3)]. specialize (IH R) as (S & C & HF').
    rewrite storeAt_others in Hc3. rewrite performAll_app. cbn [performAll foldl]. cbn [fst snd] in *.
    assert (W : tables_wf (tables (st_db (performAll others (storeAt s0 tr))))) by apply performAll_wf, tables_at_wf.
    split_and!; [by apply sound_kept|by apply complete_kept|by apply lasting].
Qed.

(** A call of the engine that is honest about success. *)
Lemma ensures_call F `{!Lasting F} s tr others env call :
  freshCall call = true -> isPrune call = false -> (forall t, F t -> honest t call) ->
  ensures F s tr -> ensures F (perform env call (performAll others s)) (extended tr others env call).
Proof.
  intros Hf Hp Hh HF. split; [destruct HF as [-> _]; by rewrite storeAt_extended|]. intros R.
  destruct (ensures_others F _ _ _ _ _ HF R) as (S & C & HF' & W & _).
  split_and!; [by apply sound_kept|apply complete_kept; auto|by apply lasting].
Qed.

#[local] Instance ensures_stable F `{!Lasting F} : Stable (ensures F).
Proof.
  constructor.
  - intros s tr others env call Hm. unfold modest in Hm. bool_hyps. apply ensures_call; [done..|]. intros t _.
    destruct call; cbn in *; try done. bool_hyps. congruence.
  - intros s tr others env request _. by apply ensures_call.
  - intros s tr b effect answer [-> HF]. split; [rewrite storeAt_app; reflexivity|]. rewrite rely_snoc. intros [R _].
    by apply HF.
Qed.

(** ** What the answers of the repository teach *)

Definition stepIDs (run : Run) : list string := map s_StepID (r_Steps run).
Definition succeededIDs (run : Run) : list string :=
  map s_StepID (filter (fun s => s_Status s = "succeeded") (r_Steps run)).

(** A run as the repository gave it out: its steps are those of the stored run,
    and those that succeeded are verified. *)
Definition recorded (run : Run) : RunTables -> Prop := knows (r_RunID run) (stepIDs run) (succeededIDs run).

Lemma recorded_row t id row run :
  tables_wf t -> sound t -> plan_runs t !! id = Some row -> rr_Document row = run -> r_RunID run = id /\ recorded run t.
Proof.
  intros W S E <-. pose proof (rw_id _ _ _ (tw_runs _ W _ _ E)) as Hid. split; [done|]. unfold recorded. rewrite Hid.
  split; [by exists row|]. apply Forall_map, Forall_forall. intros s [Hs Hin]%list_elem_of_filter. cbn.
  destruct (stored_step _ _ _ _ W E Hin) as (srow & Es & H1' & H2'). exists srow. split_and!; [done|congruence|].
  eapply S; [done|congruence].
Qed.

#[local] Instance lasting_recorded run : Lasting (recorded run).
Proof. apply lasting_knows. Qed.

(** A fact the answer of a call adds to what was known, when the call succeeds. *)
Definition learns (F : RunTables -> Prop) (G : Run -> RunTables -> Prop) (answer : Outcome) : Assertion :=
  match answer with
  | (run, None) => ensures (fun t => F t /\ G run t)
  | (_, Some _) => ensures F
  end.

Lemma triple_learns F `{!Lasting F} call (method : RunEnv -> Store RunTables -> Outcome * Store RunTables) G :
  freshCall call = true -> isPrune call = false -> (forall t, F t -> honest t call) ->
  (forall env store, (method env store).2 = perform env call store) ->
  (forall env store run store', tables_wf (tables (st_db store)) -> relies store (Own env call) ->
     method env store = ((run, None), store') -> tables_wf (tables (st_db store')) -> sound (tables (st_db store')) ->
     G run (tables (st_db store'))) ->
  triple (ensures F) (invoke call method) (learns F G).
Proof.
  intros Hf Hp Hh Hm HG. apply triple_invoke. intros s tr others env HF. cbv zeta.
  pose proof (ensures_call F s tr others env call Hf Hp Hh HF) as HF'. rewrite <- Hm in HF'.
  destruct (method env (performAll others s)) as [[run err] store'] eqn:E. cbn [fst snd] in *.
  destruct err; [exact HF'|]. destruct HF' as [Hs HF']. split; [done|]. intros R.
  destruct (ensures_others F _ _ _ _ _ HF R) as (_ & _ & _ & W & Hr). destruct (HF' R) as (S & C & HF'').
  split_and!; [done..|]. eapply HG; [exact W|exact Hr|exact E| |done].
  replace store' with (perform env call (performAll others s)) by (rewrite <- Hm, E; done). by apply perform_wf.
Qed.

(** The run an answer shows is the run that was asked for. *)
Definition shows (id : string) (run : Run) (t : RunTables) : Prop := r_RunID run = id /\ recorded run t.

Lemma triple_getRun F `{!Lasting F} id : triple (ensures F) (getRun id) (learns F (shows id)).
Proof.
  unfold getRun. apply triple_bind with (R := fun r => learns F (shows id) (ofRun r)); [|intros r; by apply triple_ret].
  intros w Hw. pose proof (triple_learns F (CallGet id) (fun env store => let '(r, s) := Get env id store in (ofRun r, s))
    (shows id)) as T. specialize (T eq_refl eq_refl (fun _ _ => Logic.I)).
  assert (Hget : forall env store, (let '(r, s) := Get env id store in (ofRun r, s)) = (ofRun (Get env id store).1, (Get env id store).2))
    by (intros; by destruct (Get _ _ _)).
  unfold invoke in *. cbn [fst snd]. ospecialize (T _ _ w Hw).
  - intros. by rewrite Hget.
  - intros env store run store' _ _ E W S. rewrite Hget in E. destruct (Get env id store) as [[r|e] s'] eqn:Eg; [|discriminate E].
    cbn in E. injection E as <- <-. apply Get_stored in Eg as (row & Er & Hd). by eapply recorded_row.
  - cbn [fst snd w_store w_trace] in *. by rewrite Hget in T.
Qed.

Lemma triple_transition F `{!Lasting F} request :
  (tq_To request = "succeeded" -> forall t, F t -> allVerified t (tq_RunID request)) ->
  triple (ensures F) (transition request) (learns F (shows (tq_RunID request))).
Proof.
  intros Hh. apply triple_learns; [done..|intros t HF; cbn; auto|done|].
  intros env store run store' W0 _ E W S. apply TransitionRun_stored in E as (row & Er & Hd); [|done]. by eapply recorded_row.
Qed.

Lemma triple_begunStep F `{!Lasting F} request :
  triple (ensures F) (beginStep request) (learns F (shows (bq_RunID request))).
Proof.
  apply triple_learns; [done..|]. intros env store run store' W0 _ E W S.
  apply BeginStep_stored in E as (row & Er & Hd); [|done]. by eapply recorded_row.
Qed.

Lemma triple_recordReceipt F `{!Lasting F} request :
  triple (ensures F) (recordReceipt request) (learns F (shows (xq_RunID request))).
Proof.
  apply triple_learns; [done..|]. intros env store run store' W0 _ E W S.
  apply RecordReceipt_stored in E as (row & Er & Hd); [|done]. by eapply recorded_row.
Qed.

(** A step that the engine finished as succeeded is verified. *)
Lemma triple_finishStep F `{!Lasting F} request :
  triple (ensures F) (finishStep request) (learns F (fun run t => shows (fq_RunID request) run t
    /\ (fq_Status request = "succeeded" -> verifiedStep t (fq_StepID request)))).
Proof.
  apply triple_learns; [done..|]. intros env store run store' W0 Hk E W S. split.
  - apply FinishStep_stored in E as (row & Er & Hd); [|done]. by eapply recorded_row.
  - intros Hs. destruct (FinishStep_fresh _ _ _ _ _ W0 E Hk) as (srow & Es & H1' & H2'). exists srow. split_and!; congruence.
Qed.

(** ** A step

    Most of the paths through a step leave the run: only what a step that
    continues has done matters. *)

Definition leaves {A B} (m : M (A + B)) : Prop := forall w, exists o, (m w).1 = inr o.

Lemma leaves_inr {A B} (o : B) : leaves (A := A) (mret (inr o)).
Proof. intros w. by exists o. Qed.
Lemma leaves_bind {A B C} (m : M C) (f : C -> M (A + B)) : (forall x, leaves (f x)) -> leaves (m ≫= f).
Proof. intros Hf w. unfold mbind, M_bind. destruct (m w) as [x w']. apply Hf. Qed.

Ltac leaves_code := unfold stop, leave; repeat (intros; first [apply leaves_inr|apply leaves_bind
  | match goal with |- leaves (match ?x with _ => _ end) => destruct x end]).

(** What is known after a step: the next ones start from a run of which one more
    step is verified, or all that is left is what holds of every store. *)
Definition after_ (G : Run -> RunTables -> Prop) (next : Next) : Assertion :=
  match next with
  | inl current => ensures (G current)
  | inr _ => ensures (fun _ => True)
  end.

Lemma triple_leaves F `{!Lasting F} G (m : M Next) : kept (ensures F) m -> leaves m -> triple (ensures F) m (after_ G).
Proof.
  intros Hk Hl w Hw. specialize (Hk w Hw). specialize (Hl w). destruct (m w) as [next w']. cbn in *. destruct Hl as [o ->].
  by eapply ensures_weaken; [|exact Hk].
Qed.

Lemma triple_continue F `{!Lasting F} (G : Run -> RunTables -> Prop) current :
  (forall t, F t -> G current t) -> triple (ensures F) (continue current) (after_ G).
Proof. intros HG. apply triple_ret. intros s tr. by apply ensures_weaken. Qed.

(** A path that goes on after a call succeeded. *)
Lemma triple_learned F G (m : M Outcome) (f : Outcome -> M Next) Q :
  triple (ensures F) m (learns F G) ->
  (forall run err, triple (ensures F) (f (run, Some err)) Q) ->
  (forall run, triple (ensures (fun t => F t /\ G run t)) (f (run, None)) Q) ->
  triple (ensures F) (m ≫= f) Q.
Proof. intros Hm He Hn. eapply triple_bind; [exact Hm|]. intros [run [err|]]; [apply He|apply Hn]. Qed.

Ltac leaves_here := first [apply triple_leaves; [apply _|kept_code|leaves_code]].

Section Step.
Variables (id : string) (all done : list string).

(** The step under way: a step of the run of which [done] are verified. *)
Definition underway (current : Run) (t : RunTables) : Prop := knows id all done t /\ r_RunID current = id.
Definition achieved (step : RunStep) (current : Run) (t : RunTables) : Prop :=
  knows id all (s_StepID step :: done) t /\ r_RunID current = id.

Lemma triple_concludeStep F `{!Lasting F} G current lease effect a :
  (forall t, F t -> ef_Status effect = "succeeded" -> G current t) -> ValidateEffect effect = None ->
  triple (ensures F) (concludeStep current lease effect a) (after_ G).
Proof.
  intros HG Hv. apply ValidateEffect_None in Hv as [Hst _]. unfold concludeStep.
  eapply triple_bind; [apply triple_now|]. intros t.
  eapply triple_bind; [apply kept_releaseTargetLease; apply _|]. intros [e|]; [leaves_here|].
  eapply triple_bind; [apply triple_boundary|]. intros [e|]; [leaves_here|].
  destruct (decide (ef_Status effect = "failed")) as [E1|E1];
    [rewrite (bool_decide_eq_true_2 _ E1)|rewrite (bool_decide_eq_false_2 _ E1)]; [leaves_here|].
  destruct (decide (ef_Status effect = "partial")) as [E2|E2];
    [rewrite (bool_decide_eq_true_2 _ E2)|rewrite (bool_decide_eq_false_2 _ E2)]; [leaves_here|].
  apply triple_continue; [done|]. intros t' HF. apply HG; [done|].
  rewrite !elem_of_cons, elem_of_nil in Hst. naive_solver.
Qed.

Lemma triple_verifyStep current live step impl b op effect a :
  s_StepID live = s_StepID step -> ValidateEffect effect = None ->
  triple (ensures (underway current)) (verifyStep current live impl b op effect a) (after_ (achieved step)).
Proof.
  intros Hid Hv. unfold verifyStep. cbv zeta. eapply triple_bind; [apply triple_now|]. intros recorded_.
  eapply triple_learned; [apply triple_recordReceipt; apply _|intros; leaves_here|]. intros run1. cbn [xq_RunID].
  eapply triple_bind; [apply triple_boundary|]. intros [e|]; [leaves_here|].
  eapply triple_bind; [apply kept_verify; apply _|]. intros [verification verifyErr].
  eapply triple_bind; [apply triple_isExpired|]. intros [|]; [leaves_here|].
  destruct (_ || _); [leaves_here|]. eapply triple_bind; [apply triple_now|]. intros t.
  eapply triple_learned; [apply triple_finishStep; apply _|intros; leaves_here|]. intros run2. cbn [fq_RunID fq_Status fq_StepID].
  apply triple_concludeStep; [apply _| |done]. intros t' (((Hk & Hrun) & Hrun1 & _) & (Hrun2 & _) & Hver) Hs.
  split; [|congruence]. rewrite <- Hid. destruct Hk as [Hrow Hd]. split; [done|]. constructor; [by apply Hver|done].
Qed.

Lemma triple_executeStep plan current live step impl op lease a : s_StepID live = s_StepID step ->
  triple (ensures (underway current)) (executeStep plan current live impl op lease a) (after_ (achieved step)).
Proof.
  intros Hid. unfold executeStep. cbv zeta. eapply triple_bind; [apply triple_isExpired|]. intros [|]; [leaves_here|].
  destruct (findRunStep current (s_StepID live)) as [intentStep|]; [|leaves_here].
  eapply triple_bind; [apply triple_scheduled|]. intros [cause|]; [leaves_here|].
  eapply triple_bind with (R := fun _ => ensures (underway current)).
  { unfold execute. eapply triple_bind with (R := fun _ => ensures (underway current)); [|intros; apply triple_ask].
    apply triple_happens. intros s tr [-> HF]. split; [rewrite storeAt_app; reflexivity|].
    rewrite rely_snoc. intros [R _]. by apply HF. }
  intros [effect executeErr]. eapply triple_bind; [apply triple_boundary|]. intros [e|]; [leaves_here|].
  eapply triple_bind; [apply triple_isExpired|]. intros [|]; [destruct (ef_EffectObserved effect); leaves_here|].
  destruct (ValidateEffect effect) as [e|] eqn:Hv; rewrite ?orb_true_r; [leaves_here|].
  destruct (_ || _); [leaves_here|by apply triple_verifyStep].
Qed.

Lemma triple_leaseStep plan current live step impl op a : s_StepID live = s_StepID step ->
  triple (ensures (underway current)) (leaseStep plan current live impl op a) (after_ (achieved step)).
Proof.
  intros Hid. unfold leaseStep. eapply triple_bind; [apply triple_now|]. intros claimed.
  eapply triple_bind; [apply triple_ask|]. intros [[leaseID nonce]|e]; [|leaves_here]. cbv zeta.
  eapply triple_bind; [apply kept_acquireLease; apply _|]. intros [e|]; [leaves_here|].
  eapply triple_bind; [apply triple_boundary|]. intros [e|]; [leaves_here|].
  eapply triple_learned; [apply triple_begunStep; apply _|intros; leaves_here|]. intros begun. cbn [bq_RunID].
  eapply triple_bind; [apply triple_boundary|]. intros [e|]; [leaves_here|].
  eapply triple_weaken; [by apply triple_executeStep| |done]. intros s tr. apply ensures_weaken.
  intros t [[Hk Hrun] [Hb _]]. split; [done|congruence].
Qed.

Lemma triple_runStep plan a step current : s_StepID step ∈ all ->
  triple (ensures (underway current)) (runStep plan a step current) (after_ (achieved step)).
Proof.
  intros Hin. unfold runStep. eapply triple_learned; [apply triple_getRun; apply _|intros; leaves_here|]. intros run. cbv zeta.
  eapply triple_bind; [apply triple_ask|]. intros [|]; [leaves_here|]. destruct (r_CancellationRequested run); [leaves_here|].
  destruct (findRunStep run (s_StepID step)) as [live|] eqn:Hlive.
  - apply find_some in Hlive as [Hlive Hid]. bool_hyps.
    destruct (decide (s_Status live = "succeeded")) as [Hs|Hs];
      [rewrite (bool_decide_eq_true_2 _ Hs)|rewrite (bool_decide_eq_false_2 _ Hs)].
    + apply triple_continue; [apply _|]. intros t [[Hk Hrun] [Hrun' [_ Hd]]]. split; [|congruence].
      destruct Hk as [Hrow Hdone]. split; [done|]. constructor; [|done]. rewrite Forall_forall in Hd. apply Hd.
      match goal with E : s_StepID live = _ |- _ => rewrite <- E end.
      apply list_elem_of_fmap_2, list_elem_of_filter. split; [done|by apply list_elem_of_In].
    + destruct (_ != _); [leaves_here|]. destruct (exactOperation plan live) as [op|e]; [|leaves_here].
      destruct (implementationOf plan op); [|leaves_here]. eapply triple_weaken; [by apply triple_leaseStep| |done].
      intros s tr. apply ensures_weaken. intros t [[Hk Hrun] [Hrun' _]]. split; [done|congruence].
  - apply triple_continue; [apply _|]. intros t [[Hk Hrun] [Hrun' Hk']]. exfalso.
    destruct Hk as [(row & Er & Hids) _], Hk' as [(row' & Er' & Hids') _].
    rewrite Hrun', Hrun in Er'. assert (row' = row) as -> by congruence.
    rewrite <- Hids, Hids' in Hin. apply list_elem_of_fmap in Hin as (live & Hid & Hmem).
    pose proof (find_none _ _ Hlive live ltac:(by apply list_elem_of_In)) as Hn. cbn beta in Hn. bool_hyps. congruence.
Qed.
End Step.

(** ** A run, and the engine *)

Definition J : Assertion := ensures (fun _ => True).

Lemma ensures_J F s tr : ensures F s tr -> J s tr.
Proof. by apply ensures_weaken. Qed.

Lemma learns_J F G answer s tr : learns F G answer s tr -> J s tr.
Proof. destruct answer as [run [err|]]; apply ensures_J. Qed.

Lemma triple_runSteps plan a id all done steps current : Forall (fun step => s_StepID step ∈ all) steps ->
  triple (ensures (underway id all done current)) (runSteps plan a steps current)
    (after_ (underway id all (rev (map s_StepID steps) ++ done))).
Proof.
  intros Hsub. revert done current. induction Hsub as [|step steps Hin Hsub IH]; intros done current; cbn [runSteps map rev].
  - apply triple_ret. done.
  - eapply triple_bind; [by apply triple_runStep|]. intros [current'|r]; [|by apply triple_ret].
    rewrite <- app_assoc. apply IH.
Qed.

(** A run of which all steps are verified may succeed. *)
Lemma triple_completeRun id all done current a : (forall x, x ∈ all -> x ∈ done) ->
  triple (ensures (underway id all done current)) (completeRun current a) (fun _ => J).
Proof.
  intros Hsub. unfold completeRun. eapply triple_bind; [apply triple_now|]. intros t.
  eapply triple_bind; [apply triple_transition; [apply _|]|].
  - intros _ t' [Hk Hid]. cbn. rewrite Hid. by eapply knows_allVerified.
  - intros [run [e|]]; [apply triple_ret; intros s tr; apply learns_J|].
    eapply triple_bind; [apply triple_boundary|]. intros err. apply triple_ret. intros s tr. apply learns_J.
Qed.

Lemma triple_execution plan current a :
  triple (ensures (recorded current)) (execution plan current a) (fun _ => J).
Proof.
  unfold execution. eapply triple_bind; [apply triple_boundary|]. intros [e|]; [apply triple_ret; intros s tr; apply ensures_J|].
  eapply triple_bind.
  - eapply triple_weaken; [apply (triple_runSteps _ _ (r_RunID current) (stepIDs current) [] (r_Steps current))| |done].
    + apply Forall_forall. intros step Hin. by apply list_elem_of_fmap_2.
    + intros s tr. apply ensures_weaken. intros t [Hrow _]. split; [|done]. by split.
  - intros [current'|r]; [|by apply triple_ret]. cbn [after_]. apply triple_completeRun. intros x Hx.
    rewrite app_nil_r. apply list_elem_of_In. rewrite <- in_rev. by apply list_elem_of_In.
Qed.

Lemma kept_started plan request a :
  (tq_To request != "succeeded") = true ->
  kept J ('(current, err) ← transition request;
          match err with Some _ => return_ current err | None => execution plan current a end).
Proof.
  intros Hto. eapply triple_bind; [apply triple_transition; [apply _|]|].
  - intros Hs. rewrite Hs in Hto. discriminate Hto.
  - intros [run [e|]]; [apply triple_ret; intros s tr; apply learns_J|].
    eapply triple_weaken; [apply triple_execution| |done]. intros s tr. apply ensures_weaken. by intros t [_ [_ ?]].
Qed.

Lemma start_honest plan current a :
  r_Status current = "queued" \/ r_Status current = "interrupted" -> kept J (start plan current a).
Proof.
  intros Hst. unfold start. apply kept_bind; [apply triple_now|]. intros t.
  destruct Hst as [->| ->]; cbn.
  - apply kept_bind; [auto with engine|]. intros [run [e|]]; [kept_code|]. destruct (terminal _); [kept_code|].
    destruct (r_CancellationRequested run); [kept_code|]. by apply kept_started.
  - by apply kept_started.
Qed.

(** Reconciliation declares a run successful whose document says that all of its
    steps are verified. *)
Lemma inspectStep_all f step : fi_allSucceeded (inspectStep f step).1 = true ->
  fi_allSucceeded f = true /\ s_Status step = "succeeded".
Proof.
  assert (E : fi_allSucceeded (inspectStep f step).1
              = fi_allSucceeded f && negb ((s_Status step != "succeeded") || (s_EffectState step != "verified")))
    by (unfold inspectStep; cbv zeta; by repeat (split_match; try done)).
  rewrite E. intros Ha. by bool_hyps.
Qed.

Lemma triple_inspectSteps F `{!Lasting F} id t steps f :
  triple (ensures F) (inspectSteps id t steps f) (fun r s tr => ensures F s tr /\
    forall f', r = Ok f' -> fi_allSucceeded f' = true ->
      fi_allSucceeded f = true /\ Forall (fun step => s_Status step = "succeeded") steps).
Proof.
  revert f. induction steps as [|step steps IH]; intros f; cbn [inspectSteps].
  { apply triple_ret. intros s tr HF. split; [done|]. intros f' E. by injection E as ->. }
  pose proof (inspectStep_all f step) as Ha. destruct (inspectStep f step) as [f1 mark]. cbn [fst] in Ha.
  assert (Hrest : triple (ensures F) (inspectSteps id t steps f1) (fun r s tr => ensures F s tr /\
    forall f', r = Ok f' -> fi_allSucceeded f' = true ->
      fi_allSucceeded f = true /\ Forall (fun step => s_Status step = "succeeded") (step :: steps))).
  { eapply triple_weaken; [apply IH|done|]. intros r s tr [HF Hr]. split; [done|]. intros f' -> Hall.
    destruct (Hr _ eq_refl Hall) as [H1' Hs]. destruct (Ha H1'). split; [done|]. by constructor. }
  destruct mark; [|exact Hrest]. eapply triple_bind; [apply kept_markStepUnknown; apply _|].
  intros [run [e|]]; [|exact Hrest]. by apply triple_ret.
Qed.

Lemma kept_reconcileRun F `{!Lasting F} run :
  (forall t, F t -> recorded run t) -> kept (ensures F) (reconcileRun run).
Proof.
  intros HF. unfold reconcileRun. apply kept_bind; [apply triple_now|]. intros t.
  apply kept_bind; [apply kept_releaseRunLeases; apply _|]. intros [e|]; [kept_code|].
  destruct (_ || _); [kept_code|]. eapply triple_bind; [apply triple_inspectSteps; apply _|].
  intros [f|e]; [|apply triple_ret; by intros s tr [? _]].
  set (all := fi_allSucceeded f = true -> Forall (fun step => s_Status step = "succeeded") (r_Steps run)).
  apply triple_weaken with (P' := fun s tr => all /\ ensures F s tr) (Q' := fun _ => ensures F);
    [|intros s tr [? Hr]; split; [intros Hall; by destruct (Hr _ eq_refl Hall)|done]|done].
  apply triple_pure. intros Hall. eapply triple_bind.
  - apply triple_transition; [apply _|]. unfold settle. destruct (fi_ambiguous f); [discriminate|].
    destruct (fi_failed f); [discriminate|]. destruct (fi_allSucceeded f) eqn:Ef; [|discriminate].
    intros _ t' Ht. cbn. apply HF in Ht. eapply knows_allVerified; [exact Ht|]. intros x Hx. unfold succeededIDs.
    specialize (Hall eq_refl). replace (filter _ _) with (r_Steps run); [done|]. clear -Hall.
    induction Hall as [|step steps Hs _ IH]; [done|]. rewrite filter_cons_True by done. by f_equal.
  - intros [ended err]. apply triple_ret. intros s tr. destruct err; [done|]. apply ensures_weaken. by intros ? [? _].
Qed.

Lemma triple_reconciled runs :
  triple (ensures (fun t => Forall (fun run => recorded run t) runs)) (reconcileRuns runs) (fun _ => J).
Proof.
  induction runs as [|run runs IH]; cbn [reconcileRuns].
  { apply triple_ret. intros s tr. apply ensures_J. }
  eapply triple_bind; [apply kept_reconcileRun; [apply _|]|].
  - intros t Ht. by apply Forall_cons in Ht as [? _].
  - intros [e|]; [apply triple_ret; intros s tr; apply ensures_J|]. eapply triple_weaken; [exact IH| |done].
    intros s tr. apply ensures_weaken. intros t Ht. by apply Forall_cons in Ht as [_ ?].
Qed.

Lemma kept_Reconcile : kept J Reconcile.
Proof.
  unfold Reconcile. apply triple_bind with (R := fun r => match r with
    | Ok runs => ensures (fun t => Forall (fun run => recorded run t) runs) | Err _ => J end).
  - apply triple_invoke. intros s tr others env HJ. cbv zeta.
    pose proof (ensures_call (fun _ => True) s tr others env CallActive eq_refl eq_refl (fun _ _ => Logic.I) HJ) as HJ'.
    cbn [perform] in HJ'. destruct (ActiveRuns env (performAll others s)) as [[runs|e] store'] eqn:E; [|exact HJ'].
    cbn [fst snd] in *. destruct HJ' as [Hs HJ']. split; [done|]. intros R.
    destruct (ensures_others _ _ _ _ _ _ HJ R) as (_ & _ & _ & W & _). destruct (HJ' R) as (S & C & _).
    split_and!; [done..|]. eapply Forall_impl; [exact (ActiveRuns_stored _ _ _ _ W E)|]. intros run (row & Er & Hd).
    eapply recorded_row; [|done|exact Er|exact Hd]. pose proof (keeps_ActiveRuns _ _ _ _ E) as Hdb. by rewrite Hdb.
  - intros [runs|e]; [apply triple_reconciled|by apply triple_ret].
Qed.

(** Pruning is honest too. *)
Lemma kept_Startup : kept J Startup.
Proof.
  unfold Startup. apply kept_bind; [apply triple_now|]. intros t. apply kept_bind.
  - apply triple_invoke. intros s tr others env HJ. cbv zeta.
    change (PruneRunHistory env t (performAll others s)).2 with (perform env (CallPrune t) (performAll others s)).
    split; [destruct HJ as [-> _]; by rewrite storeAt_extended|]. intros R.
    destruct (ensures_others _ _ _ _ _ _ HJ R) as (S & C & _ & W & _).
    split_and!; [by apply sound_kept|by apply complete_kept|done].
  - intros [r|e]; [apply kept_Reconcile|by apply triple_ret].
Qed.

Lemma history_honest history : kept J (serveAll history).
Proof.
  unfold J. apply kept_serveAll; [apply _|apply start_honest|apply kept_Startup|apply kept_Reconcile].
Qed.

End Rely.

(** C2: a run is only declared successful when each of its steps succeeded and
    its effect was verified. Through any history of the engine, whatever fails on
    the way, the engine finishes a step only right after its own verification of
    the effect returned, without an error, a well-formed verdict that accepts the
    effect, and it finishes it under the lease, with the receipt, the status and
    the digest of exactly that verification. And when the history starts from
    well-formed tables in which every success is already earned, and the other
    clients of the store prune nothing, create only runs that have not started and
    declare no run successful too early, and the receipts of the engine are fresh,
    then at its end every step of every successful run is verified in the store. *)
Theorem succeeded_run_is_verified history store :
  let world := (serveAll history (initially store)).2 in
  endorsed (w_trace world)
  /\ (tables_wf (tables (st_db store)) -> sound (tables (st_db store)) -> complete (tables (st_db store)) ->
      rely store (w_trace world) ->
      let t := tables (st_db (w_store world)) in
      forall id row step, plan_runs t !! id = Some row -> rr_Status row = "succeeded" ->
        step ∈ r_Steps (rr_Document row) -> verifiedStep t (s_StepID step)).
Proof.
  intros world. split; [apply (serveAll_inv store)|].
  intros W S C R t id row step E Hs Hin.
  destruct (history_honest store W history (initially store)) as [_ HJ]; [by split|].
  destruct (HJ R) as (_ & C' & _). by eapply (C' id row E Hs).
Qed.

End Success.
