(* ===== verification/EngineWitnesses.v ===== *)
(** The engine at work on a plan of one step: the histories at which the theorems
    about the engine are applied, and what they show of its operations. *)

From S2P Require Import Prelude GoTime Hash GoJson Contracts AuditLog AuditStore Authorization Adapter ExecutorLease RunRepository RunHistory.
From S2P Require Import RunFacts RunSuccess RunEngine EngineLogic EngineSafety EngineSuccess.

(** ** Checking a trace of the engine event by event *)

Section Along.
Context `{Hasher} `{RunSchemas}.

Definition storesAlong (f : Store RunTables -> Event -> bool) : Store RunTables -> list Event -> bool :=
  along (fun store event => storeAt store [event]) f.

Lemma storesAlong_spec f store tr : storesAlong f store tr = true ->
  forall pre event post, tr = pre ++ event :: post -> f (storeAt store pre) event = true.
Proof.
  intros Hc pre event post E. pose proof (along_spec _ _ _ _ Hc _ _ _ E) as Hf. revert Hf.
  assert (Hs : fold_left (fun store event => storeAt store [event]) pre store = storeAt store pre); [|by rewrite Hs].
  clear. revert store. induction pre as [|x pre IH]; intros store; [done|]. cbn [fold_left]. rewrite IH. symmetry.
  exact (storeAt_app store [x] pre).
Qed.

Definition prunes (event : Event) : bool :=
  match event with Own _ call | Other _ call => isPrune call | _ => false end.

(** What the theorems ask of a trace, for a store and the event it meets. *)
Definition freshAt (store : Store RunTables) (event : Event) : bool :=
  match event with
  | Own _ (CallBegin request) => isNil (intent_keys (st_db store) !! beginKey request)
  | _ => true
  end.

Definition reliesAt (store : Store RunTables) (event : Event) : bool :=
  match event with
  | Other _ call => freshCall call && negb (isPrune call) && match call with CallTransition _ => false | _ => true end
  | Own _ (CallFinish request) => isNil (intent_keys (st_db store) !! finishKey request)
  | _ => true
  end.

Lemma along_fresh store tr : storesAlong freshAt store tr = true -> freshIntents store tr.
Proof.
  intros Hc pre env request post E. apply isNil_None. exact (storesAlong_spec _ _ _ Hc pre _ post E).
Qed.

Lemma along_rely store tr : storesAlong reliesAt store tr = true -> rely store tr.
Proof.
  intros Hc pre event post E. pose proof (storesAlong_spec _ _ _ Hc pre _ post E) as Ha.
  destruct event as [env call|env call| |?b ?effect ?answer]; cbn in Ha |- *; try done.
  - destruct call; try done. by apply isNil_None.
  - bool_hyps. split_and!; [done..|]. by destruct call.
Qed.

Lemma along_kept store tr id : tables_wf (tables (st_db store)) -> forallb (fun event => negb (prunes event)) tr = true ->
  neverPruned store id tr.
Proof.
  intros W Hn pre event post -> [srow E]. rewrite forallb_app in Hn. apply andb_true_iff in Hn as [_ Hn]. cbn in Hn.
  apply andb_true_iff in Hn as [Hn _]. apply negb_true_iff in Hn. rewrite storeAt_app.
  pose proof (storeAt_wf store W pre) as W'.
  destruct event as [env call|env call| |?b ?effect ?answer]; cbn in Hn |- *; try (by eauto);
    destruct (perform_step env call (storeAt store pre) id srow W' Hn E) as (x & Ex & _); eauto.
Qed.

End Along.

(** ** One plan, one step *)

Section Sample.
#[local] Existing Instance sampleHasher.
#[local] Existing Instance sampleSchemas.

#[local] Instance sampleContract : HostReplacementContract :=
  {| ValidateInput _ := true; ValidateAliasClaim _ := true |}.

Definition sampleEffect : Effect := mkEffect "succeeded" (sampleDigest "result") None true true.

(** A clock that advances by a second with every look at it, a plan source that
    knows one plan, and an adapter that succeeds. Another client reads a run
    before every call of the engine. *)
Definition sampleSurroundings : Surroundings := {|
  su_clock n := later (Z.of_nat n);
  su_repository _ := sampleEnv;
  su_others _ := [(sampleEnv, CallGet "run-1")];
  su_done _ := false;
  su_plan _ id := if id == "plan-1" then Ok samplePlan else Err (Coded ResourceNotFound "plan");
  su_current _ _ := None;
  su_managed _ _ := None;
  su_verify _ _ _ _ := None;
  su_activate _ _ _ _ _ := None;
  su_verifyRun _ _ _ := None;
  su_scheduled := None;
  su_resolve id := if id == "core.backup" then None else Some (Coded ResourceNotFound "adapter");
  su_lease n _ := Ok ("lease-" +:+ pretty (Z.of_nat n), sampleDigest "nonce");
  su_execute _ _ _ _ := (sampleEffect, None);
  su_check _ _ _ _ _ := (mkVerification true (sampleDigest "verification"), None);
  su_boundary _ := None;
  su_core := false;
  su_retention := false;
  su_credential := false;
  su_reference _ := true;
  su_decision _ := true;
  su_runReference _ := true
|}.

Definition sampleDecision : AuthorizationDecision :=
  mkAuthorizationDecision "decision-1" "alice" "execute" "host-1" true (Some "preauthorized") "allowed" 1 0
    (sampleDigest "plan") "2026-09-16T01:10:00Z".

Definition sampleSubmit : SubmitRequest :=
  mkSubmitRequest (mkPlanReference "plan-1" (sampleDigest "plan") 0 "key-1" []) sampleDecision None sampleActor.

(** The plan is submitted twice; the second submission answers the first one's run. *)
Definition sampleHistory : list EngineCall := [DoSubmit sampleSubmit; DoSubmit sampleSubmit; DoReconcile].

#[local] Existing Instance sampleSurroundings.

Definition sampleEnd : World := (serveAll sampleHistory (initially sampleStart)).2.
Definition sampleID : string := runID "plan-1" "key-1".

Notation sampleTrace := (w_trace (serveAll sampleHistory (initially sampleStart)).2).
Notation sampleStore := (w_store (serveAll sampleHistory (initially sampleStart)).2).

(** What the trace of the history satisfies. *)
Lemma sample_along :
  storesAlong (fun store event => freshAt store event && reliesAt store event) sampleStart sampleTrace = true.
Proof. vm_compute. reflexivity. Qed.
Lemma sample_unpruned : forallb (fun event => negb (prunes event)) sampleTrace = true.
Proof. vm_compute. reflexivity. Qed.
Lemma sample_effect : existsb (fun event => match event with Executed _ b _ => negb (s_Idempotent (sb_Step b)) | _ => false end)
  sampleTrace = true.
Proof. vm_compute. reflexivity. Qed.

Lemma sample_fresh : freshIntents sampleStart sampleTrace.
Proof. exact (along_fresh _ _ (proj1 (along_and _ _ _ _ _ sample_along))). Qed.
Lemma sample_rely : rely sampleStart sampleTrace.
Proof. exact (along_rely _ _ (proj2 (along_and _ _ _ _ _ sample_along))). Qed.
Lemma sample_kept id : neverPruned sampleStart id sampleTrace.
Proof. exact (along_kept sampleStart _ id sampleTables_wf sample_unpruned). Qed.

(** The effect of the step, which is not idempotent, is in the trace. *)
Lemma sample_executed : exists i impl b op,
  sampleTrace !! i = Some (Executed impl b op) /\ s_Idempotent (sb_Step b) = false.
Proof.
  pose proof sample_effect as Hx. apply existsb_exists in Hx as (e & Hin & He).
  apply list_elem_of_In, list_elem_of_lookup in Hin as [i Hi]. destruct e as [| |impl b op|]; try discriminate He.
  exists i, impl, b, op. split; [exact Hi|]. by apply negb_true_iff in He.
Qed.

Lemma sample_success :
  (fun row => (rr_Status row, map s_StepID (r_Steps (rr_Document row)))) <$> plan_runs (tables (st_db sampleStore)) !! sampleID
  = Some ("succeeded", [stepID sampleID 1]).
Proof. vm_compute. reflexivity. Qed.

Lemma effect_executed_at_most_once_witness : exists i impl b op,
  sampleTrace !! i = Some (Executed impl b op)
  /\ forall j impl' b' op', sampleTrace !! j = Some (Executed impl' b' op') ->
       s_StepID (sb_Step b') = s_StepID (sb_Step b) -> i = j.
Proof.
  destruct sample_executed as (i & impl & b & op & Hi & Hidem). exists i, impl, b, op. split; [exact Hi|].
  intros j impl' b' op' Hj Hid.
  exact (effect_executed_at_most_once sampleHistory sampleStart i j impl b op impl' b' op' sampleTables_wf sample_fresh
    (sample_kept _) Hi Hj Hid Hidem).
Defined.

Lemma succeeded_run_is_verified_witness : verifiedStep (tables (st_db sampleStore)) (stepID sampleID 1).
Proof.
  destruct (row_found _ _ _ sample_success) as (row & E & Hv). apply pair_eq in Hv as [Hs Hids].
  assert (Hin : stepID sampleID 1 ∈ map s_StepID (r_Steps (rr_Document row))) by (rewrite Hids; apply elem_of_cons; by left).
  apply list_elem_of_fmap in Hin as (step & Hid & Hin). rewrite Hid.
  refine (proj2 (succeeded_run_is_verified sampleHistory sampleStart) sampleTables_wf _ _ sample_rely sampleID row step E Hs Hin).
  - intros id srow Es. discriminate Es.
  - intros id row' Er. discriminate Er.
Defined.
End Sample.
