(* ===== verification/EngineStartup.v ===== *)
(** Startup of the engine: what reconciliation makes of the runs a stopped
    process left behind, and when it is not reached at all. *)

From S2P Require Import Prelude GoTime Hash GoJson Contracts AuditLog AuditStore Authorization Adapter ExecutorLease RunRepository RunHistory.
From S2P Require Import RunFacts RunEngine EngineLogic EngineWitnesses.

(** ** Retention comes first *)

Section Retention.
Context `{Hasher} `{RunSchemas} `{HostReplacementContract} `{Surroundings}.

(** The summary of a run is past its retention at startup. *)
Definition pastRetention (at_ : Time) (row : RunRow) : bool :=
  staleRun (FormatRFC3339 (Add at_ (- runSummaryRetention))) row.

(** Startup prunes before it reconciles, so one run past the retention that
    another component still refers to keeps every startup from reconciling: the
    error of the pruning is returned and nothing in the store changes, not even
    for the runs the previous process left running. *)
Theorem startup_blocked_by_retention world id row clock :
  let t1 := TruncateSecond (UTC (su_clock (w_tick world))) in
  let t := tables (st_db (w_store world)) in
  ready (w_store world) -> validAt t1 = true ->
  su_others (S (w_tick world)) = [] -> su_repository (S (w_tick world)) = quietRunEnv clock ->
  plan_runs t !! id = Some row -> pastRetention t1 row = true ->
  id ∈ run_references t ->
  Startup world = (Some (Coded StateConflict "database"),
    mkWorld (w_store world) (S (S (w_tick world))) (w_trace world ++ [Own (quietRunEnv clock) (CallPrune t1)])).
Proof.
  intros t1 t Hr Hv Ho He Hrow Hs Hin. unfold Startup, now, RunEngine.clock, ask, pruneRunHistory, invoke, mbind, M_bind, mret, M_ret.
  cbn [w_tick w_store w_trace fst snd]. rewrite Ho, He. cbn [map app performAll fold_left]. fold t1.
  by rewrite (prune_referenced clock t1 (w_store world) id row Hr Hv Hrow Hs Hin).
Qed.

End Retention.

(** ** Reconciliation *)

Section Settled.
Context `{Hasher} `{RunSchemas} `{HostReplacementContract} `{Surroundings}.
Variable s0 : Store RunTables.

Definition transitionKey (request : RunTransitionRequest) : string * string :=
  mutationKey (tq_RunID request) "run.transitioned"
    (Join ":" [tq_From request; tq_To request; FormatRFC3339Nano (tq_At request)]).

(** The other clients move no run, and the engine's own transitions are not
    taken for replays of earlier ones. *)
Definition calmAt (store : Store RunTables) (event : Event) : Prop :=
  match event with
  | Own _ (CallTransition request) => intent_keys (st_db store) !! transitionKey request = None
  | Other _ (CallTransition _) => False
  | _ => True
  end.

Definition calm (tr : list Event) : Prop :=
  forall pre event post, tr = pre ++ event :: post -> calmAt (storeAt s0 pre) event.

Lemma calm_snoc tr event : calm (tr ++ [event]) <-> calm tr /\ calmAt (storeAt s0 tr) event.
Proof.
  split.
  - intros R. split; [|by eapply R]. intros pre e post ->. eapply (R pre e (post ++ [event])). by rewrite <- app_assoc.
  - intros [R He] pre e post E. destruct post as [|x post _] using rev_ind.
    + apply app_inj_tail in E as [-> ->]. done.
    + rewrite app_comm_cons, app_assoc in E. apply app_inj_tail in E as [-> _]. by eapply R.
Qed.

Hypothesis s0_wf : tables_wf (tables (st_db s0)).

(** The runs that run are among those given. *)
Definition onlyRunning (ids : list string) (t : RunTables) : Prop :=
  forall id row, plan_runs t !! id = Some row -> rr_Status row = "running" -> id ∈ ids.

Definition running (ids : list string) : Assertion := fun s tr =>
  s = storeAt s0 tr /\ (calm tr -> onlyRunning ids (tables (st_db s))).

Lemma running_weaken ids ids' s tr : (forall id, id ∈ ids -> id ∈ ids') -> running ids s tr -> running ids' s tr.
Proof. intros Hsub [-> Hr]. split; [done|]. intros C id row E Hs. by eapply Hsub, Hr. Qed.

Lemma onlyRunning_call env call store ids :
  tables_wf (tables (st_db store)) -> (forall request, call <> CallTransition request) ->
  onlyRunning ids (tables (st_db store)) -> onlyRunning ids (tables (st_db (perform env call store))).
Proof.
  intros W Hn Ho id row' E Hs. destruct (run_back call _ _ _ _ W (perform_outcome env call store W) E) as [(row & Er & _ & Hst)|(request & -> & -> & Ha)].
  - destruct Hst as [Hst|(request & -> & _)]; [|by destruct (Hn request)]. apply (Ho _ _ Er). congruence.
  - exfalso. cbn in Ha, Hs. bool_hyps. congruence.
Qed.

Lemma at_wf tr : tables_wf (tables (st_db (storeAt s0 tr))).
Proof. by apply performAll_wf. Qed.

Lemma running_others ids s tr others env call : running ids s tr -> calm (extended tr others env call) ->
  tables_wf (tables (st_db (performAll others s))) /\ onlyRunning ids (tables (st_db (performAll others s)))
  /\ calmAt (performAll others s) (Own env call).
Proof.
  intros [-> Hr]. rewrite extended_snoc, calm_snoc, storeAt_others. intros [R Hc].
  split; [apply performAll_wf, at_wf|]. split; [|done]. clear Hc. revert R.
  induction others as [|[e c] others IH] using rev_ind.
  - cbn [map]. rewrite app_nil_r. exact Hr.
  - rewrite map_app, app_assoc. cbn [map]. rewrite calm_snoc. intros [R Hc]. rewrite performAll_app.
    apply (onlyRunning_call e c); [apply performAll_wf, at_wf|intros request ->; exact Hc|by apply IH].
Qed.

Lemma triple_running {A} ids call (method : RunEnv -> Store RunTables -> A * Store RunTables) :
  (forall request, call <> CallTransition request) -> (forall env s, (method env s).2 = perform env call s) ->
  triple (running ids) (invoke call method) (fun _ => running ids).
Proof.
  intros Hn Hm. apply triple_invoke. intros s tr others env Hr. cbv zeta. rewrite Hm.
  split; [destruct Hr as [-> _]; by rewrite storeAt_extended|]. intros C.
  destruct (running_others _ _ _ _ _ _ Hr C) as (W & Ho & _). by apply onlyRunning_call.
Qed.

(** A transition that took effect leaves its target status and no other run is
    touched. *)
Lemma TransitionRun_fresh env request store run store' : tables_wf (tables (st_db store)) ->
  TransitionRun env request store = ((run, None), store') -> intent_keys (st_db store) !! transitionKey request = None ->
  exists row', plan_runs (tables (st_db store')) !! tq_RunID request = Some row' /\ rr_Status row' = tq_To request.
Proof.
  unfold TransitionRun. destruct (negb _) eqn:Hg; [discriminate|]. intros W E Hk. bool_hyps.
  apply mutateRun_Ok in E as [([x Hx] & _)|[_ E]]; [unfold transitionKey in Hk; congruence|].
  destruct (mutation_moved env (CallTransition request) _ _ _ _ _ _ W eq_refl ltac:(done) E) as (row & M).
  exists (storedRow row run). rewrite (mv_runs _ _ _ _ _ M), lookup_insert_eq. split; [done|].
  apply applyMutation_Ok in E as (row1 & t1 & Hrow & Hv & Hm & _). destruct (valid_NoDup _ Hv) as [Hd _].
  cbn. by eapply transition_status.
Qed.

Lemma triple_settle ids request : tq_To request <> "running" ->
  triple (running (tq_RunID request :: ids)) (transition request)
    (fun answer s tr => s = storeAt s0 tr /\ (answer.2 = None -> running ids s tr)).
Proof.
  intros Hto. apply triple_invoke. intros s tr others env Hr. cbv zeta.
  assert (Hs : (TransitionRun env request (performAll others s)).2 = storeAt s0 (extended tr others env (CallTransition request)))
    by (destruct Hr as [-> _]; by rewrite storeAt_extended).
  split; [exact Hs|]. intros Hn. split; [exact Hs|]. intros C. destruct (running_others _ _ _ _ _ _ Hr C) as (W & Ho & Hk).
  destruct (TransitionRun env request (performAll others s)) as [[run err] store'] eqn:E. cbn in Hn. subst err.
  destruct (TransitionRun_fresh _ _ _ _ _ W E Hk) as (row' & Er' & Hst'). cbn [snd] in *. intros id row E1 E2.
  assert (Hp : store' = perform env (CallTransition request) (performAll others s)) by (cbn [perform]; by rewrite E).
  assert (id <> tq_RunID request) by (intros ->; congruence). rewrite Hp in E1.
  destruct (run_back _ _ _ _ _ W (perform_outcome env (CallTransition request) _ W) E1) as [(row0 & Er & _ & Hst)|(request' & Hc & _)]; [|discriminate Hc].
  destruct Hst as [Hst|(request' & Hc & Hid & _)]; [|injection Hc as <-; congruence].
  rewrite Hst in E2. specialize (Ho _ _ Er E2). apply elem_of_cons in Ho as [?|?]; [congruence|done].
Qed.

Lemma triple_inspect ids id t steps f :
  triple (running ids) (inspectSteps id t steps f) (fun _ => running ids).
Proof.
  revert f. induction steps as [|step steps IH]; intros f; cbn [inspectSteps]; [by apply triple_ret|].
  destruct (inspectStep f step) as [f1 [|]]; [|apply IH]. eapply triple_bind; [by apply triple_running|].
  intros [run [e|]]; [by apply triple_ret|apply IH].
Qed.

Lemma settle_target run t f : tq_RunID (settle run t f) = r_RunID run /\ tq_To (settle run t f) <> "running".
Proof. unfold settle. destruct (fi_ambiguous f), (fi_failed f), (fi_allSucceeded f); (split; [reflexivity|discriminate]). Qed.

Lemma triple_reconcileRun ids run :
  triple (running (if r_Status run == "running" then r_RunID run :: ids else ids)) (reconcileRun run)
    (fun err s tr => s = storeAt s0 tr
       /\ (err = None -> r_Status run ∈ ["queued"; "running"; "interrupted"] -> running ids s tr)).
Proof.
  unfold reconcileRun. eapply triple_bind; [apply triple_now|]. intros t.
  eapply triple_bind with (R := fun _ => running (if r_Status run == "running" then r_RunID run :: ids else ids)).
  { unfold releaseRunLeases. eapply triple_bind; [by apply triple_running|]. intros r. by apply triple_ret. }
  intros [e|]; [apply triple_ret; intros s tr [? _]; by split|].
  destruct ((r_Status run == "queued") || (r_Status run == "interrupted")) eqn:Hw.
  { apply triple_ret. intros s tr Hr. split; [by destruct Hr|]. intros _ _.
    destruct (decide (r_Status run = "running")) as [Hs|Hs]; [rewrite Hs in Hw; discriminate Hw|].
    by rewrite (bool_decide_eq_false_2 _ Hs) in Hr. }
  eapply triple_bind; [apply triple_inspect|]. intros [f|e]; [|apply triple_ret; intros s tr [? _]; by split].
  destruct (settle_target run t f) as [Hid Hto]. eapply triple_bind.
  - eapply triple_weaken; [apply (triple_settle ids _ Hto)| |done]. intros s tr. apply running_weaken. intros id.
    rewrite Hid. destruct (r_Status run == "running"); [done|]. intros Hin. rewrite elem_of_cons. by right.
  - intros [ended err]. apply triple_ret. intros s tr [Hs Hr]. split; [done|]. intros -> _. by apply Hr.
Qed.

Definition runningIDs (runs : list Run) : list string :=
  map r_RunID (filter (fun run => r_Status run = "running") runs).

Lemma triple_reconcileRuns runs : Forall (fun run => r_Status run ∈ ["queued"; "running"; "interrupted"]) runs ->
  triple (running (runningIDs runs)) (reconcileRuns runs)
    (fun err s tr => s = storeAt s0 tr /\ (err = None -> running [] s tr)).
Proof.
  induction 1 as [|run runs Hst _ IH]; cbn [reconcileRuns].
  { apply triple_ret. intros s tr Hr. split; [by destruct Hr|done]. }
  eapply triple_bind.
  - eapply triple_weaken; [apply (triple_reconcileRun (runningIDs runs) run)| |done]. intros s tr. apply running_weaken.
    intros id. unfold runningIDs. rewrite filter_cons. destruct (decide (r_Status run = "running")) as [Hs|Hs];
      [by rewrite (bool_decide_eq_true_2 _ Hs)|by rewrite (bool_decide_eq_false_2 _ Hs)].
  - intros [e|]; [apply triple_ret; intros s tr [? _]; by split|].
    eapply triple_weaken; [exact IH| |done]. intros s tr [_ Hr]. by apply Hr.
Qed.

(** The active runs are all the runs that run. *)
Lemma ActiveRuns_all env store runs store' : tables_wf (tables (st_db store)) -> ActiveRuns env store = (Ok runs, store') ->
  Forall (fun run => r_Status run ∈ ["queued"; "running"; "interrupted"]) runs
  /\ onlyRunning (runningIDs runs) (tables (st_db store)).
Proof.
  intros W E. unfold ActiveRuns in E. apply action_bind_Ok in E as (canonical & s1 & Er & E). apply Read_Ok in Er.
  injection Er as Er. unfold lift in E. injection E as E _.
  assert (Hc : runs = canonical).
  { clear Er. revert runs E. induction canonical as [|run rest IH]; cbn; intros runs E; [by injection E as <-|].
    apply bind_Ok in E as (run' & Hd & E). apply bind_Ok in E as (runs' & Hr & E). injection E as <-.
    apply decodeRun_Ok in Hd as [-> _]. f_equal. by apply IH. }
  subst canonical runs. split.
  - apply Forall_map, Forall_forall. intros [id row] Hin. cbn.
    rewrite merge_sort_Permutation, list_elem_of_filter, elem_of_map_to_list in Hin. destruct Hin as [Hs Hin].
    rewrite <- (rw_status _ _ _ (tw_runs _ W _ _ Hin)). cbn in Hs. by apply bool_decide_eq_true_1 in Hs.
  - intros id row Hrow Hs. pose proof (tw_runs _ W _ _ Hrow) as R. unfold runningIDs.
    rewrite <- (rw_id _ _ _ R). apply list_elem_of_fmap_2, list_elem_of_filter.
    split; [by rewrite <- (rw_status _ _ _ R)|]. apply (list_elem_of_fmap_2 (fun r => rr_Document r.2) _ (id, row)).
    rewrite merge_sort_Permutation, list_elem_of_filter, elem_of_map_to_list. split; [|done]. cbn. rewrite Hs. done.
Qed.

Lemma triple_Reconcile : triple (fun s tr => s = storeAt s0 tr) Reconcile
  (fun err s tr => s = storeAt s0 tr /\ (err = None -> running [] s tr)).
Proof.
  unfold Reconcile. apply triple_bind with (R := fun r s tr => s = storeAt s0 tr /\ match r with
    | Ok runs => Forall (fun run => r_Status run ∈ ["queued"; "running"; "interrupted"]) runs /\ running (runningIDs runs) s tr
    | Err _ => True end).
  - apply triple_invoke. intros s tr others env ->. cbv zeta. rewrite storeAt_extended. cbn [perform].
    split; [done|]. destruct (ActiveRuns env _) as [[runs|e] store'] eqn:E; [|done]. cbn [fst snd].
    apply ActiveRuns_all in E as HR; [|apply performAll_wf, at_wf]. destruct HR as [Hst Ho]. split; [done|].
    split; [by rewrite storeAt_extended; cbn [perform]; rewrite E|]. intros _. by rewrite (keeps_ActiveRuns _ _ _ _ E).
  - intros [runs|e]; [|apply triple_ret; intros s tr [? _]; by split].
    intros w [Hs [Hst Hr]]. by apply (triple_reconcileRuns runs Hst).
Qed.

End Settled.

Section Startups.
Context `{Hasher} `{RunSchemas} `{HostReplacementContract} `{Surroundings}.

(** C35: when reconciliation, started on well-formed tables, returns without an
    error, no run of the store is left running, provided that meanwhile no other
    client moves runs and that no transition the engine asks for is answered as the
    replay of one recorded earlier (which happens to a second interruption of a run
    within a second: [second_interruption_in_one_second_lost]). *)
Theorem reconciliation_leaves_nothing_running store :
  tables_wf (tables (st_db store)) ->
  let answer := Reconcile (initially store) in
  answer.1 = None -> calm store (w_trace answer.2) ->
  forall id row, plan_runs (tables (st_db (w_store answer.2))) !! id = Some row -> rr_Status row <> "running".
Proof.
  intros W answer Hn Hc id row E Hs. destruct (triple_Reconcile store W (initially store) eq_refl) as [_ Hr].
  destruct (Hr Hn) as [_ Ho]. specialize (Ho Hc id row E Hs). by apply not_elem_of_nil in Ho.
Qed.

End Startups.

(** ** A process that stopped in the middle of a step *)

Section StartupSample.
#[local] Existing Instance sampleHasher.
#[local] Existing Instance sampleSchemas.
#[local] Existing Instance sampleContract.
#[local] Existing Instance sampleSurroundings.

(** The intent of the step is recorded, its effect is not. *)
Notation atIntent := (perform sampleEnv sampleBegin (performAll begun sampleStart)).
Notation reconciled := (Reconcile (initially atIntent)).

Definition quietMove (store : Store RunTables) (event : Event) : bool :=
  match event with
  | Own _ (CallTransition request) => isNil (intent_keys (st_db store) !! transitionKey request)
  | Other _ (CallTransition _) => false
  | _ => true
  end.

Lemma along_calm store tr : storesAlong quietMove store tr = true -> calm store tr.
Proof.
  intros Hc pre event post E. pose proof (storesAlong_spec _ _ _ Hc pre _ post E) as Ha.
  destruct event as [env call|env call| |?b ?effect ?answer]; cbn in Ha |- *; try done; destruct call; try done. by apply isNil_None.
Qed.

Lemma reconciled_answer : reconciled.1 = None.
Proof. vm_compute. reflexivity. Qed.
Lemma reconciled_calm : storesAlong quietMove atIntent (w_trace reconciled.2) = true.
Proof. vm_compute. reflexivity. Qed.
Lemma reconciled_status : rr_Status <$> plan_runs (tables (st_db (w_store reconciled.2))) !! "run-1" = Some "partial".
Proof. vm_compute. reflexivity. Qed.

Lemma reconciliation_leaves_nothing_running_witness : exists row,
  plan_runs (tables (st_db (w_store reconciled.2))) !! "run-1" = Some row /\ rr_Status row <> "running".
Proof.
  destruct (row_found _ _ _ reconciled_status) as (row & E & _). exists row. split; [exact E|].
  exact (reconciliation_leaves_nothing_running atIntent (perform_wf sampleEnv sampleBegin _ atBegin_wf) reconciled_answer
    (along_calm _ _ reconciled_calm) "run-1" row E).
Defined.

End StartupSample.

Section BlockedSample.
#[local] Existing Instance sampleHasher.
#[local] Existing Instance sampleSchemas.
#[local] Existing Instance sampleContract.

(** A century later, with the run referred to by another component. *)
#[local] Instance lateSurroundings : Surroundings := {|
  su_clock _ := centuryLater; su_repository _ := sampleEnv; su_others _ := []; su_done _ := false;
  su_plan _ _ := Ok samplePlan; su_current _ _ := None; su_managed _ _ := None; su_verify _ _ _ _ := None;
  su_activate _ _ _ _ _ := None; su_verifyRun _ _ _ := None; su_scheduled := None; su_resolve _ := None;
  su_lease _ _ := Ok ("lease-2", ""); su_execute _ _ _ _ := (sampleEffect, None);
  su_check _ _ _ _ _ := (mkVerification true "", None); su_boundary _ := None; su_core := false; su_retention := false;
  su_credential := false; su_reference _ := true; su_decision _ := true; su_runReference _ := true |}.

Definition referred (store : Store RunTables) : Store RunTables :=
  withDb (setTables (setReferences {["run-1"]} (tables (st_db store))) (st_db store)) store.

Lemma referred_ready store : ready store -> ready (w_store (initially (referred store))).
Proof. done. Qed.
Lemma referred_runs store :
  plan_runs (tables (st_db (w_store (initially (referred store))))) = plan_runs (tables (st_db store)).
Proof. done. Qed.
Lemma referred_references store : "run-1" ∈ run_references (tables (st_db (w_store (initially (referred store))))).
Proof. cbn. by apply elem_of_singleton. Qed.

Notation atEnd := (performAll finished (performAll begun sampleStart)).

Lemma startup_blocked_by_retention_witness :
  Startup (initially (referred atEnd))
  = (Some (Coded StateConflict "database"),
     mkWorld (w_store (initially (referred atEnd))) 2 [Own sampleEnv (CallPrune centuryLater)]).
Proof.
  destruct (view_run _ _ _ _ _ end_view) as (row & Er & _ & _ & Hs & Hu). rewrite <- referred_runs in Er.
  assert (E : pastRetention centuryLater row = true).
  { unfold pastRetention, staleRun. rewrite Hs, Hu. vm_compute. reflexivity. }
  refine (startup_blocked_by_retention (initially (referred atEnd)) "run-1" row demoTime (referred_ready _ end_ready) _ _ _
    Er _ (referred_references _)).
  - reflexivity.
  - reflexivity.
  - reflexivity.
  - exact E.
Defined.
End BlockedSample.
