(* ===== verification/EngineRequests.v ===== *)
(** Requests to the engine: what a submission must pass before anything is
    recorded, and what becomes of a run whose cancellation was requested. *)

From S2P Require Import Prelude GoTime Hash GoJson Contracts AuditLog AuditStore Authorization Adapter ExecutorLease RunRepository RunHistory.
From S2P Require Import RunFacts RunEngine EngineLogic EngineWitnesses.

(** ** Nothing is recorded for a plan that is not admitted *)

Section Submissions.
Context `{Hasher} `{RunSchemas} `{HostReplacementContract} `{Surroundings}.

(** What the engine has found out about a plan before it records a run of it:
    the plan source's plan is the one the request refers to, it is current and
    unexpired, the decision permits it, and the admission gate verified it. *)
Record Cleared (request : SubmitRequest) (plan : Plan) : Prop := {
  ad_source : exists n, su_plan n (pr_PlanID (sq_Reference request)) = Ok plan;
  ad_referenced : p_PlanID plan = pr_PlanID (sq_Reference request) /\ p_PlanDigest plan = pr_PlanDigest (sq_Reference request)
    /\ b_RecoveryEpoch (p_Binding plan) = pr_RecoveryEpoch (sq_Reference request) /\ p_Status plan = "planned";
  ad_current : exists n, su_current n plan = None;
  ad_admissible : admissible plan (sq_Authorization request) = true;
  ad_acknowledged : p_AuthorizationBranch plan = "human" -> sq_Acknowledgement request <> None;
  ad_preauthorized : p_AuthorizationBranch plan = "preauthorized" -> sq_Acknowledgement request = None;
  ad_verified : exists n, su_verify n plan (sq_Authorization request) (sq_Acknowledgement request) = None;
  ad_unexpired : exists n, Before (TruncateSecond (UTC (su_clock n))) (parseTime (p_ExpiresAt plan)) = true
}.

Variable tr0 : list Event.

(** Nothing happened yet. *)
Definition untouched : Assertion := fun _ tr => tr = tr0.

Lemma triple_asked {A} (P : Assertion) (oracle : nat -> A) :
  triple P (ask oracle) (fun x s tr => P s tr /\ exists n, x = oracle n).
Proof. intros w Hw. split; [exact Hw|]. by exists (w_tick w). Qed.

Lemma triple_looked (P : Assertion) :
  triple P now (fun t s tr => P s tr /\ exists n, t = TruncateSecond (UTC (su_clock n))).
Proof. intros w Hw. split; [exact Hw|]. by exists (w_tick w). Qed.

Lemma triple_known {A B} (P : Assertion) (m : M A) (C : A -> Prop) (f : A -> M B) Q :
  triple P m (fun x s tr => P s tr /\ C x) -> (forall x, C x -> triple P (f x) Q) -> triple P (m ≫= f) Q.
Proof.
  intros Hm Hf. eapply triple_bind; [exact Hm|]. intros x w [HP HC]. by apply Hf.
Qed.

Lemma triple_admission plan decision acknowledgement :
  triple untouched (verifyAdmission plan decision acknowledgement) (fun err s tr => untouched s tr /\
    (err = None -> (exists n, su_current n plan = None) /\ admissible plan decision = true
       /\ (p_AuthorizationBranch plan = "human" -> acknowledgement <> None)
       /\ (p_AuthorizationBranch plan = "preauthorized" -> acknowledgement = None)
       /\ exists n, su_verify n plan decision acknowledgement = None)).
Proof.
  unfold verifyAdmission. eapply triple_known; [apply triple_asked|]. intros [e|] [n Hn]; [by apply triple_ret|].
  destruct (admissible plan decision); [|by apply triple_ret]. cbn [negb].
  destruct ((p_AuthorizationBranch plan == "human") && isNil acknowledgement) eqn:Hh; [by apply triple_ret|].
  destruct ((p_AuthorizationBranch plan == "preauthorized") && negb (isNil acknowledgement)) eqn:Hp; [by apply triple_ret|].
  eapply triple_weaken; [apply triple_asked|done|]. intros x s tr [Hu [k Hk]]. split; [done|]. intros ->.
  split_and!; [by exists n|done| | |by exists k].
  - intros E -> . rewrite (bool_decide_eq_true_2 _ E) in Hh. discriminate Hh.
  - intros E. rewrite (bool_decide_eq_true_2 _ E) in Hp. by destruct acknowledgement.
Qed.

Lemma triple_external plan : triple untouched (externalCredentials plan) (fun _ => untouched).
Proof.
  unfold externalCredentials. destruct (_ || _); [by apply triple_ret|].
  eapply triple_bind; [apply triple_ask|]. intros r. by apply triple_ret.
Qed.

Lemma triple_submitPlan request plan setup (C : Prop) :
  ((exists n, Before (TruncateSecond (UTC (su_clock n))) (parseTime (p_ExpiresAt plan)) = true) -> C) ->
  triple untouched (submitPlan request plan setup) (fun _ s tr => untouched s tr \/ C).
Proof.
  intros HC. unfold submitPlan. eapply triple_known; [apply triple_looked|]. intros t [n ->].
  destruct (Before _ _) eqn:Hb; [|apply triple_ret; by left]. intros w _. right. apply HC. by exists n.
Qed.

Lemma triple_submit request setup :
  triple untouched (submit request setup) (fun _ s tr => untouched s tr \/ exists plan, Cleared request plan).
Proof.
  unfold submit. cbv zeta. destruct (_ || _); [apply triple_ret; by left|].
  eapply triple_known; [apply triple_asked|]. intros [plan|e] [n Hn]; [|apply triple_ret; by left].
  destruct (setup && _); [apply triple_ret; by left|].
  destruct ((p_PlanID plan != _) || _ || _ || _) eqn:Hr; [apply triple_ret; by left|]. bool_hyps.
  eapply triple_bind; [apply triple_external|]. intros [e|]; [apply triple_ret; by left|].
  eapply triple_known; [apply triple_admission|]. intros [e|] Ha; [apply triple_ret; by left|].
  eapply triple_bind; [apply triple_scheduled|]. intros [e|]; [apply triple_ret; by left|].
  destruct (_ && _); [apply triple_ret; by left|]. apply triple_submitPlan. intros Hu.
  destruct (Ha eq_refl) as (Hc & Had & Hh & Hp & Hv). exists plan. constructor; try done; first [by exists n|by split_and!].
Qed.
End Submissions.

Section Requests.
Context `{Hasher} `{RunSchemas} `{HostReplacementContract} `{Surroundings}.

(** C25: a submission that records anything at all — that makes any call of the
    repository or causes any effect — was admitted: its plan is the current,
    unexpired plan it refers to, the decision permits it, a human's plan comes
    with an acknowledgement and a preauthorized one without, and the admission
    gate verified the three together. *)
Theorem submission_records_only_admitted request setup world :
  w_trace (submit request setup world).2 <> w_trace world -> exists plan, Cleared request plan.
Proof.
  intros Hn. destruct (triple_submit (w_trace world) request setup world) as [Ht|Ha]; [done| |exact Ha]. by destruct Hn.
Qed.

End Requests.

(** ** A cancellation that cannot be completed *)

Section RequestSample.
#[local] Existing Instance sampleHasher.
#[local] Existing Instance sampleSchemas.
#[local] Existing Instance sampleContract.

Lemma submission_records_only_admitted_witness :
  exists plan, Cleared (H2 := sampleSurroundings) sampleSubmit plan.
Proof.
  apply (submission_records_only_admitted (H2 := sampleSurroundings) sampleSubmit false (initially sampleStart)).
  intros E. apply (f_equal (@length Event)) in E. revert E. vm_compute. discriminate.
Defined.

(** The cancellation of a queued run arrives after the engine looked at the run
    and before it starts it: at the 8th interaction of the submission. *)
Definition cancelAt : nat := 8%nat.

#[local] Instance cancelledSurroundings : Surroundings := {|
  su_clock n := later (Z.of_nat n); su_repository _ := sampleEnv;
  su_others n := if (n =? cancelAt)%nat then [(sampleEnv, CallCancellation sampleID (later 8) sampleActor)] else [];
  su_done _ := false;
  su_plan _ _ := Ok samplePlan; su_current _ _ := None; su_managed _ _ := None; su_verify _ _ _ _ := None;
  su_activate _ _ _ _ _ := None; su_verifyRun _ _ _ := None; su_scheduled := None; su_resolve _ := None;
  su_lease n _ := Ok ("lease-" +:+ pretty (Z.of_nat n), sampleDigest "nonce"); su_execute _ _ _ _ := (sampleEffect, None);
  su_check _ _ _ _ _ := (mkVerification true (sampleDigest "verification"), None); su_boundary _ := None; su_core := false;
  su_retention := false; su_credential := false; su_reference _ := true; su_decision _ := true; su_runReference _ := true |}.

Definition outcome (answer : Outcome * World) : string * bool * option error :=
  (r_Status answer.1.1, r_CancellationRequested answer.1.1, answer.1.2).

Definition interruptedWorld : World := (Submit sampleSubmit (initially sampleStart)).2.


Definition cancelRequest (key : string) : RunReferenceRequest := mkRunReference sampleID key 0 [].

Definition cancelHistory : list (Outcome * World) :=
  let submitted := Submit sampleSubmit (initially sampleStart) in
  let cancelled := MutateAs "cancel" (cancelRequest "cancel-1") sampleActor submitted.2 in
  let again := MutateAs "cancel" (cancelRequest "cancel-2") sampleActor cancelled.2 in
  let resumed := MutateAs "resume" (cancelRequest "resume-1") sampleActor again.2 in
  [submitted; cancelled; again; resumed].

(** A run that a requested cancellation interrupted cannot be cancelled any
    more: every cancellation under a new key reports success and leaves the run
    interrupted, for the request is taken for one still under way, and, with a
    step that is not idempotent, a resumption is refused as well. *)
Theorem requested_cancellation_never_completes : map outcome cancelHistory =
  [("interrupted", true, None); ("interrupted", true, None); ("interrupted", true, None);
   ("interrupted", true, Some (Coded RecoveryRequired "run-resume"))].
Proof. vm_compute. reflexivity. Qed.

End RequestSample.
