(* ===== verification/ExternalExecutor.v ===== *)
(** The service of [internal/run/external_executor.go] and
    [managed_deployment.go]: how executors outside of the control process are
    handed work, check in and report, and how leases that were lost are
    reconciled.

    A call of the service is an [action] over a world: the store, a counter of the
    interactions so far and the trace. As in [RunEngine] every interaction with
    the outside asks an oracle indexed by the counter, and before each call of a
    repository other clients may have made theirs. *)

From S2P Require Import Prelude GoTime Hash GoJson Contracts AuditLog AuditStore Authorization Adapter ExecutorLease RunRepository RunHistory.
From S2P Require Import RunFacts ExecutorHistory RunEngine.

(** ** The surroundings of the service *)

(** The proof of a managed deployment a request context carries. *)
Record managedDeploymentContext := mkManagedDeployment {
  md_controller : ExactExecutionBinding;
  md_planID : string;
  md_planDigest : string;
  md_principal : Principal
}.

Definition ExternalContext := option managedDeploymentContext.

(** [ExternalDeploymentAdmission], and its [ExternalManagedDeploymentAdmission]
    when the value implements it. *)
Record DeploymentAdmission := mkDeploymentAdmission {
  da_job : nat -> Principal -> Plan -> RunStep -> option error;
  da_managed : option (nat -> ExactExecutionBinding -> Plan -> RunStep -> result Principal)
}.

(** The registry of adapters: whether the adapter it resolves is a
    [ReceiptVerifier]. *)
Class ExecutorSurroundings := {
  xu_clock : nat -> Time;
  xu_repository : nat -> RunEnv;
  xu_others : nat -> list (RunEnv * StoreCall);
  xu_plan : nat -> string -> result Plan;
  xu_verifyRun : nat -> Plan -> Run -> option error;
  xu_resolve : string -> result bool;
  xu_verifyReceipt : nat -> Operation -> ReceiptObservation -> ReceiptVerification * option error;
  xu_lease : nat -> RunStep -> result (string * string);
  xu_deployment : option DeploymentAdmission
}.

Inductive ExecutorEvent :=
| Called (env : RunEnv) (call : StoreCall)
| Interleaved (env : RunEnv) (call : StoreCall)
| ReceiptVerified (operation : Operation) (observation : ReceiptObservation)
    (answer : ReceiptVerification * option error).

Record ExecutorWorld := mkExecutorWorld {
  xw_store : Store RunTables;
  xw_tick : nat;
  xw_trace : list ExecutorEvent
}.

Definition allStepsVerified (run : Run) : bool :=
  match r_Steps run with
  | [] => false
  | _ => forallb (fun step => (s_Status step == "succeeded") && (s_EffectState step == "verified")) (r_Steps run)
  end.

(** Nothing of the executor may be in flight while it asks for work. *)
Definition workActive (step : RunStep) : bool :=
  (s_Status step == "running") || (s_EffectState step == "intent-recorded") || (s_EffectState step == "receipt-recorded")
  || (s_EffectState step == "effect-unknown").

(** The runs of an executor. *)
Definition runsFor (executorID : string) (run : Run) : bool :=
  (r_Status run == "running") && (r_ExecutorMode run == "external") && (r_ExecutorID run == executorID).

(** The order of [sort.Slice] in [Claim]. *)
Definition olderRun (a b : Run) : Prop :=
  (if r_CreatedAt a == r_CreatedAt b then String.leb (r_RunID a) (r_RunID b)
   else String.leb (r_CreatedAt a) (r_CreatedAt b)) = true.

#[export] Instance olderRun_dec (a b : Run) : base.Decision (olderRun a b).
Proof. unfold olderRun. apply _. Defined.

(** The first step that is not resolved, when it still waits. *)
Fixpoint candidateStep (steps : list RunStep) : option RunStep :=
  match steps with
  | [] => None
  | step :: rest =>
      if (s_Status step == "succeeded") && (s_EffectState step == "verified") then candidateStep rest
      else if (s_Status step != "queued") || (s_EffectState step != "not-started") then None
      else Some step
  end.

Definition managedPrincipalContext (ctx : ExternalContext) (p : Principal) : bool :=
  if pn_Method p != ManagedCIControllerMethod then true
  else match ctx with
       | Some proof => (md_principal proof == p) && ValidPrincipal p
       | None => false
       end.

Section Service.
Context `{Hasher} `{RunSchemas} `{ExecutorSurroundings}.

Notation service := (action ExecutorWorld).

(** ** Interactions *)

Definition consult {A} (oracle : nat -> A) : service A := fun w =>
  (Ok (oracle (xw_tick w)), mkExecutorWorld (xw_store w) (S (xw_tick w)) (xw_trace w)).

(** A call of a repository, after the calls of others. *)
Definition request_ {A} (call : StoreCall) (method : RunEnv -> Store RunTables -> A * Store RunTables) : service A := fun w =>
  let others := xu_others (xw_tick w) in
  let env := xu_repository (xw_tick w) in
  let answer := method env (performCalls others (xw_store w)) in
  (Ok answer.1, mkExecutorWorld answer.2 (S (xw_tick w))
                  (xw_trace w ++ map (fun c => Interleaved c.1 c.2) others ++ [Called env call])).

(** A method that answers a value or an error. *)
Definition demand {A} (m : service (result A)) : service A := r ← m; lift r.

(** A method whose error is the only thing that counts. *)
Definition accept (m : service (option error)) : service unit :=
  err ← m; match err with Some e => fail e | None => mret tt end.

Definition obtain (m : service Outcome) : service Run :=
  '(run, err) ← m; match err with Some e => fail e | None => mret run end.

Definition executorNow : service Time := t ← consult xu_clock; mret (TruncateSecond (UTC t)).

Definition planOf (planID : string) : service Plan := demand (consult (fun n => xu_plan n planID)).
Definition verifyRunAdmission (plan : Plan) (run : Run) : service unit := accept (consult (fun n => xu_verifyRun n plan run)).
Definition resolve (adapterID : string) : service bool := lift (xu_resolve adapterID).

Definition readRun (runID : string) : service Run :=
  demand (request_ (Ordinary (CallGet runID)) (fun env => RunRepository.Get env runID)).
Definition activeRunsOf : service (list Run) := demand (request_ (Ordinary CallActive) ActiveRuns).
Definition transitionTo (request : RunTransitionRequest) : service Run :=
  obtain (request_ (Ordinary (CallTransition request)) (fun env => TransitionRun env request)).
Definition finish (request : StepFinishRequest) : service Run :=
  obtain (request_ (Ordinary (CallFinish request)) (fun env => FinishStep env request)).
Definition markUnknown (runID step : string) (at_ : Time) (a : Attribution) : service Run :=
  obtain (request_ (Ordinary (CallUnknown runID step at_ a)) (fun env => MarkStepUnknown env runID step at_ a)).
Definition release (leaseID : string) (at_ : Time) : service unit :=
  demand (request_ (Ordinary (CallRelease leaseID at_)) (fun env => ReleaseTargetLease env leaseID at_)).
Definition readLease (leaseID : string) : service ExecutorLease :=
  demand (request_ (Ordinary (CallGetLease leaseID)) (fun env => ExecutorLease.Get env leaseID)).
Definition claimLease (request : ExecutorLeaseClaimRequest) : service ExecutorLease :=
  demand (request_ (Ordinary (CallClaimLease request)) (fun env => ExecutorLease.Claim env request)).
Definition renewStored (request : ExecutorLeaseRenewalRequest) : service ExecutorLease :=
  demand (request_ (Ordinary (CallRenewLease request)) (fun env => ExecutorLease.Renew env request)).
Definition expireStored (request : ExecutorLeaseExpiryRequest) : service (list ExecutorLease) :=
  demand (request_ (Ordinary (CallExpireLeases request)) (fun env => ExecutorLease.Expire env request)).
Definition observe (request : ExecutorReceiptPersistenceRequest) : service ExecutionReceipt :=
  demand (request_ (Observe request) (fun env => ExecutorLease.RecordReceipt env request)).
Definition deny (request : ExecutorAuthorizationDenialRequest) : service unit :=
  demand (request_ (Ordinary (CallDenial request)) (fun env => ExecutorLease.RecordAuthorizationDenial env request)).

(** The independent check of a receipt by the adapter. *)
Definition verifyReceipt (operation : Operation) (observation : ReceiptObservation)
    : service (ReceiptVerification * option error) := fun w =>
  let answer := xu_verifyReceipt (xw_tick w) operation observation in
  (Ok answer, mkExecutorWorld (xw_store w) (S (xw_tick w)) (xw_trace w ++ [ReceiptVerified operation observation answer])).

(** ** Denials *)

Definition externalAttribution (principal : Principal) : service Attribution :=
  match NewAttribution principal None with
  | Ok value => mret value
  | Err _ => fail (Coded IntegrityFailure "executor-attribution")
  end.

Definition recordAuthorizationDenial (principal : Principal) (reason target : string) : service unit :=
  attribution ← externalAttribution principal;
  at_ ← executorNow;
  deny (mkAuthorizationDenial (digest ["executor-denial-reason"; reason]) (digest ["executor-denial-target"; target])
          at_ attribution).

Definition authorizationDenied {A} (principal : Principal) (reason target : string) : service A :=
  recordAuthorizationDenial principal reason target;; fail (Coded AuthorizationDenied "executor-authorization").

(** The method of the service of that name. *)
Definition RecordExecutorDenial (principal : Principal) (reason target : string) : service unit :=
  if (reason == "") || (target == "") then fail (Coded InputInvalid "executor-denial")
  else recordAuthorizationDenial principal reason target.

(** ** Deployments *)

Definition isDeployment (kind : string) : bool :=
  bool_decide (kind ∈ ["application.deploy.low-risk"; "application.deploy.production-like"; "service.deploy"]).

(** The closure [verify] of [verifyDeploymentJob]; its error is never looked
    into. *)
Definition deploymentJobVerified (ctx : ExternalContext) (p : Principal) (plan : Plan) (step : RunStep)
    (admission : DeploymentAdmission) : service bool :=
  match ctx with
  | Some proof =>
      match da_managed admission with
      | None => mret false
      | Some guard =>
          if (md_planID proof != p_PlanID plan) || (md_planDigest proof != p_PlanDigest plan) || (md_principal proof != p)
          then mret false
          else actual ← consult (fun n => guard n (md_controller proof) plan step);
               mret match actual with Ok actual => actual == p | Err _ => false end
      end
  | None =>
      if pn_Method p == ManagedCIControllerMethod then mret false
      else err ← consult (fun n => da_job admission n p plan step);
           mret match err with Some _ => false | None => true end
  end.

Definition verifyDeploymentJob (ctx : ExternalContext) (p : Principal) (plan : Plan) (current : Run) (step : RunStep)
    (receipt : bool) : service unit :=
  if negb (isDeployment (s_OperationType step)) then mret tt
  else match xu_deployment with
       | None => authorizationDenied p "deployment-job-unconfigured" (s_TargetID step)
       | Some admission =>
           verified ← deploymentJobVerified ctx p plan step admission;
           if negb verified then authorizationDenied p "deployment-job-denied" (s_TargetID step)
           else
             fresh ← readRun (r_RunID current);
             if (r_Status fresh != "running") || r_CancellationRequested fresh && negb receipt
                || (r_PlanID fresh != p_PlanID plan) || (r_PlanDigest fresh != p_PlanDigest plan)
             then authorizationDenied p "deployment-job-run-stale" (r_RunID current)
             else verifyRunAdmission plan fresh
       end.

(** ** Recovery *)

(** What is done with a step whose effect is ambiguous. It always ends in an
    error; [RECOVERY_REQUIRED] says that everything was recorded. *)
Definition recoveryRequired {A} (current : Run) (step : RunStep) (lease : ExecutorLease) (attribution : Attribution)
    : service A :=
  updated ←
    (if (s_Status step == "running") && ((s_EffectState step == "intent-recorded") || (s_EffectState step == "receipt-recorded"))
     then at_ ← executorNow; markUnknown (r_RunID current) (s_StepID step) at_ attribution
     else mret current);
  (if (r_Status updated == "running")
      && match findRunStep updated (s_StepID step) with
         | Some updatedStep => s_EffectState updatedStep == "effect-unknown"
         | None => false
         end
   then at_ ← executorNow; transitionTo (partialRun updated true at_ attribution);; mret tt
   else mret tt);;
  (if l_Status lease == "active" then at_ ← executorNow; release (l_LeaseID lease) at_ else mret tt);;
  fail (Coded RecoveryRequired "executor-reconciliation").

(** The leases [Reconcile] was given: an error other than [RECOVERY_REQUIRED]
    ends the loop. *)
Fixpoint reconcileLeases (expired : list ExecutorLease) : service unit :=
  match expired with
  | [] => mret tt
  | lease :: rest =>
      current ← readRun (l_RunID lease);
      match findRunStep current (l_StepID lease) with
      | Some step =>
          if (r_Status current != "running")
             || (s_Status step != "running") && negb ((s_Status step == "partial") && (s_EffectState step == "effect-unknown"))
          then reconcileLeases rest
          else fun w =>
            match recoveryRequired (A := unit) current step lease systemAttribution w with
            | (Err err, w) => if Code (Some err) == RecoveryRequired then reconcileLeases rest w else (Err err, w)
            | (Ok _, w) => (Ok tt, w)
            end
      | None => reconcileLeases rest
      end
  end.

(** The service's [Reconcile]. *)
Definition ReconcileLeases : service unit :=
  at_ ← executorNow;
  expired ← expireStored (mkLeaseExpiry at_ systemAttribution);
  reconcileLeases expired.

(** ** Claims *)

(** The lease of a claimed step. *)
Definition claimedLease (plan : Plan) (current : Run) (step : RunStep) (request : ExecutorClaimRequest)
    (leaseID : string) (at_ : Time) : ExecutorLease :=
  let until n := FormatRFC3339 (Add at_ (seconds n)) in
  mkExecutorLease leaseID (p_PlanID plan) (p_PlanDigest plan) (r_RunID current) (s_StepID step) (s_OperationID step)
    (s_ExecutorID step) (s_AdapterID step) (s_TargetID step) (s_ArtifactDigest step) (r_ExecutorBindingDigest current)
    (cl_NonceDigest request) (r_RecoveryEpoch current) (FormatRFC3339 at_) (until ExecutorCheckInSeconds)
    (until ExecutorLeaseSeconds) (until ExecutorLeaseSeconds) "active" (cl_Extensions request).

(** The claim of the step the server selected. *)
Definition claimStep (ctx : ExternalContext) (principal : Principal) (request : ExecutorClaimRequest) (plan : Plan)
    (current : Run) (step : RunStep) : service ExecutorLease :=
  if s_AdapterID step != cl_AdapterID request then authorizationDenied principal "claim-adapter" (r_RunID current)
  else match BindExternalExecutorIdentity principal request plan step with
  | None => authorizationDenied principal "claim-binding" (r_RunID current)
  | Some _ =>
      verifyDeploymentJob ctx principal plan current step false;;
      verifies ← resolve (s_AdapterID step);
      check verifies (Coded DependencyUnavailable "executor-verification-adapter");;
      at_ ← executorNow;
      ids ← consult (fun n => xu_lease n step);
      match ids with
      | Err _ => fail (Coded IntegrityFailure "executor-lease-identity")
      | Ok (leaseID, _) =>
          attribution ← externalAttribution principal;
          claimLease (mkLeaseClaim request (claimedLease plan current step request leaseID at_) at_ attribution)
      end
  end.

(** The proof of a managed deployment covers this plan. *)
Definition managedFor (ctx : ExternalContext) (principal : Principal) (plan : Plan) : bool :=
  match ctx with
  | Some proof => (md_planID proof == p_PlanID plan) && (md_planDigest proof == p_PlanDigest plan)
                  && (md_principal proof == principal)
  | None => false
  end.

(** The second loop of [Claim]. *)
Fixpoint claimFrom (ctx : ExternalContext) (principal : Principal) (request : ExecutorClaimRequest) (runs : list Run)
    : service ExecutorLease :=
  match runs with
  | [] => fail (Coded ResourceNotFound "executor-work")
  | current :: rest =>
      if match ctx with Some proof => r_PlanID current != md_planID proof | None => false end
         || negb (runsFor (cl_ExecutorID request) current) || r_CancellationRequested current
      then claimFrom ctx principal request rest
      else
        plan ← planOf (r_PlanID current);
        if (credentialPlanDigest plan != "") && negb (managedFor ctx principal plan)
        then fail (Coded PrerequisiteBlocked "external-credential-handoff")
        else
          verifyRunAdmission plan current;;
          match candidateStep (r_Steps current) with
          | None => claimFrom ctx principal request rest
          | Some step => claimStep ctx principal request plan current step
          end
  end.

(** The service's [Claim]. *)
Definition ClaimWork (ctx : ExternalContext) (principal : Principal) (request : ExecutorClaimRequest)
    : service ExecutorLease :=
  check (exactClaimRequest request) (Coded InputInvalid "executor-claim");;
  check (managedPrincipalContext ctx principal) (Coded AuthorizationDenied "managed-executor-context");;
  ReconcileLeases;;
  runs ← activeRunsOf;
  let runs := merge_sort olderRun runs in
  check (negb (existsb (fun run => runsFor (cl_ExecutorID request) run && existsb workActive (r_Steps run)) runs))
    (Coded StateConflict "executor-work-active");;
  claimFrom ctx principal request runs.

(** ** Leases of a principal *)

Definition boundLease (ctx : ExternalContext) (principal : Principal) (leaseID : string)
    (evidence : list ContractExtension) : service (ExecutorLease * Run * Plan * RunStep) :=
  check (managedPrincipalContext ctx principal) (Coded AuthorizationDenied "managed-executor-context");;
  lease ← readLease leaseID;
  current ← readRun (l_RunID lease);
  plan ← planOf (r_PlanID current);
  match findRunStep current (l_StepID lease) with
  | None => fail (Coded IntegrityFailure "executor-lease-binding")
  | Some step =>
      check (ValidateExecutorLeaseBinding plan current lease) (Coded IntegrityFailure "executor-lease-binding");;
      let claim := mkExecutorClaim (l_ExecutorID lease) (pn_ID principal) (l_AdapterID lease) (l_RecoveryEpoch lease) "" evidence in
      match BindExternalExecutorIdentity principal claim plan step with
      | None => authorizationDenied principal "lease-identity" (l_LeaseID lease)
      | Some _ => mret (lease, current, plan, step)
      end
  end.

(** The service's [Renew]. *)
Definition RenewWork (ctx : ExternalContext) (principal : Principal) (request : ExecutorRenewRequest)
    : service ExecutorLease :=
  check (exactRenewRequest request) (Coded InputInvalid "executor-renew");;
  ReconcileLeases;;
  '(lease, current, plan, step) ← boundLease ctx principal (er_LeaseID request) (er_Extensions request);
  if er_RecoveryEpoch request != l_RecoveryEpoch lease then fail (Coded RecoveryEpochMismatch "executor-renew-binding")
  else if (er_BindingDigest request != l_BindingDigest lease) || (er_NonceDigest request != l_NonceDigest lease)
          || (r_Status current != "running")
  then authorizationDenied principal "renew-binding" (l_LeaseID lease)
  else
    verifyRunAdmission plan current;;
    verifyDeploymentJob ctx principal plan current step false;;
    ids ← consult (fun n => xu_lease n step);
    match ids with
    | Err _ => fail (Coded IntegrityFailure "executor-renew-identity")
    | Ok (_, nextNonce) =>
        attribution ← externalAttribution principal;
        at_ ← executorNow;
        renewStored (mkLeaseRenewal request nextNonce at_ attribution)
    end.

(** ** Receipts *)

(** A receipt that arrives within the window of an active lease, and is bound to
    it. *)
Definition inWindow (lease : ExecutorLease) (at_ : Time) (bindingExact : bool) : bool :=
  bindingExact && (l_Status lease == "active") && Before at_ (parseTime (l_LeaseExpiresAt lease)).

(** The verdict of the adapter over a terminal receipt. *)
Definition verdict (answer : ReceiptVerification * option error) (status : string) : bool :=
  isNil answer.2 && isNil (ValidateReceiptVerification answer.1) && rv_Verified answer.1 && (status != "partial").

Definition finishRequest (current : Run) (step : RunStep) (lease : ExecutorLease) (receipt : ExecutionReceipt)
    (verification : ReceiptVerification) (at_ : Time) (attribution : Attribution) : StepFinishRequest :=
  mkStepFinishRequest (r_RunID current) (s_StepID step) (l_LeaseID lease) receipt (rc_Status receipt) "verified"
    (rv_Digest verification) (rv_Changed verification) at_ attribution.

(** What follows a finished step. A failure to move the run is reported next to
    the receipt, a failure to declare it successful instead of it. *)
Definition concludeReceipt (updated : Run) (receipt : ExecutionReceipt) (at_ : Time) (attribution : Attribution)
    : service (ExecutionReceipt * option error) :=
  let report request := fun w =>
    match transitionTo request w with
    | (Ok _, w) => (Ok (receipt, None), w)
    | (Err err, w) => (Ok (receipt, Some err), w)
    end in
  if rc_Status receipt == "failed" then report (failRun updated (Some (r_Changed updated)) at_ attribution)
  else if r_CancellationRequested updated && negb (allStepsVerified updated)
  then report (interrupt updated at_ attribution)
  else
    (if allStepsVerified updated
     then transitionTo (succeedRun updated (digest ["run-verification"; r_RunID updated; r_PlanDigest updated]) at_ attribution);;
          mret tt
     else mret tt);;
    mret (receipt, None).

Definition SubmitReceipt (ctx : ExternalContext) (principal : Principal) (request : ExecutionReceiptRequest)
    : service (ExecutionReceipt * option error) :=
  let receipt := xp_Receipt request in
  check (exactReceiptRequest request) (Coded InputInvalid "executor-receipt");;
  '(lease, current, plan, step) ← boundLease ctx principal (rc_LeaseID receipt) (xp_Extensions request);
  verifyRunAdmission plan current;;
  verifyDeploymentJob ctx principal plan current step true;;
  operation ← lift (exactOperation plan step);
  verifies ← resolve (ao_AdapterID operation);
  check verifies (Coded DependencyUnavailable "executor-verification-adapter");;
  attribution ← externalAttribution principal;
  at_ ← executorNow;
  let bindingExact := (xp_ExpectedBindingDigest request == l_BindingDigest lease)
                      && ValidateExecutionReceiptBinding lease receipt in
  (if bindingExact then observe (mkReceiptPersistence request at_ attribution);; mret tt
   else recordAuthorizationDenial principal "receipt-binding" (l_LeaseID lease));;
  let observation := mkReceiptObservation (rc_Status receipt) (rc_ResultDigest receipt) in
  if negb (isNil (ValidateReceiptObservation observation)) then recoveryRequired current step lease attribution
  else if rc_Status receipt == "running" then
    if inWindow lease at_ bindingExact then mret (receipt, None) else recoveryRequired current step lease attribution
  else
    answer ← verifyReceipt operation observation;
    if negb (inWindow lease at_ bindingExact && verdict answer (rc_Status receipt))
    then recoveryRequired current step lease attribution
    else
      updated ← finish (finishRequest current step lease receipt answer.1 at_ attribution);
      release (l_LeaseID lease) at_;;
      concludeReceipt updated receipt at_ attribution.

(** ** Managed deployments *)

(** The only running run of a plan. *)
Definition managedRun (plan : Plan) (run : Run) : bool :=
  (r_PlanID run == p_PlanID plan) && (r_PlanDigest run == p_PlanDigest plan) && (r_Status run == "running")
  && negb (r_CancellationRequested run).

Definition managedContext (parent : ExactExecutionBinding) (planID : string) : service (managedDeploymentContext * Principal) :=
  let denied {A} : service A := fail (Coded AuthorizationDenied "managed-deployment") in
  match d ← xu_deployment; da_managed d with
  | None => denied
  | Some guard =>
      plan ← planOf planID;
      if (p_PlanID plan != planID) || (p_ExecutorMode plan != "external") || (length (p_Operations plan) != 1%nat)
      then denied
      else
        runs ← activeRunsOf;
        match filter (fun run => managedRun plan run) runs with
        | [selected] =>
            match r_Steps selected with
            | [step] =>
                p ← demand (consult (fun n => guard n parent plan step));
                if (pn_Method p != ManagedCIControllerMethod) || negb (ValidPrincipal p)
                   || (p_ExecutorID plan != Some (pn_ID p)) || (r_ExecutorID selected != pn_ID p)
                then denied
                else mret (mkManagedDeployment parent planID (p_PlanDigest plan) p, p)
            | _ => denied
            end
        | _ => denied
        end
  end.

Definition ClaimManaged (parent : ExactExecutionBinding) (planID : string) (request : ExecutorClaimRequest)
    : service ExecutorLease :=
  '(bound, p) ← managedContext parent planID; ClaimWork (Some bound) p request.

Definition RenewManaged (parent : ExactExecutionBinding) (request : ExecutorRenewRequest) : service ExecutorLease :=
  lease ← readLease (er_LeaseID request);
  '(bound, p) ← managedContext parent (l_PlanID lease);
  RenewWork (Some bound) p request.

Definition SubmitManagedReceipt (parent : ExactExecutionBinding) (request : ExecutionReceiptRequest)
    : service (ExecutionReceipt * option error) :=
  lease ← readLease (rc_LeaseID (xp_Receipt request));
  '(bound, p) ← managedContext parent (l_PlanID lease);
  SubmitReceipt (Some bound) p request.

(** ** Histories of the service *)

(** The calls of the service; the loop of [Run] is any number of reconciliations. *)
Inductive ServiceCall :=
| ServeClaim (ctx : ExternalContext) (principal : Principal) (request : ExecutorClaimRequest)
| ServeRenew (ctx : ExternalContext) (principal : Principal) (request : ExecutorRenewRequest)
| ServeReceipt (ctx : ExternalContext) (principal : Principal) (request : ExecutionReceiptRequest)
| ServeClaimManaged (parent : ExactExecutionBinding) (planID : string) (request : ExecutorClaimRequest)
| ServeRenewManaged (parent : ExactExecutionBinding) (request : ExecutorRenewRequest)
| ServeReceiptManaged (parent : ExactExecutionBinding) (request : ExecutionReceiptRequest)
| ServeDenial (principal : Principal) (reason target : string)
| ServeReconcile.

Definition served {A} (m : service A) (w : ExecutorWorld) : ExecutorWorld := (m w).2.

Definition serveExecutor (call : ServiceCall) (w : ExecutorWorld) : ExecutorWorld :=
  match call with
  | ServeClaim ctx principal request => served (ClaimWork ctx principal request) w
  | ServeRenew ctx principal request => served (RenewWork ctx principal request) w
  | ServeReceipt ctx principal request => served (SubmitReceipt ctx principal request) w
  | ServeClaimManaged parent planID request => served (ClaimManaged parent planID request) w
  | ServeRenewManaged parent request => served (RenewManaged parent request) w
  | ServeReceiptManaged parent request => served (SubmitManagedReceipt parent request) w
  | ServeDenial principal reason target => served (RecordExecutorDenial principal reason target) w
  | ServeReconcile => served ReconcileLeases w
  end.

Definition serveExecutors (history : list ServiceCall) (w : ExecutorWorld) : ExecutorWorld :=
  fold_left (fun w call => serveExecutor call w) history w.

Definition executorsFrom (store : Store RunTables) : ExecutorWorld := mkExecutorWorld store 0 [].

End Service.
