(* ===== verification/ExecutorSafety.v ===== *)
(** Safety of the service of external executors: what every claim, every finished
    step and every success that the service records rests on, whatever fails and
    whatever other clients of the store do in between. *)

From S2P Require Import Prelude GoTime Hash GoJson Contracts AuditLog AuditStore Authorization Adapter ExecutorLease RunRepository RunHistory.
From S2P Require Import RunFacts RunSuccess ExecutorHistory RunEngine ExternalExecutor.

Create HintDb executor.

(** ** A logic of the service *)

Notation service := (action ExecutorWorld).

Definition XAssertion : Type := Store RunTables -> list ExecutorEvent -> Prop.

(** [hoare P m Q E]: from a world in which [P] holds, [m] ends in one in which [Q]
    holds of its answer, or [E] if it fails. *)
Definition hoare {A} (P : XAssertion) (m : service A) (Q : A -> XAssertion) (E : XAssertion) : Prop :=
  forall w, P (xw_store w) (xw_trace w) ->
    match m w with
    | (Ok x, w') => Q x (xw_store w') (xw_trace w')
    | (Err _, w') => E (xw_store w') (xw_trace w')
    end.

Lemma hoare_ret {A} (P : XAssertion) (x : A) (Q : A -> XAssertion) E :
  (forall s tr, P s tr -> Q x s tr) -> hoare P (mret x) Q E.
Proof. intros HPQ w. apply HPQ. Qed.

Lemma hoare_fail {A} (P : XAssertion) e (Q : A -> XAssertion) (E : XAssertion) :
  (forall s tr, P s tr -> E s tr) -> hoare P (fail e) Q E.
Proof. intros HPE w. apply HPE. Qed.

Lemma hoare_bind {A B} (P : XAssertion) (m : service A) (f : A -> service B) R Q E :
  hoare P m R E -> (forall x, hoare (R x) (f x) Q E) -> hoare P (m ≫= f) Q E.
Proof.
  intros Hm Hf w Hw. specialize (Hm w Hw). unfold mbind, action_bind. destruct (m w) as [[x|e] w1]; [|done].
  exact (Hf x w1 Hm).
Qed.

Lemma hoare_weaken {A} (P P' : XAssertion) (m : service A) (Q Q' : A -> XAssertion) (E E' : XAssertion) :
  hoare P' m Q' E' -> (forall s tr, P s tr -> P' s tr) -> (forall x s tr, Q' x s tr -> Q x s tr) ->
  (forall s tr, E' s tr -> E s tr) -> hoare P m Q E.
Proof. intros Hm HP HQ HE w Hw. specialize (Hm w (HP _ _ Hw)). destruct (m w) as [[x|e] w']; auto. Qed.

Lemma hoare_pure {A} (P : XAssertion) (C : Prop) (m : service A) Q E :
  (C -> hoare P m Q E) -> hoare (fun s tr => C /\ P s tr) m Q E.
Proof. intros Hm w [HC HP]. by apply Hm. Qed.

Lemma hoare_lift {A} (P : XAssertion) (r : result A) :
  hoare P (lift r) (fun x s tr => r = Ok x /\ P s tr) P.
Proof. intros w Hw. unfold lift. destruct r; auto. Qed.

Lemma hoare_check (P : XAssertion) b e : hoare P (check b e) (fun _ s tr => b = true /\ P s tr) P.
Proof. intros w Hw. unfold check, lift, require. destruct b; auto. Qed.

(** ** Stores and traces *)

Section Traces.
Context `{Hasher} `{RunSchemas} `{ExecutorSurroundings}.

Definition servedCalls (tr : list ExecutorEvent) : list (RunEnv * StoreCall) :=
  omap (fun event => match event with Called env call | Interleaved env call => Some (env, call) | _ => None end) tr.

(** The store a trace leads to from [s0]. *)
Definition storeAfter (s0 : Store RunTables) (tr : list ExecutorEvent) : Store RunTables := performCalls (servedCalls tr) s0.

Definition interleaved (others : list (RunEnv * StoreCall)) : list ExecutorEvent := map (fun c => Interleaved c.1 c.2) others.

Lemma performCalls_app h1 h2 store : performCalls (h1 ++ h2) store = performCalls h2 (performCalls h1 store).
Proof. apply fold_left_app. Qed.

Lemma storeAfter_app s0 tr1 tr2 : storeAfter s0 (tr1 ++ tr2) = storeAfter (storeAfter s0 tr1) tr2.
Proof. unfold storeAfter, servedCalls. by rewrite omap_app, performCalls_app. Qed.

Lemma storeAfter_others s0 tr others : storeAfter s0 (tr ++ interleaved others) = performCalls others (storeAfter s0 tr).
Proof.
  rewrite storeAfter_app. unfold storeAfter at 1. f_equal. unfold servedCalls, interleaved.
  induction others as [|[e c] others IH]; cbn; [done|]. by rewrite IH.
Qed.

Lemma storeAfter_called s0 tr env call : storeAfter s0 (tr ++ [Called env call]) = performCall env call (storeAfter s0 tr).
Proof. by rewrite storeAfter_app. Qed.

(** A call of a repository: the trace grows by the calls of others and by the
    call, and the answer is the one of the method. *)
Lemma hoare_request {A} (P : XAssertion) call (method : RunEnv -> Store RunTables -> A * Store RunTables) Q E :
  (forall s tr others env, P s tr ->
     let answer := method env (performCalls others s) in
     Q answer.1 answer.2 ((tr ++ interleaved others) ++ [Called env call])) ->
  hoare P (request_ call method) Q E.
Proof. intros HPQ w Hw. cbn. rewrite app_assoc. apply HPQ, Hw. Qed.

Lemma hoare_consult {A} (P : XAssertion) (oracle : nat -> A) E :
  hoare P (consult oracle) (fun x s tr => (exists n, oracle n = x) /\ P s tr) E.
Proof. intros w Hw. cbn. eauto. Qed.

Lemma hoare_demand {A} (P : XAssertion) call (method : RunEnv -> Store RunTables -> result A * Store RunTables) (Q : A -> XAssertion) (E : XAssertion) :
  (forall s tr others env, P s tr ->
     let '(r, s') := method env (performCalls others s) in
     let tr' := (tr ++ interleaved others) ++ [Called env call] in
     match r with Ok x => Q x s' tr' | Err _ => E s' tr' end) ->
  hoare P (demand (request_ call method)) Q E.
Proof.
  intros HPQ w Hw. specialize (HPQ _ _ (xu_others (xw_tick w)) (xu_repository (xw_tick w)) Hw).
  unfold demand, obtain, request_, mbind, action_bind, lift. cbn [fst snd]. rewrite app_assoc.
  destruct (method _ _) as [[x|e] s']; exact HPQ.
Qed.

Lemma hoare_obtain (P : XAssertion) call (method : RunEnv -> Store RunTables -> Outcome * Store RunTables) (Q : Run -> XAssertion) (E : XAssertion) :
  (forall s tr others env, P s tr ->
     let '((run, err), s') := method env (performCalls others s) in
     let tr' := (tr ++ interleaved others) ++ [Called env call] in
     match err with None => Q run s' tr' | Some _ => E s' tr' end) ->
  hoare P (obtain (request_ call method)) Q E.
Proof.
  intros HPQ w Hw. specialize (HPQ _ _ (xu_others (xw_tick w)) (xu_repository (xw_tick w)) Hw).
  unfold demand, obtain, request_, mbind, action_bind, lift. cbn [fst snd]. rewrite app_assoc.
  destruct (method _ _) as [[run [e|]] s']; exact HPQ.
Qed.

End Traces.

(** ** What the calls of the service rest on *)

Section Justified.
Context `{Hasher} `{RunSchemas} `{ExecutorSurroundings}.
Variable s0 : Store RunTables.

(** The service saw these runs, all at once. *)
Definition sawRuns (runs : list Run) (tr : list ExecutorEvent) : Prop :=
  exists pre env store' post, tr = pre ++ Called env (Ordinary CallActive) :: post
    /\ ActiveRuns env (storeAfter s0 pre) = (Ok runs, store').

(** The service read this run: the document the store held at that moment. *)
Definition sawRun (id : string) (run : Run) (tr : list ExecutorEvent) : Prop :=
  exists pre env row post, tr = pre ++ Called env (Ordinary (CallGet id)) :: post
    /\ plan_runs (tables (st_db (storeAfter s0 pre))) !! id = Some row /\ rr_Document row = run.

(** The service read this lease: the row the store held for it at that moment. *)
Definition sawLease (id : string) (lease : ExecutorLease) (tr : list ExecutorEvent) : Prop :=
  exists pre env row post, tr = pre ++ Called env (Ordinary (CallGetLease id)) :: post
    /\ target_execution_leases (tables (st_db (storeAfter s0 pre))) !! id = Some row
    /\ le_Document row = lease /\ le_Status row = l_Status lease.

(** The service that admits deployments confirmed the job of the step: for the
    proof of a managed deployment of exactly this plan and principal, or for a
    principal that is no managed controller. *)
Definition jobConfirmed (p : Principal) (plan : Plan) (step : RunStep) : Prop :=
  exists admission n, xu_deployment = Some admission
  /\ ((exists proof guard, da_managed admission = Some guard /\ md_planID proof = p_PlanID plan
          /\ md_planDigest proof = p_PlanDigest plan /\ md_principal proof = p
          /\ guard n (md_controller proof) plan step = Ok p)
      \/ pn_Method p <> ManagedCIControllerMethod /\ da_job admission n p plan step = None).

(** A step that deploys is only touched with its job confirmed and its run read
    again: still running this plan and admitted, and not cancelled, unless what
    is taken is a receipt. *)
Definition deploymentVerified (p : Principal) (plan : Plan) (current : Run) (step : RunStep) (receipt : bool)
    (tr : list ExecutorEvent) : Prop :=
  s_OperationType step ∈ ["application.deploy.low-risk"; "application.deploy.production-like"; "service.deploy"] ->
  jobConfirmed p plan step
  /\ exists fresh n, sawRun (r_RunID current) fresh tr /\ r_Status fresh = "running"
     /\ (r_CancellationRequested fresh = true -> receipt = true)
     /\ r_PlanID fresh = p_PlanID plan /\ r_PlanDigest fresh = p_PlanDigest plan /\ xu_verifyRun n plan fresh = None.

(** A principal acts under a lease: the stored lease, run and plan belong
    together, and the principal is the executor they name, with the evidence the
    plan was approved with. *)
Record boundTo (principal : Principal) (id : string) (evidence : list ContractExtension) (lease : ExecutorLease)
    (current : Run) (plan : Plan) (step : RunStep) (tr : list ExecutorEvent) : Prop := {
  bt_lease : sawLease id lease tr;
  bt_run : sawRun (l_RunID lease) current tr;
  bt_plan : exists n, xu_plan n (r_PlanID current) = Ok plan;
  bt_step : findRunStep current (l_StepID lease) = Some step;
  bt_binding : ValidateExecutorLeaseBinding plan current lease = true;
  bt_identity : exists who, BindExternalExecutorIdentity principal (mkExecutorClaim (l_ExecutorID lease) (pn_ID principal)
                  (l_AdapterID lease) (l_RecoveryEpoch lease) "" evidence) plan step = Some who
}.

(** A claim is for the step the service selected: the first unresolved one of a
    running external run of the executor, admitted by the gate, for a principal
    that is bound to the plan and to the step, and while nothing of the executor
    is in flight. *)
Record claimJustified (tr : list ExecutorEvent) (request : ExecutorLeaseClaimRequest) : Prop := {
  cj_run : exists runs plan current step principal leaseID who n1 n2,
    sawRuns runs tr /\ current ∈ runs
    /\ Forall (fun run => runsFor (cl_ExecutorID (lc_Request request)) run = true -> Forall (fun step => workActive step = false) (r_Steps run)) runs
    /\ runsFor (cl_ExecutorID (lc_Request request)) current = true /\ r_CancellationRequested current = false
    /\ xu_plan n1 (r_PlanID current) = Ok plan /\ xu_verifyRun n2 plan current = None
    /\ candidateStep (r_Steps current) = Some step
    /\ s_AdapterID step = cl_AdapterID (lc_Request request) /\ xu_resolve (s_AdapterID step) = Ok true
    /\ BindExternalExecutorIdentity principal (lc_Request request) plan step = Some who
    /\ deploymentVerified principal plan current step false tr
    /\ NewAttribution principal None = Ok (lc_Attribution request)
    /\ lc_Lease request = claimedLease plan current step (lc_Request request) leaseID (lc_At request);
  cj_request : exactClaimRequest (lc_Request request) = true
}.

(** A lease is renewed for the principal that is bound to it, on a running and
    admitted run. *)
Definition renewJustified (tr : list ExecutorEvent) (request : ExecutorLeaseRenewalRequest) : Prop :=
  let renewal := ln_Request request in
  exists principal lease current plan step,
    boundTo principal (er_LeaseID renewal) (er_Extensions renewal) lease current plan step tr
    /\ er_RecoveryEpoch renewal = l_RecoveryEpoch lease /\ er_BindingDigest renewal = l_BindingDigest lease
    /\ er_NonceDigest renewal = l_NonceDigest lease /\ r_Status current = "running"
    /\ (exists n, xu_verifyRun n plan current = None) /\ deploymentVerified principal plan current step false tr
    /\ NewAttribution principal None = Ok (ln_Attribution request).

(** What a receipt was taken under: the lease was read from the store, active
    and, by a reading of the clock, within its window. *)
Record receiptTaken (tr : list ExecutorEvent) (p : ExecutorReceiptPersistenceRequest) (principal : Principal)
    (lease : ExecutorLease) (current : Run) (plan : Plan) (step : RunStep) (operation : Operation) : Prop := {
  rt_bound : boundTo principal (rc_LeaseID (xp_Receipt (lp_Request p))) (xp_Extensions (lp_Request p)) lease current plan
               step tr;
  rt_admitted : exists n, xu_verifyRun n plan current = None;
  rt_deployment : deploymentVerified principal plan current step true tr;
  rt_operation : exactOperation plan step = Ok operation /\ xu_resolve (ao_AdapterID operation) = Ok true;
  rt_attribution : NewAttribution principal None = Ok (lp_Attribution p);
  rt_clock : exists n, lp_At p = TruncateSecond (UTC (xu_clock n));
  rt_receipt : xp_ExpectedBindingDigest (lp_Request p) = l_BindingDigest lease
               /\ ValidateExecutionReceiptBinding lease (xp_Receipt (lp_Request p)) = true;
  rt_window : l_Status lease = "active" /\ Before (lp_At p) (parseTime (l_LeaseExpiresAt lease)) = true
}.

(** A step is finished with a receipt that was taken within the window of its
    stored lease, was stored, and was then verified by the adapter; the calls of
    others apart, nothing happens in between. *)
Definition finishJustified (tr : list ExecutorEvent) (request : StepFinishRequest) : Prop :=
  let receipt := fq_Receipt request in
  exists pre env p store' principal lease current plan step operation v others,
    tr = ((pre ++ [Called env (Observe p)])
           ++ [ReceiptVerified operation (mkReceiptObservation (rc_Status receipt) (rc_ResultDigest receipt)) (v, None)])
          ++ interleaved others
    /\ xp_Receipt (lp_Request p) = receipt /\ ExecutorLease.RecordReceipt env p (storeAfter s0 pre) = (Ok receipt, store')
    /\ receiptTaken pre p principal lease current plan step operation
    /\ rv_Verified v = true /\ ValidateReceiptVerification v = None
    /\ rc_Status receipt <> "partial" /\ rc_Status receipt <> "running"
    /\ request = finishRequest current step lease receipt v (lp_At p) (lp_Attribution p).

(** A success is declared for a run of which all steps are verified, as the
    repository answered when the last of them was finished. *)
Definition successJustified (tr : list ExecutorEvent) (request : RunTransitionRequest) : Prop :=
  exists pre env finish updated store' post,
    tr = (pre ++ [Called env (Ordinary (CallFinish finish))]) ++ post
    /\ FinishStep env finish (storeAfter s0 pre) = ((updated, None), store')
    /\ allStepsVerified updated = true /\ tq_RunID request = r_RunID updated.

Definition callJustified (tr : list ExecutorEvent) (call : StoreCall) : Prop :=
  match call with
  | Ordinary (CallClaimLease request) => claimJustified tr request
  | Ordinary (CallRenewLease request) => renewJustified tr request
  | Ordinary (CallFinish request) => finishJustified tr request
  | Ordinary (CallTransition request) => tq_To request = "succeeded" -> successJustified tr request
  | Ordinary (CallPrune _) => False
  | _ => True
  end.

Definition allJustified (tr : list ExecutorEvent) : Prop :=
  forall pre env call post, tr = pre ++ Called env call :: post -> callJustified pre call.

Lemma allJustified_nil : allJustified [].
Proof. intros [|? ?] ? ? ? E; discriminate E. Qed.

Lemma allJustified_snoc tr event :
  allJustified tr -> (forall env call, event = Called env call -> callJustified tr call) -> allJustified (tr ++ [event]).
Proof.
  intros J Hc pre env call post E. destruct post as [|x post _] using rev_ind.
  - apply app_inj_tail in E as [-> ->]. by eapply Hc.
  - rewrite app_comm_cons, app_assoc in E. apply app_inj_tail in E as [-> _]. by eapply J.
Qed.

Lemma allJustified_interleaved tr others : allJustified tr -> allJustified (tr ++ interleaved others).
Proof.
  intros J. induction others as [|[e c] others IH] using rev_ind; [by rewrite app_nil_r|].
  unfold interleaved. rewrite map_app, app_assoc. apply allJustified_snoc; [exact IH|]. by intros env call [=].
Qed.

(** What is known from the trace: it stays true as the trace grows. *)
Class Growing (K : list ExecutorEvent -> Prop) : Prop := growing : forall tr tr', K tr -> K (tr ++ tr').

#[export] Instance growing_pure (C : Prop) : Growing (fun _ => C).
Proof. by intros tr tr'. Qed.
#[export] Instance growing_and K K' : Growing K -> Growing K' -> Growing (fun tr => K tr /\ K' tr).
Proof. intros G G' tr tr' [? ?]. split; [by apply G|by apply G']. Qed.
#[export] Instance growing_sawRuns runs : Growing (sawRuns runs).
Proof.
  intros tr tr' (pre & env & store' & post & -> & E). exists pre, env, store', (post ++ tr'). split; [|done].
  by rewrite <- app_assoc.
Qed.

#[export] Instance growing_sawRun id run : Growing (sawRun id run).
Proof.
  intros tr tr' (pre & env & row & post & -> & E). exists pre, env, row, (post ++ tr'). split; [|done].
  by rewrite <- app_assoc.
Qed.
#[export] Instance growing_sawLease id lease : Growing (sawLease id lease).
Proof.
  intros tr tr' (pre & env & row & post & -> & E). exists pre, env, row, (post ++ tr'). split; [|done].
  by rewrite <- app_assoc.
Qed.
#[export] Instance growing_deploymentVerified p plan current step receipt :
  Growing (deploymentVerified p plan current step receipt).
Proof.
  intros tr tr' D Hd. destruct (D Hd) as (J & fresh & n & Hs & F). split; [done|]. exists fresh, n. split; [by apply growing|done].
Qed.
#[export] Instance growing_boundTo p id evidence lease current plan step :
  Growing (boundTo p id evidence lease current plan step).
Proof. intros tr tr' []. constructor; try done; by apply growing. Qed.

Definition accounted (K : list ExecutorEvent -> Prop) : XAssertion := fun s tr =>
  s = storeAfter s0 tr /\ allJustified tr /\ K tr.

(** The facts survive a computation, whether it fails or not. *)
Definition keeps_ (K : list ExecutorEvent -> Prop) {A} (m : service A) : Prop :=
  hoare (accounted K) m (fun _ => accounted K) (accounted K).

Lemma accounted_weaken (K K' : list ExecutorEvent -> Prop) s tr :
  (forall tr, K tr -> K' tr) -> accounted K s tr -> accounted K' s tr.
Proof. intros HK (-> & J & Hk). split_and!; auto. Qed.

Lemma accounted_True K s tr : accounted K s tr -> accounted (fun _ => True) s tr.
Proof. by apply accounted_weaken. Qed.

Lemma accounted_called K `{!Growing K} s tr others env call :
  callJustified (tr ++ interleaved others) call -> accounted K s tr ->
  accounted K (performCall env call (performCalls others s)) ((tr ++ interleaved others) ++ [Called env call]).
Proof.
  intros Hc (-> & J & Hk). split_and!.
  - by rewrite storeAfter_called, storeAfter_others.
  - apply allJustified_snoc; [by apply allJustified_interleaved|]. intros ? ? E. injection E as _ <-. done.
  - by do 2 apply growing.
Qed.

Lemma preserves_bind K {A B} (m : service A) (f : A -> service B) : keeps_ K m -> (forall x, keeps_ K (f x)) -> keeps_ K (m ≫= f).
Proof. intros Hm Hf. eapply hoare_bind; [exact Hm|exact Hf]. Qed.

End Justified.

(** Walks through the code of a method: binds, answers and branches. *)
Ltac service_code :=
  repeat (intros; first
    [ solve [auto with executor]
    | apply preserves_bind
    | match goal with |- keeps_ _ _ (match ?x with _ => _ end) => destruct x end
    | match goal with |- keeps_ _ _ (let _ := _ in _) => cbv zeta end ]).

Section Kept.
Context `{Hasher} `{RunSchemas} `{ExecutorSurroundings}.
Variable s0 : Store RunTables.
Context (K : list ExecutorEvent -> Prop) `{!Growing K}.

#[local] Notation keeps := (keeps_ s0 K).

Lemma keeps_ret {A} (x : A) : keeps (mret x).
Proof. by apply hoare_ret. Qed.
Lemma preserves_fail {A} e : keeps (fail (A := A) e).
Proof. by apply hoare_fail. Qed.
Lemma preserves_lift {A} (r : result A) : keeps (lift r).
Proof. eapply hoare_weaken; [apply hoare_lift|done|by intros x s tr [_ ?]|done]. Qed.
Lemma preserves_check b e : keeps (check b e).
Proof. apply preserves_lift. Qed.
Lemma keeps_consult {A} (oracle : nat -> A) : keeps (consult oracle).
Proof. eapply hoare_weaken; [apply (hoare_consult _ _ (accounted s0 K))|done|by intros x s tr [_ ?]|done]. Qed.
#[local] Hint Resolve keeps_ret preserves_fail preserves_lift preserves_check keeps_consult : executor.

Lemma keeps_now : keeps executorNow.
Proof. unfold executorNow. service_code. Qed.
Lemma keeps_planOf id : keeps (planOf id).
Proof. unfold planOf, demand. service_code. Qed.
Lemma keeps_verifyRunAdmission plan run : keeps (verifyRunAdmission plan run).
Proof. unfold verifyRunAdmission, accept. service_code. Qed.
Lemma keeps_resolve id : keeps (resolve id).
Proof. apply preserves_lift. Qed.

(** A call that rests on nothing. *)
Lemma keeps_demand {A} call (method : RunEnv -> Store RunTables -> result A * Store RunTables) :
  (forall tr, callJustified s0 tr call) -> (forall env s, (method env s).2 = performCall env call s) ->
  keeps (demand (request_ call method)).
Proof.
  intros Hc Hm. apply hoare_demand. intros s tr others env Hi.
  pose proof (accounted_called s0 K s tr others env call (Hc _) Hi) as Hk. rewrite <- Hm in Hk.
  destruct (method env _) as [[x|e] s']; exact Hk.
Qed.

Lemma keeps_obtain call (method : RunEnv -> Store RunTables -> Outcome * Store RunTables) :
  (forall tr, callJustified s0 tr call) -> (forall env s, (method env s).2 = performCall env call s) ->
  keeps (obtain (request_ call method)).
Proof.
  intros Hc Hm. apply hoare_obtain. intros s tr others env Hi.
  pose proof (accounted_called s0 K s tr others env call (Hc _) Hi) as Hk. rewrite <- Hm in Hk.
  destruct (method env _) as [[run [e|]] s']; exact Hk.
Qed.

Lemma keeps_readRun id : keeps (readRun id). Proof. by apply keeps_demand. Qed.
Lemma keeps_activeRunsOf : keeps activeRunsOf. Proof. by apply keeps_demand. Qed.
Lemma keeps_transitionTo request : tq_To request <> "succeeded" -> keeps (transitionTo request).
Proof. intros Hto. apply keeps_obtain; [by intros tr ?|done]. Qed.
Lemma keeps_markUnknown id step t a : keeps (markUnknown id step t a). Proof. by apply keeps_obtain. Qed.
Lemma keeps_release id t : keeps (release id t). Proof. by apply keeps_demand. Qed.
Lemma keeps_readLease id : keeps (readLease id). Proof. by apply keeps_demand. Qed.
Lemma keeps_expireStored request : keeps (expireStored request). Proof. by apply keeps_demand. Qed.
Lemma keeps_observe request : keeps (observe request). Proof. by apply keeps_demand. Qed.
Lemma keeps_deny request : keeps (deny request). Proof. by apply keeps_demand. Qed.
#[local] Hint Resolve keeps_now keeps_planOf keeps_verifyRunAdmission keeps_resolve keeps_readRun keeps_activeRunsOf
  keeps_markUnknown keeps_release keeps_readLease keeps_expireStored keeps_observe keeps_deny : executor.

Lemma keeps_attribution p : keeps (externalAttribution p).
Proof. unfold externalAttribution. service_code. Qed.
#[local] Hint Resolve keeps_attribution : executor.
Lemma keeps_denial p reason target : keeps (recordAuthorizationDenial p reason target).
Proof. unfold recordAuthorizationDenial. service_code. Qed.
#[local] Hint Resolve keeps_denial : executor.
Lemma keeps_denied {A} p reason target : keeps (authorizationDenied (A := A) p reason target).
Proof. unfold authorizationDenied. service_code. Qed.
#[local] Hint Resolve keeps_denied : executor.
Lemma keeps_RecordExecutorDenial p reason target : keeps (RecordExecutorDenial p reason target).
Proof. unfold RecordExecutorDenial. service_code. Qed.

Lemma keeps_deployment ctx p plan current step receipt : keeps (verifyDeploymentJob ctx p plan current step receipt).
Proof. unfold verifyDeploymentJob, deploymentJobVerified. service_code. Qed.
#[local] Hint Resolve keeps_deployment : executor.

Lemma keeps_partial request_ : tq_To request_ <> "succeeded" -> keeps (transitionTo request_;; mret tt).
Proof. intros Hto. apply preserves_bind; [by apply keeps_transitionTo|]. service_code. Qed.

Lemma keeps_recovery {A} current step lease a : keeps (recoveryRequired (A := A) current step lease a).
Proof.
  unfold recoveryRequired. apply preserves_bind; [service_code|]. intros updated.
  apply preserves_bind; [|service_code]. destruct (_ && _); [|service_code].
  apply preserves_bind; [service_code|]. intros. by apply keeps_partial.
Qed.
#[local] Hint Resolve keeps_recovery : executor.

Lemma keeps_boundLease ctx p id evidence : keeps (boundLease ctx p id evidence).
Proof. unfold boundLease. service_code. Qed.

End Kept.

#[export] Hint Resolve keeps_ret preserves_fail preserves_lift preserves_check keeps_consult keeps_now keeps_planOf
  keeps_verifyRunAdmission keeps_resolve keeps_readRun keeps_activeRunsOf keeps_markUnknown keeps_release keeps_readLease
  keeps_expireStored keeps_observe keeps_deny keeps_attribution keeps_denial keeps_denied
  keeps_RecordExecutorDenial keeps_deployment keeps_recovery keeps_boundLease : executor.
#[export] Hint Extern 0 (Growing _) => typeclasses eauto : executor.

(** ** The operations *)

Section Operations.
Context `{Hasher} `{RunSchemas} `{ExecutorSurroundings}.
Variable s0 : Store RunTables.

(** The account, whatever else is known. *)
Notation account := (accounted s0 (fun _ => True)).
Notation accounts m := (keeps_ s0 (fun _ => True) m).

(** A computation that keeps what is known, in front of one that uses it. *)
Lemma hoare_keeps K {A B} (m : service A) (f : A -> service B) Q :
  keeps_ s0 K m -> (forall x, hoare (accounted s0 K) (f x) Q account) -> hoare (accounted s0 K) (m ≫= f) Q account.
Proof.
  intros Hm Hf. eapply hoare_bind; [|exact Hf]. eapply hoare_weaken; [exact Hm|done..|]. intros s tr. apply accounted_True.
Qed.

Lemma hoare_kept K {A} (m : service A) : keeps_ s0 K m -> hoare (accounted s0 K) m (fun _ => account) account.
Proof. intros Hm. eapply hoare_weaken; [exact Hm|done|intros ? s tr; apply accounted_True|intros s tr; apply accounted_True]. Qed.

Lemma hoare_returned (P : XAssertion) {A B} (x : A) (f : A -> service B) Q E :
  hoare P (f x) Q E -> hoare P (mret x ≫= f) Q E.
Proof. done. Qed.

Lemma hoare_failed K {A B} err (f : A -> service B) Q : hoare (accounted s0 K) (fail err ≫= f) Q account.
Proof. intros w Hw. by eapply accounted_True. Qed.

Lemma hoare_lifted K {A B} (r : result A) (f : A -> service B) Q :
  (forall x, r = Ok x -> hoare (accounted s0 K) (f x) Q account) -> hoare (accounted s0 K) (lift r ≫= f) Q account.
Proof.
  intros Hf w Hw. unfold mbind, action_bind, lift. destruct r as [x|e]; [by apply Hf|].
  by eapply accounted_True.
Qed.

Lemma hoare_checked K {B} b e (f : unit -> service B) Q :
  (b = true -> hoare (accounted s0 K) (f tt) Q account) -> hoare (accounted s0 K) (check b e ≫= f) Q account.
Proof. intros Hf. apply hoare_lifted. intros [] Hb. apply Hf. by apply require_Ok in Hb. Qed.

(** What an oracle answered. *)
Lemma hoare_planOf K {B} id (f : Plan -> service B) Q :
  (forall n plan, xu_plan n id = Ok plan -> hoare (accounted s0 K) (f plan) Q account) ->
  hoare (accounted s0 K) (planOf id ≫= f) Q account.
Proof.
  intros Hf w Hw. unfold planOf, demand, consult, lift, mbind, action_bind. cbn.
  destruct (xu_plan (xw_tick w) id) as [plan|err] eqn:E; [|by eapply accounted_True].
  by apply (Hf _ _ E (mkExecutorWorld (xw_store w) (S (xw_tick w)) (xw_trace w))).
Qed.

Lemma hoare_admission K plan run :
  hoare (accounted s0 K) (verifyRunAdmission plan run)
    (fun _ s tr => (exists n, xu_verifyRun n plan run = None) /\ accounted s0 K s tr) account.
Proof.
  intros w Hw. unfold verifyRunAdmission, accept, consult, fail, mret, action_ret, mbind, action_bind. cbn.
  destruct (xu_verifyRun (xw_tick w) plan run) as [err|] eqn:E; [by eapply accounted_True|]. by split; [eexists|].
Qed.

Lemma hoare_admitted K {B} plan run (f : unit -> service B) Q :
  (forall n, xu_verifyRun n plan run = None -> hoare (accounted s0 K) (f tt) Q account) ->
  hoare (accounted s0 K) (verifyRunAdmission plan run ≫= f) Q account.
Proof.
  intros Hf w Hw. unfold verifyRunAdmission, accept, consult, fail, mret, action_ret, mbind, action_bind. cbn.
  destruct (xu_verifyRun (xw_tick w) plan run) as [err|] eqn:E; [by eapply accounted_True|].
  by apply (Hf _ E (mkExecutorWorld (xw_store w) (S (xw_tick w)) (xw_trace w))).
Qed.

(** What a call of a repository showed. *)
Lemma hoare_seen K `{!Growing K} {A} call (method : RunEnv -> Store RunTables -> result A * Store RunTables)
    (seen : A -> list ExecutorEvent -> Prop) :
  (forall tr, callJustified s0 tr call) -> (forall env s, (method env s).2 = performCall env call s) ->
  (forall x tr env s', method env (storeAfter s0 tr) = (Ok x, s') -> seen x (tr ++ [Called env call])) ->
  hoare (accounted s0 K) (demand (request_ call method)) (fun x => accounted s0 (fun tr => K tr /\ seen x tr)) account.
Proof.
  intros Hc Hm Hs. apply hoare_demand. intros s tr others env Hi.
  pose proof (accounted_called s0 K s tr others env call (Hc _) Hi) as Hk. rewrite <- Hm in Hk.
  destruct Hi as [-> _]. rewrite <- storeAfter_others in Hk |- *.
  destruct (method env _) as [[x|e] s'] eqn:E; [|by eapply accounted_True].
  destruct Hk as (Hst & Hj & Hk). split_and!; [done..|]. by eapply Hs.
Qed.

Lemma hoare_readRun K `{!Growing K} id :
  hoare (accounted s0 K) (readRun id) (fun run => accounted s0 (fun tr => K tr /\ sawRun s0 id run tr)) account.
Proof.
  apply hoare_seen; [done..|]. intros run tr env s' (row & E & Hd)%Get_Ok. by exists tr, env, row, [].
Qed.

Lemma GetLease_stored env id store lease store' : ExecutorLease.Get env id store = (Ok lease, store') ->
  exists row, target_execution_leases (tables (st_db store)) !! id = Some row
  /\ le_Document row = lease /\ le_Status row = l_Status lease.
Proof.
  unfold ExecutorLease.Get. intros E. apply action_bind_Ok in E as ([] & s1 & E1 & E). apply check_Ok in E1 as [_ ->].
  apply rows_Ok in E as (row & Er & Ed). apply Read_Ok, of_option_Ok in Er. unfold externalLease in Er.
  apply bind_Some in Er as (row' & Er & Ek). case_match; [|done]. simplify_eq. exists row.
  unfold decodeStoredExecutorLease in Ed. result_hyps. split_and!; congruence.
Qed.

Lemma hoare_readLease K `{!Growing K} id :
  hoare (accounted s0 K) (readLease id) (fun lease => accounted s0 (fun tr => K tr /\ sawLease s0 id lease tr)) account.
Proof.
  apply hoare_seen; [done..|]. intros lease tr env s' (row & E & Hd & Hs)%GetLease_stored. by exists tr, env, row, [].
Qed.

(** ** Deployments *)

Lemma hoare_denied K `{!Growing K} {A} p reason target Q :
  hoare (accounted s0 K) (authorizationDenied (A := A) p reason target) Q account.
Proof.
  intros w Hw. pose proof (keeps_denial s0 K p reason target w Hw) as Hd.
  unfold authorizationDenied, mbind, action_bind. destruct (recordAuthorizationDenial _ _ _ w) as [[x|e] w']; by eapply accounted_True.
Qed.

Lemma hoare_confirmed K `{!Growing K} ctx p plan step admission : xu_deployment = Some admission ->
  hoare (accounted s0 K) (deploymentJobVerified ctx p plan step admission)
    (fun confirmed s tr => (confirmed = true -> jobConfirmed p plan step) /\ accounted s0 K s tr) account.
Proof.
  intros Ha. unfold deploymentJobVerified.
  assert (Hno : hoare (accounted s0 K) (mret false) (fun confirmed s tr =>
    (confirmed = true -> jobConfirmed p plan step) /\ accounted s0 K s tr) account) by by apply hoare_ret.
  destruct ctx as [proof|].
  - destruct (da_managed admission) as [guard|] eqn:Eg; [|exact Hno]. destruct (_ || _) eqn:E; [exact Hno|]. bool_hyps.
    eapply hoare_bind; [apply hoare_consult|]. intros actual. apply hoare_pure. intros [n En]. apply hoare_ret.
    intros s tr Hi. split; [|done]. intros Hc. destruct actual as [actual|]; [|done]. bool_hyps. subst actual.
    exists admission, n. split; [done|]. left. exists proof, guard. by split_and!.
  - destruct (_ == _) eqn:E; [exact Hno|]. bool_hyps.
    eapply hoare_bind; [apply hoare_consult|]. intros err. apply hoare_pure. intros [n En]. apply hoare_ret.
    intros s tr Hi. split; [|done]. intros Hc. destruct err; [done|]. exists admission, n. split; [done|]. by right.
Qed.

Lemma hoare_deployment K `{!Growing K} ctx p plan current step receipt :
  hoare (accounted s0 K) (verifyDeploymentJob ctx p plan current step receipt)
    (fun _ => accounted s0 (fun tr => K tr /\ deploymentVerified s0 p plan current step receipt tr)) account.
Proof.
  unfold verifyDeploymentJob. destruct (isDeployment (s_OperationType step)) eqn:Hd; cbn [negb].
  2: { apply hoare_ret. intros s tr. apply accounted_weaken. intros tr' Hk. split; [done|]. intros Hin.
       unfold isDeployment in Hd. by bool_hyps. }
  destruct xu_deployment as [admission|] eqn:Ha; [|by apply hoare_denied].
  eapply hoare_bind; [by apply hoare_confirmed|]. intros confirmed. apply hoare_pure. intros Hc.
  destruct confirmed; cbn [negb]; [|by apply hoare_denied].
  eapply hoare_bind; [by apply hoare_readRun|]. intros fresh. destruct (_ || _) eqn:E; [apply hoare_denied; apply _|]. bool_hyps.
  eapply hoare_weaken; [apply (hoare_admission (fun tr => K tr /\ sawRun s0 (r_RunID current) fresh tr))|done| |done].
  intros [] s tr [[n Hn] Hi]. eapply accounted_weaken; [|exact Hi]. intros tr' [Hk Hs]. split; [done|]. intros _.
  split; [by apply Hc|]. exists fresh, n. split_and!; try done.
  intros Hcan. rewrite Hcan in *. by destruct receipt.
Qed.

Lemma keeps_reconcileLeases K `{!Growing K} expired : keeps_ s0 K (reconcileLeases expired).
Proof.
  induction expired as [|lease rest IH]; cbn [reconcileLeases]; [service_code|].
  apply preserves_bind; [auto with executor|]. intros current. destruct (findRunStep _ _) as [step|]; [|exact IH].
  destruct (_ || _); [exact IH|]. intros w Hw.
  pose proof (keeps_recovery s0 K (A := unit) current step lease systemAttribution w Hw) as Hr.
  destruct (recoveryRequired _ _ _ _ w) as [[x|e] w1]; [exact Hr|]. destruct (_ == _); [|exact Hr]. by apply IH.
Qed.

Lemma keeps_ReconcileLeases K `{!Growing K} : keeps_ s0 K ReconcileLeases.
Proof. unfold ReconcileLeases. pose proof (keeps_reconcileLeases K). service_code. Qed.
#[local] Hint Resolve keeps_ReconcileLeases : executor.

(** What [Claim] knows when it takes up a run. *)
Definition chosen (request : ExecutorClaimRequest) (runs : list Run) (tr : list ExecutorEvent) : Prop :=
  sawRuns s0 runs tr
  /\ Forall (fun run => runsFor (cl_ExecutorID request) run = true -> Forall (fun step => workActive step = false) (r_Steps run)) runs.

#[local] Instance growing_chosen request runs : Growing (chosen request runs).
Proof. unfold chosen. apply _. Qed.

Lemma claimStep_justified ctx p request plan current step runs n1 n2 :
  exactClaimRequest request = true -> current ∈ runs -> runsFor (cl_ExecutorID request) current = true ->
  r_CancellationRequested current = false -> xu_plan n1 (r_PlanID current) = Ok plan -> xu_verifyRun n2 plan current = None ->
  candidateStep (r_Steps current) = Some step ->
  hoare (accounted s0 (chosen request runs)) (claimStep ctx p request plan current step) (fun _ => account) account.
Proof.
  intros Hx Hin Hr Hc Hp Hv Hs. unfold claimStep. destruct (s_AdapterID step != cl_AdapterID request) eqn:Ha.
  { apply hoare_kept. service_code. }
  destruct (BindExternalExecutorIdentity _ _ _ _) as [who|] eqn:Hw; [|apply hoare_kept; service_code].
  eapply hoare_bind; [apply hoare_deployment; apply _|]. intros ?. apply hoare_lifted. intros verifies Hres.
  apply hoare_checked. intros ->. apply hoare_keeps; [service_code|]. intros at_.
  apply hoare_keeps; [service_code|]. intros [[leaseID nonce]|err]; [|apply hoare_kept; service_code].
  unfold externalAttribution. destruct (NewAttribution p None) as [a|err] eqn:Hattr.
  2: { apply hoare_failed. }
  apply hoare_returned. apply hoare_demand. intros s tr others env Hi. pose proof Hi as (_ & _ & (Hsaw & Hidle) & Hd).
  pose proof (accounted_called s0 (fun tr => chosen request runs tr /\ deploymentVerified s0 p plan current step false tr) s tr others env (Ordinary (CallClaimLease (mkLeaseClaim request
    (claimedLease plan current step request leaseID at_) at_ a)))) as Hk.
  cbn [performCall perform] in Hk. ospecialize (Hk _ Hi).
  { constructor; [|exact Hx]. exists runs, plan, current, step, p, leaseID, who, n1, n2. bool_hyps.
    split_and!; try done; by apply growing. }
  destruct (Claim _ _ _) as [[l|err] s']; eapply accounted_True; exact Hk.
Qed.

Lemma claimFrom_justified ctx p request all runs :
  exactClaimRequest request = true -> (forall run, run ∈ runs -> run ∈ all) ->
  hoare (accounted s0 (chosen request all)) (claimFrom ctx p request runs) (fun _ => account) account.
Proof.
  intros Hx. induction runs as [|current rest IH]; intros Hsub; cbn [claimFrom]; [apply hoare_kept; service_code|].
  assert (IH' : hoare (accounted s0 (chosen request all)) (claimFrom ctx p request rest) (fun _ => account) account).
  { apply IH. intros run Hr. apply Hsub. by right. }
  destruct (_ || _) eqn:Hg; [exact IH'|]. bool_hyps.
  apply hoare_planOf. intros n1 plan Hp. destruct (_ && _); [apply hoare_kept; service_code|].
  apply hoare_admitted. intros n2 Hv. destruct (candidateStep _) as [step|] eqn:Hs; [|exact IH'].
  eapply claimStep_justified; try done. apply Hsub. by left.
Qed.

Lemma ClaimWork_justified ctx p request : accounts (ClaimWork ctx p request).
Proof.
  unfold ClaimWork. apply hoare_checked. intros Hx. apply hoare_checked. intros _.
  apply hoare_keeps; [service_code|]. intros _.
  apply hoare_bind with (R := fun runs => accounted s0 (sawRuns s0 runs)).
  - apply hoare_demand. intros s tr others env Hi.
    pose proof (accounted_called s0 (fun _ => True) s tr others env (Ordinary CallActive) I Hi) as (Hs & Hj & _).
    cbn [performCall perform] in Hs. destruct Hi as [-> _]. rewrite <- storeAfter_others in Hs |- *.
    destruct (ActiveRuns env (storeAfter s0 (tr ++ interleaved others))) as [[runs|err] s'] eqn:E; [|by split_and!].
    split_and!; [done..|]. by exists (tr ++ interleaved others), env, s', [].
  - intros runs. apply hoare_checked. intros Hidle. apply hoare_weaken with (P' := accounted s0 (chosen request runs))
      (Q' := fun _ => account) (E' := account); [|intros s tr; apply accounted_weaken|done..].
    + apply claimFrom_justified; [done|]. intros run. by rewrite merge_sort_Permutation.
    + intros tr' Hsaw. split; [done|]. rewrite <- (merge_sort_Permutation olderRun runs), Forall_forall.
      intros run Hin Hr. apply Forall_forall. intros step Hs. bool_hyps. apply not_true_is_false. intros Ha.
      assert (Hex : existsb (fun run => runsFor (cl_ExecutorID request) run && existsb workActive (r_Steps run))
                      (merge_sort olderRun runs) = true).
      { apply existsb_exists. exists run. split; [by apply list_elem_of_In|]. rewrite Hr. apply existsb_exists. exists step.
        split; [by apply list_elem_of_In|done]. }
      congruence.
Qed.

(** What a principal is bound to. *)
Lemma boundLease_binds ctx p id evidence :
  hoare account (boundLease ctx p id evidence) (fun '(lease, current, plan, step) =>
    accounted s0 (boundTo s0 p id evidence lease current plan step)) account.
Proof.
  unfold boundLease. apply hoare_checked. intros _.
  eapply hoare_bind; [apply hoare_readLease; apply _|]. intros lease.
  eapply hoare_bind; [apply hoare_readRun; apply _|]. intros current. apply hoare_planOf. intros n plan Hp.
  destruct (findRunStep _ _) as [step|] eqn:Hs; [|by apply hoare_fail; intros s tr; apply accounted_True].
  apply hoare_checked. intros Hb. cbv zeta. destruct (BindExternalExecutorIdentity _ _ _ _) as [who|] eqn:Hw.
  - apply hoare_ret. intros s tr. apply accounted_weaken. intros tr' [[_ Hl] Hr]. constructor; eauto.
  - apply hoare_denied. apply _.
Qed.

Lemma RenewWork_justified ctx p request : accounts (RenewWork ctx p request).
Proof.
  unfold RenewWork. apply hoare_checked. intros _. apply hoare_keeps; [service_code|]. intros _.
  eapply hoare_bind; [apply boundLease_binds|]. intros [[[lease current] plan] step].
  destruct (_ != _) eqn:E1; [by apply hoare_fail; intros s tr; apply accounted_True|].
  destruct (_ || _) eqn:E2; [apply hoare_denied; apply _|]. bool_hyps. apply hoare_admitted. intros n Hv.
  eapply hoare_bind; [apply hoare_deployment; apply _|]. intros ?. apply hoare_keeps; [service_code|].
  intros [[leaseID nonce]|err]; [|apply hoare_kept; service_code].
  unfold externalAttribution. destruct (NewAttribution p None) as [a|err] eqn:Ha; [|apply hoare_failed].
  apply hoare_returned. apply hoare_keeps; [service_code|]. intros at_.
  apply hoare_demand. intros s tr others env Hi. pose proof Hi as (_ & _ & Hb & Hd).
  pose proof (accounted_called s0 (fun tr => boundTo s0 p (er_LeaseID request) (er_Extensions request) lease current plan step tr
    /\ deploymentVerified s0 p plan current step false tr) s tr others env
    (Ordinary (CallRenewLease (mkLeaseRenewal request nonce at_ a)))) as Hk.
  cbn [performCall perform] in Hk. ospecialize (Hk _ Hi).
  { exists p, lease, current, plan, step. split_and!; try done; [by apply growing|by exists n|by apply growing]. }
  destruct (Renew _ _ _) as [[l|err] s']; eapply accounted_True; exact Hk.
Qed.

(** The step was finished, and this is what the repository answered. *)
Definition finishedAs (updated : Run) (tr : list ExecutorEvent) : Prop :=
  exists pre env finish store' post, tr = (pre ++ [Called env (Ordinary (CallFinish finish))]) ++ post
    /\ FinishStep env finish (storeAfter s0 pre) = ((updated, None), store').

#[local] Instance growing_finishedAs updated : Growing (finishedAs updated).
Proof.
  intros tr tr' (pre & env & finish & store' & post & -> & E). exists pre, env, finish, store', (post ++ tr').
  split; [|done]. by rewrite <- app_assoc.
Qed.

Lemma concludeReceipt_justified updated receipt at_ a :
  hoare (accounted s0 (finishedAs updated)) (concludeReceipt updated receipt at_ a) (fun _ => account) account.
Proof.
  assert (Hreport : forall request, tq_To request <> "succeeded" ->
    hoare (accounted s0 (finishedAs updated)) (fun w =>
      match transitionTo request w with
      | (Ok _, w) => (Ok (receipt, None), w)
      | (Err err, w) => (Ok (receipt, Some err), w)
      end) (fun _ => account) account).
  { intros request Hto w Hw. pose proof (keeps_transitionTo s0 (finishedAs updated) request Hto w Hw) as Hk.
    destruct (transitionTo request w) as [[x|err] w1]; by eapply accounted_True. }
  unfold concludeReceipt. cbv zeta. destruct (_ == _); [by apply Hreport|]. destruct (_ && _); [by apply Hreport|].
  apply hoare_bind with (R := fun _ => account); [|intros ?; apply hoare_kept; service_code].
  destruct (allStepsVerified updated) eqn:Hall; [|apply hoare_kept; service_code].
  apply hoare_bind with (R := fun _ => account); [|intros ?; apply hoare_kept; service_code].
  apply hoare_obtain. intros s tr others env Hi. pose proof Hi as (_ & _ & Hf).
  pose proof (accounted_called s0 (finishedAs updated) s tr others env (Ordinary (CallTransition (succeedRun updated
    (digest ["run-verification"; r_RunID updated; r_PlanDigest updated]) at_ a)))) as Hk.
  ospecialize (Hk _ Hi).
  { intros _. apply (growing tr (interleaved others)) in Hf as (pre & e & finish & store' & post & Htr & E).
    exists pre, e, finish, updated, store', post. by split_and!. }
  cbn [performCall perform] in Hk. destruct (TransitionRun _ _ _) as [[run [err|]] s']; by eapply accounted_True.
Qed.

(** The last thing the service did was to store the receipt; [K] was known
    before. *)
Definition justObserved (K : list ExecutorEvent -> Prop) (p : ExecutorReceiptPersistenceRequest) (tr : list ExecutorEvent)
    : Prop :=
  exists pre env store', tr = pre ++ [Called env (Observe p)] /\ K pre
    /\ ExecutorLease.RecordReceipt env p (storeAfter s0 pre) = (Ok (xp_Receipt (lp_Request p)), store').

Lemma RecordReceipt_answer env p store receipt store' :
  ExecutorLease.RecordReceipt env p store = (Ok receipt, store') -> receipt = xp_Receipt (lp_Request p).
Proof.
  unfold ExecutorLease.RecordReceipt. cbv zeta. rewrite !check_bind. repeat (case_match; [|discriminate]). intros E.
  apply action_bind_Ok in E as (intent & s1 & _ & E). apply action_bind_Ok in E as ([] & s2 & _ & E). by injection E as <-.
Qed.

Lemma observe_observed K `{!Growing K} p :
  hoare (accounted s0 K) (observe p;; mret tt) (fun _ s tr => account s tr /\ justObserved K p tr) account.
Proof.
  apply hoare_bind with (R := fun _ s tr => account s tr /\ justObserved K p tr); [|intros ?; by apply hoare_ret].
  apply hoare_demand. intros s tr others env Hi.
  pose proof (accounted_called s0 K s tr others env (Observe p) I Hi) as Hk. cbn [performCall] in Hk.
  destruct Hi as (-> & _ & HK). rewrite <- storeAfter_others in Hk |- *.
  destruct (ExecutorLease.RecordReceipt _ _ _) as [[receipt|err] s'] eqn:E; [|by eapply accounted_True].
  split; [by eapply accounted_True|]. exists (tr ++ interleaved others), env, s'. split; [done|].
  split; [by apply growing|]. by rewrite <- (RecordReceipt_answer _ _ _ _ _ E).
Qed.

(** The last thing the service did was to have the stored receipt verified. *)
Definition justVerified (K : list ExecutorEvent -> Prop) (p : ExecutorReceiptPersistenceRequest) (operation : Operation)
    (answer : ReceiptVerification * option error) (tr : list ExecutorEvent) : Prop :=
  let receipt := xp_Receipt (lp_Request p) in
  exists tr', justObserved K p tr'
    /\ tr = tr' ++ [ReceiptVerified operation (mkReceiptObservation (rc_Status receipt) (rc_ResultDigest receipt)) answer].

Lemma verifyReceipt_verified K p operation (exact : bool) :
  let receipt := xp_Receipt (lp_Request p) in
  hoare (fun s tr => account s tr /\ (exact = true -> justObserved K p tr))
    (verifyReceipt operation (mkReceiptObservation (rc_Status receipt) (rc_ResultDigest receipt)))
    (fun answer s tr => account s tr /\ (exact = true -> justVerified K p operation answer tr)) account.
Proof.
  intros receipt w [(Hs & Hj & _) Ho]. cbn. split; [split_and!|].
  - by rewrite storeAfter_app.
  - apply allJustified_snoc; [done|]. by intros env call [=].
  - done.
  - intros He. exists (xw_trace w). auto.
Qed.

Lemma finish_justified (K : list ExecutorEvent -> Prop) principal plan current step lease p operation v :
  let receipt := xp_Receipt (lp_Request p) in
  (forall tr, K tr -> receiptTaken s0 tr p principal lease current plan step operation) ->
  verdict (v, None) (rc_Status receipt) = true -> rc_Status receipt <> "running" ->
  hoare (fun s tr => account s tr /\ justVerified K p operation (v, None) tr)
    (finish (finishRequest current step lease receipt v (lp_At p) (lp_Attribution p)))
    (fun updated => accounted s0 (finishedAs updated)) account.
Proof.
  intros receipt Htaken Hv Hr. unfold verdict in *. bool_hyps. apply hoare_obtain.
  intros s tr others env [Hi (tr' & (pre & e & store' & -> & HK & Hrec) & Htr)].
  set (request := finishRequest current step lease receipt v (lp_At p) (lp_Attribution p)).
  assert (Hj : finishJustified s0 (tr ++ interleaved others) request).
  { exists pre, e, p, store', principal, lease, current, plan, step, operation, v, others. rewrite Htr. cbn.
    assert (Hn : ValidateReceiptVerification v = None) by by apply isNil_None.
    split_and!; try done. by apply Htaken. }
  pose proof (accounted_called s0 (fun _ => True) s tr others env (Ordinary (CallFinish request)) Hj Hi) as (Hk & Ha & _).
  cbn [performCall perform] in Hk. destruct Hi as [-> _]. rewrite <- storeAfter_others in Hk |- *.
  destruct (FinishStep _ _ _) as [[run [err|]] s'] eqn:E; split_and!; try done.
  exists (tr ++ interleaved others), env, request, s', [].
  split; [by rewrite app_nil_r|done].
Qed.

(** What follows once the lease, the run, the plan and the step are known and
    the receipt may be taken. *)
Lemma takeReceipt_justified K `{!Growing K} principal plan current step lease operation persist :
  let receipt := xp_Receipt (lp_Request persist) in
  let exact := (xp_ExpectedBindingDigest (lp_Request persist) == l_BindingDigest lease)
               && ValidateExecutionReceiptBinding lease receipt in
  (forall tr, K tr -> inWindow lease (lp_At persist) exact = true ->
     receiptTaken s0 tr persist principal lease current plan step operation) ->
  hoare (accounted s0 K)
    ((if exact then observe persist;; mret tt else recordAuthorizationDenial principal "receipt-binding" (l_LeaseID lease));;
     (let observation := mkReceiptObservation (rc_Status receipt) (rc_ResultDigest receipt) in
      if negb (isNil (ValidateReceiptObservation observation)) then recoveryRequired current step lease (lp_Attribution persist)
      else if rc_Status receipt == "running" then
        if inWindow lease (lp_At persist) exact then mret (receipt, None)
        else recoveryRequired current step lease (lp_Attribution persist)
      else
        answer ← verifyReceipt operation observation;
        if negb (inWindow lease (lp_At persist) exact && verdict answer (rc_Status receipt))
        then recoveryRequired current step lease (lp_Attribution persist)
        else
          updated ← finish (finishRequest current step lease receipt answer.1 (lp_At persist) (lp_Attribution persist));
          release (l_LeaseID lease) (lp_At persist);;
          concludeReceipt updated receipt (lp_At persist) (lp_Attribution persist)))
    (fun _ => account) account.
Proof.
  intros receipt exact Htaken. cbv zeta.
  apply hoare_bind with (R := fun _ s tr => account s tr /\ (exact = true -> justObserved K persist tr)).
  { destruct exact; [eapply hoare_weaken; [apply (observe_observed K persist)|done|intros ? s tr [? ?]; by split|done]|].
    eapply hoare_weaken; [apply (hoare_kept K); service_code|done| |done]. intros ? s tr Hi. by split. }
  intros ?. assert (Hrecovery : forall P, (forall s tr, P s tr -> account s tr) ->
    hoare P (recoveryRequired (A := ExecutionReceipt * option error) current step lease (lp_Attribution persist))
      (fun _ => account) account).
  { intros P HP. eapply hoare_weaken; [apply (hoare_kept (fun _ => True)); service_code|exact HP|done..]. }
  destruct (negb _); [by apply Hrecovery; intros s tr [? _]|].
  destruct (rc_Status receipt == "running") eqn:Hr.
  { destruct (inWindow _ _ _); [by apply hoare_ret; intros s tr [? _]|by apply Hrecovery; intros s tr [? _]]. }
  bool_hyps. eapply hoare_bind; [apply (verifyReceipt_verified K persist operation exact)|]. intros [v err].
  destruct (inWindow lease (lp_At persist) exact && _) eqn:Hv; cbn [negb]; [|by apply Hrecovery; intros s tr [? _]].
  apply andb_true_iff in Hv as [Hw Hv].
  assert (He : exact = true) by (unfold inWindow in Hw; by bool_hyps).
  assert (Hnil : err = None) by (unfold verdict in Hv; bool_hyps; by apply isNil_None). subst err.
  eapply hoare_bind.
  - eapply hoare_weaken; [apply (finish_justified K principal plan current step lease persist operation v)| |done|done];
      [by intros tr HK; apply Htaken|done|done|]. intros s tr [? Hj]. split; [done|by apply Hj].
  - intros updated. apply hoare_keeps; [service_code|]. intros ?. apply concludeReceipt_justified.
Qed.

Lemma hoare_executorNow K {B} (f : Time -> service B) Q :
  (forall n, hoare (accounted s0 K) (f (TruncateSecond (UTC (xu_clock n)))) Q account) ->
  hoare (accounted s0 K) (executorNow ≫= f) Q account.
Proof.
  intros Hf w Hw. unfold executorNow, consult, mret, action_ret, mbind, action_bind. cbn.
  by apply (Hf _ (mkExecutorWorld (xw_store w) (S (xw_tick w)) (xw_trace w))).
Qed.

Lemma SubmitReceipt_justified ctx p request : accounts (SubmitReceipt ctx p request).
Proof.
  unfold SubmitReceipt. cbv zeta. apply hoare_checked. intros _.
  eapply hoare_bind; [apply boundLease_binds|]. intros [[[lease current] plan] step].
  apply hoare_admitted. intros n Hadm.
  eapply hoare_bind; [apply hoare_deployment; apply _|]. intros ?.
  apply hoare_lifted. intros operation Ho. apply hoare_lifted. intros verifies Hres. apply hoare_checked. intros ->.
  unfold externalAttribution. destruct (NewAttribution p None) as [a|err] eqn:Ha; [|apply hoare_failed].
  apply hoare_returned. apply hoare_executorNow. intros m.
  set (at_ := TruncateSecond (UTC (xu_clock m))). set (persist := mkReceiptPersistence request at_ a).
  eapply hoare_weaken; [apply (takeReceipt_justified (fun tr => boundTo s0 p (rc_LeaseID (xp_Receipt request))
    (xp_Extensions request) lease current plan step tr /\ deploymentVerified s0 p plan current step true tr) p plan current step lease operation persist)|done..].
  intros tr [Hb Hd] Hw. unfold inWindow in Hw. bool_hyps.
  constructor; try done; [by exists n|by exists m].
Qed.

Lemma managedContext_kept K `{!Growing K} parent planID : keeps_ s0 K (managedContext parent planID).
Proof.
  unfold managedContext, demand. destruct (_ ≫= _); [|service_code].
  apply preserves_bind; [auto with executor|]. intros plan. destruct (_ || _); [service_code|].
  apply preserves_bind; [auto with executor|]. intros runs. service_code.
Qed.
#[local] Hint Resolve managedContext_kept ClaimWork_justified RenewWork_justified SubmitReceipt_justified : executor.

Lemma serveExecutor_accounted call w : account (xw_store w) (xw_trace w) ->
  account (xw_store (serveExecutor call w)) (xw_trace (serveExecutor call w)).
Proof.
  assert (Hserved : forall A (m : service A), accounts m -> account (xw_store w) (xw_trace w) ->
    account (xw_store (served m w)) (xw_trace (served m w))).
  { intros A m Hm Hw. specialize (Hm w Hw). unfold served. destruct (m w) as [[x|err] w']; exact Hm. }
  destruct call; cbn [serveExecutor]; apply Hserved; unfold ClaimManaged, RenewManaged, SubmitManagedReceipt; service_code.
Qed.

Lemma serveExecutors_accounted history :
  account (xw_store (serveExecutors history (executorsFrom s0))) (xw_trace (serveExecutors history (executorsFrom s0))).
Proof.
  assert (H0' : account (xw_store (executorsFrom s0)) (xw_trace (executorsFrom s0))).
  { split_and!; [done|apply allJustified_nil|done]. }
  revert H0'. generalize (executorsFrom s0). induction history as [|call history IH]; intros w Hw; [done|].
  apply IH. by apply serveExecutor_accounted.
Qed.

End Operations.

(** ** Success *)

Section ExternalSuccess.
Context `{Hasher} `{RunSchemas} `{ExecutorSurroundings}.
Variable s0 : Store RunTables.

(** What the service relies on: the other clients prune nothing and declare no
    run successful too early, and receipts arrive while their run is running. *)
Definition reliesOn (store : Store RunTables) (event : ExecutorEvent) : Prop :=
  let t := tables (st_db store) in
  match event with
  | Interleaved _ (Ordinary call) => isPrune call = false /\ honest t call
  | Interleaved _ c | Called _ c => timely c t
  | ReceiptVerified _ _ _ => True
  end.

Definition relied (tr : list ExecutorEvent) : Prop :=
  forall pre event post, tr = pre ++ event :: post -> reliesOn (storeAfter s0 pre) event.

Lemma relied_snoc tr event : relied (tr ++ [event]) <-> relied tr /\ reliesOn (storeAfter s0 tr) event.
Proof.
  split.
  - intros R. split; [|by eapply R]. intros pre e post ->. eapply (R pre e (post ++ [event])). by rewrite <- app_assoc.
  - intros [R He] pre e post E. destruct post as [|x post _] using rev_ind.
    + apply app_inj_tail in E as [-> ->]. done.
    + rewrite app_comm_cons, app_assoc in E. apply app_inj_tail in E as [-> _]. by eapply R.
Qed.

Lemma relied_prefix tr tr' : relied (tr ++ tr') -> relied tr.
Proof. intros R pre event post ->. eapply (R pre event (post ++ tr')). by rewrite <- app_assoc. Qed.

(** The service itself makes no call that prunes. *)
Definition prunes (event : ExecutorEvent) : bool :=
  match event with
  | Called _ (Ordinary call) | Interleaved _ (Ordinary call) => isPrune call
  | _ => false
  end.

(** One event of the trace changes the store as one call does, or not at all. *)
Lemma event_outcome tr event : tables_wf (tables (st_db (storeAfter s0 tr))) -> reliesOn (storeAfter s0 tr) event ->
  storeAfter s0 (tr ++ [event]) = storeAfter s0 tr
  \/ exists env c, (event = Called env c \/ event = Interleaved env c)
       /\ storeAfter s0 (tr ++ [event]) = performCall env c (storeAfter s0 tr)
       /\ outcome (callOf c) (tables (st_db (storeAfter s0 tr))) (tables (st_db (performCall env c (storeAfter s0 tr)))).
Proof.
  intros W R. rewrite storeAfter_app. destruct event as [env c|env c|op o a]; [right|right|by left]; exists env, c;
    (split; [auto|split; [reflexivity|apply performCall_outcome; [done|destruct c; [exact I|exact R]]]]).
Qed.

Lemma relied_wf tr : tables_wf (tables (st_db s0)) -> relied tr -> tables_wf (tables (st_db (storeAfter s0 tr))).
Proof.
  intros W. induction tr as [|event tr IH] using rev_ind; [done|]. intros [R He]%relied_snoc. specialize (IH R).
  destruct (event_outcome tr event IH He) as [-> |(env & c & _ & -> & O)]; [done|]. by eapply outcome_wf.
Qed.

(** Verified steps of a run stay verified along the trace. *)
Lemma knows_along id all done tr tr' : tables_wf (tables (st_db s0)) -> relied (tr ++ tr') ->
  Forall (fun event => prunes event = false) tr' ->
  knows id all done (tables (st_db (storeAfter s0 tr))) -> knows id all done (tables (st_db (storeAfter s0 (tr ++ tr')))).
Proof.
  intros W R Hp Hk. induction tr' as [|event tr' IH] using rev_ind; [by rewrite app_nil_r|].
  apply Forall_app in Hp as [Hp Hpe]. apply Forall_cons in Hpe as [Hpe _]. rewrite app_assoc in R |- *.
  apply relied_snoc in R as [R He]. specialize (IH R Hp). pose proof (relied_wf _ W R) as W1.
  destruct (event_outcome _ _ W1 He) as [-> |(env & c & Hev & -> & O)]; [done|].
  eapply outcome_knows; [exact W1|exact O| |exact IH]. destruct Hev as [-> | ->]; by destruct c.
Qed.

Lemma allStepsVerified_steps run : allStepsVerified run = true ->
  forall s, s ∈ r_Steps run -> s_Status s = "succeeded" /\ s_EffectState s = "verified".
Proof.
  intros Ha s Hin. assert (Hall : forallb (fun step => (s_Status step == "succeeded") && (s_EffectState step == "verified"))
    (r_Steps run) = true) by (unfold allStepsVerified in Ha; by destruct (r_Steps run)).
  rewrite forallb_forall in Hall. apply list_elem_of_In, Hall in Hin. by bool_hyps.
Qed.

(** A run that the repository answered with all of its steps verified. *)
Lemma finished_allVerified env finish store updated store' :
  tables_wf (tables (st_db store)) -> FinishStep env finish store = ((updated, None), store') ->
  allStepsVerified updated = true ->
  exists all, knows (r_RunID updated) all all (tables (st_db store')).
Proof.
  intros W E Ha. pose proof (perform_wf env (CallFinish finish) store W) as W'. cbn [perform] in W'. rewrite E in W'. cbn [snd] in W'.
  apply FinishStep_stored in E as (row & Er & Hd); [|done]. pose proof (rw_id _ _ _ (tw_runs _ W' _ _ Er)) as Hid.
  exists (map s_StepID (r_Steps updated)). subst updated. rewrite Hid. split; [by exists row|].
  apply Forall_map, Forall_forall. intros s Hin. cbn. destruct (stored_step _ _ _ _ W' Er Hin) as (srow & Es & Hs & He).
  destruct (allStepsVerified_steps _ Ha _ Hin). exists srow. split_and!; congruence.
Qed.

(** Nothing is pruned: the service does not, and the others are relied on. *)
Lemma relied_noPrunes tr : relied tr -> allJustified s0 tr -> Forall (fun event => prunes event = false) tr.
Proof.
  intros R J. apply Forall_forall. intros event Hin. apply list_elem_of_split in Hin as (pre & post & Htr).
  pose proof (R _ _ _ Htr) as He. destruct event as [env [call|p]|env [call|p]|]; try done; [|by destruct He].
  pose proof (J _ _ _ _ Htr) as Hj. cbn in Hj |- *. by destruct call.
Qed.

(** Every success of the service is earned. *)
Lemma success_earned tr request : tables_wf (tables (st_db s0)) -> relied tr -> allJustified s0 tr ->
  successJustified s0 tr request -> allVerified (tables (st_db (storeAfter s0 tr))) (tq_RunID request).
Proof.
  intros W R J (pre & env & finish & updated & store' & post & -> & E & Ha & ->).
  pose proof (relied_wf pre W ltac:(eapply relied_prefix; rewrite <- app_assoc in R; exact R)) as W0.
  destruct (finished_allVerified _ _ _ _ _ W0 E Ha) as [all Hk].
  apply (knows_allVerified _ all all); [|done]. apply knows_along; [done..| |].
  - pose proof (relied_noPrunes _ R J) as Hp. by apply Forall_app in Hp as [_ ?].
  - rewrite storeAfter_called. cbn [performCall perform]. by rewrite E.
Qed.

Lemma complete_along tr : tables_wf (tables (st_db s0)) -> complete (tables (st_db s0)) ->
  relied tr -> allJustified s0 tr -> complete (tables (st_db (storeAfter s0 tr))).
Proof.
  intros W C R J. induction tr as [|event tr IH] using rev_ind; [done|].
  assert (Jtr : allJustified s0 tr).
  { intros pre env call post ->. eapply (J pre env call (post ++ [event])). by rewrite <- app_assoc. }
  pose proof R as [R' He]%relied_snoc. specialize (IH R' Jtr).
  pose proof (relied_wf _ W R') as W1. destruct (event_outcome _ _ W1 He) as [-> |(env & c & Hev & -> & O)]; [done|].
  eapply outcome_complete; [exact W1|exact O| |exact IH]. destruct c as [call|p]; [|done].
  destruct Hev as [-> | ->]; [|by apply He]. pose proof (J tr env (Ordinary call) [] eq_refl) as Hj. cbn in Hj |- *.
  destruct call; try done. cbn. intros Hto. by apply success_earned, Hj.
Qed.

End ExternalSuccess.

(** ** Theorems *)

Section Theorems.
Context `{Hasher} `{RunSchemas} `{ExecutorSurroundings}.

(** C5: whatever the outside does and whatever fails, every call by which the
    service changes a lease, a step or the success of a run is justified by what
    it saw before. It claims a step only for a principal that is bound to the plan
    of a running external run of its executor, which the gate admitted, and only
    the first unresolved step of it, while nothing of the executor is in flight;
    it renews a lease, and finishes a step, only for the principal that the lease,
    the run and the plan it read from the store name. A step is finished only with
    a receipt bound to that lease, which was active and, by the clock, within its
    window as it was read, and only after the receipt was stored and the adapter
    of the planned operation verified it on its own. For steps that deploy, each
    of these also rests on a confirmed deployment job and on the run read again,
    still running the plan. A run is declared successful only after the repository
    answered a finished step with a run all of whose steps are verified. *)
Theorem external_calls_justified history store :
  let world := serveExecutors history (executorsFrom store) in
  xw_store world = storeAfter store (xw_trace world) /\ allJustified store (xw_trace world).
Proof. cbv zeta. destruct (serveExecutors_accounted store history) as (Hs & Hj & _). by split. Qed.

(** C4: through any history of the service a run of an external executor is only
    ever declared successful when each of its steps succeeded and was verified,
    as long as the other clients prune nothing and declare no run successful too
    early, and terminal receipts arrive while their run is running. *)
Theorem external_success_is_verified history store :
  tables_wf (tables (st_db store)) -> complete (tables (st_db store)) ->
  let world := serveExecutors history (executorsFrom store) in
  relied store (xw_trace world) ->
  let t := tables (st_db (xw_store world)) in
  forall id row step, plan_runs t !! id = Some row -> rr_Status row = "succeeded" ->
    step ∈ r_Steps (rr_Document row) -> verifiedStep t (s_StepID step).
Proof.
  intros W C world R t id row step E Hs Hin. destruct (serveExecutors_accounted store history) as (Hst & Hj & _).
  pose proof (complete_along store _ W C R Hj) as C'. unfold t, world in E |- *. rewrite Hst in E |- *.
  by eapply (C' id row E Hs).
Qed.

End Theorems.
