(* ===== verification/ExecutorRecovery.v ===== *)
(** Recovery of lost leases: what the reconciliation of the service of external
    executors leaves behind. *)

From S2P Require Import Prelude GoTime Hash GoJson Contracts AuditLog AuditStore Authorization Adapter ExecutorLease RunRepository RunHistory.
From S2P Require Import RunFacts RunSuccess ExecutorHistory RunEngine ExternalExecutor ExecutorSafety.

(** ** Expiry *)

(** A step whose effect nobody has settled, in a run that runs. *)
Definition openEffect (t : RunTables) (runID id : string) : Prop :=
  exists row s, plan_runs t !! runID = Some row /\ rr_Status row = "running" /\ s ∈ r_Steps (rr_Document row)
    /\ s_StepID s = id /\ unsettled "running" (s_Status s) (s_EffectState s) = true.

(** An external lease whose window is over. *)
Definition lost (at_ : Time) (l : LeaseRow) : Prop :=
  le_Kind l = "external" /\ String.leb (l_LeaseExpiresAt (le_Document l)) (FormatRFC3339 at_) = true.

Section Expiry.
Context `{Hasher} `{RunSchemas}.

Definition expireKey (request : ExecutorLeaseExpiryRequest) : string * string :=
  (ik_Scope (iq_Idempotency (expireIntent request)), ik_KeyDigest (iq_Idempotency (expireIntent request))).

Lemma Expire_fresh env request store leases store' :
  Expire env request store = (Ok leases, store') -> intent_keys (st_db store) !! expireKey request = None ->
  expireLeases (lx_At request) (tables (st_db store)) = Ok (leases, tables (st_db store')).
Proof.
  unfold Expire. rewrite check_bind. case_match; [|discriminate]. intros E Hk.
  apply action_bind_Ok in E as (before & s0 & E0 & E). injection E0 as <- <-.
  apply action_bind_Ok in E as (intent & s1 & E1 & E).
  apply executeAuditIntent_outcome in E1 as [[_ Hrow]|(res & event & p & d & l & A & Hr)].
  - destruct (Hrow _ eq_refl) as (row & Hrow' & _). unfold expireKey in Hk. congruence.
  - destruct Hr as [Hr|[[e He] _]]; [|discriminate]. injection Hr as ->.
    rewrite (ap_result _ _ _ _ _ _ _ _ _ _ _ A) in E. cbn [ir_Created negb] in E. unfold lift in E. injection E as E <-.
    pose proof (ap_tables _ _ _ _ _ _ _ _ _ _ _ A) as Ht. cbn beta in Ht.
    apply fmap_Ok in Ht as ([leases' t1] & Ee & Et). cbn in Et. subst t1. rewrite Ee in E |- *. cbn in E. by injection E as ->.
Qed.

(** A lease past its window is in the join. *)
Lemma pastLeases_lost at_ t id l : tables_wf t -> target_execution_leases t !! id = Some l -> lost at_ l ->
  exists row srow, (l, row, srow) ∈ pastLeases at_ t /\ plan_runs t !! le_RunID l = Some row
    /\ plan_run_steps t !! le_StepID l = Some srow.
Proof.
  intros W E [Hk Hp]. destruct (lw_row _ _ _ (tw_leases _ W _ _ E)) as (srow & Es & Hr).
  destruct (tw_owned _ W _ _ Es) as (row & s & Er & _). rewrite Hr in Er. exists row, srow. split; [|done].
  unfold pastLeases. apply list_elem_of_omap. exists (id, l). split.
  - rewrite merge_sort_Permutation. by apply elem_of_map_to_list.
  - cbn [fst snd]. rewrite Er. cbn [mbind option_bind]. rewrite Es. cbn [mbind option_bind].
    by rewrite Hr, Hk, Hp, !bool_decide_refl.
Qed.

Lemma pastLeases_rows at_ t l row srow : (l, row, srow) ∈ pastLeases at_ t ->
  (exists id, target_execution_leases t !! id = Some l) /\ plan_runs t !! le_RunID l = Some row
  /\ plan_run_steps t !! le_StepID l = Some srow.
Proof.
  unfold pastLeases. intros ([id l0] & Hin & E)%list_elem_of_omap.
  rewrite merge_sort_Permutation in Hin. apply elem_of_map_to_list in Hin. cbn in E.
  destruct (plan_runs t !! le_RunID l0) as [row0|] eqn:Er; [|done]. cbn in E.
  destruct (plan_run_steps t !! le_StepID l0) as [srow0|] eqn:Es; [|done]. cbn in E. case_match; [|done].
  injection E as -> -> ->. eauto.
Qed.

(** Every row that was read is reported, and what is reported was read. *)
Lemma reportExpired_all rows reported : reportExpired rows = Ok reported ->
  Forall2 (fun x y => y.1 = x.1.1 /\ y.2 = (if le_Status x.1.1 == "active" then leaseWithStatus "expired" (le_Document x.1.1)
                                           else le_Document x.1.1)) rows reported.
Proof.
  revert reported. induction rows as [|[[l row] srow] rows IH]; intros reported E; cbn in E; [injection E as <-; constructor|].
  apply bind_Ok in E as (lease & Hd & E). apply bind_Ok in E as (rest & Hr & E). injection E as <-.
  unfold decodeStoredExecutorLease in Hd. apply bind_Ok in Hd as ([] & _ & Hd). injection Hd as <-.
  constructor; [|by apply IH]. done.
Qed.

Lemma ended_stays t t' id l : leasesEnded t t' -> target_execution_leases t !! id = Some l -> le_Status l <> "active" ->
  target_execution_leases t' !! id = Some l.
Proof.
  intros Hl E Ha. destruct (leasesEnded_lookup _ _ _ _ Hl E) as (l' & E' & [->|[Ha' _]]); [done|congruence].
Qed.

Lemma expireActive_expired reported t t' l lease : expireActive reported t = Ok t' ->
  (l, lease) ∈ reported -> le_Status l = "active" ->
  exists l', target_execution_leases t' !! l_LeaseID lease = Some l' /\ le_Status l' = "expired".
Proof.
  revert t. induction reported as [|[l0 lease0] rest IH]; intros t E Hin Ha; cbn in E; [by apply not_elem_of_nil in Hin|].
  apply elem_of_cons in Hin as [Heq|Hin].
  - injection Heq as <- <-. rewrite Ha in E. cbn in E. unfold expireLease in E.
    destruct (target_execution_leases t !! l_LeaseID lease) as [l1|] eqn:El; [|done].
    destruct (le_Status l1 == "active"); [|done]. cbn in E. apply expireActive_ended in E.
    exists (endedLease "expired" l1). split; [|done]. eapply ended_stays; [exact E|apply lookup_insert_eq|done].
  - destruct (le_Status l0 != "active"); [by eapply IH|].
    destruct (expireLease _ _) as [n t1]. apply bind_Ok in E as ([] & _ & E). by eapply IH.
Qed.

(** What [Expire] leaves behind: no lease past its window is active, and those
    whose step is in flight are among the leases it reports, all as expired. *)
Lemma expireLeases_lost at_ t leases t' : tables_wf t -> expireLeases at_ t = Ok (leases, t') ->
  Forall (fun lease => l_Status lease = "expired") leases
  /\ forall id l, target_execution_leases t' !! id = Some l -> lost at_ l ->
       le_Status l <> "active"
       /\ (le_Status l = "expired" -> openEffect t' (le_RunID l) (le_StepID l) ->
           exists lease, lease ∈ leases /\ l_RunID lease = le_RunID l /\ l_StepID lease = le_StepID l).
Proof.
  intros W E. pose proof (expireLeases_ended _ _ _ _ E) as Hend. unfold expireLeases in E.
  apply bind_Ok in E as (reported & Hrep & E). apply bind_Ok in E as (t1 & Hact & E). injection E as <- <-.
  apply reportExpired_all in Hrep. split.
  - apply Forall_map, Forall_forall. intros [l lease] Hin. cbn.
    apply list_elem_of_lookup in Hin as [i Hi]. destruct (Forall2_lookup_r _ _ _ _ _ Hrep Hi) as ([[l0 row] srow] & Hx & Hl & Hlease).
    cbn in *. subst. destruct (le_Status l0 == "active") eqn:Ha; [done|].
    apply list_elem_of_lookup_2, list_elem_of_filter in Hx as [Hf Hx]. cbn in Hf. rewrite Ha in Hf. cbn in Hf.
    apply pastLeases_rows in Hx as ([id El] & _). rewrite (lw_status _ _ _ (tw_leases _ W _ _ El)).
    unfold owesRecovery in Hf. apply Is_true_true in Hf. by bool_hyps.
  - intros id l' El' Hlost. destruct Hend as [Et Hend]. pose proof (Hend id) as Ho. rewrite El' in Ho.
    inversion Ho as [l ? Hfrom Hl Hl'|]; subst. symmetry in Hl. pose proof (endedFrom_kept _ _ Hfrom) as (_ & _ & Hsame & _).
    assert (Hbind : lost at_ l /\ le_RunID l' = le_RunID l /\ le_StepID l' = le_StepID l).
    { destruct Hfrom as [-> |[_ [-> | ->]]]; [done|split_and!; done..]. }
    destruct Hbind as (Hlost' & Hr & Hs). destruct (pastLeases_lost _ _ _ _ W Hl Hlost') as (row & srow & Hin & Er & Es).
    assert (Hreported : le_Status l = "active" \/ owesRecovery (l, row, srow) = true ->
      exists lease, (l, lease) ∈ reported
        /\ lease = (if le_Status l == "active" then leaseWithStatus "expired" (le_Document l) else le_Document l)).
    { intros Hor. assert (Hf : (l, row, srow) ∈ filter (fun x => (le_Status x.1.1 == "active") || owesRecovery x) (pastLeases at_ t)).
      { apply list_elem_of_filter. split; [|done]. apply Is_true_true. cbn [fst]. destruct Hor as [-> | ->]; [done|apply orb_true_r]. }
      apply list_elem_of_lookup in Hf as [i Hi]. destruct (Forall2_lookup_l _ _ _ _ _ Hrep Hi) as ([l1 lease] & Hy & Hl1 & Hlease).
      cbn in *. subst. eexists. split; [by eapply list_elem_of_lookup_2|done]. }
    pose proof (tw_leases _ W _ _ Hl) as L. split.
    + intros Ha. specialize (Hsame Ha). subst l'. destruct (Hreported (or_introl Ha)) as (lease & Hin' & ->).
      destruct (expireActive_expired _ _ _ _ _ Hact Hin' Ha) as (l2 & E2 & Hx). 
      assert (Hid : l_LeaseID (if le_Status l == "active" then leaseWithStatus "expired" (le_Document l) else le_Document l) = id)
        by (destruct (le_Status l == "active"); apply (lw_id _ _ _ L)).
      rewrite Hid, El' in E2. congruence.
    + intros Hx Hfly. destruct (Hreported) as (lease & Hin' & ->).
      * destruct Hfrom as [->|[? _]]; [right|by left]. unfold owesRecovery. rewrite Hx. cbn.
        destruct Hfly as (row' & s & Er' & Hst & Hins & Hid & Hu). rewrite Et in Er'. cbn in Er'. rewrite Er in Er'. injection Er' as <-.
        destruct (stored_step _ _ _ _ W Er Hins) as (srow' & Es' & H1' & H2'). rewrite Hid, Es in Es'. injection Es' as <-.
        by rewrite Hst, H1', H2', Hu.
      * eexists. split; [apply list_elem_of_fmap; eexists; split; [|exact Hin']; done|]. cbn.
        rewrite Hr, Hs, <- (lw_run _ _ _ L), <- (lw_step _ _ _ L). by destruct (le_Status l == "active").
Qed.

End Expiry.

(** ** The moves of the reconciliation *)

Section Moves.
Context `{Hasher} `{RunSchemas}.

Definition unknownKey (runID id : string) (at_ : Time) : string * string :=
  mutationKey runID "run.step-effect-unknown" (Join ":" [id; FormatRFC3339Nano at_]).

Definition transitionKeyOf (request : RunTransitionRequest) : string * string :=
  mutationKey (tq_RunID request) "run.transitioned"
    (Join ":" [tq_From request; tq_To request; FormatRFC3339Nano (tq_At request)]).

(** One run was replaced, and the leases stayed. *)
Definition runReplaced (runID : string) (row : RunRow) (run : Run) (t t' : RunTables) : Prop :=
  plan_runs t !! runID = Some row /\ plan_runs t' = <[runID := storedRow row run]> (plan_runs t)
  /\ target_execution_leases t' = target_execution_leases t.

Lemma MarkStepUnknown_fresh env runID id at_ a store run store' : tables_wf (tables (st_db store)) ->
  MarkStepUnknown env runID id at_ a store = ((run, None), store') ->
  intent_keys (st_db store) !! unknownKey runID id at_ = None ->
  exists row, runReplaced runID row run (tables (st_db store)) (tables (st_db store')) /\ r_Status run = rr_Status row
    /\ r_Steps run = assignStep id (withState "partial" "effect-unknown") (r_Steps (rr_Document row))
    /\ exists s, s ∈ r_Steps (rr_Document row) /\ s_StepID s = id /\ s_Status s = "running"
                 /\ s_EffectState s ∈ ["intent-recorded"; "receipt-recorded"].
Proof.
  unfold MarkStepUnknown. intros W E Hk. apply mutateRun_Ok in E as [([x Hx] & _)|[_ E]]; [unfold unknownKey in Hk; congruence|].
  destruct (mutation_moved env (CallUnknown runID id at_ a) _ _ _ _ _ _ W eq_refl eq_refl E) as (row & M).
  exists row. split; [split_and!; apply M|]. apply applyMutation_Ok in E as (row1 & t1 & Hrow & _ & Hm & _).
  rewrite (mv_row _ _ _ _ _ M) in Hrow. injection Hrow as <-. unfold abandonMutation in Hm.
  apply bind_Ok in Hm as (s & Hf & Hm). apply of_option_Ok, findStep_state in Hf as [Hin Hid].
  apply bind_Ok in Hm as ([] & Hst & Hm). apply require_Ok in Hst. cbv zeta in Hm. injection Hm as <- _.
  bool_hyps. split; [|split; [done|by exists s]].
  by rewrite (rw_status _ _ _ (tw_runs _ W _ _ (mv_row _ _ _ _ _ M))).
Qed.

Lemma TransitionRun_replaces env request store run store' : tables_wf (tables (st_db store)) ->
  TransitionRun env request store = ((run, None), store') ->
  intent_keys (st_db store) !! transitionKeyOf request = None ->
  exists row, runReplaced (tq_RunID request) row run (tables (st_db store)) (tables (st_db store')) /\ r_Status run = tq_To request.
Proof.
  unfold TransitionRun. destruct (negb _) eqn:Hg; [discriminate|]. intros W E Hk. bool_hyps.
  apply mutateRun_Ok in E as [([x Hx] & _)|[_ E]]; [unfold transitionKeyOf in Hk; congruence|].
  destruct (mutation_moved env (CallTransition request) _ _ _ _ _ _ W eq_refl ltac:(done) E) as (row & M).
  exists row. split; [split_and!; apply M|].
  apply applyMutation_Ok in E as (row1 & t1 & Hrow & Hv & Hm & _). destruct (valid_NoDup _ Hv) as [Hd _].
  by eapply transition_status.
Qed.

(** A step is in flight after the replacement only if it was before. *)
Lemma replaced_inFlight runID row run t t' x y : runReplaced runID row run t t' ->
  (r_Status run = "running" -> rr_Status row = "running" /\ forall s, s ∈ r_Steps run -> s_StepID s = y ->
     unsettled "running" (s_Status s) (s_EffectState s) = true ->
     exists s', s' ∈ r_Steps (rr_Document row) /\ s_StepID s' = y /\ unsettled "running" (s_Status s') (s_EffectState s') = true) ->
  openEffect t' x y -> openEffect t x y.
Proof.
  intros (Er & Et & _) Hback (row' & s & Er' & Hs & Hin & Hid & Hu). rewrite Et in Er'.
  apply lookup_insert_Some in Er' as [[<- <-]|[Hne Er']].
  - cbn in Hs, Hin. destruct (Hback Hs) as [Hr Hsteps]. destruct (Hsteps _ Hin Hid Hu) as (s' & ? & ? & ?). by exists row, s'.
  - by exists row', s.
Qed.

Lemma assignStep_elem id f steps s : s ∈ assignStep id f steps ->
  s ∈ steps \/ exists s0, s0 ∈ steps /\ s_StepID s0 = id /\ s = f s0.
Proof.
  induction steps as [|x steps IH]; cbn [assignStep]; [by left|]. case_bool_decide.
  - intros [->|Hin]%elem_of_cons; [right; exists x; split; [by left|done]|left; by right].
  - intros [->|Hin]%elem_of_cons; [left; by left|]. destruct (IH Hin) as [?|(s0 & ? & ?)]; [left; by right|].
    right. exists s0. split; [by right|done].
Qed.

Lemma unknown_inFlight runID id row run t t' x y : NoDup (map s_StepID (r_Steps (rr_Document row))) ->
  runReplaced runID row run t t' -> r_Status run = rr_Status row ->
  r_Steps run = assignStep id (withState "partial" "effect-unknown") (r_Steps (rr_Document row)) ->
  (exists s, s ∈ r_Steps (rr_Document row) /\ s_StepID s = id /\ s_Status s = "running"
             /\ s_EffectState s ∈ ["intent-recorded"; "receipt-recorded"]) ->
  openEffect t' x y -> openEffect t x y.
Proof.
  intros Hd R Hst Hsteps (s0 & Hin0 & Hid0 & Hr0 & He0). eapply replaced_inFlight; [exact R|].
  intros Hs. split; [congruence|]. rewrite Hsteps. intros s Hin Hid Hu.
  apply assignStep_elem in Hin as [Hin|(s1 & Hin1 & Hid1 & ->)]; [eauto|]. exists s0. split; [done|]. cbn in Hid.
  split; [congruence|]. unfold unsettled. rewrite Hr0. cbn.
  apply elem_of_cons in He0 as [->|[->|He0]%elem_of_cons]; [done..|]. by apply not_elem_of_nil in He0.
Qed.

Lemma unknown_found id steps s0 : s0 ∈ steps -> s_StepID s0 = id ->
  exists u, List.find (fun s => s_StepID s == id) (assignStep id (withState "partial" "effect-unknown") steps) = Some u
    /\ s_EffectState u = "effect-unknown".
Proof.
  induction steps as [|x steps IH]; [by intros ?%not_elem_of_nil|]. intros Hin Hid. cbn [assignStep]. case_bool_decide as Hx.
  - eexists. cbn. rewrite Hx, bool_decide_refl. split; [reflexivity|done].
  - cbn. rewrite bool_decide_eq_false_2 by done. apply elem_of_cons in Hin as [->|Hin]; [done|by apply IH].
Qed.

End Moves.

(** ** Reconciliation *)

Section Reconciliation.
Context `{Hasher} `{RunSchemas} `{ExecutorSurroundings}.
Variable s0 : Store RunTables.

(** Nobody else makes calls, the mutations of the reconciliation succeed, and none
    is taken for the replay of an earlier one. *)
Definition undisturbedAt (store : Store RunTables) (event : ExecutorEvent) : Prop :=
  let fresh key := intent_keys (st_db store) !! key = None in
  match event with
  | Interleaved _ _ => False
  | Called _ (Ordinary (CallExpireLeases request)) => fresh (expireKey request)
  | Called env (Ordinary (CallUnknown runID id at_ a)) =>
      (MarkStepUnknown env runID id at_ a store).1.2 = None /\ fresh (unknownKey runID id at_)
  | Called env (Ordinary (CallTransition request)) =>
      (TransitionRun env request store).1.2 = None /\ fresh (transitionKeyOf request)
  | _ => True
  end.

Definition undisturbed (tr : list ExecutorEvent) : Prop :=
  forall pre event post, tr = pre ++ event :: post -> undisturbedAt (storeAfter s0 pre) event.

Lemma undisturbed_snoc tr event : undisturbed (tr ++ [event]) -> undisturbed tr /\ undisturbedAt (storeAfter s0 tr) event.
Proof. intros R. split; [|by eapply R]. intros pre e post ->. eapply (R pre e (post ++ [event])). by rewrite <- app_assoc. Qed.

Lemma undisturbed_others tr others : undisturbed (tr ++ interleaved others) -> others = [].
Proof.
  destruct others as [|[e c] others]; [done|]. intros R. exfalso. exact (R tr (Interleaved e c) (interleaved others) eq_refl).
Qed.

(** What holds of the tables as long as the reconciliation was undisturbed. *)
Definition finds (F : RunTables -> Prop) : XAssertion := fun s tr =>
  s = storeAfter s0 tr /\ (undisturbed tr -> tables_wf (tables (st_db s)) /\ F (tables (st_db s))).

Definition anything : XAssertion := fun _ _ => True.

Lemma finds_weaken (F G : RunTables -> Prop) s tr : (forall t, tables_wf t -> F t -> G t) -> finds F s tr -> finds G s tr.
Proof. intros HFG [-> HF]. split; [done|]. naive_solver. Qed.

(** One call: what it teaches when it was undisturbed. *)
Lemma finds_called (F : RunTables -> Prop) s tr others env c (G : RunTables -> Prop) :
  finds F s tr ->
  (tables_wf (tables (st_db s)) -> F (tables (st_db s)) -> undisturbedAt s (Called env c) ->
     tables_wf (tables (st_db (performCall env c s))) -> G (tables (st_db (performCall env c s)))) ->
  (forall p, c <> Observe p) ->
  finds G (performCall env c (performCalls others s)) ((tr ++ interleaved others) ++ [Called env c]).
Proof.
  intros [-> HF] HG Hc. split; [by rewrite storeAfter_called, storeAfter_others|]. intros U.
  apply undisturbed_snoc in U as [U He]. pose proof (undisturbed_others _ _ U) as ->. cbn [interleaved map] in *.
  rewrite app_nil_r in *. destruct (HF U) as [W Hf]. assert (W' : tables_wf (tables (st_db (performCall env c (storeAfter s0 tr))))).
  { destruct c as [call|p]; [by apply perform_wf|by destruct (Hc p)]. }
  split; [done|]. by apply HG.
Qed.

Lemma hoare_now P E : hoare P executorNow (fun _ => P) E.
Proof. intros w Hw. exact Hw. Qed.

Lemma finds_readRun (F : RunTables -> Prop) id :
  hoare (finds F) (readRun id) (fun run => finds (fun t => F t /\ exists row, plan_runs t !! id = Some row /\ rr_Document row = run)) anything.
Proof.
  apply hoare_demand. intros s tr others env Hi.
  destruct (RunRepository.Get env id (performCalls others s)) as [[run|e] s'] eqn:E; [|done].
  replace s' with (performCall env (Ordinary (CallGet id)) (performCalls others s)) by (cbn [performCall perform]; by rewrite E).
  split; [destruct Hi as [-> _]; by rewrite storeAfter_called, storeAfter_others|]. intros U.
  pose proof (undisturbed_snoc _ _ U) as [U' _]. pose proof (undisturbed_others _ _ U') as ->. cbn [interleaved map] in *.
  rewrite app_nil_r in *. cbn [performCalls fold_left] in *. destruct Hi as [_ Hi]. destruct (Hi U') as [W HF].
  cbn [performCall perform]. rewrite E. cbn [snd]. pose proof (keeps_Get _ _ _ _ _ E) as Hdb. rewrite Hdb.
  split_and!; [done..|]. by apply Get_Ok in E.
Qed.

(** The leases that are lost: none is active, and those whose step is in flight
    are still to be reconciled. *)
Definition accounts_for (at_ : Time) (rest : list ExecutorLease) (t : RunTables) : Prop :=
  forall id l, target_execution_leases t !! id = Some l -> lost at_ l ->
    le_Status l <> "active"
    /\ (le_Status l = "expired" -> openEffect t (le_RunID l) (le_StepID l) ->
        exists lease, lease ∈ rest /\ l_RunID lease = le_RunID l /\ l_StepID lease = le_StepID l).

Lemma accounts_for_replaced at_ rest runID row run t t' : runReplaced runID row run t t' ->
  (forall x y, openEffect t' x y -> openEffect t x y) -> accounts_for at_ rest t -> accounts_for at_ rest t'.
Proof.
  intros (_ & _ & El) Hback A id l E Hl. rewrite El in E. destruct (A _ _ E Hl) as [Ha Hx]. split; [done|].
  intros Hs Hfly. by apply Hx, Hback.
Qed.

(** A lease whose step is not in flight is done with. *)
Lemma accounts_for_rest at_ lease rest t : accounts_for at_ (lease :: rest) t ->
  ~ openEffect t (l_RunID lease) (l_StepID lease) -> accounts_for at_ rest t.
Proof.
  intros A Hn id l E Hl. destruct (A _ _ E Hl) as [Ha Hx]. split; [done|]. intros Hs Hfly.
  destruct (Hx Hs Hfly) as (lease' & [->|Hin]%elem_of_cons & Hr & Hid); [|eauto]. rewrite Hr, Hid in Hn. contradiction.
Qed.

(** The step of a stored run that is looked up by its identifier. *)
Lemma inFlight_found t runID row run id : tables_wf t -> plan_runs t !! runID = Some row -> rr_Document row = run ->
  openEffect t runID id ->
  r_Status run = "running" /\ exists s, findRunStep run id = Some s /\ unsettled "running" (s_Status s) (s_EffectState s) = true.
Proof.
  intros W E <- (row' & s & E' & Hs & Hin & Hid & Hu). rewrite E in E'. injection E' as <-.
  pose proof (tw_runs _ W _ _ E) as R. split; [by rewrite <- (rw_status _ _ _ R)|].
  pose proof (numbered_NoDup _ (rw_numbered _ _ _ R)) as [Hd _]. exists s. split; [|done]. unfold findRunStep.
  clear -Hin Hid Hd. induction (r_Steps (rr_Document row)) as [|x steps IH]; [by apply not_elem_of_nil in Hin|]. cbn in *.
  apply NoDup_cons in Hd as [Hx Hd]. case_bool_decide as Hc.
  - apply elem_of_cons in Hin as [->|Hin]; [done|]. exfalso. apply Hx. rewrite Hc, <- Hid. by apply list_elem_of_fmap_2.
  - apply elem_of_cons in Hin as [->|Hin]; [done|]. by apply IH.
Qed.

(** The run is stored as [run]. *)
Definition storedAs (run : Run) (t : RunTables) : Prop :=
  exists row, plan_runs t !! r_RunID run = Some row /\ rr_Document row = run.

Definition impossible : XAssertion := finds (fun _ => False).

Lemma finds_impossible F s tr : impossible s tr -> finds F s tr.
Proof. by apply finds_weaken. Qed.

(** The bookkeeping of a call with an outcome that the reconciliation looks at. *)
Lemma finds_outcome (F : RunTables -> Prop) call (method : RunEnv -> Store RunTables -> Outcome * Store RunTables) (G : Run -> RunTables -> Prop) :
  (forall env s, (method env s).2 = perform env call s) ->
  (forall env s, undisturbedAt s (Called env (Ordinary call)) -> (method env s).1.2 = None) ->
  (forall env s run s', tables_wf (tables (st_db s)) -> F (tables (st_db s)) -> undisturbedAt s (Called env (Ordinary call)) ->
     method env s = ((run, None), s') -> tables_wf (tables (st_db s')) -> G run (tables (st_db s'))) ->
  hoare (finds F) (obtain (request_ (Ordinary call) method)) (fun run => finds (G run)) impossible.
Proof.
  intros Hm Hok HG. apply hoare_obtain. intros s tr others env Hi.
  destruct (method env (performCalls others s)) as [[run err] s'] eqn:E.
  assert (Hs' : s' = performCall env (Ordinary call) (performCalls others s)).
  { cbn [performCall]. rewrite <- Hm. by rewrite E. }
  assert (Hthen : forall G', (undisturbedAt s (Called env (Ordinary call)) -> others = [] -> tables_wf (tables (st_db s)) ->
      F (tables (st_db s)) -> tables_wf (tables (st_db s')) -> G' (tables (st_db s'))) ->
    finds G' s' ((tr ++ interleaved others) ++ [Called env (Ordinary call)])).
  { intros G' HG'. split; [destruct Hi as [-> _]; by rewrite Hs', storeAfter_called, storeAfter_others|]. intros U.
    apply undisturbed_snoc in U as [U He]. pose proof (undisturbed_others _ _ U) as ->. cbn [interleaved map] in *.
    rewrite app_nil_r in *. destruct Hi as [-> Hi]. destruct (Hi U) as [W HF]. cbn [performCalls fold_left] in *.
    assert (W' : tables_wf (tables (st_db s'))) by (rewrite Hs'; cbn [performCall]; by apply perform_wf).
    split; [done|]. by apply HG'. }
  destruct err as [e|]; apply Hthen.
  - intros U -> W _ _. pose proof (Hok env s U) as Hn. cbn [performCalls fold_left] in E. rewrite E in Hn. discriminate Hn.
  - intros U -> W HF W'. eapply HG; [exact W|exact HF|exact U|exact E|exact W'].
Qed.

Lemma stored_replaced t t' runID row run : tables_wf t' -> runReplaced runID row run t t' -> storedAs run t'.
Proof.
  intros W' (_ & Et & _). assert (E : plan_runs t' !! runID = Some (storedRow row run)) by (rewrite Et; apply lookup_insert_eq).
  pose proof (rw_id _ _ _ (tw_runs _ W' _ _ E)) as Hid. exists (storedRow row run). split; [|done]. cbn in Hid. by rewrite Hid.
Qed.

Lemma finds_markUnknown at_ rest (C : Prop) runID id t a :
  hoare (finds (fun t => accounts_for at_ rest t /\ C)) (markUnknown runID id t a)
    (fun updated => finds (fun t => (accounts_for at_ rest t /\ C) /\ (storedAs updated t /\ r_RunID updated = runID)
       /\ exists u, findRunStep updated id = Some u /\ s_EffectState u = "effect-unknown")) impossible.
Proof.
  apply finds_outcome; [done|by intros env s [? _]|]. intros env s run s' W [A HC] [_ Hk] E W'.
  destruct (MarkStepUnknown_fresh _ _ _ _ _ _ _ _ W E Hk) as (row & R & Hst & Hsteps & Hs).
  assert (Hd : NoDup (map s_StepID (r_Steps (rr_Document row)))).
  { destruct R as [Er _]. apply (numbered_NoDup _ (rw_numbered _ _ _ (tw_runs _ W _ _ Er))). }
  split; [split; [|exact HC]; eapply accounts_for_replaced; [exact R| |exact A]; intros x y; by eapply unknown_inFlight|].
  split; [split; [by eapply stored_replaced|]|].
  - destruct R as (_ & Et & _). assert (Er : plan_runs (tables (st_db s')) !! runID = Some (storedRow row run))
      by (rewrite Et; apply lookup_insert_eq). exact (rw_id _ _ _ (tw_runs _ W' _ _ Er)).
  - destruct Hs as (x & Hin & Hid & _). unfold findRunStep. rewrite Hsteps. by eapply unknown_found.
Qed.

Lemma finds_partial at_ rest (C : Prop) run t a :
  hoare (finds (fun t => accounts_for at_ rest t /\ C)) (transitionTo (partialRun run true t a))
    (fun _ => finds (fun t => (accounts_for at_ rest t /\ C) /\ forall id, ~ openEffect t (r_RunID run) id)) impossible.
Proof.
  apply finds_outcome; [done|by intros env s [? _]|]. intros env s run' s' W [A HC] [_ Hk] E W'.
  destruct (TransitionRun_replaces _ _ _ _ _ W E Hk) as (row & R & Hst). cbn in Hst. split.
  - split; [|exact HC]. eapply accounts_for_replaced; [exact R| |exact A]. intros x y. eapply replaced_inFlight; [exact R|]. intros Hr. congruence.
  - intros id (row' & x & Er & Hs & _). destruct R as (_ & Et & _). rewrite Et in Er. cbn [tq_RunID partialRun] in Er.
    rewrite lookup_insert_eq in Er. injection Er as <-. cbn in Hs, Hst. congruence.
Qed.

Lemma recovery_recovers at_ lease rest current step a :
  l_Status lease = "expired" -> findRunStep current (l_StepID lease) = Some step ->
  hoare (finds (fun t => accounts_for at_ (lease :: rest) t /\ storedAs current t /\ r_RunID current = l_RunID lease))
    (recoveryRequired (A := unit) current step lease a) (fun _ => anything) (finds (accounts_for at_ rest)).
Proof.
  intros Hx Hf. unfold recoveryRequired.
  assert (Hid : s_StepID step = l_StepID lease) by (apply find_some in Hf as [_ Hf]; by bool_hyps).
  set (known := fun (updated : Run) t => accounts_for at_ (lease :: rest) t
    /\ (storedAs updated t /\ r_RunID updated = l_RunID lease)
    /\ exists u, findRunStep updated (l_StepID lease) = Some u
          /\ (s_EffectState u <> "effect-unknown" -> unsettled "running" (s_Status u) (s_EffectState u) = false)).
  assert (Himp : forall s tr, impossible s tr -> finds (accounts_for at_ rest) s tr) by apply finds_impossible.
  apply hoare_bind with (R := fun updated => finds (known updated)).
  - destruct ((s_Status step == "running") && _) eqn:Hmark.
    + eapply hoare_bind; [apply hoare_now|]. intros t1. rewrite Hid.
      eapply hoare_weaken; [apply (finds_markUnknown at_ (lease :: rest) (r_RunID current = l_RunID lease))| | |exact Himp].
      * intros s tr. apply finds_weaken. by intros t _ (? & _ & ?).
      * intros updated s tr. apply finds_weaken. intros t _ ((A & Hr) & (Hs & Hu) & u & Hfu & He).
        split; [done|]. split; [split; [done|congruence]|]. exists u. by split.
    + apply hoare_ret. intros s tr. apply finds_weaken. intros t _ (A & Hs & Hr). split_and!; try done.
      exists step. split; [done|]. intros He. unfold unsettled. cbn. apply orb_false_iff. split; [exact Hmark|].
      by rewrite (bool_decide_eq_false_2 _ He), andb_false_r.
  - intros updated.
    apply hoare_bind with (R := fun _ => finds (accounts_for at_ rest)).
    + destruct (findRunStep updated (s_StepID step)) as [u|] eqn:Hu; rewrite Hid in Hu.
      * destruct ((r_Status updated == "running") && _) eqn:Hmove.
        -- eapply hoare_bind; [apply hoare_now|]. intros t1.
           eapply hoare_bind with (R := fun _ => finds (accounts_for at_ rest)); [|intros ?; by apply hoare_ret].
           eapply hoare_weaken; [apply (finds_partial at_ (lease :: rest) (r_RunID updated = l_RunID lease))| | |exact Himp].
           ++ intros s tr. apply finds_weaken. by intros t _ (? & (_ & ?) & _).
           ++ intros x s tr. apply finds_weaken. intros t _ ((A & Hr) & Hn). eapply accounts_for_rest; [exact A|].
              rewrite <- Hr. apply Hn.
        -- apply hoare_ret. intros s tr. apply finds_weaken. intros t W (A & (Hs & Hr) & u' & Hfu & He).
           eapply accounts_for_rest; [exact A|]. rewrite <- Hr. destruct Hs as (row & Er & Hd). intros Hfly.
           destruct (inFlight_found _ _ _ _ _ W Er Hd Hfly) as (Hst & v & Hv & Huv). rewrite Hv in Hfu. injection Hfu as ->.
           rewrite Hv in Hu. injection Hu as ->. rewrite Hst, bool_decide_refl in Hmove. cbn in Hmove.
           apply bool_decide_eq_false_1 in Hmove. rewrite (He Hmove) in Huv. discriminate Huv.
      * rewrite andb_false_r. apply hoare_ret. intros s tr. apply finds_weaken. intros t W (A & _ & u & Hfu & _). congruence.
    + intros ?. rewrite Hx. cbn. intros w Hw. exact Hw.
Qed.

Lemma reconcileLeases_recovers at_ expired :
  Forall (fun lease => l_Status lease = "expired") expired ->
  hoare (finds (accounts_for at_ expired)) (reconcileLeases expired) (fun _ => finds (accounts_for at_ [])) anything.
Proof.
  induction 1 as [|lease rest Hx Hrest IH]; cbn [reconcileLeases]; [by apply hoare_ret|].
  eapply hoare_bind; [apply finds_readRun|]. intros current.
  assert (Hskip : (forall s, findRunStep current (l_StepID lease) = Some s ->
      r_Status current = "running" -> unsettled "running" (s_Status s) (s_EffectState s) = false) ->
    hoare (finds (fun t => accounts_for at_ (lease :: rest) t
        /\ exists row, plan_runs t !! l_RunID lease = Some row /\ rr_Document row = current))
      (reconcileLeases rest) (fun _ => finds (accounts_for at_ [])) anything).
  { intros Hs. eapply hoare_weaken; [exact IH| |done|done]. intros s tr. apply finds_weaken. intros t W (A & row & Er & Hd).
    eapply accounts_for_rest; [exact A|]. intros Hfly. destruct (inFlight_found _ _ _ _ _ W Er Hd Hfly) as (Hst & v & Hv & Hu).
    rewrite (Hs _ Hv Hst) in Hu. discriminate Hu. }
  destruct (findRunStep current (l_StepID lease)) as [step|] eqn:Hf; [|by apply Hskip].
  destruct (_ || _) eqn:Hg.
  - apply Hskip. intros s [= <-] Hst. unfold unsettled. cbn. rewrite Hst, bool_decide_refl in Hg. cbn in Hg.
    apply andb_true_iff in Hg as [Hg1 Hg2]. apply negb_true_iff in Hg1, Hg2. by rewrite Hg1, Hg2.
  - intros w Hw. pose proof (recovery_recovers at_ lease rest current step systemAttribution Hx Hf w) as Hr.
    ospecialize (Hr _).
    { revert Hw. apply finds_weaken. intros t W (A & row & Er & Hd). pose proof (rw_id _ _ _ (tw_runs _ W _ _ Er)) as Hid.
      split; [done|]. rewrite Hd in Hid. split; [|done]. exists row. split; [by rewrite Hid|done]. }
    destruct (recoveryRequired _ _ _ _ w) as [[x|e] w1] eqn:Er.
    + exfalso. revert Er. unfold recoveryRequired, mbind, action_bind. intros Er. repeat (case_match; simplify_eq).
    + destruct (Code (Some e) == RecoveryRequired); [|done]. by apply IH.
Qed.

Lemma expireStored_reports at_ :
  hoare (finds (fun _ => True)) (expireStored (mkLeaseExpiry at_ systemAttribution))
    (fun expired s tr => (undisturbed tr -> Forall (fun lease => l_Status lease = "expired") expired)
       /\ finds (accounts_for at_ expired) s tr) anything.
Proof.
  apply hoare_demand. intros s tr others env Hi.
  destruct (Expire env _ (performCalls others s)) as [[leases|e] s'] eqn:E; [|done].
  set (request := mkLeaseExpiry at_ systemAttribution) in *.
  assert (Hs' : s' = performCall env (Ordinary (CallExpireLeases request)) (performCalls others s))
    by (cbn [performCall perform]; by rewrite E).
  assert (Hthen : undisturbed ((tr ++ interleaved others) ++ [Called env (Ordinary (CallExpireLeases request))]) ->
    tables_wf (tables (st_db s')) /\ Forall (fun lease => l_Status lease = "expired") leases
    /\ accounts_for at_ leases (tables (st_db s'))).
  { intros U. apply undisturbed_snoc in U as [U He]. pose proof (undisturbed_others _ _ U) as ->. cbn [interleaved map] in *.
    rewrite app_nil_r in *. destruct Hi as [-> Hi]. destruct (Hi U) as [W _]. cbn [performCalls fold_left] in *.
    split; [rewrite Hs'; by apply perform_wf|]. apply Expire_fresh in E; [|exact He]. by apply (expireLeases_lost at_ (tables (st_db (storeAfter s0 tr)))). }
  split; [intros U; by destruct (Hthen U) as (_ & ? & _)|]. split; [destruct Hi as [-> _]; by rewrite Hs', storeAfter_called, storeAfter_others|].
  intros U. by destruct (Hthen U) as (? & _ & ?).
Qed.

End Reconciliation.

(** ** Theorems *)

Section Theorems.
Context `{Hasher} `{RunSchemas} `{ExecutorSurroundings}.

(** The loop only adds to the trace. *)
Lemma reconcileLeases_extends store n request expired w1 answer world :
  expireStored request (mkExecutorWorld store n []) = (Ok expired, w1) -> reconcileLeases expired w1 = (answer, world) ->
  exists post, xw_trace world = xw_trace w1 ++ post.
Proof.
  intros E1 E2. pose proof (keeps_expireStored store (fun _ => True) request (mkExecutorWorld store n [])) as K1.
  rewrite E1 in K1. destruct K1 as (Hs & Hj & _); [split_and!; [done|apply allJustified_nil|done]|].
  set (K := fun tr => exists post, tr = xw_trace w1 ++ post).
  assert (G : Growing K) by (intros tr tr' [post ->]; exists (post ++ tr'); by rewrite app_assoc).
  pose proof (keeps_reconcileLeases store K expired w1) as K2. rewrite E2 in K2.
  assert (Ha : accounted store K (xw_store w1) (xw_trace w1)) by (split_and!; [done|done|exists []; by rewrite app_nil_r]).
  specialize (K2 Ha). by destruct answer; destruct K2 as (_ & _ & ?).
Qed.

(** C6: a reconciliation that is not disturbed and reports no error leaves no
    lost lease unsettled: of the external leases whose window was over at its
    time none is active any more, and no run goes on in which the effect of the
    step of such an expired lease is still open. *)
Theorem reconciliation_settles_lost_leases store :
  tables_wf (tables (st_db store)) ->
  let at_ := TruncateSecond (UTC (xu_clock 0)) in
  let '(answer, world) := ReconcileLeases (executorsFrom store) in
  answer = Ok tt -> undisturbed store (xw_trace world) ->
  let t := tables (st_db (xw_store world)) in
  forall id l, target_execution_leases t !! id = Some l -> lost at_ l ->
    le_Status l <> "active" /\ (le_Status l = "expired" -> ~ openEffect t (le_RunID l) (le_StepID l)).
Proof.
  intros W at_. destruct (ReconcileLeases (executorsFrom store)) as [answer world] eqn:E. intros -> U t id l El Hl.
  assert (Hw : finds store (accounts_for at_ []) (xw_store world) (xw_trace world)).
  { change ((expireStored (mkLeaseExpiry at_ systemAttribution) ≫= reconcileLeases) (mkExecutorWorld store 1 []) = (Ok tt, world)) in E.
    apply action_bind_Ok in E as (expired & w1 & E1 & E2).
    pose proof (expireStored_reports store at_ (mkExecutorWorld store 1 [])) as T. rewrite E1 in T.
    destruct T as [Hexp Hfinds]; [by split|]. ospecialize (Hexp _).
    { intros pre event post Htr. destruct (reconcileLeases_extends _ _ _ _ _ _ _ E1 E2) as [post' Hext].
      apply (U pre event (post ++ post')). by rewrite Hext, Htr, <- app_assoc. }
    pose proof (reconcileLeases_recovers store at_ expired Hexp w1 Hfinds) as R. by rewrite E2 in R. }
  destruct Hw as [_ Hw]. destruct (Hw U) as [_ A]. destruct (A id l El Hl) as [Ha Hx]. split; [done|].
  intros Hs Hfly. destruct (Hx Hs Hfly) as (lease & Hin & _). by apply not_elem_of_nil in Hin.
Qed.

End Theorems.
