(* ===== verification/ExecutorWitnesses.v ===== *)
(** An external run of one step, from the claim of its executor to the receipt,
    to which the theorems about the service of external executors are applied. *)

From S2P Require Import Prelude GoTime Hash GoJson Contracts AuditLog AuditStore Authorization Adapter ExecutorLease RunRepository RunHistory.
From S2P Require Import RunFacts RunSuccess ExecutorHistory RunEngine ExternalExecutor ExecutorSafety ExecutorRecovery.

#[local] Existing Instance sampleHasher.
#[local] Existing Instance sampleSchemas.

(** The executor, and an outside world in which nothing fails: the clock is given. *)
Definition executorPrincipal : Principal := mkPrincipal "executor-1" "cloudflare-access" "policy" "".

Definition executorWorld (clock : nat -> Z) : ExecutorSurroundings :=
  {| xu_clock n := later (clock n);
     xu_repository _ := sampleEnv;
     xu_others _ := [];
     xu_plan _ id := if id == "plan-1" then Ok externalPlan else Err (Coded ResourceNotFound "plan");
     xu_verifyRun _ _ _ := None;
     xu_resolve _ := Ok true;
     xu_verifyReceipt _ _ _ := (mkReceiptVerification true (sampleDigest "verification") true, None);
     xu_lease _ _ := Ok ("lease-1", sampleDigest "nonce-2");
     xu_deployment := None |}.

Definition workClaim : ExecutorClaimRequest :=
  mkExecutorClaim "executor-1" "executor-1" "core.backup" 0 (sampleDigest "nonce") [].

Definition workReceipt : ExecutionReceiptRequest := mkExecutionReceiptRequest sampleReceipt (sampleDigest "binding") [].

(** The run is created and running. *)
Definition startHistory : list (RunEnv * StoreCall) :=
  [(sampleEnv, Ordinary (CallCreate (mkRunCreateRequest externalRun (sampleDigest "submit") (sampleDigest "request") sampleActor)));
   (sampleEnv, Ordinary (CallTransition (sampleTransition "queued" "running" (later 1))))].
Notation atWork := (performCalls startHistory externalStart).

Lemma atWork_wf : tables_wf (tables (st_db atWork)).
Proof. apply performCalls_wf; [exact externalStart_wf|]. split; [exact I|split; exact I]. Qed.

Lemma atWork_status : forallb (fun entry => rr_Status entry.2 == "running") (map_to_list (plan_runs (tables (st_db atWork)))) = true.
Proof. vm_compute. reflexivity. Qed.

Lemma atWork_complete : complete (tables (st_db atWork)).
Proof.
  intros id row E Hs. pose proof atWork_status as Ha. rewrite forallb_forall in Ha.
  apply elem_of_map_to_list, list_elem_of_In, Ha in E. cbn [snd] in E. rewrite Hs in E. discriminate E.
Qed.

(** ** Checking a trace of the service *)

Definition servedAlong (check : Store RunTables -> ExecutorEvent -> bool) : Store RunTables -> list ExecutorEvent -> bool :=
  along (fun store event => storeAfter store [event]) check.

Lemma servedAlong_spec check store tr : servedAlong check store tr = true ->
  forall pre event post, tr = pre ++ event :: post -> check (storeAfter store pre) event = true.
Proof.
  intros Hc pre event post E. pose proof (along_spec _ _ _ _ Hc _ _ _ E) as Hf. revert Hf.
  assert (Hs : fold_left (fun store event => storeAfter store [event]) pre store = storeAfter store pre); [|by rewrite Hs].
  clear. revert store. induction pre as [|x pre IH]; intros store; [done|]. cbn [fold_left]. rewrite IH. symmetry.
  exact (storeAfter_app store [x] pre).
Qed.

(** No other client, and receipts only while their run is running. *)
Definition reliesAt (store : Store RunTables) (event : ExecutorEvent) : bool :=
  match event with
  | Interleaved _ _ => false
  | Called _ (Observe request) =>
      bool_decide (rr_Status <$> plan_runs (tables (st_db store)) !! rc_RunID (xp_Receipt (lp_Request request)) = Some "running")
  | _ => true
  end.

Definition calmAt (store : Store RunTables) (event : ExecutorEvent) : bool :=
  let fresh key := isNil (intent_keys (st_db store) !! key) in
  match event with
  | Interleaved _ _ => false
  | Called _ (Ordinary (CallExpireLeases request)) => fresh (expireKey request)
  | Called env (Ordinary (CallUnknown runID id at_ a)) =>
      isNil (MarkStepUnknown env runID id at_ a store).1.2 && fresh (unknownKey runID id at_)
  | Called env (Ordinary (CallTransition request)) =>
      isNil (TransitionRun env request store).1.2 && fresh (transitionKeyOf request)
  | _ => true
  end.

Lemma servedAlong_relied store tr : servedAlong reliesAt store tr = true -> relied store tr.
Proof.
  intros Hc pre event post E. pose proof (servedAlong_spec _ _ _ Hc _ _ _ E) as Ha.
  destruct event as [env [call|request]|env call|]; cbn in Ha |- *; try done.
  intros _ row Er. rewrite Er in Ha. cbn in Ha. apply bool_decide_eq_true in Ha. congruence.
Qed.

Lemma servedAlong_undisturbed store tr : servedAlong calmAt store tr = true -> undisturbed store tr.
Proof.
  intros Hc pre event post E. pose proof (servedAlong_spec _ _ _ Hc _ _ _ E) as Ha.
  destruct event as [env [call|request]|env call|]; cbn in Ha |- *; try done.
  destruct call; try done; [..|by apply isNil_None];
    apply andb_true_iff in Ha as [H1 H2]; apply isNil_None in H1, H2; done.
Qed.

(** ** A step from its claim to its receipt *)

Definition prompt : ExecutorSurroundings := executorWorld (fun n => 2 + Z.of_nat n).
Definition work : list ServiceCall :=
  [ServeClaim None executorPrincipal workClaim; ServeReceipt None executorPrincipal workReceipt].
Notation worked := (serveExecutors (H1 := prompt) work (executorsFrom atWork)).

Lemma worked_relied : servedAlong reliesAt atWork (xw_trace worked) = true.
Proof. vm_compute. reflexivity. Qed.

Lemma worked_success : (fun row => (rr_Status row, map s_StepID (r_Steps (rr_Document row))))
  <$> plan_runs (tables (st_db (xw_store worked))) !! "run-1" = Some ("succeeded", ["step-1"]).
Proof. vm_compute. reflexivity. Qed.

Lemma external_success_is_verified_witness : verifiedStep (tables (st_db (xw_store worked))) "step-1".
Proof.
  destruct (row_found _ _ _ worked_success) as (row & E & Hv). apply pair_eq in Hv as [Hs Hids].
  assert (Hin : "step-1" ∈ map s_StepID (r_Steps (rr_Document row))) by (rewrite Hids; apply elem_of_cons; by left).
  apply list_elem_of_fmap in Hin as (step & Hid & Hin). rewrite Hid.
  exact (external_success_is_verified (H1 := prompt) work atWork atWork_wf atWork_complete (servedAlong_relied _ _ worked_relied)
    "run-1" row step E Hs Hin).
Defined.

(** ** A lease that is lost *)

(** The executor claims the step and is not heard of again. *)
Definition claimOnly : list ServiceCall := [ServeClaim None executorPrincipal workClaim].
Definition afterwards : ExecutorSurroundings := executorWorld (fun n => 100 + Z.of_nat n).
Notation claimed := (serveExecutors (H1 := prompt) claimOnly (executorsFrom atWork)).
Notation reconciled := (ReconcileLeases (H1 := afterwards) (executorsFrom (xw_store claimed))).

Lemma claimed_relied : servedAlong reliesAt atWork (xw_trace claimed) = true.
Proof. vm_compute. reflexivity. Qed.

Lemma claimed_wf : tables_wf (tables (st_db (xw_store claimed))).
Proof.
  rewrite (proj1 (serveExecutors_accounted (H1 := prompt) atWork claimOnly)).
  exact (relied_wf atWork _ atWork_wf (servedAlong_relied _ _ claimed_relied)).
Qed.

Lemma recovered_calm : servedAlong calmAt (xw_store claimed) (xw_trace reconciled.2) = true.
Proof. vm_compute. reflexivity. Qed.

Lemma reconciled_done : reconciled.1 = Ok tt
  /\ twoViews (xw_store reconciled.2) = Some ("partial", "effect-unknown", Some "effect-unknown")
  /\ (fun l => (le_Status l, le_Kind l, String.leb (l_LeaseExpiresAt (le_Document l)) (FormatRFC3339 (later 100))))
       <$> target_execution_leases (tables (st_db (xw_store reconciled.2))) !! "lease-1" = Some ("expired", "external", true).
Proof. vm_compute. done. Qed.

Lemma reconciliation_settles_lost_leases_witness :
  exists l, target_execution_leases (tables (st_db (xw_store reconciled.2))) !! "lease-1" = Some l
    /\ le_Status l = "expired" /\ ~ openEffect (tables (st_db (xw_store reconciled.2))) (le_RunID l) (le_StepID l).
Proof.
  destruct reconciled_done as (Ha & _ & Hl). pose proof recovered_calm as Hc.
  pose proof (reconciliation_settles_lost_leases (H1 := afterwards) (xw_store claimed) claimed_wf) as T.
  revert Ha Hl Hc T. generalize reconciled. intros [answer world] Ha Hl Hc T. cbn [fst snd] in *.
  apply row_found in Hl as (l & E & [[Hs Hk]%pair_eq Hx]%pair_eq). exists l. split; [exact E|]. split; [exact Hs|].
  refine (proj2 (T Ha (servedAlong_undisturbed _ _ Hc) "lease-1" l E _) Hs). split; [exact Hk|exact Hx].
Defined.

(** ** A receipt after the window *)

(** The clock of an executor that reports after its window, before anybody has
    reconciled the leases. *)
Definition overdue : ExecutorSurroundings := executorWorld (fun n => if (n <? 10)%nat then 2 + Z.of_nat n else 100 + Z.of_nat n).
(** A receipt that arrives after the window of its lease, before the leases
    were reconciled, is recorded and settles the run as partial, but its executor
    is not told that recovery is required: the repository has already expired the
    lease with which the service goes on, so that the release of it fails and the
    answer is the conflict of that release. *)
Theorem late_receipt_reports_conflict :
  let claimed := serveExecutors (H1 := overdue) claimOnly (executorsFrom atWork) in
  let '(answer, world) := SubmitReceipt (H1 := overdue) None executorPrincipal workReceipt claimed in
  (twoViews (xw_store claimed), answer, twoViews (xw_store world),
   le_Status <$> target_execution_leases (tables (st_db (xw_store world))) !! "lease-1")
  = (Some ("running", "intent-recorded", Some "intent-recorded"), Err (Coded StateConflict "target-lease"),
     Some ("partial", "effect-unknown", Some "effect-unknown"), Some "expired").
Proof. vm_compute. reflexivity. Qed.
