(* ===== verification/Admission.v ===== *)
(** The admission gate of [internal/run/admission.go]: what a plan, the decision
    that authorizes it and the acknowledgement of a human must satisfy before a
    run of the plan is created, activated or resumed. *)

From S2P Require Import Prelude GoTime Hash GoJson Contracts AuditLog AuditStore Authorization Adapter ExecutorLease RunRepository RunHistory.
From S2P Require Import RunEngine EngineLogic EngineWitnesses EngineRequests.

(** [exactContract] of the three documents. *)
Class AdmissionSchemas := {
  exactPlan : Plan -> bool;
  exactDecision : AuthorizationDecision -> bool;
  exactAcknowledgement : Acknowledgement -> bool
}.

(** What the acknowledgement service answers at the moment of the call. *)
Record AcknowledgementSource := mkAcknowledgementSource {
  Status : string -> result Acknowledgement;
  VerifyForRunExecution : string -> string -> Time -> result Acknowledgement
}.

Record AdmissionGate := mkAdmissionGate {
  ag_acknowledgements : option AcknowledgementSource;
  ag_clock : Time
}.

Section Gate.
Context `{Hasher} `{HostReplacementContract} `{AdmissionSchemas}.

(** The loop over the operations: gates and credentials are only changed by a
    human, centrally, through the operations meant for it. *)
Fixpoint humanOnly (plan : Plan) (operations : list PlanOperation) : option error :=
  match operations with
  | [] => None
  | operation :: rest =>
      if (op_AdapterID operation == "core.gate")
         && ((p_AuthorizationBranch plan != BranchHuman) || (p_ExecutorMode plan != "central")
             || negb (isGateOperation (op_OperationType operation)))
      then Some (Coded AuthorizationDenied "gate-human-admission")
      else if (op_AdapterID operation == "core.credential")
              && ((p_AuthorizationBranch plan != BranchHuman) || (p_ExecutorMode plan != "central")
                  || negb (isCredentialLifecycleOperation (op_OperationType operation)))
      then Some (Coded AuthorizationDenied "credential-lifecycle-human-admission")
      else humanOnly plan rest
  end.

(** A plan with credentials that neither a human centrally nor the schedule may
    execute. *)
Definition credentialDenied (ctx : RequestContext) (plan : Plan) : bool :=
  (credentialPlanDigest plan != "") && negb (credentialExternalAdmitted ctx plan)
  && ((p_AuthorizationBranch plan != BranchHuman) && negb (scheduledCredentialPlan plan)
      || (p_ExecutorMode plan != "central")).

(** The acknowledgement is not the approval of this plan. *)
Definition unapproved (gate : AdmissionGate) (plan : Plan) (acknowledgement : Acknowledgement) (requireFreshProof : bool)
    : bool :=
  negb (exactAcknowledgement acknowledgement) || (ak_Status acknowledgement != "approved")
  || (ak_PlanID acknowledgement != p_PlanID plan) || (ak_PlanDigest acknowledgement != p_PlanDigest plan)
  || (ak_TargetDigest acknowledgement != b_TargetDigest (p_Binding plan))
  || (ak_ReasonDigest acknowledgement != b_ReasonDigest (p_Binding plan))
  || (ak_StateRevision acknowledgement != b_StateRevision (p_Binding plan))
  || (ak_RecoveryEpoch acknowledgement != b_RecoveryEpoch (p_Binding plan))
  || requireFreshProof && negb (Before (UTC (ag_clock gate)) (parseTime (ak_ExpiresAt acknowledgement))).

Definition verify (gate : AdmissionGate) (ctx : RequestContext) (plan : Plan) (decision : AuthorizationDecision)
    (acknowledgement : option Acknowledgement) (requireFreshProof : bool) : option error :=
  if negb (exactPlan plan) || (length (p_Operations plan) =? 0)%nat || negb (exactDecision decision)
     || negb (ad_Allowed decision) || (ad_Action decision != ActionExecute)
     || negb (FirstExecutionTarget plan (ad_TargetID decision)) || (ad_PlanDigest decision != p_PlanDigest plan)
     || (ad_RecoveryEpoch decision != b_RecoveryEpoch (p_Binding plan))
     || (ad_Branch decision != Some (p_AuthorizationBranch plan))
  then Some (Coded AuthorizationDenied "run-admission")
  else match humanOnly plan (p_Operations plan) with
       | Some err => Some err
       | None =>
           if credentialDenied ctx plan then Some (Coded AuthorizationDenied "credential-human-central-admission")
           else if p_AuthorizationBranch plan == BranchPreauthorized
           then if isNil acknowledgement then None else Some (Coded AuthorizationDenied "run-admission")
           else match acknowledgement with
                | None => Some (Coded ApprovalRequired "acknowledgement")
                | Some acknowledgement =>
                    if unapproved gate plan acknowledgement requireFreshProof
                    then Some (Coded ApprovalRequired "acknowledgement") else None
                end
       end.

Definition Verify (gate : AdmissionGate) (ctx : RequestContext) (plan : Plan) (decision : AuthorizationDecision)
    (acknowledgement : option Acknowledgement) : option error :=
  verify gate ctx plan decision acknowledgement true.

Definition Activate (gate : AdmissionGate) (ctx : RequestContext) (plan : Plan) (decision : AuthorizationDecision)
    (current : Run) (acknowledgement : option Acknowledgement) : option error :=
  match verify gate ctx plan decision acknowledgement (p_AuthorizationBranch plan == BranchPreauthorized) with
  | Some err => Some err
  | None =>
      if (r_Status current != "queued") || (r_PlanID current != p_PlanID plan) || (r_PlanDigest current != p_PlanDigest plan)
         || (r_RecoveryEpoch current != b_RecoveryEpoch (p_Binding plan))
      then Some (Coded StateConflict "run-admission")
      else if p_AuthorizationBranch plan == BranchPreauthorized then
        if isNil (r_AcknowledgementID current) then None else Some (Coded AuthorizationDenied "run-admission")
      else match acknowledgement, ag_acknowledgements gate with
           | Some acknowledgement, Some source =>
               if r_AcknowledgementID current != Some (ak_AcknowledgementID acknowledgement)
               then Some (Coded ApprovalRequired "acknowledgement")
               else match VerifyForRunExecution source (p_PlanID plan) (ak_AcknowledgementID acknowledgement)
                            (parseTime (r_CreatedAt current)) with
                    | Err err => Some err
                    | Ok verified =>
                        if ak_AcknowledgementID verified != ak_AcknowledgementID acknowledgement
                        then Some (Coded AuthorizationDenied "acknowledgement")
                        else verify gate ctx plan decision (Some verified) false
                    end
           | _, _ => Some (Coded ApprovalRequired "acknowledgement")
           end
  end.

(** The decision a stored run implies, for the check of its resumption. *)
Definition resumedDecision (plan : Plan) (current : Run) (acknowledgement : Acknowledgement) (target : string)
    : AuthorizationDecision :=
  mkAuthorizationDecision (r_AuthorizationDecisionID current) (ak_HumanID acknowledgement) ActionExecute target true
    (Some (p_AuthorizationBranch plan)) "allowed" 1 (r_RecoveryEpoch current) (r_PlanDigest current)
    (r_CreatedAt current).

Definition VerifyRun (gate : AdmissionGate) (ctx : RequestContext) (plan : Plan) (current : Run) : option error :=
  if credentialDenied ctx plan then Some (Coded AuthorizationDenied "credential-human-central-admission")
  else if (r_PlanID current != p_PlanID plan) || (r_PlanDigest current != p_PlanDigest plan)
          || (r_RecoveryEpoch current != b_RecoveryEpoch (p_Binding plan))
          || (r_PolicyVersion current != b_PolicyVersion (p_Binding plan))
  then Some (Coded PlanStale "run-admission")
  else if p_AuthorizationBranch plan == BranchPreauthorized then
    if isNil (r_AcknowledgementID current) then None else Some (Coded AuthorizationDenied "run-admission")
  else match r_AcknowledgementID current, ag_acknowledgements gate with
       | Some acknowledgementID, Some source =>
           match Status source (r_PlanID current) with
           | Err err => Some err
           | Ok acknowledgement =>
               if ak_AcknowledgementID acknowledgement != acknowledgementID
               then Some (Coded AuthorizationDenied "acknowledgement")
               else match p_Operations plan with
                    | [] => Some (Coded PlanStale "run-admission")
                    | operation :: _ =>
                        Verify gate ctx plan
                          (resumedDecision plan current acknowledgement (hd "" (ExecutionResourceIDs plan operation)))
                          (Some acknowledgement)
                    end
           end
       | _, _ => Some (Coded ApprovalRequired "acknowledgement")
       end.

End Gate.

(** ** What the gate admits *)

(** The approval of a plan: an acknowledgement of exactly this plan, approved and,
    where that counts, not expired. *)
Record Approves (gate : AdmissionGate) `{AdmissionSchemas} (fresh : bool) (plan : Plan) (a : Acknowledgement) : Prop := {
  ap_exact : exactAcknowledgement a = true;
  ap_approved : ak_Status a = "approved";
  ap_plan : ak_PlanID a = p_PlanID plan /\ ak_PlanDigest a = p_PlanDigest plan;
  ap_binding : ak_TargetDigest a = b_TargetDigest (p_Binding plan) /\ ak_ReasonDigest a = b_ReasonDigest (p_Binding plan)
    /\ ak_StateRevision a = b_StateRevision (p_Binding plan) /\ ak_RecoveryEpoch a = b_RecoveryEpoch (p_Binding plan);
  ap_live : fresh = true -> Before (UTC (ag_clock gate)) (parseTime (ak_ExpiresAt a)) = true
}.

(** Control-plane adapters are driven by a human, centrally, through their own
    operations. *)
Definition humanOperation (plan : Plan) (operation : PlanOperation) : Prop :=
  (op_AdapterID operation = "core.gate" -> p_AuthorizationBranch plan = BranchHuman /\ p_ExecutorMode plan = "central"
     /\ isGateOperation (op_OperationType operation) = true)
  /\ (op_AdapterID operation = "core.credential" -> p_AuthorizationBranch plan = BranchHuman
     /\ p_ExecutorMode plan = "central" /\ isCredentialLifecycleOperation (op_OperationType operation) = true).

Section Admits.
Context `{Hasher} `{HostReplacementContract} `{AdmissionSchemas}.

(** The decision permits the execution of this plan on its first target. *)
Record Permits (plan : Plan) (decision : AuthorizationDecision) : Prop := {
  pm_exact : exactPlan plan = true /\ exactDecision decision = true;
  pm_allowed : ad_Allowed decision = true /\ ad_Action decision = ActionExecute;
  pm_target : FirstExecutionTarget plan (ad_TargetID decision) = true;
  pm_plan : ad_PlanDigest decision = p_PlanDigest plan /\ ad_RecoveryEpoch decision = b_RecoveryEpoch (p_Binding plan);
  pm_branch : ad_Branch decision = Some (p_AuthorizationBranch plan)
}.

(** Everything [verify] asks for. *)
Record Admits (gate : AdmissionGate) (ctx : RequestContext) (fresh : bool) (plan : Plan) (decision : AuthorizationDecision)
    (acknowledgement : option Acknowledgement) : Prop := {
  am_permits : Permits plan decision;
  am_operations : Forall (humanOperation plan) (p_Operations plan);
  am_credentials : credentialPlanDigest plan <> "" -> credentialExternalAdmitted ctx plan = true
    \/ p_ExecutorMode plan = "central" /\ (p_AuthorizationBranch plan = BranchHuman \/ scheduledCredentialPlan plan = true);
  am_approval : if p_AuthorizationBranch plan == BranchPreauthorized then acknowledgement = None
                else exists a, acknowledgement = Some a /\ Approves gate fresh plan a
}.

Lemma unapproved_spec gate plan a fresh : unapproved gate plan a fresh = false <-> Approves gate fresh plan a.
Proof.
  unfold unapproved. split.
  - intros E. bool_hyps. constructor; [done..|]. intros ->. cbn in *. by bool_hyps.
  - intros [-> -> [-> ->] (-> & -> & -> & ->) Hl]. rewrite !bool_decide_eq_true_2 by done. cbn.
    destruct fresh; [by rewrite Hl|done].
Qed.

Lemma humanOnly_spec plan operations : humanOnly plan operations = None <-> Forall (humanOperation plan) operations.
Proof.
  induction operations as [|op rest IH]; [by split|]. cbn [humanOnly]. rewrite Forall_cons. unfold humanOperation at 1.
  destruct (decide (op_AdapterID op = "core.gate")) as [E1|E1];
    [rewrite (bool_decide_eq_true_2 _ E1)|rewrite (bool_decide_eq_false_2 _ E1)].
  - rewrite E1, (bool_decide_eq_false_2 ("core.gate" = "core.credential")) by done. cbn [andb].
    destruct ((p_AuthorizationBranch plan != BranchHuman) || _ || _) eqn:Hc; [|rewrite IH; bool_hyps; naive_solver].
    split; [done|]. intros [[(Hb & Hm & Hg) _] _]; [done|]. rewrite Hb, Hm, Hg in Hc. discriminate Hc.
  - cbn [andb]. destruct (decide (op_AdapterID op = "core.credential")) as [E2|E2];
      [rewrite (bool_decide_eq_true_2 _ E2)|rewrite (bool_decide_eq_false_2 _ E2)]; cbn [andb]; [|rewrite IH; naive_solver].
    destruct ((p_AuthorizationBranch plan != BranchHuman) || _ || _) eqn:Hc; [|rewrite IH; bool_hyps; naive_solver].
    split; [done|]. intros [[_ Hx] _]. destruct (Hx E2) as (Hb & Hm & Hg). rewrite Hb, Hm, Hg in Hc. discriminate Hc.
Qed.

Lemma credentialDenied_spec ctx plan : credentialDenied ctx plan = false <->
  (credentialPlanDigest plan <> "" -> credentialExternalAdmitted ctx plan = true
   \/ p_ExecutorMode plan = "central" /\ (p_AuthorizationBranch plan = BranchHuman \/ scheduledCredentialPlan plan = true)).
Proof.
  unfold credentialDenied. destruct (credentialExternalAdmitted ctx plan), (scheduledCredentialPlan plan);
    repeat case_bool_decide; cbn; naive_solver.
Qed.

Lemma permits_spec plan decision :
  negb (exactPlan plan) || (length (p_Operations plan) =? 0)%nat || negb (exactDecision decision)
     || negb (ad_Allowed decision) || (ad_Action decision != ActionExecute)
     || negb (FirstExecutionTarget plan (ad_TargetID decision)) || (ad_PlanDigest decision != p_PlanDigest plan)
     || (ad_RecoveryEpoch decision != b_RecoveryEpoch (p_Binding plan))
     || (ad_Branch decision != Some (p_AuthorizationBranch plan)) = false <-> Permits plan decision.
Proof.
  split.
  - intros E. bool_hyps. by constructor.
  - intros [[-> ->] [-> ->] Ht [-> ->] ->]. rewrite Ht, !bool_decide_eq_true_2 by done. unfold FirstExecutionTarget in Ht.
    by destruct (p_Operations plan).
Qed.

Lemma verify_spec gate ctx plan decision acknowledgement fresh :
  verify gate ctx plan decision acknowledgement fresh = None <-> Admits gate ctx fresh plan decision acknowledgement.
Proof.
  unfold verify. destruct (_ || (ad_Branch decision != _)) eqn:Hp.
  { split; [done|]. intros [Hx _ _ _]. apply permits_spec in Hx. congruence. }
  apply permits_spec in Hp. destruct (humanOnly plan _) eqn:Ho.
  { split; [done|]. intros [_ Hx _ _]. apply humanOnly_spec in Hx. congruence. }
  apply humanOnly_spec in Ho. destruct (credentialDenied ctx plan) eqn:Hc.
  { split; [done|]. intros [_ _ Hx _]. apply credentialDenied_spec in Hx. congruence. }
  rewrite credentialDenied_spec in Hc.
  destruct (p_AuthorizationBranch plan == BranchPreauthorized) eqn:Hb.
  - split.
    + intros Hn. constructor; [done..|]. rewrite Hb. by destruct acknowledgement.
    + intros [_ _ _ Hn]. rewrite Hb in Hn. by rewrite Hn.
  - destruct acknowledgement as [a|].
    + destruct (unapproved gate plan a fresh) eqn:Hu.
      * split; [done|]. intros [_ _ _ Hn]. rewrite Hb in Hn. destruct Hn as (a' & Ha & Hx). injection Ha as <-.
        apply unapproved_spec in Hx. congruence.
      * apply unapproved_spec in Hu. split; [|done]. intros _. constructor; [done..|]. rewrite Hb. by exists a.
    + split; [done|]. intros [_ _ _ Hn]. rewrite Hb in Hn. by destruct Hn as (a & Ha & _).
Qed.

(** C37: the gate admits a plan exactly when the decision permits this plan on its
    first target, control-plane operations are a human's, credentials stay
    central or were prepared, and — unless the plan is preauthorized, when there
    must be none — an approved acknowledgement of exactly this plan is there. *)
Theorem admission_exact gate ctx plan decision acknowledgement fresh :
  verify gate ctx plan decision acknowledgement fresh = None <-> Admits gate ctx fresh plan decision acknowledgement.
Proof. apply verify_spec. Qed.

End Admits.

Section Runs.
Context `{Hasher} `{HostReplacementContract} `{AdmissionSchemas}.

(** The run is a run of this plan, under this binding. *)
Definition runOf (plan : Plan) (run : Run) : Prop :=
  r_PlanID run = p_PlanID plan /\ r_PlanDigest run = p_PlanDigest plan
  /\ r_RecoveryEpoch run = b_RecoveryEpoch (p_Binding plan).

(** The resources of an operation: there is always a first one. *)
Lemma ExecutionResourceIDs_first plan operation : exists id rest, ExecutionResourceIDs plan operation = id :: rest.
Proof.
  unfold ExecutionResourceIDs. destruct (_ || _); [eauto|].
  destruct (discoveryResources plan operation) as [ids|] eqn:E1.
  { unfold discoveryResources in E1. destruct (p_HostDiscoveryTarget plan); [|discriminate E1]. cbn in E1.
    destruct (_ && _) in E1; [|discriminate E1]. injection E1 as <-. eauto. }
  destruct (adoptionResources plan operation) as [ids|] eqn:E2.
  { unfold adoptionResources in E2. destruct (p_HostAdoption plan); [|discriminate E2]. cbn in E2.
    destruct (_ && _) in E2; [|discriminate E2]. injection E2 as <-. eauto. }
  destruct (replacementResources plan operation) as [ids|] eqn:E3.
  { unfold replacementResources in E3. destruct (p_HostReplacement plan); [|discriminate E3]. cbn in E3.
    destruct (_ && _) in E3; [|discriminate E3]. injection E3 as <-. eauto. }
  destruct (aliasResources plan operation) as [ids|] eqn:E4; [|cbn; eauto]. cbn.
  unfold aliasResources in E4. destruct (p_HostAliasClaim plan); [|discriminate E4]. cbn in E4.
  destruct (_ && _) in E4; [|discriminate E4]. injection E4 as <-. eauto.
Qed.

Lemma preauthorized_dec (plan : Plan) : p_AuthorizationBranch plan <> BranchPreauthorized ->
  (p_AuthorizationBranch plan == BranchPreauthorized) = false.
Proof. intros Hn. by apply bool_decide_eq_false_2. Qed.

Lemma activate_vouched gate ctx plan decision current acknowledgement :
  p_AuthorizationBranch plan <> BranchPreauthorized ->
  Activate gate ctx plan decision current acknowledgement = None ->
  r_Status current = "queued" /\ runOf plan current
  /\ exists source id verified, ag_acknowledgements gate = Some source /\ r_AcknowledgementID current = Some id
       /\ VerifyForRunExecution source (p_PlanID plan) id (parseTime (r_CreatedAt current)) = Ok verified
       /\ ak_AcknowledgementID verified = id /\ Admits gate ctx false plan decision (Some verified)
       /\ Approves gate false plan verified.
Proof.
  intros Hb E. unfold Activate in E. rewrite (preauthorized_dec _ Hb) in E.
  destruct (verify _ _ _ _ acknowledgement _); [discriminate E|].
  destruct (_ || (r_RecoveryEpoch current != _)) eqn:Hr in E; [discriminate E|]. bool_hyps.
  destruct acknowledgement as [a|]; [|discriminate E]. destruct (ag_acknowledgements gate) as [source|]; [|discriminate E].
  destruct (_ != _) eqn:Hid in E; [discriminate E|]. bool_hyps.
  destruct (VerifyForRunExecution _ _ _ _) as [verified|e] eqn:Hv in E; [|discriminate E].
  destruct (_ != _) eqn:Hsame in E; [discriminate E|]. bool_hyps.
  apply verify_spec in E as Hadm.
  split_and!; [done|by split_and!|]. exists source, (ak_AcknowledgementID a), verified. split_and!; [done..|].
  destruct Hadm as [_ _ _ Hx]. rewrite (preauthorized_dec _ Hb) in Hx. destruct Hx as (v & Hv' & Hx). by injection Hv' as <-.
Qed.

(** A run whose plan is not preauthorized is only activated while it is
    still queued, for its own plan, when the acknowledgement service at that
    moment vouches for the acknowledgement the run names, and what it vouches
    for is an approval of this plan. *)
Theorem activation_needs_vouched_approval gate ctx plan decision current acknowledgement :
  p_AuthorizationBranch plan <> BranchPreauthorized ->
  Activate gate ctx plan decision current acknowledgement = None ->
  r_Status current = "queued" /\ runOf plan current
  /\ exists source id verified, ag_acknowledgements gate = Some source /\ r_AcknowledgementID current = Some id
       /\ VerifyForRunExecution source (p_PlanID plan) id (parseTime (r_CreatedAt current)) = Ok verified
       /\ ak_AcknowledgementID verified = id /\ Admits gate ctx false plan decision (Some verified)
       /\ Approves gate false plan verified.
Proof. apply activate_vouched. Qed.

(** A run whose plan is not preauthorized is only resumed with the plan it
    was created for, under the same policy, while the acknowledgement it names is
    the plan's current one, approved and not yet expired; an approval that
    expired while the run was interrupted does not carry over. *)
Theorem resumption_needs_live_approval gate ctx plan current :
  p_AuthorizationBranch plan <> BranchPreauthorized -> VerifyRun gate ctx plan current = None ->
  runOf plan current /\ r_PolicyVersion current = b_PolicyVersion (p_Binding plan)
  /\ exists source a, ag_acknowledgements gate = Some source /\ Status source (p_PlanID plan) = Ok a
       /\ r_AcknowledgementID current = Some (ak_AcknowledgementID a) /\ Approves gate true plan a
       /\ Forall (humanOperation plan) (p_Operations plan).
Proof.
  intros Hb E. unfold VerifyRun in E. rewrite (preauthorized_dec _ Hb) in E. destruct (credentialDenied _ _); [discriminate E|].
  destruct (_ || (r_PolicyVersion current != _)) eqn:Hr in E; [discriminate E|]. bool_hyps.
  destruct (r_AcknowledgementID current) as [id|] eqn:Hid; [|discriminate E].
  destruct (ag_acknowledgements gate) as [source|]; [|discriminate E].
  destruct (Status source _) as [a|e] eqn:Hs in E; [|discriminate E].
  destruct (_ != _) eqn:Hsame in E; [discriminate E|]. bool_hyps. subst id.
  destruct (p_Operations plan) as [|op rest] eqn:Hops; [discriminate E|]. apply verify_spec in E as [_ Hop _ Hx].
  rewrite (preauthorized_dec _ Hb) in Hx. destruct Hx as (a' & Ha & Hx). injection Ha as <-.
  split_and!; [by split_and!|done|]. exists source, a. rewrite Hops in Hop. split_and!; congruence || done.
Qed.

End Runs.

(** ** The engine behind the gate *)

Section Guarded.
Context `{Hasher} `{RunSchemas} `{HostReplacementContract} `{AdmissionSchemas} `{Surroundings}.

(** The engine verifies admission with a gate: as the gate is at that moment. *)
Variable gates : nat -> AdmissionGate.
Variable contexts : nat -> RequestContext.
Hypothesis gated : forall n plan decision acknowledgement,
  su_verify n plan decision acknowledgement = Verify (gates n) (contexts n) plan decision acknowledgement.

(** C24: an engine behind the gate records nothing for a plan that is not
    preauthorized unless the request carries an acknowledgement that approves
    exactly this plan and has not expired by the gate's clock, and the decision
    permits this plan. *)
Theorem recorded_submission_is_approved request setup world :
  w_trace (submit request setup world).2 <> w_trace world ->
  exists plan n, Cleared request plan /\ Permits plan (sq_Authorization request)
    /\ Forall (humanOperation plan) (p_Operations plan)
    /\ (p_AuthorizationBranch plan <> BranchPreauthorized ->
        exists a, sq_Acknowledgement request = Some a /\ Approves (gates n) true plan a).
Proof.
  intros Hn. destruct (triple_submit (w_trace world) request setup world) as [Ht|[plan Ha]]; [done|by destruct Hn|].
  destruct (ad_verified _ _ Ha) as [n Hv]. rewrite gated in Hv. apply verify_spec in Hv as [Hp Ho _ Hx].
  exists plan, n. split_and!; [done..|]. intros Hb. by rewrite (preauthorized_dec _ Hb) in Hx.
Qed.
End Guarded.

(** ** A plan of a human *)

Section GateSample.
#[local] Existing Instance sampleHasher.
#[local] Existing Instance sampleContract.

#[local] Instance sampleAdmission : AdmissionSchemas :=
  {| exactPlan plan := sha256Digest (p_PlanDigest plan); exactDecision decision := sha256Digest (ad_PlanDigest decision);
     exactAcknowledgement a := sha256Digest (ak_PlanDigest a) |}.

Definition humanPlan : Plan :=
  mkPlan "plan-1" (sampleDigest "plan") "host-1"
    (mkPlanBinding 0 0 0 1 (sampleDigest "o") (sampleDigest "t") (sampleDigest "r") "v1" "v1" "v1")
    [mkPlanOperation 1 "op-1" "backup.snapshot" "core.backup" "executor-1" "host-1" (sampleDigest "input")
       (sampleDigest "artifact") false]
    "planned" "production-like" "human" "central" None "2026-09-16T01:10:00Z" "2026-09-16T01:40:00Z"
    None None None None None None None None None [].

Definition humanAcknowledgement : Acknowledgement :=
  mkAcknowledgement "plan-1" (sampleDigest "plan") (sampleDigest "t") (sampleDigest "r") "alice" "authority-1"
    (sampleDigest "nonce") 0 0 "2026-09-16T01:20:00Z" "ack-1" (sampleDigest "proof") "approved" "2026-09-16T01:11:00Z" [].

Definition humanDecision : AuthorizationDecision :=
  mkAuthorizationDecision "decision-1" "alice" "execute" "host-1" true (Some "human") "allowed" 1 0
    (sampleDigest "plan") "2026-09-16T01:10:00Z".

Definition humanRun (status : string) : Run :=
  mkRun "run-1" "plan-1" (sampleDigest "plan") "decision-1" (Some "ack-1") "v1" "central" "executor-1"
    (sampleDigest "binding") status [] false "not-requested" "pending" None false 0 0 "2026-09-16T01:10:00Z"
    "2026-09-16T01:10:00Z" [].

Definition humanGate : AdmissionGate :=
  mkAdmissionGate (Some (mkAcknowledgementSource (fun _ => Ok humanAcknowledgement) (fun _ _ _ => Ok humanAcknowledgement)))
    (later 60).

Lemma activation_needs_vouched_approval_witness :
  Approves humanGate false humanPlan humanAcknowledgement.
Proof.
  destruct (activation_needs_vouched_approval humanGate (mkRequestContext None None) humanPlan humanDecision (humanRun "queued")
    (Some humanAcknowledgement)) as (_ & _ & source & id & verified & Hs & _ & Hv & _ & _ & Ha).
  - discriminate.
  - vm_compute. reflexivity.
  - injection Hs as <-. injection Hv as <-. exact Ha.
Defined.

Lemma resumption_needs_live_approval_witness :
  Approves humanGate true humanPlan humanAcknowledgement.
Proof.
  destruct (resumption_needs_live_approval humanGate (mkRequestContext None None) humanPlan (humanRun "interrupted"))
    as (_ & _ & source & a & Hs & Ha & _ & Hx & _).
  - discriminate.
  - vm_compute. reflexivity.
  - injection Hs as <-. injection Ha as <-. exact Hx.
Defined.


(** The engine of the sample, with a human's plan behind the gate. *)
#[local] Existing Instance sampleSchemas.

Definition gatedSurroundings : Surroundings := {|
  su_clock n := later (Z.of_nat n); su_repository _ := sampleEnv; su_others _ := []; su_done _ := false;
  su_plan _ _ := Ok humanPlan; su_current _ _ := None; su_managed _ _ := None;
  su_verify _ plan decision acknowledgement := Verify humanGate (mkRequestContext None None) plan decision acknowledgement;
  su_activate _ _ _ _ _ := None; su_verifyRun _ _ _ := None; su_scheduled := None; su_resolve _ := None;
  su_lease _ _ := Ok ("lease-1", sampleDigest "nonce"); su_execute _ _ _ _ := (sampleEffect, None);
  su_check _ _ _ _ _ := (mkVerification true (sampleDigest "verification"), None); su_boundary _ := None; su_core := false;
  su_retention := false; su_credential := false; su_reference _ := true; su_decision _ := true; su_runReference _ := true |}.

Lemma recorded_submission_is_approved_witness :
  exists plan, Approves humanGate true plan humanAcknowledgement.
Proof.
  destruct (recorded_submission_is_approved (H3 := gatedSurroundings) (fun _ => humanGate)
    (fun _ => mkRequestContext None None) (fun _ _ _ _ => eq_refl)
    (mkSubmitRequest (mkPlanReference "plan-1" (sampleDigest "plan") 0 "key-1" []) humanDecision
       (Some humanAcknowledgement) sampleActor) false (initially sampleStart)) as (plan & n & Ha & _ & _ & Hx).
  - intros E. apply (f_equal (@length Event)) in E. revert E. vm_compute. discriminate.
  - destruct (ad_source _ _ Ha) as [k Hk]. injection Hk as <-. destruct Hx as (a & Es & Hx); [discriminate|].
    injection Es as <-. exists humanPlan. exact Hx.
Defined.

End GateSample.
