(* ===== verification/Gate.v ===== *)
(** Readiness gates ([internal/gate/definition.go], [evaluator.go],
    [proof_registry.go] and [change.go]): which gates apply to a subject, what
    evidence lets a gate pass, and the evaluation of a gate together with the
    gates it presupposes, with its memo table and its detection of cycles. *)

From S2P Require Import Prelude GoTime Hash Contracts.

(** ** Data *)

Record GateDefinition := mkGateDefinition {
  gd_GateID : string;
  gd_DefinitionVersion : string;
  gd_Layer : string;
  gd_ProfileID : option string;
  gd_CapabilityID : option string;
  gd_SubjectKinds : list string;
  gd_Applicability : string;
  gd_PrerequisiteGateIDs : list string;
  gd_EvidenceSchemaID : string;
  gd_EvaluatorVersion : string;
  gd_FreshnessSeconds : Z;
  gd_RecoveryEpochBound : bool
}.

Record GateEvidence := mkGateEvidence {
  ge_SchemaVersion : string;
  ge_EvidenceID : string;
  ge_GateID : string;
  ge_SubjectID : string;
  ge_DefinitionVersion : string;
  ge_EvaluatorVersion : string;
  ge_ReleaseBuildID : string;
  ge_ToolVersion : string;
  ge_ProfileID : string;
  ge_ProfileVersion : string;
  ge_PolicyID : string;
  ge_PolicyVersion : string;
  ge_DeclarationID : string;
  ge_DeclarationRevision : Z;
  ge_StateRevision : Z;
  ge_SourceKind : string;
  ge_ProofClass : string;
  ge_CollectorID : string;
  ge_HumanID : string;
  ge_ArtifactDigest : string;
  ge_BundleDigest : string;
  ge_ObservedAt : string;
  ge_AppliedAt : string;
  ge_ExpiresAt : string;
  ge_RecoveryEpoch : Z;
  ge_SupersedesEvidenceID : option string;
  ge_RevokesEvidenceID : option string;
  ge_Status : string
}.

Record GateEvaluation := mkGateEvaluation {
  gv_EvaluationID : string;
  gv_GateID : string;
  gv_SubjectID : string;
  gv_DefinitionVersion : string;
  gv_EvaluatorVersion : string;
  gv_EvidenceIDs : list string;
  gv_EvaluatedAt : string;
  gv_RecoveryEpoch : Z;
  gv_Outcome : string;
  gv_ReasonCode : string;
  gv_EvidenceSource : string;
  gv_ReadyForInput : bool
}.

Record Definition_ := mkDefinition {
  df_ID : string;
  df_Version : string;
  df_Layer : string;
  df_ProfileID : string;
  df_CapabilityID : string;
  df_Applicability : string;
  df_SubjectKinds : list string;
  df_PrerequisiteIDs : list string;
  df_EvidenceSchemaID : string;
  df_EvaluatorVersion : string;
  df_FreshnessSeconds : Z;
  df_RecoveryEpochBound : bool
}.

Record ResolvedScope := mkResolvedScope {
  rs_ProfileID : string;
  rs_ProfileVersion : string;
  rs_PolicyID : string;
  rs_PolicyVersion : string;
  rs_Capabilities : list string;
  rs_StateRevision : Z;
  rs_RecoveryEpoch : Z
}.

Record ApplicableDefinition := mkApplicable {
  ap_Definition : Definition_;
  ap_Applicable : bool;
  ap_ReasonCode : string
}.

Record Subject := mkSubject {
  su_ID : string;
  su_Kind : string;
  su_ReleaseBuildID : string;
  su_ToolVersion : string;
  su_DeclarationID : string;
  su_ArtifactDigest : string;
  su_DeclarationRevision : Z;
  su_StateRevision : Z
}.

(** ** The generated definitions *)

(** What most definitions have in common. *)
Definition labsGate (id : string) (capability : option string) (kind applicability : string) (prerequisites : list string)
    (freshness : Z) : GateDefinition :=
  mkGateDefinition id "1.0.0" "deployment-profile" (Some "vegastack-labs") capability [kind] applicability prerequisites
    "vegastack-labs.dev/gate-evidence" "1.0.0" freshness true.

Definition platformGate (id version : string) (kinds prerequisites : list string) (freshness : Z) : GateDefinition :=
  mkGateDefinition id version "platform" None None kinds "always" prerequisites
    "vegastack-labs.dev/gate-evidence" version freshness true.

Definition GeneratedGateDefinitions : list GateDefinition :=
  [labsGate "G-001" None "site" "profile" [] 86400; labsGate "G-002" None "node" "profile" [] 86400;
   labsGate "G-003" None "site" "profile" [] 86400; labsGate "G-004" None "site" "profile" [] 86400;
   labsGate "G-005" None "site" "profile" [] 86400; labsGate "G-006" None "site" "profile" [] 86400;
   labsGate "G-007" None "site" "profile" [] 86400;
   labsGate "G-008" None "site" "profile" ["platform-safety"] 86400;
   labsGate "G-009" None "node" "profile" [] 86400; labsGate "G-010" None "node" "profile" [] 86400;
   labsGate "G-011" None "site" "profile" [] 86400; labsGate "G-012" None "site" "profile" [] 86400;
   labsGate "G-013" None "site" "profile" [] 86400; labsGate "G-014" None "site" "profile" [] 86400;
   labsGate "G-015" None "site" "profile" [] 86400; labsGate "G-016" None "adapter" "profile" [] 86400;
   labsGate "G-017" None "site" "profile" [] 86400; labsGate "G-018" None "site" "profile" [] 86400;
   labsGate "G-019" None "service" "profile" [] 86400; labsGate "G-020" None "node" "profile" [] 86400;
   labsGate "G-021" None "node" "profile" [] 86400;
   labsGate "G-022" (Some "service-admission") "service" "capability" [] 86400;
   labsGate "G-023" None "service" "deferred" [] 86400;
   platformGate "host.hardening-baseline" "1.1.0" ["node"] ["platform-safety"] 86400;
   platformGate "host.role-admission" "1.1.0" ["node"] ["host.hardening-baseline"] 86400;
   labsGate "ingress.controller-read-pilot" (Some "cloudflare.ingress.controller-read-pilot") "site" "capability" [] 300;
   platformGate "native.baseline" "1.0.0" ["profile"] [] 86400;
   platformGate "native.recovery" "1.0.0" ["profile"] [] 86400;
   platformGate "native.role" "1.0.0" ["profile"] [] 86400;
   platformGate "platform-safety" "1.0.0" ["site"; "node"; "service"] [] 3600].

(** ** Applicability *)

Definition definitionOf (source : GateDefinition) : Definition_ :=
  mkDefinition (gd_GateID source) (gd_DefinitionVersion source) (gd_Layer source) (default "" (gd_ProfileID source))
    (default "" (gd_CapabilityID source)) (gd_Applicability source) (gd_SubjectKinds source)
    (gd_PrerequisiteGateIDs source) (gd_EvidenceSchemaID source) (gd_EvaluatorVersion source)
    (gd_FreshnessSeconds source) (gd_RecoveryEpochBound source).

Definition applicable (scope : ResolvedScope) (source : GateDefinition) : ApplicableDefinition :=
  let definition := definitionOf source in
  if gd_Applicability source == "deferred" then mkApplicable definition false "deferred"
  else if (df_ProfileID definition != "") && (df_ProfileID definition != rs_ProfileID scope)
  then mkApplicable definition false "profile-not-selected"
  else if (gd_Applicability source == "capability") && negb (bool_decide (df_CapabilityID definition ∈ rs_Capabilities scope))
  then mkApplicable definition false "capability-disabled"
  else mkApplicable definition true "applicable".

(** The generated table is an argument, so that the evaluation is about any
    table of definitions. *)
Definition ResolveDefinitions (table : list GateDefinition) (scope : ResolvedScope) (subjectKind : string)
    : list ApplicableDefinition :=
  if (rs_ProfileID scope == "") || (rs_ProfileVersion scope == "") || (rs_PolicyID scope == "")
     || (rs_PolicyVersion scope == "") || (subjectKind == "")
  then []
  else map (applicable scope) (filter (fun source => subjectKind ∈ gd_SubjectKinds source) table).

Definition HasApplicable (items : list ApplicableDefinition) (gateID : string) : bool :=
  match List.find (fun item => df_ID (ap_Definition item) == gateID) items with
  | Some item => ap_Applicable item
  | None => false
  end.

(** ** Proofs *)

Record ProofResult := mkProofResult { pf_Verified : bool; pf_ReasonCode : string }.

Definition ProofVerifier : Type := Definition_ -> GateEvidence -> result ProofResult.
Definition ProofRegistry : Type := gmap string ProofVerifier.

Definition NewProofRegistry : ProofRegistry := ∅.
Definition proofKey (gateID sourceKind : string) : string := gateID +:+ "/" +:+ sourceKind.

Definition Register (gateID sourceKind : string) (verifier : ProofVerifier) (registry : ProofRegistry) : ProofRegistry :=
  if (gateID != "") && ((sourceKind == "local") || (sourceKind == "independent"))
  then <[proofKey gateID sourceKind := verifier]> registry else registry.

Definition Lookup (registry : ProofRegistry) (gateID sourceKind : string) : option ProofVerifier :=
  registry !! proofKey gateID sourceKind.

(** ** Evaluation *)

(** [ValidateContractJSON] of an evidence row *)
Class GateSchemas := { exactEvidence : GateEvidence -> bool }.

(** The context of one evaluation: what it reads is fixed while it lasts. The
    host verifier, when there is one, replaces the validation of evidence. *)
Record evaluationContext := mkContext {
  ec_host : option (Definition_ -> GateEvidence -> string);
  ec_reader : option (string -> string -> result (list GateEvidence));
  ec_scope : ResolvedScope;
  ec_subject : Subject;
  ec_at : Time;
  ec_verifiers : ProofRegistry;
  ec_definitions : gmap string ApplicableDefinition
}.

Definition newEvaluationContext (table : list GateDefinition)
    (reader : option (string -> string -> result (list GateEvidence))) (scope : ResolvedScope) (subject : Subject)
    (at_ : Time) (verifiers : ProofRegistry) : evaluationContext :=
  mkContext None reader scope subject (UTC at_) verifiers
    (fold_left (fun m item => <[df_ID (ap_Definition item) := item]> m) (ResolveDefinitions table scope (su_Kind subject)) ∅).

(** Newest first: by state revision, then by identifier. ([slices.SortFunc] leaves the order of two rows with the same
    revision and the same identifier open; the sort here keeps it.) *)
Definition newer (left right : GateEvidence) : Prop :=
  ((ge_StateRevision right <? ge_StateRevision left)
   || (ge_StateRevision left =? ge_StateRevision right) && String.leb (ge_EvidenceID right) (ge_EvidenceID left)) = true.
#[global] Instance newer_dec left right : Decision (newer left right).
Proof. unfold newer. apply _. Defined.

(** The identifiers that a row of the list supersedes or revokes. *)
Definition replaced (rows : list GateEvidence) (id : string) : bool :=
  existsb (fun row => (ge_SupersedesEvidenceID row == Some id) || (ge_RevokesEvidenceID row == Some id)) rows.

Definition withOutcome (outcome reason : string) (e : GateEvaluation) : GateEvaluation :=
  mkGateEvaluation (gv_EvaluationID e) (gv_GateID e) (gv_SubjectID e) (gv_DefinitionVersion e) (gv_EvaluatorVersion e)
    (gv_EvidenceIDs e) (gv_EvaluatedAt e) (gv_RecoveryEpoch e) outcome reason (gv_EvidenceSource e) (gv_ReadyForInput e).
Definition withReady (ready : bool) (e : GateEvaluation) : GateEvaluation :=
  mkGateEvaluation (gv_EvaluationID e) (gv_GateID e) (gv_SubjectID e) (gv_DefinitionVersion e) (gv_EvaluatorVersion e)
    (gv_EvidenceIDs e) (gv_EvaluatedAt e) (gv_RecoveryEpoch e) (gv_Outcome e) (gv_ReasonCode e) (gv_EvidenceSource e) ready.
Definition withSource (source : string) (e : GateEvaluation) : GateEvaluation :=
  mkGateEvaluation (gv_EvaluationID e) (gv_GateID e) (gv_SubjectID e) (gv_DefinitionVersion e) (gv_EvaluatorVersion e)
    (gv_EvidenceIDs e) (gv_EvaluatedAt e) (gv_RecoveryEpoch e) (gv_Outcome e) (gv_ReasonCode e) source (gv_ReadyForInput e).
Definition withEvidence (id : string) (e : GateEvaluation) : GateEvaluation :=
  mkGateEvaluation (gv_EvaluationID e) (gv_GateID e) (gv_SubjectID e) (gv_DefinitionVersion e) (gv_EvaluatorVersion e)
    (if (length (gv_EvidenceIDs e) <? 64)%nat then gv_EvidenceIDs e ++ [id] else gv_EvidenceIDs e) (gv_EvaluatedAt e)
    (gv_RecoveryEpoch e) (gv_Outcome e) (gv_ReasonCode e) (gv_EvidenceSource e) (gv_ReadyForInput e).

Definition zeroDefinition : Definition_ := mkDefinition "" "" "" "" "" "" [] [] "" "" 0 false.

(** An evaluation and its error, as Go returns them. *)
Definition Answer : Type := GateEvaluation * option error.
Definition Memo : Type := gmap string GateEvaluation.

Section Evaluation.
Context `{Hasher} `{GateSchemas}.
Variable state : evaluationContext.

Definition base (gateID : string) (definition : Definition_) : GateEvaluation :=
  let version v := if v == "" then "1.0.0" else v in
  mkGateEvaluation
    ("eval-" +:+ take_string 24 (hexSum256 (gateID +:+ nul +:+ su_ID (ec_subject state) +:+ nul
                                              +:+ FormatRFC3339Nano (ec_at state))))
    gateID (su_ID (ec_subject state)) (version (df_Version definition)) (version (df_EvaluatorVersion definition)) []
    (FormatRFC3339 (ec_at state)) (rs_RecoveryEpoch (ec_scope state)) "unknown" "definition-unresolved" "none" false.

(** What is wrong with a row, or the empty string. *)
Definition validate (definition : Definition_) (e : GateEvidence) : string :=
  match ec_host state with
  | Some validateEvidence => validateEvidence definition e
  | None =>
      let scope := ec_scope state in
      let subject := ec_subject state in
      let at_ := ec_at state in
      if negb (exactEvidence e) then "evidence-invalid"
      else if (ge_SchemaVersion e != "1.1.0") || (ge_Status e != "applied") || (ge_SourceKind e == "fixture")
              || (ge_ProofClass e != "live")
      then "evidence-fixture-or-legacy"
      else if (ge_GateID e != df_ID definition) || (ge_SubjectID e != su_ID subject) then "evidence-wrong-subject"
      else if (ge_DefinitionVersion e != df_Version definition) || (ge_EvaluatorVersion e != df_EvaluatorVersion definition)
              || (ge_ReleaseBuildID e != su_ReleaseBuildID subject) || (ge_ToolVersion e != su_ToolVersion subject)
              || (ge_ProfileID e != rs_ProfileID scope) || (ge_ProfileVersion e != rs_ProfileVersion scope)
              || (ge_PolicyID e != rs_PolicyID scope) || (ge_PolicyVersion e != rs_PolicyVersion scope)
      then "evidence-wrong-version"
      else if (ge_DeclarationID e != su_DeclarationID subject) || (ge_DeclarationRevision e != su_DeclarationRevision subject)
              || (ge_StateRevision e != su_StateRevision subject) || (ge_ArtifactDigest e != su_ArtifactDigest subject)
      then "evidence-wrong-revision"
      else if ge_RecoveryEpoch e != rs_RecoveryEpoch scope then "evidence-wrong-epoch"
      else if (ge_HumanID e == "") || (ge_CollectorID e == "") || (ge_BundleDigest e == "") then "evidence-incomplete"
      else match parseRFC3339 (ge_ObservedAt e), parseRFC3339 (ge_AppliedAt e), parseRFC3339 (ge_ExpiresAt e) with
           | Some observed, Some applied, Some expires =>
               if After observed applied || After applied at_ || After observed at_ || negb (After expires applied)
               then "evidence-future-or-invalid-time"
               else if negb (After expires at_) then "evidence-expired"
               else if (0 <? df_FreshnessSeconds definition)
                       && (seconds (df_FreshnessSeconds definition) <? Sub at_ observed)
               then "evidence-stale"
               else ""
           | _, _, _ => "evidence-future-or-invalid-time"
           end
  end.

(** The loop over the rows, newest first: the answer, and whether it is stored. *)
Fixpoint weigh (definition : Definition_) (all rows : list GateEvidence) (e : GateEvaluation) : Answer * bool :=
  match rows with
  | [] =>
      (if gv_ReasonCode e == "" then withOutcome "blocked" "evidence-revoked-or-replaced" e else e, None, true)
  | row :: rest =>
      let e := withEvidence (ge_EvidenceID row) e in
      let hosted := bool_decide (is_Some (ec_host state)) in
      if ge_Status row == "revoked" then
        if (hosted : bool) then (withOutcome "blocked" "host-evidence-revoked" e, None, false) else weigh definition all rest e
      else if replaced all (ge_EvidenceID row) then weigh definition all rest e
      else
        let e := withSource (ge_SourceKind row) e in
        let reason := validate definition row in
        if reason != "" then
          let e := withOutcome "blocked" reason e in
          if (hosted : bool) then (e, None, false) else weigh definition all rest e
        else match Lookup (ec_verifiers state) (gv_GateID e) (ge_SourceKind row) with
             | None => weigh definition all rest (withOutcome "blocked" "proof-unverified" e)
             | Some verifier =>
                 match verifier definition row with
                 | Err err => (e, Some err, false)
                 | Ok proof =>
                     if pf_Verified proof then (withReady false (withOutcome "passed" "proof-verified" e), None, true)
                     else if (hosted : bool)
                     then (withOutcome "blocked" (if pf_ReasonCode proof != "" then pf_ReasonCode proof else "proof-rejected") e,
                           None, false)
                     else weigh definition all rest (withOutcome "blocked" "proof-rejected" e)
                 end
             end
  end.

(** What the evidence of a gate whose prerequisites passed makes of it. *)
Definition judge (gateID : string) (definition : Definition_) (e : GateEvaluation) : Answer * bool :=
  let e := withReady true e in
  match ec_reader state with
  | None => (withOutcome "unknown" "evidence-reader-unavailable" e, None, false)
  | Some reader =>
      match reader gateID (su_ID (ec_subject state)) with
      | Err err => (e, Some err, false)
      | Ok [] => (withOutcome "blocked" "evidence-missing" e, None, true)
      | Ok rows => weigh definition rows (merge_sort newer rows) e
      end
  end.

(** The loop over the prerequisites: the early return, if there is one. *)
Fixpoint prerequisites (check : string -> Memo -> option (Answer * Memo)) (gateID : string) (e : GateEvaluation)
    (ids : list string) (memo : Memo) : option (option Answer * Memo) :=
  match ids with
  | [] => Some (None, memo)
  | id :: rest =>
      '(prerequisite, err, memo) ← check id memo;
      match err with
      | Some err => Some (Some (e, Some err), memo)
      | None =>
          if gv_Outcome prerequisite != "passed" then
            let reason := if bool_decide (is_Some (ec_host state)) then gv_ReasonCode prerequisite
                          else "prerequisite-not-passed" in
            let e := withOutcome "blocked" reason e in
            Some (Some (e, None), <[gateID := e]> memo)
          else prerequisites check gateID e rest memo
      end
  end.

Definition hostOnly (gateID : string) : bool := (gateID == "host.hardening-baseline") || (gateID == "host.role-admission").

(** [check], with the gates that are being visited and fuel for the depth of the
    recursion; [None] is fuel that ran out. *)
Fixpoint check (fuel : nat) (visiting : gset string) (gateID : string) (memo : Memo) : option (Answer * Memo) :=
  match fuel with
  | O => None
  | S fuel =>
      match memo !! gateID with
      | Some got => Some (got, None, memo)
      | None =>
          match ec_definitions state !! gateID with
          | None => Some (base gateID zeroDefinition, None, memo)
          | Some item =>
              let definition := ap_Definition item in
              let e := base gateID definition in
              if bool_decide (ec_host state = None) && hostOnly gateID && ap_Applicable item
              then Some (withOutcome "blocked" "host-binding-changed" e, None, memo)
              else if negb (ap_Applicable item) then
                let e := withOutcome "not-applicable" (ap_ReasonCode item) e in Some (e, None, <[gateID := e]> memo)
              else if bool_decide (gateID ∈ visiting)
              then Some (withOutcome "blocked" "prerequisite-cycle" e, None, memo)
              else
                '(early, memo) ← prerequisites (check fuel ({[gateID]} ∪ visiting)) gateID e (df_PrerequisiteIDs definition) memo;
                match early with
                | Some answer => Some (answer, memo)
                | None =>
                    let '(answer, stored) := judge gateID definition e in
                    Some (answer, if (stored : bool) then <[gateID := answer.1]> memo else memo)
                end
          end
      end
  end.

(** Enough for every chain of distinct definitions. *)
Definition depth : nat := S (S (size (ec_definitions state))).

End Evaluation.

Section Entry.
Context `{Hasher} `{GateSchemas}.

Definition Evaluate (table : list GateDefinition) (reader : option (string -> string -> result (list GateEvidence)))
    (scope : ResolvedScope) (subject : Subject) (gateID : string) (at_ : Time) (verifiers : ProofRegistry)
    : option Answer :=
  let state := newEvaluationContext table reader scope subject at_ verifiers in
  fst <$> check state (depth state) ∅ gateID ∅.

(** The loop of [ListReadyForInput] over the sorted keys, with one memo table. *)
Fixpoint checkAll (state : evaluationContext) (keys : list string) (memo : Memo) : option (result (list GateEvaluation)) :=
  match keys with
  | [] => Some (Ok [])
  | key :: rest =>
      '(item, err, memo) ← check state (depth state) ∅ key memo;
      match err with
      | Some err => Some (Err err)
      | None => items ← checkAll state rest memo; Some (items ← items; Ok (item :: items))
      end
  end.

(** The identifiers of the resolved definitions, sorted. *)
Definition keyOrder (x y : string) : Prop := String.leb x y = true.
#[local] Instance keyOrder_dec x y : Decision (keyOrder x y).
Proof. unfold keyOrder. apply _. Defined.
Definition sortedKeys (state : evaluationContext) : list string :=
  merge_sort keyOrder (map fst (map_to_list (ec_definitions state))).

Definition ListReadyForInput (table : list GateDefinition)
    (reader : option (string -> string -> result (list GateEvidence))) (scope : ResolvedScope) (subject : Subject)
    (at_ : Time) (verifiers : ProofRegistry) : option (result (list GateEvaluation)) :=
  let state := newEvaluationContext table reader scope subject at_ verifiers in
  checkAll state (sortedKeys state) ∅.

End Entry.

(** ** The reference: what it means for a gate to pass *)

Section Reference.
Context `{Hasher} `{GateSchemas}.
Variable state : evaluationContext.

(** A row that proves the gate: it neither was revoked nor replaced, is valid
    now, and a registered verifier accepts it. *)
Definition provesGate (gateID : string) (definition : Definition_) (rows : list GateEvidence) (row : GateEvidence) : Prop :=
  ge_Status row <> "revoked" /\ replaced rows (ge_EvidenceID row) = false /\ validate state definition row = ""
  /\ exists verifier proof, Lookup (ec_verifiers state) gateID (ge_SourceKind row) = Some verifier
       /\ verifier definition row = Ok proof /\ pf_Verified proof = true.

Definition Proven (gateID : string) (definition : Definition_) : Prop :=
  exists reader rows row, ec_reader state = Some reader /\ reader gateID (su_ID (ec_subject state)) = Ok rows
    /\ row ∈ rows /\ provesGate gateID definition rows row.

(** Gates that a context without a host verifier never lets pass. *)
Definition unhosted (gateID : string) : Prop := ec_host state = None /\ hostOnly gateID = true.

(** A gate passes when it applies, all its prerequisites pass and it is proven:
    the least such predicate, so that no gate passes by a cycle. *)
Inductive Passes : string -> Prop :=
| passes_gate gateID item :
    ec_definitions state !! gateID = Some item -> ap_Applicable item = true -> ~ unhosted gateID ->
    (forall id, id ∈ df_PrerequisiteIDs (ap_Definition item) -> Passes id) ->
    Proven gateID (ap_Definition item) -> Passes gateID.

(** ** Soundness *)

Lemma weigh_gate definition all rows e : gv_GateID (weigh state definition all rows e).1.1 = gv_GateID e.
Proof.
  revert e. induction rows as [|row rows IH]; intros e; cbn [weigh]; [by destruct (gv_ReasonCode e == "")|].
  repeat (split_match; try done; try by rewrite IH).
Qed.

Lemma weigh_passed definition all rows e err stored e' :
  weigh state definition all rows e = (e', err, stored) -> gv_Outcome e <> "passed" -> gv_Outcome e' = "passed" ->
  exists row, row ∈ rows /\ provesGate (gv_GateID e) definition all row.
Proof.
  revert e. induction rows as [|row rows IH]; intros e E Hn Hp; cbn [weigh] in E.
  { injection E as <- _ _. exfalso. revert Hp. by destruct (gv_ReasonCode e == ""). }
  assert (Hrest : forall x, weigh state definition all rows x = (e', err, stored) -> gv_Outcome x <> "passed" ->
    gv_GateID x = gv_GateID e -> exists row0, row0 ∈ row :: rows /\ provesGate (gv_GateID e) definition all row0).
  { intros x Ex Hx Hid. destruct (IH x Ex Hx Hp) as (r & Hr & Hv). rewrite Hid in Hv. exists r. split; [|done].
    apply elem_of_cons. by right. }
  cbv zeta in E. destruct (ge_Status row == "revoked") eqn:Hrev in E.
  { destruct (bool_decide (is_Some (ec_host state))) in E; [injection E as <- _ _; discriminate Hp|]. by eapply Hrest. }
  destruct (replaced all (ge_EvidenceID row)) eqn:Hrep in E; [by eapply Hrest|].
  destruct (validate state definition row != "") eqn:Hval in E.
  { destruct (bool_decide (is_Some (ec_host state))) in E; [injection E as <- _ _; discriminate Hp|].
    by eapply Hrest; [exact E|discriminate|]. }
  destruct (Lookup _ _ _) as [verifier|] eqn:Hl in E; [|by eapply Hrest; [exact E|discriminate|]].
  destruct (verifier definition row) as [proof|x] eqn:Hv in E; [|injection E as <- _ _; by destruct Hn].
  destruct (pf_Verified proof) eqn:Hf in E.
  - exists row. split; [apply elem_of_cons; by left|]. bool_hyps. split_and!; [done..|]. by exists verifier, proof.
  - destruct (bool_decide (is_Some (ec_host state))) in E; [injection E as <- _ _; discriminate Hp|].
    by eapply Hrest; [exact E|discriminate|].
Qed.

Lemma judge_passed gateID definition e stored e' err :
  judge state gateID definition e = (e', err, stored) -> gv_Outcome e <> "passed" -> gv_GateID e = gateID ->
  gv_Outcome e' = "passed" -> Proven gateID definition.
Proof.
  intros E Hn Hid Hp. unfold judge in E. destruct (ec_reader state) as [reader|] eqn:Hr; [|by injection E as <- _ _].
  destruct (reader gateID _) as [rows|x] eqn:Hrows in E; [|injection E as <- _ _; by destruct Hn].
  destruct rows as [|r rows]; [by injection E as <- _ _|].
  apply weigh_passed in E as (row & Hin & Hv); [|done|done]. cbn in Hv. rewrite Hid in Hv.
  exists reader, (r :: rows), row. split_and!; [done..| |done]. by rewrite merge_sort_Permutation in Hin.
Qed.

(** Every gate a memo table shows as passed does pass. *)
Definition memoSound (memo : Memo) : Prop :=
  forall gateID e, memo !! gateID = Some e -> gv_Outcome e = "passed" -> Passes gateID.

Lemma memoSound_insert memo gateID e :
  memoSound memo -> (gv_Outcome e = "passed" -> Passes gateID) -> memoSound (<[gateID := e]> memo).
Proof. intros Hm He id x [[<- <-]|[_ Hx]]%lookup_insert_Some; [done|by apply Hm]. Qed.

(** What a sound check promises about its answer. *)
Definition soundAnswer (gateID : string) (answer : Answer) (memo : Memo) : Prop :=
  memoSound memo /\ (answer.2 = None -> gv_Outcome answer.1 = "passed" -> Passes gateID).

Lemma prerequisites_sound checkOne gateID e ids memo early memo' :
  (forall id m answer m', checkOne id m = Some (answer, m') -> memoSound m -> soundAnswer id answer m') ->
  prerequisites state checkOne gateID e ids memo = Some (early, memo') -> memoSound memo ->
  memoSound memo' /\ match early with
    | Some answer => answer.2 = None -> gv_Outcome answer.1 <> "passed"
    | None => forall id, id ∈ ids -> Passes id
    end.
Proof.
  intros Hc. revert memo. induction ids as [|id ids IH]; intros memo E Hm; cbn [prerequisites] in E.
  { injection E as <- <-. split; [done|]. by intros id ?%not_elem_of_nil. }
  destruct (checkOne id memo) as [[[p err] m1]|] eqn:Ec; [|discriminate E]. cbn in E.
  destruct (Hc _ _ _ _ Ec Hm) as [Hm1 Hp]. destruct err as [err|]; [by injection E as <- <-|].
  destruct (gv_Outcome p != "passed") eqn:Ho in E.
  - injection E as <- <-. split; [|done]. by apply memoSound_insert.
  - bool_hyps. destruct (IH _ E Hm1) as [Hm' He]. split; [done|]. destruct early as [answer|]; [done|].
    intros x [->|Hx]%elem_of_cons; [by apply Hp|by apply He].
Qed.

Lemma check_sound fuel visiting gateID memo answer memo' :
  check state fuel visiting gateID memo = Some (answer, memo') -> memoSound memo -> soundAnswer gateID answer memo'.
Proof.
  revert visiting gateID memo answer memo'. induction fuel as [|fuel IH]; intros visiting gateID memo answer memo' E Hm; [done|].
  cbn [check] in E. destruct (memo !! gateID) as [got|] eqn:Hgot.
  { injection E as <- <-. split; [done|]. intros _. by apply Hm. }
  destruct (ec_definitions state !! gateID) as [item|] eqn:Hitem; [|by injection E as <- <-]. cbv zeta in E.
  destruct (bool_decide _ && _ && _) eqn:Hh in E; [by injection E as <- <-|].
  destruct (ap_Applicable item) eqn:Ha; cbn [negb] in E; [|injection E as <- <-; split; [by apply memoSound_insert|done]].
  destruct (bool_decide (gateID ∈ visiting)) in E; [by injection E as <- <-|].
  destruct (prerequisites _ _ _ _ _ _) as [[early m1]|] eqn:Ep in E; [|discriminate E]. cbn in E.
  destruct (prerequisites_sound _ _ _ _ _ _ _ (fun id m a m' => IH _ id m a m') Ep Hm) as [Hm1 He].
  destruct early as [early|]; [injection E as <- <-; split; [done|]; intros Hn Hp; by destruct (He Hn)|].
  destruct (judge state gateID (ap_Definition item) _) as [[e err] stored] eqn:Ej in E.
  assert (Hp : gv_Outcome e = "passed" -> Passes gateID).
  { intros Hp. apply (passes_gate gateID item); [done..| |done|].
    - intros [Hn Ho]. rewrite Hn, Ho in Hh. discriminate Hh.
    - by eapply judge_passed; [exact Ej|..]. }
  injection E as <- <-. split; [|by intros _]. destruct stored; [by apply memoSound_insert|done].
Qed.

(** ** Termination *)

Lemma prerequisites_total checkOne gateID e ids memo :
  (forall id m, is_Some (checkOne id m)) -> is_Some (prerequisites state checkOne gateID e ids memo).
Proof.
  intros Hc. revert memo. induction ids as [|id ids IH]; intros memo; cbn [prerequisites]; [eauto|].
  destruct (Hc id memo) as [[[p err] m1] ->]. cbn. destruct err; [eauto|]. destruct (gv_Outcome p != "passed"); eauto.
Qed.

(** The gates still to visit bound the depth of the recursion. *)
Lemma check_total fuel visiting gateID memo :
  (size (dom (ec_definitions state) ∖ visiting) < fuel)%nat -> is_Some (check state fuel visiting gateID memo).
Proof.
  revert visiting gateID memo. induction fuel as [|fuel IH]; intros visiting gateID memo Hf; [lia|].
  cbn [check]. destruct (memo !! gateID); [eauto|]. destruct (ec_definitions state !! gateID) as [item|] eqn:Hi; [|eauto].
  cbv zeta. destruct (_ && _ && _); [eauto|]. destruct (negb _); [eauto|]. case_bool_decide as Hv; [eauto|].
  assert (Hsmall : (size (dom (ec_definitions state) ∖ ({[gateID]} ∪ visiting)) < fuel)%nat).
  { apply Nat.lt_le_trans with (size (dom (ec_definitions state) ∖ visiting)); [|lia]. apply subset_size.
    apply elem_of_dom_2 in Hi. set_solver. }
  destruct (prerequisites_total (check state fuel ({[gateID]} ∪ visiting)) gateID (base state gateID (ap_Definition item))
    (df_PrerequisiteIDs (ap_Definition item)) memo) as [[early m1] ->]; [intros; by apply IH|].
  cbn. destruct early; [eauto|]. destruct (judge _ _ _ _) as [answer stored]. eauto.
Qed.

Lemma check_depth gateID memo : is_Some (check state (depth state) ∅ gateID memo).
Proof.
  apply check_total. unfold depth. rewrite difference_empty_L, size_dom. lia.
Qed.

(** ** Completeness *)

(** Nothing an evaluation asks fails, and no host verifier takes part. *)
Record quiet : Prop := {
  qt_host : ec_host state = None;
  qt_reader : forall reader gateID subjectID, ec_reader state = Some reader -> is_ok (reader gateID subjectID) = true;
  qt_verifiers : forall gateID source verifier definition row, Lookup (ec_verifiers state) gateID source = Some verifier ->
    is_ok (verifier definition row) = true
}.

Hypothesis Q : quiet.

Lemma weigh_complete definition all rows e :
  let answer := (weigh state definition all rows e).1 in
  answer.2 = None /\
  ((exists row, row ∈ rows /\ provesGate (gv_GateID e) definition all row) -> gv_Outcome answer.1 = "passed").
Proof.
  cbv zeta. revert e. induction rows as [|row rows IH]; intros e; cbn [weigh].
  { split; [done|]. by intros (row & ?%not_elem_of_nil & _). }
  assert (Hrest : forall x, gv_GateID x = gv_GateID e -> ~ provesGate (gv_GateID e) definition all row ->
    (weigh state definition all rows x).1.2 = None /\
    ((exists row0, row0 ∈ row :: rows /\ provesGate (gv_GateID e) definition all row0) ->
     gv_Outcome (weigh state definition all rows x).1.1 = "passed")).
  { intros x Hx Hn. destruct (IH x) as [H1' H2']. split; [done|]. intros (r & [->|Hr]%elem_of_cons & Hv); [done|].
    apply H2'. exists r. by rewrite Hx. }
  cbv zeta. rewrite (qt_host Q). change (bool_decide (is_Some None)) with false.
  destruct (ge_Status row == "revoked") eqn:Hrev; [apply Hrest; [done|]; intros (? & _); by bool_hyps|].
  destruct (replaced all (ge_EvidenceID row)) eqn:Hrep; [apply Hrest; [done|]; intros (_ & ? & _); congruence|].
  destruct (validate state definition row != "") eqn:Hval; [apply Hrest; [done|]; intros (_ & _ & ? & _); by bool_hyps|].
  destruct (Lookup _ _ _) as [verifier|] eqn:Hl; cbn [gv_GateID withSource withEvidence] in Hl.
  2: { apply Hrest; [done|]. intros (_ & _ & _ & v & p & Hv & _). congruence. }
  pose proof (qt_verifiers Q _ _ _ definition row Hl) as Hok. destruct (verifier definition row) as [proof|x] eqn:Hv; [|done].
  destruct (pf_Verified proof) eqn:Hf; [done|]. apply Hrest; [done|]. intros (_ & _ & _ & v & p & Hv' & Hp & Ht). congruence.
Qed.

Lemma judge_complete gateID definition e : gv_GateID e = gateID -> gv_Outcome e <> "passed" ->
  let answer := (judge state gateID definition e).1 in
  answer.2 = None /\ (Proven gateID definition -> gv_Outcome answer.1 = "passed").
Proof.
  intros Hid Hn. cbv zeta. unfold judge. destruct (ec_reader state) as [reader|] eqn:Hr.
  2: { split; [done|]. intros (r & _ & _ & Hr' & _). congruence. }
  pose proof (qt_reader Q reader gateID (su_ID (ec_subject state)) Hr) as Hok.
  destruct (reader gateID _) as [rows|x] eqn:Hrows; [|done]. destruct rows as [|r rows].
  { split; [done|]. intros (rd & rs & row & Hr' & Hrs & Hin & _). assert (rd = reader) as -> by congruence.
    rewrite Hrows in Hrs. injection Hrs as <-. by apply not_elem_of_nil in Hin. }
  destruct (weigh_complete definition (r :: rows) (merge_sort newer (r :: rows)) (withReady true e)) as [He Hp].
  split; [exact He|]. intros (rd & rs & row & Hr' & Hrs & Hin & Hv). assert (rd = reader) as -> by congruence.
  rewrite Hrows in Hrs. injection Hrs as <-. apply Hp. exists row. split; [by rewrite merge_sort_Permutation|].
  cbn [gv_GateID withReady]. by rewrite Hid.
Qed.

(** Passing, with a bound on the height of its derivation. *)
Inductive PassesIn : nat -> string -> Prop :=
| passes_in n gateID item :
    ec_definitions state !! gateID = Some item -> ap_Applicable item = true -> ~ unhosted gateID ->
    (forall id, id ∈ df_PrerequisiteIDs (ap_Definition item) -> PassesIn n id) ->
    Proven gateID (ap_Definition item) -> PassesIn (S n) gateID.

Lemma PassesIn_mono n m gateID : PassesIn n gateID -> (n <= m)%nat -> PassesIn m gateID.
Proof.
  intros Hp. revert m. induction Hp as [n g item Hd Ha Hh _ IH Hpr]; intros [|m] Hle; [lia|].
  apply (passes_in m g item); [done..| |done]. intros id Hid. apply IH; [done|lia].
Qed.

Lemma Passes_height gateID : Passes gateID -> exists n, PassesIn n gateID.
Proof.
  induction 1 as [g item Hd Ha Hh _ IH Hpr]. revert IH.
  enough (forall ids : list string, (forall id : string, id ∈ ids -> exists n, PassesIn n id) -> exists n, forall id, id ∈ ids -> PassesIn n id)
    as Hmax.
  { intros IH. destruct (Hmax _ IH) as [n Hn]. exists (S n). by apply (passes_in n g item). }
  induction ids as [|id ids IH]; intros Hall; [exists O; by intros id ?%not_elem_of_nil|].
  destruct (Hall id) as [n Hn]; [apply elem_of_cons; by left|].
  destruct IH as [m Hm]; [intros x Hx; apply Hall, elem_of_cons; by right|].
  exists (n `max` m)%nat. intros x [->|Hx]%elem_of_cons; [eapply PassesIn_mono; [exact Hn|lia]|].
  eapply PassesIn_mono; [by apply Hm|lia].
Qed.

(** Every gate on the stack needs the gate being checked to pass first. *)
Definition needed (visiting : gset string) (gateID : string) : Prop :=
  forall v n, v ∈ visiting -> PassesIn n v -> exists m, (m < n)%nat /\ PassesIn m gateID.

Lemma needed_not_passing visiting gateID : needed visiting gateID -> gateID ∈ visiting -> ~ Passes gateID.
Proof.
  intros Hn Hv Hp. apply Passes_height in Hp as [n Hp]. revert Hp.
  induction n as [n IH] using lt_wf_ind. intros Hp. destruct (Hn _ _ Hv Hp) as (m & Hm & Hp'). by apply (IH m Hm).
Qed.

Lemma needed_prerequisite visiting gateID item id :
  ec_definitions state !! gateID = Some item -> id ∈ df_PrerequisiteIDs (ap_Definition item) ->
  needed visiting gateID -> needed ({[gateID]} ∪ visiting) id.
Proof.
  intros Hd Hid Hn. assert (Hstep : forall n, PassesIn n gateID -> exists m, (m < n)%nat /\ PassesIn m id).
  { intros n Hp. inversion Hp as [n' g item' Hd' _ _ Hall _]; subst. exists n'. split; [lia|]. apply Hall. congruence. }
  intros v n [->%elem_of_singleton|Hv]%elem_of_union Hp; [by apply Hstep|].
  destruct (Hn _ _ Hv Hp) as (m & Hm & Hp'). destruct (Hstep _ Hp') as (k & Hk & Hk'). exists k. split; [lia|done].
Qed.

(** A memo table that misses no gate that passes. *)
Definition memoComplete (memo : Memo) : Prop :=
  forall gateID e, memo !! gateID = Some e -> Passes gateID -> gv_Outcome e = "passed".

Lemma memoComplete_insert memo gateID e :
  memoComplete memo -> (Passes gateID -> gv_Outcome e = "passed") -> memoComplete (<[gateID := e]> memo).
Proof. intros Hm He id x [[<- <-]|[_ Hx]]%lookup_insert_Some; [done|by apply Hm]. Qed.

Definition completeAnswer (gateID : string) (answer : Answer) (memo : Memo) : Prop :=
  memoComplete memo /\ answer.2 = None /\ (Passes gateID -> gv_Outcome answer.1 = "passed").

Lemma passes_item gateID item : ec_definitions state !! gateID = Some item -> Passes gateID ->
  ap_Applicable item = true /\ ~ unhosted gateID /\ Proven gateID (ap_Definition item)
  /\ forall id, id ∈ df_PrerequisiteIDs (ap_Definition item) -> Passes id.
Proof. intros Hd Hp. inversion Hp as [g item' Hd' Ha Hh Hall Hpr]; subst. assert (item' = item) as -> by congruence. done. Qed.

Lemma prerequisites_complete checkOne gateID e item ids memo early memo' :
  ec_definitions state !! gateID = Some item -> (forall id, id ∈ ids -> id ∈ df_PrerequisiteIDs (ap_Definition item)) ->
  (forall id m answer m', id ∈ ids -> checkOne id m = Some (answer, m') -> memoComplete m -> completeAnswer id answer m') ->
  prerequisites state checkOne gateID e ids memo = Some (early, memo') -> memoComplete memo ->
  memoComplete memo' /\ match early with Some answer => answer.2 = None /\ ~ Passes gateID | None => True end.
Proof.
  intros Hd. revert memo. induction ids as [|id ids IH]; intros memo Hsub Hc E Hm; cbn [prerequisites] in E.
  { by injection E as <- <-. }
  destruct (checkOne id memo) as [[[p err] m1]|] eqn:Ec; [|discriminate E]. cbn in E.
  destruct (Hc id _ _ _ ltac:(apply elem_of_cons; by left) Ec Hm) as (Hm1 & Hn & Hp). cbn in Hn. subst err.
  destruct (gv_Outcome p != "passed") eqn:Ho in E.
  - assert (Hnot : ~ Passes gateID).
    { intros Hg. destruct (passes_item _ _ Hd Hg) as (_ & _ & _ & Hall). bool_hyps.
      match goal with Hx : gv_Outcome p <> _ |- _ => apply Hx, Hp, Hall, Hsub end. apply elem_of_cons. by left. }
    injection E as <- <-. split; [|done]. by apply memoComplete_insert.
  - apply (IH m1); [| |exact E|exact Hm1].
    + intros x Hx. apply Hsub, elem_of_cons. by right.
    + intros x m a m' Hx. apply Hc, elem_of_cons. by right.
Qed.

Lemma check_complete fuel visiting gateID memo answer memo' :
  check state fuel visiting gateID memo = Some (answer, memo') -> memoComplete memo -> needed visiting gateID ->
  completeAnswer gateID answer memo'.
Proof.
  revert visiting gateID memo answer memo'.
  induction fuel as [|fuel IH]; intros visiting gateID memo answer memo' E Hm Hneed; [done|]. cbn [check] in E.
  destruct (memo !! gateID) as [got|] eqn:Hgot.
  { injection E as <- <-. split_and!; [done|done|]. by apply Hm. }
  destruct (ec_definitions state !! gateID) as [item|] eqn:Hitem.
  2: { injection E as <- <-. split_and!; [done|done|]. intros Hp. inversion Hp. congruence. }
  cbv zeta in E. pose proof (passes_item gateID item Hitem) as Hitem'.
  destruct (bool_decide _ && _ && _) eqn:Hh in E.
  { injection E as <- <-. split_and!; [done|done|]. intros Hp. destruct (Hitem' Hp) as (_ & Hu & _). bool_hyps. by destruct Hu. }
  destruct (ap_Applicable item) eqn:Ha; cbn [negb] in E.
  2: { assert (Hnot : ~ Passes gateID) by (intros Hp; by destruct (Hitem' Hp)).
       injection E as <- <-. split_and!; [by apply memoComplete_insert|done|done]. }
  destruct (bool_decide (gateID ∈ visiting)) eqn:Hv in E.
  { bool_hyps. pose proof (needed_not_passing _ _ Hneed Hv). injection E as <- <-. by split_and!. }
  destruct (prerequisites _ _ _ _ _ _) as [[early m1]|] eqn:Ep in E; [|discriminate E]. cbn in E.
  destruct (prerequisites_complete _ _ _ _ _ _ _ _ Hitem (fun _ Hx => Hx)
    (fun id m a m' Hid Ex Hx => IH _ id m a m' Ex Hx (needed_prerequisite _ _ _ _ Hitem Hid Hneed)) Ep Hm) as [Hm1 He].
  destruct early as [early|]; [injection E as <- <-; destruct He; by split_and!|].
  destruct (judge_complete gateID (ap_Definition item) (base state gateID (ap_Definition item)) eq_refl ltac:(done)) as [Hn Hp].
  destruct (judge _ _ _ _) as [[e err] stored]. cbn in Hn, Hp. injection E as <- <-.
  assert (Hpass : Passes gateID -> gv_Outcome e = "passed") by (intros Hg; apply Hp; by destruct (Hitem' Hg) as (_ & _ & ? & _)).
  split_and!; [|done|done]. destruct stored; [by apply memoComplete_insert|done].
Qed.

End Reference.

(** ** The entry points *)

Section Theorems.
Context `{Hasher} `{GateSchemas}.
Variables (table : list GateDefinition) (reader : option (string -> string -> result (list GateEvidence))).
Variables (scope : ResolvedScope) (subject : Subject) (at_ : Time) (verifiers : ProofRegistry).

Let state := newEvaluationContext table reader scope subject at_ verifiers.

Lemma checkAll_total keys memo : is_Some (checkAll state keys memo).
Proof.
  revert memo. induction keys as [|key keys IH]; intros memo; cbn [checkAll]; [eauto|].
  destruct (check_total state (depth state) ∅ key memo) as [[[item err] m1] ->].
  { unfold depth. rewrite difference_empty_L, size_dom. lia. }
  cbn. destruct err; [eauto|]. destruct (IH m1) as [items ->]. cbn. eauto.
Qed.

(** C23: every evaluation and every listing returns, whatever the table of
    definitions says, cycles and missing prerequisites included: the fuel the
    entry points pass bounds the depth of the recursion. *)
Theorem gate_evaluation_terminates gateID :
  is_Some (Evaluate table reader scope subject gateID at_ verifiers)
  /\ is_Some (ListReadyForInput table reader scope subject at_ verifiers).
Proof.
  split; [|apply checkAll_total]. unfold Evaluate. fold state.
  destruct (check_depth state gateID ∅) as [x ->]. by eexists.
Qed.

Lemma memoSound_empty : memoSound state ∅. Proof. by intros g e Hg. Qed.
Lemma memoComplete_empty : memoComplete state ∅. Proof. by intros g e Hg. Qed.
Lemma needed_empty gateID : needed state ∅ gateID. Proof. by intros v n Hv%not_elem_of_empty. Qed.

(** A gate is only ever reported as passed when it applies to the subject,
    all its prerequisites pass by the same rule, and a row of its evidence that
    was neither revoked nor replaced is valid now and accepted by a registered
    verifier. *)
Theorem passed_gate_is_proven gateID e :
  Evaluate table reader scope subject gateID at_ verifiers = Some (e, None) -> gv_Outcome e = "passed" ->
  Passes state gateID.
Proof.
  unfold Evaluate. fold state. intros E Hp. destruct (check state _ ∅ gateID ∅) as [[answer memo]|] eqn:Ec; [|discriminate E].
  injection E as ->. destruct (check_sound _ _ _ _ _ _ _ Ec memoSound_empty) as [_ Hs]. by apply Hs.
Qed.

Lemma check_answers (Q : quiet state) gateID memo : memoSound state memo -> memoComplete state memo ->
  exists e memo', check state (depth state) ∅ gateID memo = Some (e, None, memo') /\ memoSound state memo' /\ memoComplete state memo'
    /\ (gv_Outcome e = "passed" <-> Passes state gateID).
Proof.
  intros Hs Hc. destruct (check_total state (depth state) ∅ gateID memo) as [[[e err] memo'] E].
  { unfold depth. rewrite difference_empty_L, size_dom. lia. }
  destruct (check_sound _ _ _ _ _ _ _ E Hs) as [Hs' Hsound].
  destruct (check_complete state Q _ _ _ _ _ _ E Hc (needed_empty gateID)) as (Hc' & Hn & Hcomplete).
  cbn in *. subst err. exists e, memo'. split_and!; try done. split; [by apply Hsound|done].
Qed.

(** C22: without a host verifier, and while neither the evidence reader nor a
    verifier fails, an evaluation returns without an error and reports the gate
    as passed exactly when it passes: the memo table and the cycle check lose
    nothing. *)
Theorem gate_passes_exactly (Q : quiet state) gateID :
  exists e, Evaluate table reader scope subject gateID at_ verifiers = Some (e, None)
    /\ (gv_Outcome e = "passed" <-> Passes state gateID).
Proof.
  destruct (check_answers Q gateID ∅ memoSound_empty memoComplete_empty) as (e & memo & E & _ & _ & Hp).
  exists e. split; [|done]. unfold Evaluate. fold state. by rewrite E.
Qed.

Lemma checkAll_exact (Q : quiet state) keys memo : memoSound state memo -> memoComplete state memo ->
  exists items, checkAll state keys memo = Some (Ok items)
    /\ Forall2 (fun key item => gv_Outcome item = "passed" <-> Passes state key) keys items.
Proof.
  revert memo. induction keys as [|key keys IH]; intros memo Hs Hc; cbn [checkAll]; [by exists []|].
  destruct (check_answers Q key memo Hs Hc) as (e & memo' & -> & Hs' & Hc' & Hp).
  destruct (IH memo' Hs' Hc') as (items & E & Hall). cbn. rewrite E. exists (e :: items). split; [done|by constructor].
Qed.

(** Under the same conditions the listing returns one evaluation for every
    resolved definition, and each reports its gate as passed exactly when the
    gate passes: sharing one memo table among the gates changes no verdict. *)
Theorem listing_exact (Q : quiet state) :
  exists items, ListReadyForInput table reader scope subject at_ verifiers = Some (Ok items)
    /\ (forall gateID, gateID ∈ sortedKeys state <-> is_Some (ec_definitions state !! gateID))
    /\ Forall2 (fun gateID item => gv_Outcome item = "passed" <-> Passes state gateID) (sortedKeys state) items.
Proof.
  destruct (checkAll_exact Q (sortedKeys state) ∅ memoSound_empty memoComplete_empty) as (items & E & Hall).
  exists items. split_and!; [exact E| |exact Hall]. intros gateID. unfold sortedKeys. rewrite merge_sort_Permutation, list_elem_of_fmap.
  split; [by intros ([k v] & -> & ?%elem_of_map_to_list); exists v|].
  intros [v Hv]. exists (gateID, v). split; [done|]. by apply elem_of_map_to_list.
Qed.

End Theorems.

(** ** Revoked evidence *)

Section Revoked.
Context `{Hasher} `{GateSchemas}.
Variable state : evaluationContext.

(** No row of the list may still be weighed. *)
Definition withdrawn (all rows : list GateEvidence) : Prop :=
  forall row, row ∈ rows -> ge_Status row = "revoked" \/ replaced all (ge_EvidenceID row) = true.

Lemma weigh_withdrawn definition all rows e : ec_host state = None -> withdrawn all rows -> gv_ReasonCode e <> "" ->
  exists e', weigh state definition all rows e = (e', None, true)
    /\ gv_Outcome e' = gv_Outcome e /\ gv_ReasonCode e' = gv_ReasonCode e.
Proof.
  intros Hh. revert e. induction rows as [|row rows IH]; intros e Hw He; cbn [weigh].
  { destruct (gv_ReasonCode e == "") eqn:Hr; [by bool_hyps|by exists e]. }
  assert (Hrest : withdrawn all rows) by (intros x Hx; apply Hw, elem_of_cons; by right).
  cbv zeta. rewrite Hh. change (bool_decide (is_Some None)) with false. cbv iota.
  destruct (IH (withEvidence (ge_EvidenceID row) e) Hrest He) as (e' & E & Ho & Hc).
  destruct (ge_Status row == "revoked") eqn:Hrev; [by exists e'|].
  destruct (replaced all (ge_EvidenceID row)) eqn:Hrep; [by exists e'|].
  destruct (Hw row ltac:(apply elem_of_cons; by left)) as [Hx|Hx]; [by bool_hyps|congruence].
Qed.

(** When all the evidence of a gate that is otherwise ready was revoked or
    replaced, the evaluation is not "blocked" as "evidence-revoked-or-replaced":
    [base] has already written a reason code, so that the branch for this case
    is never taken and the answer is "unknown", "definition-unresolved". *)
Theorem revoked_evidence_reported_unresolved reader gateID definition rows :
  ec_host state = None -> ec_reader state = Some reader -> reader gateID (su_ID (ec_subject state)) = Ok rows ->
  rows <> [] -> withdrawn rows rows ->
  exists e, judge state gateID definition (base state gateID definition) = (e, None, true)
    /\ gv_Outcome e = "unknown" /\ gv_ReasonCode e = "definition-unresolved".
Proof.
  intros Hh Hr Hrows Hne Hw. unfold judge. rewrite Hr, Hrows. destruct rows as [|r rows]; [done|].
  apply (weigh_withdrawn definition (r :: rows) _ (withReady true (base state gateID definition))); [done| |done].
  intros row Hrow. apply Hw. by rewrite merge_sort_Permutation in Hrow.
Qed.

End Revoked.

(** ** The generated table *)

(** A definition's prerequisites are defined for every kind of subject it is
    defined for, and have a smaller rank. *)
Definition closedFor (rank : string -> nat) (table : list GateDefinition) (source : GateDefinition) : bool :=
  forallb (fun id => (rank id <? rank (gd_GateID source))%nat
    && forallb (fun kind => existsb (fun other => (gd_GateID other == id) && bool_decide (kind ∈ gd_SubjectKinds other)) table)
         (gd_SubjectKinds source))
    (gd_PrerequisiteGateIDs source).

(** The length of the longest chain of prerequisites below a generated gate. *)
Definition generatedRank (id : string) : nat :=
  if id == "host.role-admission" then 2 else if (id == "host.hardening-baseline") || (id == "G-008") then 1 else 0.

Lemma closedFor_spec rank table source : closedFor rank table source = true ->
  forall id kind, id ∈ gd_PrerequisiteGateIDs source -> kind ∈ gd_SubjectKinds source ->
    (rank id < rank (gd_GateID source))%nat
    /\ exists other, other ∈ table /\ gd_GateID other = id /\ kind ∈ gd_SubjectKinds other.
Proof.
  unfold closedFor. rewrite forallb_forall. intros Hall id kind Hid Hk. apply list_elem_of_In in Hid.
  specialize (Hall id Hid). apply andb_true_iff in Hall as [Hlt Hkinds]. split; [by apply Nat.ltb_lt|].
  rewrite forallb_forall in Hkinds. apply list_elem_of_In in Hk. specialize (Hkinds kind Hk).
  apply existsb_exists in Hkinds as (other & Ho & Hb). bool_hyps. exists other. split_and!; try done. by apply list_elem_of_In.
Qed.

(** C40: the generated table names no gate twice, its prerequisites are defined
    for every kind of subject the gate itself is defined for, and no gate is
    among its own prerequisites' prerequisites: with this table no evaluation
    runs into a cycle or an unknown prerequisite. *)
Theorem generated_gates_well_founded :
  NoDup (map gd_GateID GeneratedGateDefinitions)
  /\ exists rank : string -> nat, forall source id kind,
       source ∈ GeneratedGateDefinitions -> id ∈ gd_PrerequisiteGateIDs source -> kind ∈ gd_SubjectKinds source ->
       (rank id < rank (gd_GateID source))%nat
       /\ exists other, other ∈ GeneratedGateDefinitions /\ gd_GateID other = id /\ kind ∈ gd_SubjectKinds other.
Proof.
  split; [by apply (bool_decide_unpack _); vm_compute|]. exists generatedRank. intros source id kind Hs.
  apply closedFor_spec. revert Hs. rewrite list_elem_of_In. revert source. apply forallb_forall. by vm_compute.
Qed.

(** ** Witnesses *)

Section Witnesses.
#[local] Existing Instance Checksum.
#[local] Instance sampleSchemas : GateSchemas := {| exactEvidence := fun e => ge_EvidenceID e != "" |}.

Definition sampleScope : ResolvedScope := mkResolvedScope "vegastack-labs" "1.0.0" "policy" "1.0.0" [] 7 1.
Definition sampleSubject : Subject := mkSubject "site-1" "site" "build-1" "1.2.3" "declaration-1" "sha256:aa" 3 7.
Definition sampleAt : Time := parseTime "2024-05-01T12:00:00Z".

Definition sampleRow (gateID : string) : GateEvidence :=
  mkGateEvidence "1.1.0" ("evidence-" +:+ gateID) gateID "site-1" "1.0.0" "1.0.0" "build-1" "1.2.3" "vegastack-labs" "1.0.0"
    "policy" "1.0.0" "declaration-1" 3 7 "local" "live" "collector" "human" "sha256:aa" "sha256:bb"
    "2024-05-01T11:30:00Z" "2024-05-01T11:40:00Z" "2024-05-02T00:00:00Z" 1 None None "applied".

(** Evidence for G-008 and its prerequisite; a reader, and verifiers that accept it. *)
Definition sampleReader (gateID subjectID : string) : result (list GateEvidence) :=
  if (gateID == "G-008") || (gateID == "platform-safety") then Ok [sampleRow gateID] else Ok [].
Definition accepting : ProofVerifier := fun _ _ => Ok (mkProofResult true "").
Definition sampleVerifiers : ProofRegistry :=
  Register "G-008" "local" accepting (Register "platform-safety" "local" accepting NewProofRegistry).

Definition sampleContext : evaluationContext :=
  newEvaluationContext GeneratedGateDefinitions (Some sampleReader) sampleScope sampleSubject sampleAt sampleVerifiers.

Definition sampleEvaluate (gateID : string) : option Answer :=
  Evaluate GeneratedGateDefinitions (Some sampleReader) sampleScope sampleSubject gateID sampleAt sampleVerifiers.

Definition sampleAnswer (gateID : string) : GateEvaluation :=
  match sampleEvaluate gateID with Some answer => answer.1 | None => base sampleContext gateID zeroDefinition end.

Lemma sampleVerifiers_accept gateID source verifier definition row :
  Lookup sampleVerifiers gateID source = Some verifier -> is_ok (verifier definition row) = true.
Proof.
  unfold sampleVerifiers, Lookup, Register, NewProofRegistry. cbv [negb andb orb]. intros Hv.
  repeat (match type of Hv with context [if ?b then _ else _] => change b with true in Hv end; cbv iota in Hv).
  apply lookup_insert_Some in Hv as [[_ <-]|[_ Hv]]; [done|].
  by apply lookup_insert_Some in Hv as [[_ <-]|[_ Hv]].
Qed.

Lemma sampleContext_quiet : quiet sampleContext.
Proof.
  split; [done| |intros ????; apply sampleVerifiers_accept].
  intros reader g s Hr. assert (reader = sampleReader) as -> by (symmetry; injection Hr; trivial).
  unfold sampleReader. by destruct (_ || _).
Qed.

Lemma passed_gate_is_proven_witness :
  sampleEvaluate "G-008" = Some (sampleAnswer "G-008", None) /\ gv_Outcome (sampleAnswer "G-008") = "passed"
  /\ Passes sampleContext "G-008".
Proof.
  assert (E : sampleEvaluate "G-008" = Some (sampleAnswer "G-008", None)) by (vm_compute; reflexivity).
  assert (P : gv_Outcome (sampleAnswer "G-008") = "passed") by (vm_compute; reflexivity).
  split; [exact E|split; [exact P|]].
  exact (passed_gate_is_proven GeneratedGateDefinitions (Some sampleReader) sampleScope sampleSubject sampleAt sampleVerifiers
    "G-008" (sampleAnswer "G-008") E P).
Defined.

(** G-001 has no evidence: it does not pass, and the evaluation says so. *)
Lemma gate_passes_exactly_witness :
  quiet sampleContext /\ (exists e, sampleEvaluate "G-001" = Some (e, None)
    /\ (gv_Outcome e = "passed" <-> Passes sampleContext "G-001")) /\ gv_Outcome (sampleAnswer "G-001") = "blocked".
Proof.
  split; [exact sampleContext_quiet|]. split; [|vm_compute; reflexivity].
  exact (gate_passes_exactly GeneratedGateDefinitions (Some sampleReader) sampleScope sampleSubject sampleAt sampleVerifiers
    sampleContext_quiet "G-001").
Defined.

Lemma listing_exact_witness :
  quiet sampleContext /\ exists items,
    ListReadyForInput GeneratedGateDefinitions (Some sampleReader) sampleScope sampleSubject sampleAt sampleVerifiers
      = Some (Ok items)
    /\ (forall gateID, gateID ∈ sortedKeys sampleContext <-> is_Some (ec_definitions sampleContext !! gateID))
    /\ Forall2 (fun gateID item => gv_Outcome item = "passed" <-> Passes sampleContext gateID) (sortedKeys sampleContext) items.
Proof.
  split; [exact sampleContext_quiet|].
  exact (listing_exact GeneratedGateDefinitions (Some sampleReader) sampleScope sampleSubject sampleAt sampleVerifiers
    sampleContext_quiet).
Defined.

(** A revoked row, alone. *)
Definition revokedRow (gateID : string) : GateEvidence :=
  mkGateEvidence "1.1.0" "evidence-1" gateID "site-1" "1.0.0" "1.0.0" "build-1" "1.2.3" "vegastack-labs" "1.0.0"
    "policy" "1.0.0" "declaration-1" 3 7 "local" "live" "collector" "human" "sha256:aa" "sha256:bb"
    "2024-05-01T11:30:00Z" "2024-05-01T11:40:00Z" "2024-05-02T00:00:00Z" 1 None None "revoked".
Definition revokedReader (gateID subjectID : string) : result (list GateEvidence) := Ok [revokedRow gateID].
Definition revokedContext : evaluationContext :=
  newEvaluationContext GeneratedGateDefinitions (Some revokedReader) sampleScope sampleSubject sampleAt sampleVerifiers.

Lemma revoked_evidence_reported_unresolved_witness :
  exists e, judge revokedContext "G-001" zeroDefinition (base revokedContext "G-001" zeroDefinition) = (e, None, true)
    /\ gv_Outcome e = "unknown" /\ gv_ReasonCode e = "definition-unresolved".
Proof.
  apply (revoked_evidence_reported_unresolved revokedContext revokedReader "G-001" zeroDefinition
    [revokedRow "G-001"]); [reflexivity|reflexivity|reflexivity|discriminate|].
  intros row Hrow. left. apply elem_of_cons in Hrow as [->|Hrow]; [reflexivity|]. by apply not_elem_of_nil in Hrow.
Defined.

End Witnesses.
