(* ===== verification/Schedule.v ===== *)
(** Fixed schedules ([internal/schedule/clock.go], [policy.go],
    [prerequisites.go] and [runtime.go]): the policies an operator may activate,
    the slot of a policy that is due, the back-off between attempts, and the
    prerequisites of an occurrence. *)

From S2P Require Import Prelude GoTime Hash GoJson Contracts Authorization.

(** ** Slots (clock.go) *)

Definition ErrNotDue : error := Plain "schedule is not due".
Definition ErrWindowMissed : error := Plain "schedule window missed".

Record Slot := mkSlot { sl_ScheduledAt : Time; sl_WindowOpensAt : Time; sl_WindowClosesAt : Time }.
Definition zeroSlot : Slot := mkSlot zeroTime zeroTime zeroTime.

(** The division of Go panics when [interval] has wrapped to 0, which it does for
    no interval a policy document may have. *)
Definition Due (policy : ScheduledJobPolicy) (observedAt : Time) : Slot * option error :=
  match parseRFC3339 (sp_AnchorAt policy) with
  | None => (zeroSlot, Some (Plain "invalid schedule"))
  | Some anchor =>
      if (sp_IntervalSeconds policy <=? 0) || (sp_WindowSeconds policy <=? 0)
      then (zeroSlot, Some (Plain "invalid schedule"))
      else
        let anchor := TruncateSecond (UTC anchor) in
        let observedAt := TruncateSecond (UTC observedAt) in
        if Before observedAt anchor then (zeroSlot, Some ErrNotDue)
        else
          let interval := seconds (sp_IntervalSeconds policy) in
          let scheduled := Add anchor (int64 (Z.quot (Sub observedAt anchor) interval * interval)) in
          let closeAt := Add scheduled (seconds (sp_WindowSeconds policy)) in
          let slot := mkSlot scheduled scheduled closeAt in
          if negb (Before observedAt closeAt) && (sp_CatchUp policy == "none") then (slot, Some ErrWindowMissed)
          else (slot, None)
  end.

(** The loop of [Backoff], with the number of iterations [attempt] allows. *)
Fixpoint backoffLoop (n : nat) (maximum value : Z) : Z :=
  match n with
  | O => value
  | S n =>
      if value <? maximum then
        let doubled := int64 (value * 2) in
        backoffLoop n maximum (if maximum <? doubled then maximum else doubled)
      else value
  end.

Definition Backoff (policy : ScheduledJobPolicy) (attempt : Z) : Z :=
  seconds (backoffLoop (Z.to_nat (attempt - 1)) (sp_MaximumBackoffSeconds policy) (sp_InitialBackoffSeconds policy)).

(** ** Policies (policy.go) *)

(** The operation type and the adapter of an action. *)
Definition actionOperations (kind : string) : option (string * string) :=
  if kind == "gate-check" then Some ("schedule.gate.check", "core.schedule-observe")
  else if kind == "observation-refresh" then Some ("schedule.observation.refresh", "core.schedule-observe")
  else if kind == "backup-create" then Some ("backup.local.create", "local.backup")
  else if kind == "backup-integrity-verify" then Some ("backup.local.verify", "local.backup")
  else if kind == "audit-checkpoint-export" then Some ("audit.checkpoint.anchor", "core.audit")
  else None.

(** [sort.StringsAreSorted] *)
Fixpoint stringsAreSorted (values : list string) : bool :=
  match values with
  | x :: (y :: _) as rest => negb (String.ltb y x) && stringsAreSorted rest
  | _ => true
  end.

Fixpoint noNeighboursEqual (values : list string) : bool :=
  match values with
  | x :: (y :: _) as rest => (x != y) && noNeighboursEqual rest
  | _ => true
  end.

Definition sortedUnique (values : list string) : bool :=
  if (length values =? 0)%nat || negb (stringsAreSorted values) then false else noNeighboursEqual values.

(** *** The document of a policy *)

Definition policyJSON (p : ScheduledJobPolicy) : string :=
  let strings ids := jsonArray (map jsonString ids) in
  jsonObject
    [("schema", jsonString "vegastack-labs.dev/scheduled-job-policy"); ("schemaVersion", jsonString (sp_SchemaVersion p));
     ("policyId", jsonString (sp_PolicyID p)); ("revision", jsonInt (sp_Revision p));
     ("declarationId", jsonString (sp_DeclarationID p)); ("declarationRevision", jsonInt (sp_DeclarationRevision p));
     ("actionKind", jsonString (sp_ActionKind p)); ("operationType", jsonString (sp_OperationType p));
     ("adapterId", jsonString (sp_AdapterID p)); ("exactSourceIds", strings (sp_ExactSourceIDs p));
     ("exactSubjectIds", strings (sp_ExactSubjectIDs p)); ("exactTargetIds", strings (sp_ExactTargetIDs p));
     ("maximumWork", jsonInt (sp_MaximumWork p)); ("credentialReferenceIds", strings (sp_CredentialReferenceIDs p));
     ("grantRevision", jsonInt (sp_GrantRevision p)); ("stateRevision", jsonInt (sp_StateRevision p));
     ("recoveryEpoch", jsonInt (sp_RecoveryEpoch p)); ("policyVersion", jsonString (sp_PolicyVersion p));
     ("retentionRuleDigest", jsonString (sp_RetentionRuleDigest p)); ("anchorAt", jsonString (sp_AnchorAt p));
     ("intervalSeconds", jsonInt (sp_IntervalSeconds p)); ("windowSeconds", jsonInt (sp_WindowSeconds p));
     ("catchUp", jsonString (sp_CatchUp p)); ("concurrency", jsonString (sp_Concurrency p));
     ("maxAttempts", jsonInt (sp_MaxAttempts p)); ("initialBackoffSeconds", jsonInt (sp_InitialBackoffSeconds p));
     ("maximumBackoffSeconds", jsonInt (sp_MaximumBackoffSeconds p)); ("expiresAt", jsonString (sp_ExpiresAt p));
     ("enabled", jsonBool (sp_Enabled p))].

(** [^[0-9]+\.[0-9]+\.[0-9]+(-[0-9A-Za-z.-]+)?$] *)
Definition versionPattern (s : string) : bool :=
  let number k s :=
    let '(digits, rest) := spanDigits s in if digits == "" then false else k rest in
  let dot k s := match expect "." s with Some rest => k rest | None => false end in
  number (dot (number (dot (number (fun rest =>
    match rest with
    | EmptyString => true
    | String c suffix =>
        (c == "-"%char) && (suffix != "")
        && all_chars (fun x => isDigit x || isLower x || isUpper x || (x == "."%char) || (x == "-"%char)) suffix
    end))))) s.

(** [^[0-9]{4}-[0-9]{2}-[0-9]{2}T[0-9]{2}:[0-9]{2}:[0-9]{2}Z$] *)
Fixpoint matchesShape (shape s : string) : bool :=
  match shape, s with
  | EmptyString, EmptyString => true
  | String p shape, String c s => (if p == "9"%char then isDigit c else c == p) && matchesShape shape s
  | _, _ => false
  end.
Definition timestampPattern (s : string) : bool := matchesShape "9999-99-99T99:99:99Z" s.

(** [ValidateContractJSON(SchemaIDScheduledJobPolicy, ...)]: the generated rules
    of this schema, of which the lists are lists and never [null]. *)
Definition exactPolicy (p : ScheduledJobPolicy) : bool :=
  let distinct ids := (length ids <=? 64)%nat && bool_decide (NoDup (map jsonString ids)) in
  (sp_SchemaVersion p == "1.1.0") && lowerToken (sp_PolicyID p) && (1 <=? sp_Revision p)
  && lowerToken (sp_DeclarationID p) && (1 <=? sp_DeclarationRevision p)
  && bool_decide (sp_ActionKind p ∈ ["gate-check"; "observation-refresh"; "backup-create"; "backup-integrity-verify";
                                     "audit-checkpoint-export"])
  && lowerToken (sp_OperationType p) && lowerToken (sp_AdapterID p)
  && distinct (sp_ExactSourceIDs p) && distinct (sp_ExactSubjectIDs p) && distinct (sp_ExactTargetIDs p)
  && (1 <=? sp_MaximumWork p) && distinct (sp_CredentialReferenceIDs p) && (1 <=? sp_GrantRevision p)
  && (0 <=? sp_StateRevision p) && (0 <=? sp_RecoveryEpoch p) && versionPattern (sp_PolicyVersion p)
  && sha256Digest (sp_RetentionRuleDigest p) && timestampPattern (sp_AnchorAt p)
  && (1 <=? sp_IntervalSeconds p) && (sp_IntervalSeconds p <=? 604800)
  && (1800 <=? sp_WindowSeconds p) && (sp_WindowSeconds p <=? 604800)
  && bool_decide (sp_CatchUp p ∈ ["none"; "latest"]) && (sp_Concurrency p == "forbid") && (1 <=? sp_MaxAttempts p)
  && (1 <=? sp_InitialBackoffSeconds p) && (1 <=? sp_MaximumBackoffSeconds p) && timestampPattern (sp_ExpiresAt p).

(** [stateexport.CanonicalJSON] of an encoded value: its size is bounded. (What
    [json.Marshal] wrote of a structure passes the strict scan.) *)
Definition withinArtifact (body : string) : bool := (Z.of_nat (String.length body) <=? 16 * 1024 * 1024).

Section Policies.
Context `{Hasher}.

Definition CanonicalPolicy (policy : ScheduledJobPolicy) : result (string * string) :=
  if negb (exactPolicy policy) then Err (Plain "invalid scheduled policy contract")
  else if (sp_SchemaVersion policy != "1.1.0") || negb (sp_Enabled policy) || (sp_Concurrency policy != "forbid")
          || (sp_WindowSeconds policy <? PlanValiditySeconds) || (sp_IntervalSeconds policy <? sp_WindowSeconds policy)
          || (sp_MaximumBackoffSeconds policy <? sp_InitialBackoffSeconds policy)
  then Err (Plain "invalid scheduled policy bounds")
  else if (sp_MaximumWork policy != 1) || (length (sp_ExactTargetIDs policy) != 1%nat)
  then Err (Plain "scheduled v1 work bound must be one exact target")
  else match parseRFC3339 (sp_AnchorAt policy), parseRFC3339 (sp_ExpiresAt policy) with
  | Some anchor, Some expires =>
      if negb (After expires anchor) then Err (Plain "invalid scheduled policy lifetime")
      else
        let kind := sp_ActionKind policy in
        if negb (actionOperations kind == Some (sp_OperationType policy, sp_AdapterID policy))
           || negb (IsPreauthorizedOperation (sp_OperationType policy))
        then Err (Plain "scheduled action is not preauthorized")
        else if negb (sortedUnique (sp_ExactSourceIDs policy) && sortedUnique (sp_ExactSubjectIDs policy)
                      && sortedUnique (sp_ExactTargetIDs policy))
        then Err (Plain "scheduled bindings must be sorted and unique")
        else
          let credentials := sp_CredentialReferenceIDs policy in
          let observing := (kind == "gate-check") || (kind == "observation-refresh") in
          let presenting := (kind == "backup-create") || (kind == "backup-integrity-verify")
                            || (kind == "audit-checkpoint-export") in
          if observing && (length credentials != 0%nat)
             || presenting && ((length credentials != 1%nat) || negb (sortedUnique credentials))
          then Err (Plain "scheduled credentials do not match action")
          else
            let body := policyJSON policy in
            if withinArtifact body then Ok (body, hashString body)
            else Err (Coded InputInvalid "canonical-json")
  | _, _ => Err (Plain "invalid scheduled policy lifetime")
  end.

Record ActionBinding := mkActionBinding {
  ab_Kind : string;
  ab_OperationID : string;
  ab_OperationType : string;
  ab_AdapterID : string;
  ab_SourceIDs : list string;
  ab_SubjectIDs : list string;
  ab_TargetIDs : list string;
  ab_MaximumWork : Z;
  ab_CredentialReferenceIDs : list string;
  ab_InputDigest : string;
  ab_ArtifactDigest : string
}.

Definition BuildAction (policy : ScheduledJobPolicy) : result ActionBinding :=
  _ ← CanonicalPolicy policy;
  Ok (mkActionBinding (sp_ActionKind policy) "" (sp_OperationType policy) (sp_AdapterID policy) (sp_ExactSourceIDs policy)
        (sp_ExactSubjectIDs policy) (sp_ExactTargetIDs policy) (sp_MaximumWork policy) (sp_CredentialReferenceIDs policy)
        (sp_RetentionRuleDigest policy) (sp_RetentionRuleDigest policy)).

End Policies.

(** ** Prerequisites (prerequisites.go, runner.go) *)

Record PrerequisiteRequirement := mkRequirement {
  pr_Kind : string;
  pr_SourceID : string;
  pr_SubjectID : string;
  pr_TargetID : string;
  pr_PolicyID : string;
  pr_PolicyRevision : Z;
  pr_RecoveryEpoch : Z;
  pr_MaximumAgeSeconds : Z
}.
#[global] Instance PrerequisiteRequirement_eq_dec : EqDecision PrerequisiteRequirement.
Proof. solve_decision. Defined.

Record PrerequisiteStatus := mkStatus {
  ps_Requirement : PrerequisiteRequirement;
  ps_State : string;
  ps_ObservedAt : Time;
  ps_RecoveryEpoch : Z
}.

(** The first loop: the requirements must be distinct. *)
Fixpoint wantedRequirements (requirements wanted : list PrerequisiteRequirement) : result (list PrerequisiteRequirement) :=
  match requirements with
  | [] => Ok wanted
  | requirement :: rest =>
      if bool_decide (requirement ∈ wanted) then Err (Plain "scheduled prerequisite duplicated")
      else wantedRequirements rest (requirement :: wanted)
  end.

(** The test of a single status. *)
Definition blockedStatus (now : Time) (status : PrerequisiteStatus) : bool :=
  (ps_State status != "current") || (ps_RecoveryEpoch status != pr_RecoveryEpoch (ps_Requirement status))
  || IsZero (ps_ObservedAt status)
  || (seconds (pr_MaximumAgeSeconds (ps_Requirement status)) <? Sub (UTC now) (UTC (ps_ObservedAt status))).

(** The second loop: every status answers another requirement. *)
Fixpoint seenRequirements (now : Time) (wanted : list PrerequisiteRequirement) (statuses : list PrerequisiteStatus)
    (seen : list PrerequisiteRequirement) : result (list PrerequisiteRequirement) :=
  match statuses with
  | [] => Ok seen
  | status :: rest =>
      let requirement := ps_Requirement status in
      if negb (bool_decide (requirement ∈ wanted)) || bool_decide (requirement ∈ seen)
      then Err (Plain "scheduled prerequisite duplicated")
      else if blockedStatus now status then Err (Plain "scheduled prerequisite blocked")
      else seenRequirements now wanted rest (requirement :: seen)
  end.

Definition RequireCurrent (requirements : list PrerequisiteRequirement) (statuses : list PrerequisiteStatus) (now : Time)
    : option error :=
  if (length requirements =? 0)%nat || (length statuses != length requirements)
  then Some (Plain "scheduled prerequisites missing")
  else match wantedRequirements requirements [] with
       | Err err => Some err
       | Ok wanted =>
           match seenRequirements now wanted statuses [] with
           | Err err => Some err
           | Ok seen => if length seen != length wanted then Some (Plain "scheduled prerequisites missing") else None
           end
       end.

(** The prerequisites of a policy. (The three lists of a policy that
    [CanonicalPolicy] accepts are not empty; on an empty one Go panics.) *)
Definition Requirements (policy : ScheduledJobPolicy) : list PrerequisiteRequirement :=
  let first ids := List.hd "" ids in
  let require kind :=
    mkRequirement kind (first (sp_ExactSourceIDs policy)) (first (sp_ExactSubjectIDs policy))
      (first (sp_ExactTargetIDs policy)) (sp_PolicyID policy) (sp_Revision policy) (sp_RecoveryEpoch policy)
      (int64 (sp_IntervalSeconds policy * 2)) in
  let kind := sp_ActionKind policy in
  require "recovery-authority"
  :: (if kind == "gate-check" then [require "applicable-gate-current"]
      else if kind == "observation-refresh" then [require "observation-authority-current"]
      else if (kind == "backup-create") || (kind == "backup-integrity-verify")
      then [require "local-backup-qualification"; require "retirement-certainty"]
      else if kind == "audit-checkpoint-export" then [require "audit-chain-current"]
      else []).

(** ** The authority reader (runtime.go) *)

Record Revision := mkRevision { rv_StateRevision : Z; rv_RecoveryEpoch : Z }.
#[global] Instance Revision_eq_dec : EqDecision Revision.
Proof. solve_decision. Defined.

(** [AuthorityReader.Current], for the revision it read and the times it observed. *)
Definition AuthorityCurrent (revision : Revision) (observed : nat -> Time) (requirements : list PrerequisiteRequirement)
    : list PrerequisiteStatus :=
  imap (fun index requirement =>
    let state := if (pr_Kind requirement == "recovery-authority") && (pr_RecoveryEpoch requirement == rv_RecoveryEpoch revision)
                 then "current" else "blocked" in
    mkStatus requirement state (TruncateSecond (UTC (observed index))) (rv_RecoveryEpoch revision)) requirements.

Section Fingerprint.
Context `{Hasher}.

(** [AuthorityReader.CurrentObservationFingerprint], for the revision it read *)
Definition AuthorityFingerprint (policy : ScheduledJobPolicy) (revision : Revision) : string :=
  hashString (jsonObject
    [("policyId", jsonString (sp_PolicyID policy)); ("revision", jsonInt (sp_Revision policy));
     ("stateRevision", jsonInt (rv_StateRevision revision)); ("recoveryEpoch", jsonInt (rv_RecoveryEpoch revision))]).

End Fingerprint.

(** ** The slot that is due *)

Lemma seconds_small n : 0 <= n <= 9223372036 -> seconds n = n * Second.
Proof. intros Hn. unfold seconds. apply int64_id. unfold in_int64, min_int64, max_int64, Second. lia. Qed.

(** C38: for a policy within the bounds of its schema, at a time from its anchor
    on and within the range of [time.Duration], the slot that is due opens at a
    whole number of intervals after the anchor, at the last such moment that is
    not after the (truncated) time, and closes a window later; it is reported as
    missed exactly when it has closed and the policy does not catch up. *)
Theorem due_slot_exact policy observedAt anchor :
  parseRFC3339 (sp_AnchorAt policy) = Some anchor ->
  1 <= sp_IntervalSeconds policy <= 604800 -> 1 <= sp_WindowSeconds policy <= 604800 ->
  0 <= ns (TruncateSecond observedAt) - ns (TruncateSecond anchor) <= max_int64 ->
  exists slot err k, Due policy observedAt = (slot, err)
    /\ 0 <= k /\ ns (sl_ScheduledAt slot) = ns (TruncateSecond anchor) + k * (sp_IntervalSeconds policy * Second)
    /\ ns (sl_ScheduledAt slot) <= ns (TruncateSecond observedAt) < ns (sl_ScheduledAt slot) + sp_IntervalSeconds policy * Second
    /\ sl_WindowOpensAt slot = sl_ScheduledAt slot
    /\ ns (sl_WindowClosesAt slot) = ns (sl_ScheduledAt slot) + sp_WindowSeconds policy * Second
    /\ err = (if (ns (sl_WindowClosesAt slot) <=? ns (TruncateSecond observedAt)) && (sp_CatchUp policy == "none")
              then Some ErrWindowMissed else None).
Proof.
  intros Ha Hi Hw Hd. unfold Due. rewrite Ha.
  rewrite (proj2 (Z.leb_gt _ _)) by lia. rewrite (proj2 (Z.leb_gt _ _)) by lia. cbn [orb].
  set (a := ns (TruncateSecond anchor)) in *. set (o := ns (TruncateSecond observedAt)) in *.
  change (ns (TruncateSecond (UTC observedAt))) with o. unfold Before at 1. cbn [ns].
  change (ns (TruncateSecond (UTC anchor))) with a. change (ns (TruncateSecond (UTC observedAt))) with o.
  rewrite (proj2 (Z.ltb_ge o a)) by lia. rewrite !seconds_small by lia.
  set (i := sp_IntervalSeconds policy * Second). assert (Hpos : 0 < i) by (unfold i, Second; lia).
  assert (Hsub : Sub (TruncateSecond (UTC observedAt)) (TruncateSecond (UTC anchor)) = o - a).
  { unfold Sub. change (ns (TruncateSecond (UTC observedAt))) with o. change (ns (TruncateSecond (UTC anchor))) with a.
    unfold min_int64. lia. }
  rewrite Hsub, Z.quot_div_nonneg by lia. set (k := (o - a) / i).
  assert (Hk : k * i <= o - a < k * i + i) by (unfold k; pose proof (Z.div_mod (o - a) i); pose proof (Z.mod_pos_bound (o - a) i); lia).
  assert (Hk0 : 0 <= k) by (apply Z.div_pos; lia).
  rewrite int64_id by (unfold in_int64, min_int64; nia).
  assert (Hns : forall d, ns (Add (TruncateSecond (UTC anchor)) d) = a + d) by done.
  assert (Hbefore : forall t, negb (Before (TruncateSecond (UTC observedAt)) t) = (ns t <=? o)).
  { intros t. unfold Before. change (ns (TruncateSecond (UTC observedAt))) with o. rewrite Z.leb_antisym. done. }
  rewrite Hbefore. match goal with |- context [if ?b then (?s, _) else _] => exists s, (if b then Some ErrWindowMissed else None), k end.
  split; [by destruct (_ && _)|]. cbn [sl_ScheduledAt sl_WindowOpensAt sl_WindowClosesAt]. rewrite Hns.
  split_and!; try done; lia.
Qed.

(** ** The back-off *)

Lemma backoffLoop_spec n maximum value : 1 <= value <= maximum -> maximum <= 9223372036 ->
  backoffLoop n maximum value = Z.min (value * 2 ^ Z.of_nat n) maximum.
Proof.
  intros Hv Hm. revert value Hv. induction n as [|n IH]; intros value Hv; cbn [backoffLoop].
  { change (2 ^ Z.of_nat 0) with 1. lia. }
  rewrite Nat2Z.inj_succ, Z.pow_succ_r by lia. assert (0 < 2 ^ Z.of_nat n) by (apply Z.pow_pos_nonneg; lia).
  destruct (Z.ltb_spec value maximum); [|nia]. rewrite int64_id by (unfold in_int64, min_int64, max_int64; lia).
  destruct (Z.ltb_spec maximum (value * 2)); rewrite IH by lia; nia.
Qed.

(** With bounds within the range of [time.Duration] the back-off doubles from
    the initial value with every attempt and is capped at the maximum. *)
Theorem backoff_closed_form policy attempt :
  1 <= sp_InitialBackoffSeconds policy <= sp_MaximumBackoffSeconds policy ->
  sp_MaximumBackoffSeconds policy <= 9223372036 -> 1 <= attempt ->
  Backoff policy attempt
    = Z.min (sp_InitialBackoffSeconds policy * 2 ^ (attempt - 1)) (sp_MaximumBackoffSeconds policy) * Second.
Proof.
  intros Hi Hm Ha. unfold Backoff. rewrite backoffLoop_spec by done. rewrite Z2Nat.id by lia.
  assert (0 < 2 ^ (attempt - 1)) by (apply Z.pow_pos_nonneg; lia). apply seconds_small. nia.
Qed.

(** ** Prerequisites *)

Lemma wantedRequirements_spec requirements wanted result : NoDup wanted ->
  wantedRequirements requirements wanted = Ok result <->
  result = rev requirements ++ wanted /\ NoDup (rev requirements ++ wanted).
Proof.
  revert wanted. induction requirements as [|r rest IH]; intros wanted Hw; cbn [wantedRequirements rev app].
  { naive_solver. }
  rewrite <- app_assoc. cbn [app]. case_bool_decide as Hr.
  - split; [done|]. intros [_ Hd]. apply NoDup_app in Hd as (_ & _ & Hd). by apply NoDup_cons in Hd as [? _].
  - apply IH. by constructor.
Qed.

(** A status that satisfies its requirement at [now]. *)
Definition current (now : Time) (status : PrerequisiteStatus) : Prop :=
  ps_State status = "current" /\ ps_RecoveryEpoch status = pr_RecoveryEpoch (ps_Requirement status)
  /\ IsZero (ps_ObservedAt status) = false
  /\ Sub now (ps_ObservedAt status) <= seconds (pr_MaximumAgeSeconds (ps_Requirement status)).

Lemma blockedStatus_spec now status : blockedStatus now status = false <-> current now status.
Proof.
  unfold blockedStatus, current, Sub. cbn [ns UTC]. rewrite !orb_false_iff, !negb_false_iff, !bool_decide_eq_true, Z.ltb_ge.
  tauto.
Qed.

Lemma seenRequirements_spec now wanted statuses seen result : NoDup seen ->
  seenRequirements now wanted statuses seen = Ok result <->
  result = rev (map ps_Requirement statuses) ++ seen /\ NoDup (rev (map ps_Requirement statuses) ++ seen)
  /\ Forall (fun s => ps_Requirement s ∈ wanted) statuses /\ Forall (current now) statuses.
Proof.
  revert seen. induction statuses as [|s rest IH]; intros seen Hs; cbn [seenRequirements map rev app].
  { rewrite !Forall_nil. naive_solver. }
  rewrite <- app_assoc, !Forall_cons, <- blockedStatus_spec. cbn [app].
  destruct (bool_decide (ps_Requirement s ∈ wanted)) eqn:Hw; bool_hyps; cbn [negb orb]; [|naive_solver].
  destruct (bool_decide (ps_Requirement s ∈ seen)) eqn:Hr; bool_hyps.
  { split; [done|]. intros (_ & Hd & _). apply NoDup_app in Hd as (_ & _ & Hd). by apply NoDup_cons in Hd as [? _]. }
  destruct (blockedStatus now s); [naive_solver|]. rewrite IH by by constructor. naive_solver.
Qed.

Lemma RequireCurrent_spec requirements statuses now :
  RequireCurrent requirements statuses now = None <->
  requirements <> [] /\ NoDup requirements /\ Permutation (map ps_Requirement statuses) requirements
  /\ Forall (current now) statuses.
Proof.
  unfold RequireCurrent. destruct (length requirements =? 0)%nat eqn:H0; cbn [orb].
  { apply Nat.eqb_eq, length_zero_iff_nil in H0 as ->. split; [done|]. by intros []. }
  assert (Hne : requirements <> []) by (intros ->; discriminate H0).
  destruct (length statuses != length requirements) eqn:Hl; bool_hyps.
  { split; [done|]. intros (_ & _ & Hp & _). apply Permutation_length in Hp. rewrite length_map in Hp. done. }
  destruct (wantedRequirements requirements []) as [wanted|e] eqn:Ew.
  2: { split; [done|]. intros (_ & Hd & _). assert (E : wantedRequirements requirements [] = Ok (rev requirements ++ [])).
       { apply wantedRequirements_spec; [constructor|]. split; [done|]. by rewrite app_nil_r, <- Permutation_rev. }
       congruence. }
  apply wantedRequirements_spec in Ew as [-> Hd]; [|constructor]. rewrite app_nil_r in *.
  rewrite <- Permutation_rev in Hd.
  destruct (seenRequirements now (rev requirements) statuses []) as [seen|e] eqn:Es.
  - apply seenRequirements_spec in Es as (-> & Hds & Hw & Hc); [|constructor]. rewrite app_nil_r in *.
    rewrite <- Permutation_rev in Hds.
    rewrite !length_rev, length_map, Hl, bool_decide_refl. cbn. split; [intros _|done]. split_and!; try done.
    apply submseteq_length_Permutation; [|by rewrite length_map, Hl]. apply NoDup_submseteq; [done|].
    intros r Hr. apply list_elem_of_fmap in Hr as (s & -> & Hs). rewrite Forall_forall in Hw. specialize (Hw s Hs).
    by rewrite <- Permutation_rev in Hw.
  - split; [done|]. intros (_ & _ & Hp & Hc).
    assert (E : seenRequirements now (rev requirements) statuses [] = Ok (rev (map ps_Requirement statuses) ++ [])).
    { apply seenRequirements_spec; [constructor|]. split_and!; [done| | |done].
      - by rewrite app_nil_r, <- Permutation_rev, Hp.
      - apply Forall_forall. intros s Hs. rewrite <- Permutation_rev, <- Hp. by apply list_elem_of_fmap_2. }
    congruence.
Qed.

(** The prerequisites are accepted exactly when there are some, no two are
    the same, the statuses answer each of them once, and every status is current:
    of the recovery epoch asked for, observed, and not older than allowed. *)
Theorem require_current_exact requirements statuses now :
  RequireCurrent requirements statuses now = None <->
  requirements <> [] /\ NoDup requirements /\ Permutation (map ps_Requirement statuses) requirements
  /\ Forall (current now) statuses.
Proof. apply RequireCurrent_spec. Qed.

(** ** Accepted policies *)

Section Accepted.
Context `{Hasher}.

(** What [CanonicalPolicy] has checked, beyond the document's schema. *)
Record accepted (policy : ScheduledJobPolicy) : Prop := {
  ac_exact : exactPolicy policy = true;
  ac_enabled : sp_Enabled policy = true;
  ac_window : PlanValiditySeconds <= sp_WindowSeconds policy <= sp_IntervalSeconds policy;
  ac_backoff : sp_InitialBackoffSeconds policy <= sp_MaximumBackoffSeconds policy;
  ac_target : exists target, sp_ExactTargetIDs policy = [target] /\ sp_MaximumWork policy = 1;
  ac_action : actionOperations (sp_ActionKind policy) = Some (sp_OperationType policy, sp_AdapterID policy);
  ac_preauthorized : IsPreauthorizedOperation (sp_OperationType policy) = true;
  ac_sources : sp_ExactSourceIDs policy <> [] /\ sp_ExactSubjectIDs policy <> [];
  ac_credentials : (length (sp_CredentialReferenceIDs policy) <= 1)%nat
}.

Lemma sortedUnique_nonempty ids : sortedUnique ids = true -> ids <> [].
Proof. by intros H0 ->. Qed.

Lemma exactPolicy_kind policy : exactPolicy policy = true ->
  sp_ActionKind policy ∈ ["gate-check"; "observation-refresh"; "backup-create"; "backup-integrity-verify";
                          "audit-checkpoint-export"].
Proof. unfold exactPolicy. intros H0. bool_hyps. done. Qed.

#[local] Ltac early_return H :=
  match goal with |- (if ?b then _ else _) = _ -> _ => destruct b eqn:H; [by intros ?|] end.

Lemma CanonicalPolicy_accepted policy body digest : CanonicalPolicy policy = Ok (body, digest) ->
  accepted policy /\ body = policyJSON policy /\ digest = hashString body.
Proof.
  unfold CanonicalPolicy. early_return He. early_return Hb. early_return Ht.
  destruct (parseRFC3339 (sp_AnchorAt policy)); [|by intros ?]. destruct (parseRFC3339 (sp_ExpiresAt policy)); [|by intros ?].
  early_return Hl. cbv zeta. early_return Ha. early_return Hs. early_return Hc. destruct (withinArtifact _); [|by intros ?].
  intros [= <- <-]. split; [|done]. apply negb_false_iff in He.
  pose proof (exactPolicy_kind _ He) as Hk.
  assert (Hcred : (length (sp_CredentialReferenceIDs policy) <= 1)%nat).
  { clear - Hk Hc. destruct (length _) as [|[|n]]; [lia..|]. exfalso.
    repeat (apply elem_of_cons in Hk as [Hk|Hk]; [rewrite Hk in Hc; vm_compute in Hc; discriminate Hc|]).
    by apply not_elem_of_nil in Hk. }
  clear Hl Hc. bool_hyps. split; try assumption; try lia.
  - destruct (sp_ExactTargetIDs policy) as [|target [|]] eqn:E; try done. by exists target.
  - by split; apply sortedUnique_nonempty.
Qed.

(** An accepted policy is confined: it is enabled, it names one target and the
    one preauthorized operation and adapter of its kind of action, its window
    leaves room for a plan and ends before the next slot, and it presents one
    credential at most; the canonical form is its document and the digest of it. *)
Theorem accepted_policy_confined policy body digest :
  CanonicalPolicy policy = Ok (body, digest) ->
  sp_Enabled policy = true /\ (exists target, sp_ExactTargetIDs policy = [target])
  /\ actionOperations (sp_ActionKind policy) = Some (sp_OperationType policy, sp_AdapterID policy)
  /\ IsPreauthorizedOperation (sp_OperationType policy) = true
  /\ PlanValiditySeconds <= sp_WindowSeconds policy <= sp_IntervalSeconds policy
  /\ (length (sp_CredentialReferenceIDs policy) <= 1)%nat
  /\ body = policyJSON policy /\ digest = hashString body.
Proof.
  intros E. apply CanonicalPolicy_accepted in E as ([] & -> & ->). destruct ac_target0 as (t & ? & _). split_and!; eauto; lia.
Qed.

(** Every kind of action requires a proof of its own. *)
Lemma Requirements_specific policy : exactPolicy policy = true ->
  exists r, Requirements policy !! 1%nat = Some r /\ pr_Kind r <> "recovery-authority".
Proof.
  intros Hk%exactPolicy_kind. unfold Requirements. cbn [lookup list_lookup].
  repeat (apply elem_of_cons in Hk as [->|Hk];
    [repeat first [rewrite bool_decide_refl | rewrite (bool_decide_eq_false_2 (_ = _)) by discriminate]; by eexists|]).
  by apply not_elem_of_nil in Hk.
Qed.

(** The authority reader alone never satisfies the prerequisites of an accepted
    policy: besides the recovery authority each kind of action requires a proof
    of its own, which this reader reports as blocked. *)
Theorem authority_alone_never_suffices policy body digest revision observed now :
  CanonicalPolicy policy = Ok (body, digest) ->
  RequireCurrent (Requirements policy) (AuthorityCurrent revision observed (Requirements policy)) now <> None.
Proof.
  intros E Hn. apply CanonicalPolicy_accepted in E as [A _]. apply RequireCurrent_spec in Hn as (_ & _ & _ & Hc).
  destruct (Requirements_specific policy (ac_exact _ A)) as (r & Hr & Hkind). rewrite Forall_lookup in Hc. unfold AuthorityCurrent in Hc.
  specialize (Hc 1%nat). rewrite list_lookup_imap, Hr in Hc. destruct (Hc _ eq_refl) as [Hs _]. cbn in Hs.
  rewrite (bool_decide_eq_false_2 (pr_Kind r = _)) in Hs by done. discriminate Hs.
Qed.

End Accepted.

(** ** Examples and witnesses *)

Section Witnesses.
#[local] Existing Instance Checksum.

Definition samplePolicy (initial maximum : Z) : ScheduledJobPolicy :=
  mkScheduledJobPolicy "1.1.0" "policy-1" 1 "declaration-1" 1 "gate-check" "schedule.gate.check" "core.schedule-observe"
    ["source-1"] ["subject-1"] ["target-1"] 1 [] 1 3 0 "1.0.0"
    "sha256:0000000000000000000000000000000000000000000000000000000000000000" "2024-01-01T00:00:00Z" 3600 1800 "none"
    "forbid" 3 initial maximum "2030-01-01T00:00:00Z" true.

Definition sampleDigest : string := hashString (policyJSON (samplePolicy 60 600)).

Lemma due_slot_exact_witness :
  exists slot err k, Due (samplePolicy 60 600) (parseTime "2024-01-01T05:40:00Z") = (slot, err)
    /\ 0 <= k /\ ns (sl_ScheduledAt slot) = ns (TruncateSecond (parseTime "2024-01-01T00:00:00Z")) + k * (3600 * Second)
    /\ err = Some ErrWindowMissed.
Proof.
  destruct (due_slot_exact (samplePolicy 60 600) (parseTime "2024-01-01T05:40:00Z") (parseTime "2024-01-01T00:00:00Z"))
    as (slot & err & k & E & Hk & Hs & _).
  - vm_compute. reflexivity.
  - cbn. lia.
  - cbn. lia.
  - vm_compute. split; discriminate.
  - exists slot, err, k. split_and!; [exact E|exact Hk|exact Hs|]. vm_compute in E. injection E as _ <-. reflexivity.
Defined.

Lemma backoff_closed_form_witness : Backoff (samplePolicy 60 600) 3 = 240 * Second /\ Backoff (samplePolicy 60 600) 9 = 600 * Second.
Proof.
  split.
  - rewrite (backoff_closed_form (samplePolicy 60 600) 3); [reflexivity|cbn; lia..].
  - rewrite (backoff_closed_form (samplePolicy 60 600) 9); [reflexivity|cbn; lia..].
Defined.

Lemma samplePolicy_accepted : CanonicalPolicy (samplePolicy 60 600) = Ok (policyJSON (samplePolicy 60 600), sampleDigest).
Proof. vm_compute. reflexivity. Qed.

Lemma accepted_policy_confined_witness :
  CanonicalPolicy (samplePolicy 60 600) = Ok (policyJSON (samplePolicy 60 600), sampleDigest)
  /\ IsPreauthorizedOperation "schedule.gate.check" = true.
Proof.
  split; [exact samplePolicy_accepted|].
  exact (proj1 (proj2 (proj2 (proj2 (accepted_policy_confined _ _ _ samplePolicy_accepted))))).
Defined.

Lemma authority_alone_never_suffices_witness :
  RequireCurrent (Requirements (samplePolicy 60 600))
    (AuthorityCurrent (mkRevision 3 0) (fun _ => parseTime "2024-01-01T05:00:00Z") (Requirements (samplePolicy 60 600)))
    (parseTime "2024-01-01T05:00:00Z") <> None.
Proof. exact (authority_alone_never_suffices _ _ _ _ _ _ samplePolicy_accepted). Defined.

(** The schema bounds no back-off from above, and the conversion to a duration
    wraps around: an accepted policy that asks to wait for nearly three hundred
    years between attempts is retried without any delay. *)
Theorem accepted_backoff_can_be_negative :
  is_ok (CanonicalPolicy (samplePolicy 9223372037 9223372037)) = true
  /\ Backoff (samplePolicy 9223372037 9223372037) 1 < 0.
Proof. vm_compute. split; reflexivity. Qed.

End Witnesses.
