(* ===== verification/ScheduleRepository.v ===== *)
(** The durable schedules of [internal/store/schedule_repository.go]: the tables
    of the migration [0026_scheduled_policies.sql] as a state, and one definition
    per method of the repository that the scheduler calls.

    These methods do not go through the audited writer: each runs in one SQL
    transaction of its own ([inTx]) or in one read. The transition and attempt
    tables are append-only; the status of an occurrence is that of its last
    transition. A column that holds canonical JSON holds the document itself. *)

From S2P Require Import Prelude GoTime Hash GoJson Contracts AuditLog AuditStore Schedule.

(** ** Tables *)

Record DraftRow := mkDraftRow {
  dr_PolicyID : string;
  dr_PolicyRevision : Z;
  dr_Policy : ScheduledJobPolicy;
  dr_Digest : string;
  dr_CreatedByHumanID : string;
  dr_StateRevision : Z;
  dr_RecoveryEpoch : Z;
  dr_CreatedAt : string
}.

Record ActivationRow := mkActivationRow {
  ar_ActivationID : string;
  ar_DraftID : string;
  ar_PolicyID : string;
  ar_PolicyRevision : Z;
  ar_Status : string;
  ar_PlanID : string;
  ar_PlanDigest : string;
  ar_AcknowledgementID : string;
  ar_ApprovedByHumanID : string;
  ar_StateRevision : Z;
  ar_RecoveryEpoch : Z;
  ar_ActivatedAt : string
}.

Record OccurrenceRow := mkOccurrenceRow {
  or_PolicyID : string;
  or_PolicyRevision : Z;
  or_ScheduledAt : string;
  or_WindowClosesAt : string;
  or_TokenDigest : string;
  or_TargetDigest : string;
  or_KeyDigest : string;
  or_StateRevision : Z;
  or_RecoveryEpoch : Z;
  or_CreatedAt : string
}.

Record TransitionRow := mkTransitionRow {
  tr_JobID : string;
  tr_From : string;
  tr_To : string;
  tr_Reason : string;
  tr_PlanID : option string;
  tr_RunID : option string;
  tr_RecordedAt : string
}.

Record AttemptRow := mkAttemptRow {
  aw_AttemptID : string;
  aw_JobID : string;
  aw_Attempt : Z;
  aw_Status : string;
  aw_PlanID : option string;
  aw_RunID : option string;
  aw_EffectStarted : bool;
  aw_RecordedAt : string
}.

Record OccurrenceLease := mkOccurrenceLease {
  ol_LeaseID : string;
  ol_HolderID : string;
  ol_AcquiredAt : string;
  ol_ExpiresAt : string
}.

(** The schedule tables, with the two numbers of [system_meta] they are read
    with. Drafts, occurrences and leases are keyed by their primary key, the
    others are in the order of insertion. *)
Record ScheduleDb := mkScheduleDb {
  sd_Meta : Revision;
  sd_drafts : gmap string DraftRow;
  sd_activations : list ActivationRow;
  sd_occurrences : gmap string OccurrenceRow;
  sd_transitions : list TransitionRow;
  sd_attempts : list AttemptRow;
  sd_leases : gmap string OccurrenceLease
}.

Definition withDrafts f (db : ScheduleDb) := mkScheduleDb (sd_Meta db) (f (sd_drafts db)) (sd_activations db)
  (sd_occurrences db) (sd_transitions db) (sd_attempts db) (sd_leases db).
Definition withActivations f (db : ScheduleDb) := mkScheduleDb (sd_Meta db) (sd_drafts db) (f (sd_activations db))
  (sd_occurrences db) (sd_transitions db) (sd_attempts db) (sd_leases db).
Definition withOccurrences f (db : ScheduleDb) := mkScheduleDb (sd_Meta db) (sd_drafts db) (sd_activations db)
  (f (sd_occurrences db)) (sd_transitions db) (sd_attempts db) (sd_leases db).
Definition withTransitions f (db : ScheduleDb) := mkScheduleDb (sd_Meta db) (sd_drafts db) (sd_activations db)
  (sd_occurrences db) (f (sd_transitions db)) (sd_attempts db) (sd_leases db).
Definition withAttempts f (db : ScheduleDb) := mkScheduleDb (sd_Meta db) (sd_drafts db) (sd_activations db)
  (sd_occurrences db) (sd_transitions db) (f (sd_attempts db)) (sd_leases db).
Definition withLeases f (db : ScheduleDb) := mkScheduleDb (sd_Meta db) (sd_drafts db) (sd_activations db)
  (sd_occurrences db) (sd_transitions db) (sd_attempts db) (f (sd_leases db)).

(** ** Transactions *)

(** What may go wrong in one call: the store is not ready, the transaction cannot
    begin, its n-th statement fails, its commit fails and may be durable
    nevertheless, or the n-th read of the call fails. *)
Record ScheduleEnv := mkScheduleEnv {
  se_ready : option error;
  se_begin : option error;
  se_statement : nat -> option error;
  se_commit : option (error * bool);
  se_read : nat -> option error;
  se_clock : Time
}.

(** The clock of the store, to the second. *)
Definition stamp (env : ScheduleEnv) : string := FormatRFC3339 (TruncateSecond (UTC (se_clock env))).

Definition scheduleError (code target : string) : error := Coded code target.

(** A violated constraint, as [classifySQLiteError] reports it *)
Definition constraintError : error := Coded StateConflict "database".

(** [sql.ErrNoRows] *)
Definition errNoRows : error := Plain "sql: no rows in result set".

(** The n-th statement of a transaction. *)
Definition statement {A} (env : ScheduleEnv) (n : nat) (k : result A) : result A :=
  match se_statement env n with Some err => Err err | None => k end.

(** The n-th read of a call. *)
Definition reading {A} (env : ScheduleEnv) (n : nat) (k : result A) : result A :=
  match se_read env n with Some err => Err err | None => k end.

Definition inTx (env : ScheduleEnv) (business : ScheduleDb -> result ScheduleDb) (db : ScheduleDb)
    : option error * ScheduleDb :=
  match se_ready env with
  | Some err => (Some err, db)
  | None =>
      match se_begin env with
      | Some err => (Some err, db)
      | None =>
          match business db with
          | Err err => (Some err, db)
          | Ok db' =>
              match se_commit env with
              | None => (None, db')
              | Some (err, durable) => (Some err, if (durable : bool) then db' else db)
              end
          end
      end
  end.

Section Repository.
Context `{Hasher}.

(** ** Policies *)

Definition CurrentScheduleRevision (env : ScheduleEnv) (db : ScheduleDb) : result Revision := reading env 0 (Ok (sd_Meta db)).

(** [s[7:39]] of a digest *)
Definition digestPart (digest : string) : string := take_string 32 (drop_string 7 digest).

Definition draftID (digest : string) : string := "schedule-draft-" +:+ digestPart digest.

Record ScheduledPolicyDraft := mkScheduledPolicyDraft {
  sdr_DraftID : string;
  sdr_CanonicalJSON : string;
  sdr_Digest : string;
  sdr_CreatedAt : string;
  sdr_CreatedByHumanID : string;
  sdr_Policy : ScheduledJobPolicy
}.

(** Whether the unique constraints of the draft table forbid the insertion. *)
Definition draftConflict (id : string) (row : DraftRow) (drafts : gmap string DraftRow) : bool :=
  bool_decide (is_Some (drafts !! id))
  || existsb (fun other => (dr_RecoveryEpoch other.2 == dr_RecoveryEpoch row)
       && ((dr_PolicyID other.2 == dr_PolicyID row) && (dr_PolicyRevision other.2 == dr_PolicyRevision row)
           || (dr_Digest other.2 == dr_Digest row))) (map_to_list drafts).

Definition draftChange (env : ScheduleEnv) (id : string) (draft : ScheduledPolicyDraft) (db : ScheduleDb)
    : result ScheduleDb :=
  let policy := sdr_Policy draft in
  statement env 0 (
    let meta := sd_Meta db in
    if (int64 (rv_StateRevision meta + 1) != sp_StateRevision policy) || (rv_RecoveryEpoch meta != sp_RecoveryEpoch policy)
    then Err (scheduleError StateConflict "scheduled-policy-revision")
    else
      let row := mkDraftRow (sp_PolicyID policy) (sp_Revision policy) policy (sdr_Digest draft) (sdr_CreatedByHumanID draft)
                   (rv_StateRevision meta) (rv_RecoveryEpoch meta) (sdr_CreatedAt draft) in
      let failed err :=
        match sd_drafts db !! id with
        | Some existing => if dr_Digest existing == sdr_Digest draft then Ok db else Err err
        | None => Err err
        end in
      match se_statement env 1 with
      | Some err => failed err
      | None => if draftConflict id row (sd_drafts db) then failed constraintError
                else Ok (withDrafts (insert id row) db)
      end).

Definition StageDraft (env : ScheduleEnv) (policy : ScheduledJobPolicy) (attribution : Attribution) (db : ScheduleDb)
    : result ScheduledPolicyDraft * ScheduleDb :=
  match CanonicalPolicy policy with
  | Err _ => (Err (scheduleError InputInvalid "scheduled-policy-draft"), db)
  | Ok (canonical, digest) =>
      if (at_PrincipalID attribution == "") || (at_PrincipalMethod attribution == "")
      then (Err (scheduleError InputInvalid "scheduled-policy-draft"), db)
      else
        let id := draftID digest in
        let draft := mkScheduledPolicyDraft id canonical digest (stamp env) (at_PrincipalID attribution) policy in
        let '(err, db) := inTx env (draftChange env id draft) db in
        (match err with Some err => Err err | None => Ok draft end, db)
  end.

Definition GetDraft (env : ScheduleEnv) (id : string) (db : ScheduleDb) : result ScheduledPolicyDraft :=
  reading env 0 (
    match sd_drafts db !! id with
    | None => Err (scheduleError ResourceNotFound "scheduled-policy-draft")
    | Some row =>
        let canonical := policyJSON (dr_Policy row) in
        if hashString canonical != dr_Digest row then Err (scheduleError IntegrityFailure "scheduled-policy-draft")
        else Ok (mkScheduledPolicyDraft id canonical (dr_Digest row) (dr_CreatedAt row) (dr_CreatedByHumanID row)
                   (dr_Policy row))
    end).

Record ScheduleActivationRequest := mkActivationRequest {
  aq_DraftID : string;
  aq_AuthorizationBranch : string;
  aq_ExecutingOperation : string;
  aq_PlanID : string;
  aq_PlanDigest : string;
  aq_AcknowledgementID : string;
  aq_ApprovedByHumanID : string;
  aq_Expected : Revision;
  aq_Attribution : Attribution
}.

(** The columns of [immutable_plans] that an activation reads. *)
Record PlanRow := mkPlanRow {
  pl_DeclarationID : string;
  pl_DeclarationRevision : Z;
  pl_Digest : string;
  pl_StateRevision : Z;
  pl_RecoveryEpoch : Z;
  pl_AuthorizationBranch : string;
  pl_ExecutorMode : string
}.

Definition activationID (digest : string) : string := "schedule-activation-" +:+ digestPart digest.

Definition activationConflict (row : ActivationRow) (rows : list ActivationRow) : bool :=
  existsb (fun other => (ar_ActivationID other == ar_ActivationID row)
    || (ar_PolicyID other == ar_PolicyID row) && (ar_PolicyRevision other == ar_PolicyRevision row)
       && (ar_Status other == ar_Status row)) rows.

Definition activationChange (env : ScheduleEnv) (plans : string -> option PlanRow) (request : ScheduleActivationRequest)
    (draft : ScheduledPolicyDraft) (db : ScheduleDb) : result ScheduleDb :=
  let policy := sdr_Policy draft in
  statement env 0 (
    let meta := sd_Meta db in
    if aq_Expected request != meta then Err (scheduleError PlanStale "scheduled-policy-activation")
    else match (if bool_decide (is_Some (se_statement env 1)) then None else plans (aq_PlanID request)) with
    | None => Err (scheduleError AuthorizationDenied "scheduled-policy-activation-plan")
    | Some plan =>
        if (pl_DeclarationID plan != sp_DeclarationID policy) || (pl_DeclarationRevision plan != sp_DeclarationRevision policy)
           || (pl_Digest plan != aq_PlanDigest request) || (pl_StateRevision plan != rv_StateRevision meta)
           || (pl_RecoveryEpoch plan != rv_RecoveryEpoch meta) || (pl_AuthorizationBranch plan != "human")
           || (pl_ExecutorMode plan != "central")
        then Err (scheduleError AuthorizationDenied "scheduled-policy-activation-plan")
        else
          let row := mkActivationRow (activationID (sdr_Digest draft)) (sdr_DraftID draft) (sp_PolicyID policy) (sp_Revision policy)
                       "active" (aq_PlanID request) (aq_PlanDigest request) (aq_AcknowledgementID request)
                       (aq_ApprovedByHumanID request) (rv_StateRevision meta) (rv_RecoveryEpoch meta) (stamp env) in
          statement env 2 (if activationConflict row (sd_activations db) then Err constraintError
                           else Ok (withActivations (fun rows => rows ++ [row]) db))
    end).

Definition Activate (env : ScheduleEnv) (plans : string -> option PlanRow) (request : ScheduleActivationRequest)
    (db : ScheduleDb) : result ScheduledJobPolicy * ScheduleDb :=
  match GetDraft env (aq_DraftID request) db with
  | Err err => (Err err, db)
  | Ok draft =>
      let policy := sdr_Policy draft in
      if (aq_AuthorizationBranch request != "human") || (aq_ExecutingOperation request != "schedule.policy.activate")
         || (aq_PlanID request == "") || (aq_PlanDigest request == "") || (aq_AcknowledgementID request == "")
         || (rv_StateRevision (aq_Expected request) != sp_StateRevision policy)
         || (rv_RecoveryEpoch (aq_Expected request) != sp_RecoveryEpoch policy) || (aq_ApprovedByHumanID request == "")
         || (at_ResponsibleHuman (aq_Attribution request) != Some (aq_ApprovedByHumanID request))
      then (Err (scheduleError AuthorizationDenied "scheduled-policy-activation"), db)
      else
        let '(err, db) := inTx env (activationChange env plans request draft) db in
        (match err with Some err => Err err | None => Ok policy end, db)
  end.

(** The active activation of the highest revision; of two with the same revision,
    which the unique constraint excludes, the later one. *)
Definition latestActivation (policyID : string) (rows : list ActivationRow) : option ActivationRow :=
  fold_left (fun best row =>
    if (ar_PolicyID row == policyID) && (ar_Status row == "active") then
      match best with
      | Some other => if ar_PolicyRevision row <? ar_PolicyRevision other then best else Some row
      | None => Some row
      end
    else best) rows None.

Definition GetActivePolicy (env : ScheduleEnv) (n : nat) (policyID : string) (db : ScheduleDb) : result ScheduledJobPolicy :=
  reading env n (
    match row ← latestActivation policyID (sd_activations db); sd_drafts db !! ar_DraftID row with
    | None => Err (scheduleError ResourceNotFound "scheduled-policy")
    | Some draft =>
        match CanonicalPolicy (dr_Policy draft) with
        | Err _ => Err (scheduleError IntegrityFailure "scheduled-policy")
        | Ok _ => Ok (dr_Policy draft)
        end
    end).

Definition GetActivePolicyApprover (env : ScheduleEnv) (policyID : string) (revision : Z) (db : ScheduleDb) : result string :=
  reading env 0 (
    match List.find (fun row => (ar_PolicyID row == policyID) && (ar_PolicyRevision row == revision) && (ar_Status row == "active"))
            (sd_activations db) with
    | None => Err (scheduleError ResourceNotFound "scheduled-policy-approval")
    | Some row => Ok (ar_ApprovedByHumanID row)
    end).

(** ** Occurrences *)

Definition transitionsOf (jobID : string) (db : ScheduleDb) : list TransitionRow :=
  filter (fun row => tr_JobID row = jobID) (sd_transitions db).

Definition attemptsOf (jobID : string) (db : ScheduleDb) : list AttemptRow :=
  filter (fun row => aw_JobID row = jobID) (sd_attempts db).

(** [COALESCE(MAX(attempt), 1)] *)
Definition lastAttempt (jobID : string) (db : ScheduleDb) : Z :=
  match map aw_Attempt (attemptsOf jobID db) with
  | [] => 1
  | n :: rest => fold_left Z.max rest n
  end.

(** The document of an occurrence: its row joined with its last transition. *)
Definition occurrence (jobID : string) (db : ScheduleDb) : option ScheduledJob :=
  row ← sd_occurrences db !! jobID;
  t ← last (transitionsOf jobID db);
  Some (mkScheduledJob jobID (or_PolicyID row) (or_PolicyRevision row) (or_ScheduledAt row) (lastAttempt jobID db)
          (tr_PlanID t) (tr_RunID t) (tr_To t) (tr_Reason t) (or_RecoveryEpoch row)).

Definition GetOccurrence (env : ScheduleEnv) (n : nat) (jobID : string) (db : ScheduleDb) : result ScheduledJob :=
  reading env n (of_option (scheduleError ResourceNotFound "scheduled-occurrence") (occurrence jobID db)).

(** The answer of a method that ends with [GetOccurrence]. *)
Definition thenOccurrence (env : ScheduleEnv) (jobID : string) (outcome : option error * ScheduleDb)
    : result ScheduledJob * ScheduleDb :=
  let '(err, db) := outcome in
  (match err with Some err => Err err | None => GetOccurrence env 0 jobID db end, db).

Record OccurrenceClaim := mkOccurrenceClaim {
  oc_Policy : ScheduledJobPolicy;
  oc_ScheduledAt : Time;
  oc_WindowClosesAt : Time;
  oc_OccurrenceToken : string;
  oc_TargetDigest : string;
  oc_IdempotencyKey : string;
  oc_Expected : Revision
}.

Definition jobIDOf (policyID : string) (revision : Z) (scheduledAt : string) : string :=
  "scheduled-job-" +:+ digestPart (hashString (policyID +:+ nul +:+ pretty revision +:+ nul +:+ scheduledAt)).

Definition claimJobID (claim : OccurrenceClaim) : string :=
  jobIDOf (sp_PolicyID (oc_Policy claim)) (sp_Revision (oc_Policy claim))
    (FormatRFC3339 (TruncateSecond (UTC (oc_ScheduledAt claim)))).

Definition claimRow (env : ScheduleEnv) (claim : OccurrenceClaim) : OccurrenceRow :=
  mkOccurrenceRow (sp_PolicyID (oc_Policy claim)) (sp_Revision (oc_Policy claim))
    (FormatRFC3339 (TruncateSecond (UTC (oc_ScheduledAt claim))))
    (FormatRFC3339 (TruncateSecond (UTC (oc_WindowClosesAt claim))))
    (hashString (oc_OccurrenceToken claim)) (oc_TargetDigest claim) (hashString (oc_IdempotencyKey claim))
    (rv_StateRevision (oc_Expected claim)) (rv_RecoveryEpoch (oc_Expected claim)) (stamp env).

(** Whether [INSERT OR IGNORE] skips the row: it violates a [UNIQUE], a [NOT NULL]
    or a [CHECK] constraint. *)
Definition occurrenceIgnored (id : string) (row : OccurrenceRow) (rows : gmap string OccurrenceRow) : bool :=
  bool_decide (is_Some (rows !! id))
  || (or_PolicyRevision row <=? 0) || (or_StateRevision row <? 0) || (or_RecoveryEpoch row <? 0)
  || existsb (fun other => (or_PolicyID other.2 == or_PolicyID row)
       && ((or_PolicyRevision other.2 == or_PolicyRevision row) && (or_ScheduledAt other.2 == or_ScheduledAt row)
           || (or_TokenDigest other.2 == or_TokenDigest row))) (map_to_list rows).

(** The insertion of a transition: its only constraint is the reference to the
    occurrence, which [OR IGNORE] does not waive. *)
Definition appendTransition (row : TransitionRow) (db : ScheduleDb) : result ScheduleDb :=
  match sd_occurrences db !! tr_JobID row with
  | Some _ => Ok (withTransitions (fun rows => rows ++ [row]) db)
  | None => Err constraintError
  end.

Definition claimChange (env : ScheduleEnv) (claim : OccurrenceClaim) (db : ScheduleDb) : result ScheduleDb :=
  let id := claimJobID claim in
  let row := claimRow env claim in
  statement env 0 (
    let db := if occurrenceIgnored id row (sd_occurrences db) then db else withOccurrences (insert id row) db in
    statement env 1 (
      match appendTransition (mkTransitionRow id "new" "queued" "due" None None (stamp env)) db with
      | Err _ => Err (Plain "transition insert: constraint failed")
      | Ok db => Ok db
      end)).

Definition ClaimOccurrence (env : ScheduleEnv) (claim : OccurrenceClaim) (db : ScheduleDb)
    : result ScheduledJob * ScheduleDb :=
  let policy := oc_Policy claim in
  if (sp_PolicyID policy == "") || IsZero (oc_ScheduledAt claim) || IsZero (oc_WindowClosesAt claim)
     || negb (After (oc_WindowClosesAt claim) (oc_ScheduledAt claim)) || (oc_OccurrenceToken claim == "")
     || (oc_IdempotencyKey claim == "") || (rv_StateRevision (oc_Expected claim) != sp_StateRevision policy)
     || (rv_RecoveryEpoch (oc_Expected claim) != sp_RecoveryEpoch policy)
  then (Err (scheduleError InputInvalid "scheduled-occurrence"), db)
  else thenOccurrence env (claimJobID claim) (inTx env (claimChange env claim) db).

Definition ClaimScheduledOccurrence (env : ScheduleEnv) (policy : ScheduledJobPolicy) (slot : Slot)
    (token targetDigest idempotencyKey : string) (revision : Revision) (db : ScheduleDb) : result ScheduledJob * ScheduleDb :=
  ClaimOccurrence env (mkOccurrenceClaim policy (sl_ScheduledAt slot) (sl_WindowClosesAt slot) token targetDigest
                         idempotencyKey revision) db.

Definition transitionChange (env : ScheduleEnv) (row : TransitionRow) (db : ScheduleDb) : result ScheduleDb :=
  statement env 0 (
    match last (transitionsOf (tr_JobID row) db) with
    | None => Err errNoRows
    | Some current =>
        if tr_To current != tr_From row then Err (scheduleError StateConflict "scheduled-transition")
        else statement env 1 (appendTransition row db)
    end).

Definition TransitionOccurrence (env : ScheduleEnv) (jobID from to reason : string) (planID runID : option string)
    (db : ScheduleDb) : result ScheduledJob * ScheduleDb :=
  if negb (ValidatePhase5Transition "scheduled-job" from to) || (reason == "")
  then (Err (scheduleError InputInvalid "scheduled-transition"), db)
  else thenOccurrence env jobID
         (inTx env (transitionChange env (mkTransitionRow jobID from to reason planID runID (stamp env))) db).

Definition TransitionScheduledOccurrence := TransitionOccurrence.

(** ** Attempts *)

Record ScheduledAttempt := mkScheduledAttempt {
  sa_AttemptID : string;
  sa_JobID : string;
  sa_Attempt : Z;
  sa_Status : string;
  sa_PlanID : string;
  sa_RunID : string;
  sa_EffectStarted : bool;
  sa_RecordedAt : Time
}.

Definition nullableScheduleString (value : string) : option string := if value == "" then None else Some value.

Definition attemptID (jobID : string) (attempt : Z) : string := jobID +:+ "-attempt-" +:+ pretty attempt.

Definition attemptStatuses : list string :=
  ["queued"; "running"; "failed-before-effect"; "interrupted-before-effect"; "effect-unknown"; "partial"; "succeeded"].

(** The constraints of the attempt table. *)
Definition attemptConflict (row : AttemptRow) (db : ScheduleDb) : bool :=
  bool_decide (sd_occurrences db !! aw_JobID row = None) || negb (bool_decide (aw_Status row ∈ attemptStatuses))
  || existsb (fun other => (aw_AttemptID other == aw_AttemptID row)
       || (aw_JobID other == aw_JobID row) && (aw_Attempt other == aw_Attempt row)) (sd_attempts db).

Definition AppendAttempt (env : ScheduleEnv) (attempt : ScheduledAttempt) (db : ScheduleDb) : option error * ScheduleDb :=
  if (sa_JobID attempt == "") || (sa_Attempt attempt <=? 0)
  then (Some (scheduleError InputInvalid "scheduled-attempt"), db)
  else
    let id := if sa_AttemptID attempt == "" then attemptID (sa_JobID attempt) (sa_Attempt attempt) else sa_AttemptID attempt in
    let recorded := if IsZero (sa_RecordedAt attempt) then TruncateSecond (UTC (se_clock env)) else sa_RecordedAt attempt in
    let row := mkAttemptRow id (sa_JobID attempt) (sa_Attempt attempt) (sa_Status attempt)
                 (nullableScheduleString (sa_PlanID attempt)) (nullableScheduleString (sa_RunID attempt))
                 (sa_EffectStarted attempt) (FormatRFC3339 recorded) in
    inTx env (fun db => statement env 0 (
      if attemptConflict row db then Err constraintError else Ok (withAttempts (fun rows => rows ++ [row]) db))) db.

Definition AppendScheduledAttempt (env : ScheduleEnv) (jobID : string) (attempt : Z) (status planID runID : string)
    (effectStarted : bool) (recordedAt : Time) (db : ScheduleDb) : option error * ScheduleDb :=
  AppendAttempt env (mkScheduledAttempt "" jobID attempt status planID runID effectStarted recordedAt) db.

Record AttemptRecord := mkAttemptRecord { ac_Attempt : Z; ac_RecordedAt : Time }.

(** [ORDER BY attempt DESC LIMIT 1]: no two attempts of a job have one number. *)
Definition latestAttempt (jobID : string) (db : ScheduleDb) : option AttemptRow :=
  fold_left (fun best row =>
    match best with
    | Some other => if aw_Attempt other <? aw_Attempt row then Some row else best
    | None => Some row
    end) (attemptsOf jobID db) None.

Definition LatestScheduledAttempt (env : ScheduleEnv) (jobID : string) (db : ScheduleDb) : result (option AttemptRecord) :=
  reading env 0 (
    match latestAttempt jobID db with
    | None => Ok None
    | Some row =>
        match parseRFC3339 (aw_RecordedAt row) with
        | Some recorded => Ok (Some (mkAttemptRecord (aw_Attempt row) recorded))
        | None => Err (Plain "parsing time")
        end
    end).

(** ** Leases *)

Definition AcquireOccurrenceLease (env : ScheduleEnv) (jobID leaseID holderID : string) (expiresAt : Time) (db : ScheduleDb)
    : option error * ScheduleDb :=
  if (jobID == "") || (leaseID == "") || (holderID == "") || negb (After expiresAt (se_clock env))
  then (Some (scheduleError InputInvalid "scheduled-lease"), db)
  else
    let now := TruncateSecond (UTC (se_clock env)) in
    let lease := mkOccurrenceLease leaseID holderID (FormatRFC3339 now) (FormatRFC3339 (TruncateSecond (UTC expiresAt))) in
    inTx env (fun db => statement env 0 (
      db ← match sd_leases db !! jobID with
           | None => Ok db
           | Some existing =>
               match parseRFC3339 (ol_ExpiresAt existing) with
               | None => Err (scheduleError StateConflict "scheduled-lease")
               | Some deadline =>
                   if Before now deadline then Err (scheduleError StateConflict "scheduled-lease")
                   else statement env 1 (Ok (withLeases (delete jobID) db))
               end
           end;
      statement env 2 (
        if bool_decide (sd_occurrences db !! jobID = None)
           || existsb (fun other => ol_LeaseID other.2 == leaseID) (map_to_list (sd_leases db))
        then Err constraintError else Ok (withLeases (insert jobID lease) db)))) db.

Definition ReleaseOccurrenceLease (env : ScheduleEnv) (jobID leaseID : string) (db : ScheduleDb) : option error * ScheduleDb :=
  inTx env (fun db => statement env 0 (
    match sd_leases db !! jobID with
    | Some lease => if ol_LeaseID lease == leaseID then Ok (withLeases (delete jobID) db)
                    else Err (scheduleError StateConflict "scheduled-lease")
    | None => Err (scheduleError StateConflict "scheduled-lease")
    end)) db.

(** The deadlines are compared as text. *)
Definition ReleaseExpiredOccurrenceLeases (env : ScheduleEnv) (now : Time) (db : ScheduleDb) : option error * ScheduleDb :=
  let limit := FormatRFC3339 (TruncateSecond (UTC now)) in
  inTx env (fun db => statement env 0
    (Ok (withLeases (filter (fun kv => String.leb (ol_ExpiresAt kv.2) limit = false)) db))) db.

(** ** What the scheduler reads of an occurrence *)

(** The value that binds an occurrence; its fields have no JSON names. *)
Definition occurrenceJSON (jobID : string) (row : OccurrenceRow) : string :=
  jsonObject
    [("JobID", jsonString jobID); ("PolicyID", jsonString (or_PolicyID row)); ("PolicyRevision", jsonInt (or_PolicyRevision row));
     ("ScheduledAt", jsonString (or_ScheduledAt row)); ("WindowClosesAt", jsonString (or_WindowClosesAt row));
     ("OccurrenceTokenDigest", jsonString (or_TokenDigest row)); ("TargetDigest", jsonString (or_TargetDigest row));
     ("IdempotencyKeyDigest", jsonString (or_KeyDigest row)); ("StateRevision", jsonInt (or_StateRevision row));
     ("RecoveryEpoch", jsonInt (or_RecoveryEpoch row))].

Definition ScheduledOccurrenceDigest (env : ScheduleEnv) (n : nat) (jobID : string) (db : ScheduleDb) : result string :=
  reading env n (
    match sd_occurrences db !! jobID with
    | None => Err errNoRows
    | Some row => let body := occurrenceJSON jobID row in
        if withinArtifact body then Ok (hashString body) else Err (Coded InputInvalid "canonical-json")
    end).

Definition ScheduledOccurrenceWindowClosesAt (env : ScheduleEnv) (jobID : string) (db : ScheduleDb) : result Time :=
  reading env 0 (
    match sd_occurrences db !! jobID with
    | None => Err (scheduleError ResourceNotFound "scheduled-occurrence")
    | Some row => of_option (scheduleError IntegrityFailure "scheduled-occurrence-window") (parseRFC3339 (or_WindowClosesAt row))
    end).

(** [ORDER BY created_at, job_id] *)
Definition occurrenceOrder (x y : string * OccurrenceRow) : Prop :=
  (String.ltb (or_CreatedAt x.2) (or_CreatedAt y.2)
   || (or_CreatedAt x.2 == or_CreatedAt y.2) && String.leb x.1 y.1) = true.
#[global] Instance occurrenceOrder_dec x y : Decision (occurrenceOrder x y).
Proof. unfold occurrenceOrder. apply _. Defined.

Definition recoverable (db : ScheduleDb) (entry : string * OccurrenceRow) : bool :=
  match last (transitionsOf entry.1 db) with
  | Some t => bool_decide (tr_To t ∈ ["queued"; "running"; "retry-wait"])
  | None => false
  end.

(** The jobs are read one by one after the list of their identifiers. *)
Fixpoint readOccurrences (env : ScheduleEnv) (n : nat) (ids : list string) (db : ScheduleDb) : result (list ScheduledJob) :=
  match ids with
  | [] => Ok []
  | id :: rest => job ← GetOccurrence env n id db; jobs ← readOccurrences env (S n) rest db; Ok (job :: jobs)
  end.

Definition ListRecoverableOccurrences (env : ScheduleEnv) (db : ScheduleDb) : result (list ScheduledJob) :=
  reading env 0 (
    readOccurrences env 1 (map fst (merge_sort occurrenceOrder
      (filter (fun entry => recoverable db entry = true) (map_to_list (sd_occurrences db))))) db).

(** ** The plan of an occurrence *)

(** What [GetPendingRecoveryPoint] of the backup repository answers with. *)
Record PendingPoint := mkPendingPoint {
  pp_PolicyDigest : string;
  pp_RecoveryEpoch : Z;
  pp_ManifestDigest : string;
  pp_InventoryDigest : string
}.

(** The loop over the extensions: the two digests, or [None] when one of the names
    comes after a value for it was found. *)
Definition scheduledDigests (extensions : list ContractExtension) : option (string * string) :=
  fold_left (fun found x =>
    '(policy, occurrence) ← found;
    if x_Name x == "x-scheduled-policy" then if policy != "" then None else Some (x_ValueDigest x, occurrence)
    else if x_Name x == "x-scheduled-occurrence" then if occurrence != "" then None else Some (policy, x_ValueDigest x)
    else Some (policy, occurrence)) extensions (Some ("", "")).

(** The occurrence whose running attempt has the plan, with the number of the
    attempt and the deadline of its lease. *)
Definition runningOccurrence (planID : string) (db : ScheduleDb) : option (string * Z * string) :=
  head (omap (fun entry =>
    t ← last (transitionsOf entry.1 db); a ← latestAttempt entry.1 db; lease ← sd_leases db !! entry.1;
    if (tr_PlanID t == Some planID) && (tr_To t == "running") && (aw_PlanID a == Some planID)
    then Some (entry.1, aw_Attempt a, ol_ExpiresAt lease) else None) (map_to_list (sd_occurrences db))).

Definition extensionDigest (extensions : list ContractExtension) (name : string) : string :=
  match List.find (fun item => x_Name item == name) extensions with Some item => x_ValueDigest item | None => "" end.

Definition scheduledOperationDigests (policy : ScheduledJobPolicy) (extensions : list ContractExtension)
    (operation : PlanOperation) : bool :=
  let kind := sp_ActionKind policy in
  let rule := sp_RetentionRuleDigest policy in
  let backup := extensionDigest extensions "x-backup-policy" == rule in
  let both digest := (op_InputDigest operation == digest) && (op_ArtifactDigest operation == digest) in
  if (kind == "gate-check") || (kind == "observation-refresh") then both rule
  else if kind == "backup-create" then backup && both rule
  else if kind == "backup-integrity-verify" then backup
  else if kind == "audit-checkpoint-export"
  then let checkpoint := extensionDigest extensions "x-audit-checkpoint" in (checkpoint != "") && both checkpoint
  else false.

Definition pointBinding (pending : string -> result PendingPoint) (policy : ScheduledJobPolicy) (operation : PlanOperation) : bool :=
  match pending (op_TargetID operation) with
  | Ok point => (pp_PolicyDigest point == sp_RetentionRuleDigest policy) && (pp_RecoveryEpoch point == sp_RecoveryEpoch policy)
                && (op_InputDigest operation == pp_ManifestDigest point) && (op_ArtifactDigest operation == pp_InventoryDigest point)
  | Err _ => false
  end.

(** The loop over the operations, from the index [i] on. *)
Fixpoint operationsBound (pending : string -> result PendingPoint) (policy : ScheduledJobPolicy) (action : ActionBinding)
    (extensions : list ContractExtension) (operations : list PlanOperation) (i : nat) : option error :=
  match operations with
  | [] => None
  | operation :: rest =>
      if (op_Sequence operation != Z.of_nat (S i)) || (op_OperationType operation != ab_OperationType action)
         || (op_AdapterID operation != ab_AdapterID action) || (Some (op_TargetID operation) != ab_TargetIDs action !! i)
         || negb (op_Idempotent operation)
      then Some (scheduleError AuthorizationDenied "scheduled-operation-binding")
      else if (sp_ActionKind policy == "backup-integrity-verify") && negb (pointBinding pending policy operation)
      then Some (scheduleError AuthorizationDenied "scheduled-backup-point-binding")
      else if negb (scheduledOperationDigests policy extensions operation)
      then Some (scheduleError AuthorizationDenied "scheduled-operation-digest")
      else operationsBound pending policy action extensions rest (S i)
  end.

Definition ValidateScheduledPlan (env : ScheduleEnv) (pending : string -> result PendingPoint) (plan : Plan) (now : Time)
    (db : ScheduleDb) : option error :=
  match scheduledDigests (p_Extensions plan) with
  | None => Some (scheduleError IntegrityFailure "scheduled-plan-extension")
  | Some (policyDigest, occurrenceDigest) =>
      if (policyDigest == "") || (occurrenceDigest == "") || (p_AuthorizationBranch plan != "preauthorized")
         || (p_ExecutorMode plan != "central")
      then Some (scheduleError AuthorizationDenied "scheduled-plan")
      else match reading env 0 (of_option (scheduleError PlanStale "scheduled-occurrence") (runningOccurrence (p_PlanID plan) db)) with
      | Err err => Some err
      | Ok (jobID, attempt, leaseExpiry) =>
          if negb match parseRFC3339 leaseExpiry with Some deadline => Before (UTC now) deadline | None => false end
             || (attempt <=? 0)
          then Some (scheduleError PlanStale "scheduled-lease")
          else match GetOccurrence env 1 jobID db with
          | Err err => Some err
          | Ok job =>
              let binding := p_Binding plan in
              if negb match reading env 2 (Ok (sd_Meta db)) with
                      | Ok current => (rv_StateRevision current == b_StateRevision binding)
                                      && (rv_RecoveryEpoch current == b_RecoveryEpoch binding)
                      | Err _ => false
                      end
              then Some (scheduleError PlanStale "scheduled-current-revision")
              else if ScheduledOccurrenceDigest env 3 jobID db != Ok occurrenceDigest
              then Some (scheduleError PlanStale "scheduled-occurrence-digest")
              else match GetActivePolicy env 4 (sj_PolicyID job) db with
              | Err err => Some err
              | Ok policy =>
                  if negb match CanonicalPolicy policy with Ok (_, digest) => digest == policyDigest | Err _ => false end
                     || (sj_PolicyRevision job != sp_Revision policy) || (sj_RecoveryEpoch job != sp_RecoveryEpoch policy)
                     || (b_StateRevision binding != sp_StateRevision policy) || (b_RecoveryEpoch binding != sp_RecoveryEpoch policy)
                  then Some (scheduleError PlanStale "scheduled-policy")
                  else if negb match parseRFC3339 (sp_ExpiresAt policy) with Some expires => Before (UTC now) expires | None => false end
                  then Some (scheduleError PlanStale "scheduled-policy")
                  else match BuildAction policy with
                  | Err _ => Some (scheduleError AuthorizationDenied "scheduled-work-bound")
                  | Ok action =>
                      if (Z.of_nat (length (p_Operations plan)) != ab_MaximumWork action)
                         || (length (p_Operations plan) != length (ab_TargetIDs action))
                      then Some (scheduleError AuthorizationDenied "scheduled-work-bound")
                      else operationsBound pending policy action (p_Extensions plan) (p_Operations plan) 0
                  end
              end
          end
      end
  end.

(** ** Calls

    The calls that change the state, and the changes of the revision by the other
    components of the store. *)
Inductive ScheduleCall :=
| CallStage (policy : ScheduledJobPolicy) (attribution : Attribution)
| CallActivatePolicy (plans : string -> option PlanRow) (request : ScheduleActivationRequest)
| CallClaim (claim : OccurrenceClaim)
| CallTransition (jobID from to reason : string) (planID runID : option string)
| CallAttempt (attempt : ScheduledAttempt)
| CallAcquireLease (jobID leaseID holderID : string) (expiresAt : Time)
| CallReleaseLease (jobID leaseID : string)
| CallReleaseExpired (now : Time)
| AdvanceMeta (meta : Revision).

(** The state a call leaves behind. *)
Definition perform (env : ScheduleEnv) (call : ScheduleCall) (db : ScheduleDb) : ScheduleDb :=
  match call with
  | CallStage policy attribution => (StageDraft env policy attribution db).2
  | CallActivatePolicy plans request => (Activate env plans request db).2
  | CallClaim claim => (ClaimOccurrence env claim db).2
  | CallTransition jobID from to reason planID runID => (TransitionOccurrence env jobID from to reason planID runID db).2
  | CallAttempt attempt => (AppendAttempt env attempt db).2
  | CallAcquireLease jobID leaseID holderID expiresAt => (AcquireOccurrenceLease env jobID leaseID holderID expiresAt db).2
  | CallReleaseLease jobID leaseID => (ReleaseOccurrenceLease env jobID leaseID db).2
  | CallReleaseExpired now => (ReleaseExpiredOccurrenceLeases env now db).2
  | AdvanceMeta meta => mkScheduleDb meta (sd_drafts db) (sd_activations db) (sd_occurrences db) (sd_transitions db)
                          (sd_attempts db) (sd_leases db)
  end.

Definition performAll (calls : list (ScheduleEnv * ScheduleCall)) (db : ScheduleDb) : ScheduleDb :=
  fold_left (fun db c => perform c.1 c.2 db) calls db.

(** ** What a call does to the occurrences *)

(** The effect of a call on the tables of occurrences: nothing, or one of the
    three insertions, the first of which only a claim makes. *)
Definition isClaim (call : ScheduleCall) : bool := match call with CallClaim _ => true | _ => false end.

Inductive Effects (claims : bool) (db : ScheduleDb) : ScheduleDb -> Prop :=
| effect_none db' : sd_occurrences db' = sd_occurrences db -> sd_transitions db' = sd_transitions db ->
    sd_attempts db' = sd_attempts db -> Effects claims db db'
| effect_claim db' id row t : claims = true -> sd_transitions db' = sd_transitions db ++ [t] ->
    sd_occurrences db' = sd_occurrences db \/
      (sd_occurrences db !! id = None /\ sd_occurrences db' = <[id := row]> (sd_occurrences db)) ->
    is_Some (sd_occurrences db' !! id) -> tr_JobID t = id -> tr_To t = "queued" ->
    sd_attempts db' = sd_attempts db -> Effects claims db db'
| effect_transition db' t current : sd_transitions db' = sd_transitions db ++ [t] ->
    is_Some (sd_occurrences db !! tr_JobID t) ->
    last (transitionsOf (tr_JobID t) db) = Some current -> tr_To current = tr_From t ->
    ValidatePhase5Transition "scheduled-job" (tr_From t) (tr_To t) = true ->
    sd_occurrences db' = sd_occurrences db -> sd_attempts db' = sd_attempts db -> Effects claims db db'
| effect_attempt db' a : sd_attempts db' = sd_attempts db ++ [a] ->
    is_Some (sd_occurrences db !! aw_JobID a) -> 0 < aw_Attempt a ->
    (forall other, other ∈ sd_attempts db -> aw_JobID other = aw_JobID a -> aw_Attempt other <> aw_Attempt a) ->
    sd_occurrences db' = sd_occurrences db -> sd_transitions db' = sd_transitions db -> Effects claims db db'.

Lemma inTx_cases env business db : (inTx env business db).2 = db \/ business db = Ok (inTx env business db).2.
Proof.
  unfold inTx. destruct (se_ready env); [by left|]. destruct (se_begin env); [by left|].
  destruct (business db) as [db'|]; [|by left]. destruct (se_commit env) as [[e [|]]|]; eauto.
Qed.

Lemma inTx_effects claims env business db :
  (forall db', business db = Ok db' -> Effects claims db db') -> Effects claims db (inTx env business db).2.
Proof. intros Hb. destruct (inTx_cases env business db) as [->|E]; [by apply effect_none|by apply Hb]. Qed.

Lemma thenOccurrence_state env id outcome : (thenOccurrence env id outcome).2 = outcome.2.
Proof. by destruct outcome as [[]]. Qed.

Lemma statement_Ok {A} env n (k : result A) x : statement env n k = Ok x -> k = Ok x.
Proof. unfold statement. by destruct (se_statement env n). Qed.

Lemma occurrenceIgnored_fresh id row rows : occurrenceIgnored id row rows = false -> rows !! id = None.
Proof. unfold occurrenceIgnored. intros E. bool_hyps. by apply eq_None_not_Some. Qed.

Lemma claimChange_effects env claim db db' : claimChange env claim db = Ok db' -> Effects true db db'.
Proof.
  unfold claimChange. intros E%statement_Ok%statement_Ok. unfold appendTransition in E. cbn [tr_JobID] in E.
  set (id := claimJobID claim) in *. set (row := claimRow env claim) in *.
  destruct (occurrenceIgnored id row (sd_occurrences db)) eqn:Hi.
  - destruct (sd_occurrences db !! id) eqn:Hid; [|discriminate E]. injection E as <-.
    eapply (effect_claim _ _ _ id row); [reflexivity|reflexivity|by left|by eexists|done..].
  - apply occurrenceIgnored_fresh in Hi. cbn in E. rewrite lookup_insert_eq in E. injection E as <-.
    eapply (effect_claim _ _ _ id row); [reflexivity|reflexivity|by right|cbn; rewrite lookup_insert_eq; by eexists|done..].
Qed.

Lemma perform_effects env call db : Effects (isClaim call) db (perform env call db).
Proof.
  destruct call as [policy a|plans request|claim|jobID from to reason p r|attempt|jobID leaseID holder expires|jobID leaseID|now|meta];
    cbn [perform isClaim].
  - unfold StageDraft. destruct (CanonicalPolicy policy) as [[canonical digest]|]; [|by apply effect_none].
    destruct (_ || _); [by apply effect_none|]. destruct (inTx _ _ _) as [err db'] eqn:E. cbn. replace db' with (inTx env
      (draftChange env (draftID digest) (mkScheduledPolicyDraft (draftID digest) canonical digest (stamp env) (at_PrincipalID a) policy)) db).2
      by (by rewrite E).
    apply inTx_effects. intros d. unfold draftChange. intros Hd%statement_Ok.
    destruct (_ || _) in Hd; [discriminate Hd|]. cbv zeta in Hd.
    repeat (split_match_in Hd; try discriminate Hd); injection Hd as <-; by apply effect_none.
  - unfold Activate. destruct (GetDraft _ _ _) as [draft|]; [|by apply effect_none].
    destruct (_ || _); [by apply effect_none|].
    pose proof (inTx_effects false env (activationChange env plans request draft) db) as Hx.
    destruct (inTx _ _ _) as [err db']. cbn in *. apply Hx. intros d. unfold activationChange. intros Hd%statement_Ok.
    repeat (split_match_in Hd; try discriminate Hd); apply statement_Ok in Hd; try discriminate Hd;
      injection Hd as <-; by apply effect_none.
  - unfold ClaimOccurrence. destruct (_ || _); [by apply effect_none|]. rewrite thenOccurrence_state.
    apply inTx_effects, claimChange_effects.
  - unfold TransitionOccurrence. destruct (_ || _) eqn:Hg; [by apply effect_none|]. rewrite thenOccurrence_state.
    apply inTx_effects. intros d. unfold transitionChange. cbn [tr_JobID tr_From]. intros Hd%statement_Ok.
    destruct (last _) as [current|] eqn:Hl; [|discriminate Hd]. destruct (_ != _) eqn:Hc in Hd; [discriminate Hd|].
    apply statement_Ok in Hd. unfold appendTransition in Hd. cbn [tr_JobID] in Hd.
    destruct (sd_occurrences db !! jobID) eqn:Ho; [|discriminate Hd]. injection Hd as <-. bool_hyps.
    eapply effect_transition; [reflexivity|by eexists|exact Hl|done..].
  - unfold AppendAttempt. destruct (_ || _) eqn:Hg; [by apply effect_none|]. cbv zeta. apply inTx_effects.
    intros d Hd%statement_Ok. destruct (attemptConflict _ _) eqn:Hc; [discriminate Hd|]. injection Hd as <-.
    unfold attemptConflict in Hc. cbn in Hc. bool_hyps. eapply effect_attempt; [reflexivity| | | |done..].
    + cbn. destruct (sd_occurrences db !! sa_JobID attempt); [by eexists|done].
    + done.
    + intros other Ho Hj Hn. cbn in *. match goal with Hx : existsb _ _ = false |- _ => rename Hx into Hex end.
      apply not_true_iff_false in Hex. apply Hex, existsb_exists. exists other. split; [by apply list_elem_of_In|].
      rewrite Hj, Hn, !bool_decide_refl, orb_true_r. done.
  - unfold AcquireOccurrenceLease. destruct (_ || _); [by apply effect_none|]. cbv zeta. apply inTx_effects.
    intros d Hd%statement_Ok. apply bind_Ok in Hd as (d1 & Hd1 & Hd%statement_Ok). destruct (_ || _) in Hd; [discriminate Hd|].
    injection Hd as <-. repeat (split_match_in Hd1; try discriminate Hd1); try (apply statement_Ok in Hd1); injection Hd1 as <-;
      by apply effect_none.
  - apply inTx_effects. intros d Hd%statement_Ok. repeat (split_match_in Hd; try discriminate Hd). injection Hd as <-. by apply effect_none.
  - apply inTx_effects. intros d Hd%statement_Ok. injection Hd as <-. by apply effect_none.
  - by apply effect_none.
Qed.

End Repository.
