(* ===== verification/ScheduleLifecycle.v ===== *)
(** The life of the occurrences of a schedule: an abstract machine whose state maps
    each job to its status and the numbers of its attempts, the proof that every
    history of calls of the schedule repository refines it, and what becomes of an
    occurrence whose slot is claimed again. *)

From S2P Require Import Prelude GoTime Hash GoJson Contracts AuditLog AuditStore Schedule.
From S2P Require Import ScheduleRepository.

(** ** The abstract machine *)

Record JobState := mkJobState { js_status : string; js_attempts : list Z }.

Notation Jobs := (gmap string JobState).

(** A job is created as queued, is moved along the declared transitions, and has
    an attempt recorded under a number no attempt of it has; a claim of its slot
    makes it queued once more. *)
Inductive JobStep (jobs : Jobs) : Jobs -> Prop :=
| job_created id : jobs !! id = None -> JobStep jobs (<[id := mkJobState "queued" []]> jobs)
| job_claimed_again id s : jobs !! id = Some s -> JobStep jobs (<[id := mkJobState "queued" (js_attempts s)]> jobs)
| job_moved id s to : jobs !! id = Some s -> ValidatePhase5Transition "scheduled-job" (js_status s) to = true ->
    JobStep jobs (<[id := mkJobState to (js_attempts s)]> jobs)
| job_attempted id s n : jobs !! id = Some s -> 0 < n -> n ∉ js_attempts s ->
    JobStep jobs (<[id := mkJobState (js_status s) (js_attempts s ++ [n])]> jobs).

(** ** The abstraction of the tables *)

Definition jobState (id : string) (db : ScheduleDb) : option JobState :=
  t ← last (transitionsOf id db); Some (mkJobState (tr_To t) (map aw_Attempt (attemptsOf id db))).

Definition jobsOf (db : ScheduleDb) : Jobs := map_imap (fun id _ => jobState id db) (sd_occurrences db).

Lemma jobsOf_lookup id db : jobsOf db !! id = _ ← sd_occurrences db !! id; jobState id db.
Proof. apply map_lookup_imap. Qed.

Record wellFormed (db : ScheduleDb) : Prop := {
  wf_transitions : forall t, t ∈ sd_transitions db -> is_Some (sd_occurrences db !! tr_JobID t);
  wf_attempts : forall a, a ∈ sd_attempts db -> is_Some (sd_occurrences db !! aw_JobID a) /\ 0 < aw_Attempt a;
  wf_distinct : NoDup (map (fun a => (aw_JobID a, aw_Attempt a)) (sd_attempts db));
  wf_started : forall id, is_Some (sd_occurrences db !! id) -> transitionsOf id db <> []
}.

Definition emptyDb (meta : Revision) : ScheduleDb := mkScheduleDb meta ∅ [] ∅ [] [] ∅.

Lemma emptyDb_wellFormed meta : wellFormed (emptyDb meta).
Proof. split; cbn; [by intros t ?%not_elem_of_nil|by intros a ?%not_elem_of_nil|constructor|by intros id [? ?%lookup_empty_Some]]. Qed.

(** *** Rows appended to a table *)

Lemma transitionsOf_append id t db db' : sd_transitions db' = sd_transitions db ++ [t] ->
  transitionsOf id db' = transitionsOf id db ++ (if decide (tr_JobID t = id) then [t] else []).
Proof. intros E. unfold transitionsOf. rewrite E, filter_app, filter_cons, filter_nil. by destruct (decide _). Qed.

Lemma transitionsOf_same id db db' : sd_transitions db' = sd_transitions db -> transitionsOf id db' = transitionsOf id db.
Proof. intros E. unfold transitionsOf. by rewrite E. Qed.

Lemma attemptsOf_append id a db db' : sd_attempts db' = sd_attempts db ++ [a] ->
  attemptsOf id db' = attemptsOf id db ++ (if decide (aw_JobID a = id) then [a] else []).
Proof. intros E. unfold attemptsOf. rewrite E, filter_app, filter_cons, filter_nil. by destruct (decide _). Qed.

Lemma attemptsOf_same id db db' : sd_attempts db' = sd_attempts db -> attemptsOf id db' = attemptsOf id db.
Proof. intros E. unfold attemptsOf. by rewrite E. Qed.

Lemma attemptsOf_none id db : wellFormed db -> sd_occurrences db !! id = None -> attemptsOf id db = [].
Proof.
  intros W Hn. destruct (attemptsOf id db) as [|a l] eqn:E; [done|]. exfalso.
  assert (Ha : a ∈ attemptsOf id db) by (rewrite E; apply elem_of_cons; by left).
  apply list_elem_of_filter in Ha as [<- Ha]. destruct (wf_attempts _ W a Ha) as [[? Hs] _]. congruence.
Qed.

(** A transition appended for [t]'s job moves that job and no other. *)
Lemma jobsOf_transition t db db' : sd_transitions db' = sd_transitions db ++ [t] -> sd_attempts db' = sd_attempts db ->
  is_Some (sd_occurrences db' !! tr_JobID t) ->
  (forall id, id <> tr_JobID t -> sd_occurrences db' !! id = sd_occurrences db !! id) ->
  jobsOf db' = <[tr_JobID t := mkJobState (tr_To t) (map aw_Attempt (attemptsOf (tr_JobID t) db))]> (jobsOf db).
Proof.
  intros Ht Ha [row Hrow] Ho. apply map_eq. intros id. rewrite jobsOf_lookup. unfold jobState.
  rewrite (transitionsOf_append _ _ _ _ Ht), (attemptsOf_same _ _ _ Ha). destruct (decide (tr_JobID t = id)) as [<-|Hid].
  - by rewrite lookup_insert_eq, Hrow, last_snoc.
  - rewrite lookup_insert_ne, jobsOf_lookup, (Ho id), app_nil_r by congruence. done.
Qed.

Lemma Effects_wellFormed claims db db' : Effects claims db db' -> wellFormed db -> wellFormed db'.
Proof.
  intros E W. destruct E as [db' Ho Ht Ha|db' id row t Hcl Ht Ho [row' Hrow] <- Hto Ha|db' t cur Ht Hs Hl Hf Hv Ho Ha|db' a Ha Hs Hn Hd Ho Ht].
  - split; rewrite ?Ho, ?Ht, ?Ha; try apply W. intros id Hid. rewrite (transitionsOf_same _ _ _ Ht). by apply W.
  - assert (Hmono : forall id, is_Some (sd_occurrences db !! id) -> is_Some (sd_occurrences db' !! id)).
    { destruct Ho as [->|[_ ->]]; [done|]. intros id Hid. apply lookup_insert_is_Some'. by right. }
    assert (Hback : forall id, is_Some (sd_occurrences db' !! id) -> id = tr_JobID t \/ is_Some (sd_occurrences db !! id)).
    { destruct Ho as [->|[_ ->]]; [by right|]. intros id [?|Hid]%lookup_insert_is_Some'; [by left|by right]. }
    split.
    + rewrite Ht. intros x [Hx|Hx]%elem_of_app; [by apply Hmono, W|]. apply list_elem_of_singleton in Hx as ->. by eexists.
    + rewrite Ha. intros a Hx. split; [apply Hmono|]; by apply W.
    + rewrite Ha. apply W.
    + intros id Hid. rewrite (transitionsOf_append _ _ _ _ Ht). destruct (Hback id Hid) as [->|Hi].
      * rewrite decide_True by done. by destruct (transitionsOf _ _).
      * pose proof (wf_started _ W id Hi). by destruct (transitionsOf id db).
  - split; rewrite ?Ho, ?Ht, ?Ha; try apply W.
    + intros x [Hx|Hx]%elem_of_app; [by apply W|]. by apply list_elem_of_singleton in Hx as ->.
    + intros id Hid. rewrite (transitionsOf_append _ _ _ _ Ht). pose proof (wf_started _ W id Hid). by destruct (transitionsOf id db).
  - split; rewrite ?Ho, ?Ht, ?Ha; try apply W.
    + intros x [Hx|Hx]%elem_of_app; [by apply W|]. by apply list_elem_of_singleton in Hx as ->.
    + rewrite map_app. apply NoDup_app. split_and!; [apply W| |apply NoDup_singleton].
      intros [j n] (o & Ho' & Hin)%list_elem_of_fmap Hx. apply list_elem_of_singleton in Hx. injection Ho' as -> ->.
      injection Hx as Hj Hnn. by apply (Hd o Hin).
    + intros id Hid. rewrite (transitionsOf_same _ _ _ Ht). by apply W.
Qed.

(** *** Simulation *)

Lemma Effects_simulated claims db db' : wellFormed db -> Effects claims db db' -> jobsOf db' = jobsOf db \/ JobStep (jobsOf db) (jobsOf db').
Proof.
  intros W E. destruct E as [db' Ho Ht Ha|db' id row t Hcl Ht Ho Hrow <- Hto Ha|db' t cur Ht Hs Hl Hf Hv Ho Ha|db' a Ha Hs Hn Hd Ho Ht].
  - left. apply map_eq. intros id. rewrite !jobsOf_lookup, Ho. unfold jobState.
    by rewrite (transitionsOf_same _ _ _ Ht), (attemptsOf_same _ _ _ Ha).
  - right. rewrite (jobsOf_transition t db db' Ht Ha Hrow), Hto.
    2: { intros id Hid. destruct Ho as [->|[_ ->]]; [done|]. by rewrite lookup_insert_ne. }
    destruct (sd_occurrences db !! tr_JobID t) as [r|] eqn:Hr.
    + destruct (last (transitionsOf (tr_JobID t) db)) as [cur|] eqn:Hl.
      2: { apply last_None in Hl. exfalso. by apply (wf_started _ W (tr_JobID t)); [eexists|]. }
      apply (job_claimed_again _ (tr_JobID t) (mkJobState (tr_To cur) (map aw_Attempt (attemptsOf (tr_JobID t) db)))).
      rewrite jobsOf_lookup, Hr. cbn. unfold jobState. by rewrite Hl.
    + rewrite (attemptsOf_none _ _ W Hr). apply job_created. by rewrite jobsOf_lookup, Hr.
  - right. rewrite (jobsOf_transition t db db' Ht Ha) by (rewrite Ho; done || (intros; by rewrite Ho)).
    apply (job_moved _ (tr_JobID t) (mkJobState (tr_To cur) (map aw_Attempt (attemptsOf (tr_JobID t) db)))).
    + destruct Hs as [r Hr]. rewrite jobsOf_lookup, Hr. cbn. unfold jobState. by rewrite Hl.
    + cbn. by rewrite Hf.
  - right. destruct Hs as [r Hr]. destruct (last (transitionsOf (aw_JobID a) db)) as [cur|] eqn:Hl.
    2: { apply last_None in Hl. exfalso. by apply (wf_started _ W (aw_JobID a)); [eexists|]. }
    set (s := mkJobState (tr_To cur) (map aw_Attempt (attemptsOf (aw_JobID a) db))).
    assert (Hlook : jobsOf db !! aw_JobID a = Some s) by (rewrite jobsOf_lookup, Hr; cbn; unfold jobState; by rewrite Hl).
    replace (jobsOf db') with (<[aw_JobID a := mkJobState (js_status s) (js_attempts s ++ [aw_Attempt a])]> (jobsOf db)).
    { apply job_attempted; [done..|]. cbn. intros (o & Ho' & Hin)%list_elem_of_fmap. apply list_elem_of_filter in Hin as [Hj Hin].
      by apply (Hd o Hin). }
    apply map_eq. intros id. rewrite (jobsOf_lookup id db'), Ho. unfold jobState.
    rewrite (transitionsOf_same _ _ _ Ht), (attemptsOf_append _ _ _ _ Ha). destruct (decide (aw_JobID a = id)) as [<-|Hid].
    + rewrite lookup_insert_eq, Hr. cbn. rewrite Hl, map_app. done.
    + rewrite lookup_insert_ne, jobsOf_lookup, app_nil_r by done. done.
Qed.

Section Lifecycle.
Context `{Hasher}.

Lemma performAll_snoc calls c db : performAll (calls ++ [c]) db = perform c.1 c.2 (performAll calls db).
Proof. unfold performAll. by rewrite fold_left_app. Qed.

Lemma performAll_wellFormed calls db : wellFormed db -> wellFormed (performAll calls db).
Proof.
  intros W. induction calls as [|c calls IH] using rev_ind; [done|]. rewrite performAll_snoc.
  eapply Effects_wellFormed; [apply perform_effects|exact IH].
Qed.

(** C9: every history of calls of the schedule repository, under any failures and
    with any commits that are durable although they failed, refines the abstract
    machine of jobs: whatever the tables of occurrences, transitions and attempts
    go through is a run of that machine. *)
Theorem schedule_refines_job_lifecycle meta calls :
  rtc JobStep ∅ (jobsOf (performAll calls (emptyDb meta))).
Proof.
  induction calls as [|c calls IH] using rev_ind; [apply rtc_refl|]. rewrite performAll_snoc. etrans; [exact IH|].
  destruct (Effects_simulated _ _ _ (performAll_wellFormed calls _ (emptyDb_wellFormed meta)) (perform_effects c.1 c.2 _))
    as [->|Hs]; [apply rtc_refl|by apply rtc_once].
Qed.

(** ** Settled occurrences *)

(** No transition leads out of these statuses. *)
Definition settled (status : string) : Prop :=
  forall to, ValidatePhase5Transition "scheduled-job" status to = false.

Lemma settled_statuses :
  Forall settled ["blocked"; "cancelled"; "failed"; "skipped"; "succeeded"; "uncertain"].
Proof.
  repeat constructor; intros to; unfold ValidatePhase5Transition, ScheduledJobTransitions; cbn [existsb fst snd];
    repeat (rewrite (bool_decide_eq_false_2 (_ = _ :> string)) by discriminate; cbn); reflexivity.
Qed.

Lemma perform_settled env call db id : isClaim call = false -> wellFormed db ->
  (exists s, jobsOf db !! id = Some s /\ settled (js_status s)) ->
  option_map js_status (jobsOf (perform env call db) !! id) = option_map js_status (jobsOf db !! id).
Proof.
  intros Hc W (s & Hs & Hset). pose proof (perform_effects env call db) as E. rewrite Hc in E.
  rewrite !jobsOf_lookup in *. destruct (sd_occurrences db !! id) as [r|] eqn:Hr; [|discriminate Hs]. cbn in Hs.
  unfold jobState in *. destruct (last (transitionsOf id db)) as [cur0|] eqn:Hl0; [|discriminate Hs]. cbn in Hs.
  injection Hs as <-. cbn in Hset.
  destruct E as [db' Ho Ht Ha|db' id' row t Hcl|db' t cur Ht Hex Hl Hf Hv Ho Ha|db' a Ha Hex Hn Hd Ho Ht]; [|discriminate Hcl|..].
  - rewrite Ho, Hr. cbn. by rewrite (transitionsOf_same _ _ _ Ht), Hl0.
  - rewrite Ho, Hr. cbn. rewrite (transitionsOf_append _ _ _ _ Ht). destruct (decide (tr_JobID t = id)) as [<-|Hid].
    + exfalso. rewrite Hl0 in Hl. injection Hl as ->. rewrite Hf in Hset. by rewrite Hset in Hv.
    + by rewrite app_nil_r, Hl0.
  - rewrite Ho, Hr. cbn. by rewrite (transitionsOf_same _ _ _ Ht), Hl0.
Qed.

(** As long as its slot is not claimed again, an occurrence that succeeded,
    failed, was cancelled, blocked or skipped, or whose effect is uncertain keeps
    that status whatever else is called. *)
Theorem settled_occurrence_final db calls id s :
  wellFormed db -> jobsOf db !! id = Some s -> settled (js_status s) ->
  forallb (fun c => negb (isClaim c.2)) calls = true ->
  exists s', jobsOf (performAll calls db) !! id = Some s' /\ js_status s' = js_status s.
Proof.
  intros W Hs Hset. revert db s W Hs Hset. induction calls as [|c calls IH]; intros db s W Hs Hset Hc; [by exists s|].
  cbn in Hc. apply andb_true_iff in Hc as [Hc1 Hc2]. apply negb_true_iff in Hc1.
  pose proof (perform_settled c.1 c.2 db id Hc1 W (ex_intro _ s (conj Hs Hset))) as Hp. rewrite Hs in Hp. cbn in Hp.
  destruct (jobsOf (perform c.1 c.2 db) !! id) as [s1|] eqn:Hs1; [|discriminate Hp]. injection Hp as Hp.
  change (performAll (c :: calls) db) with (performAll calls (perform c.1 c.2 db)). rewrite <- Hp in Hset |- *.
  apply (IH (perform c.1 c.2 db) s1); [|done..]. eapply Effects_wellFormed; [apply perform_effects|done].
Qed.

(** ** A slot claimed again *)

(** Nothing fails in a call. *)
Definition calm (env : ScheduleEnv) : Prop :=
  se_ready env = None /\ se_begin env = None /\ (forall n, se_statement env n = None) /\ se_commit env = None
  /\ (forall n, se_read env n = None).

(** The guard of [ClaimOccurrence]. *)
Definition claimable (claim : OccurrenceClaim) : bool :=
  let policy := oc_Policy claim in
  negb ((sp_PolicyID policy == "") || IsZero (oc_ScheduledAt claim) || IsZero (oc_WindowClosesAt claim)
    || negb (After (oc_WindowClosesAt claim) (oc_ScheduledAt claim)) || (oc_OccurrenceToken claim == "")
    || (oc_IdempotencyKey claim == "") || (rv_StateRevision (oc_Expected claim) != sp_StateRevision policy)
    || (rv_RecoveryEpoch (oc_Expected claim) != sp_RecoveryEpoch policy)).

(** A second claim of a slot, whose occurrence is not inserted again, appends
    one more transition to "queued" all the same: the transition table has no
    constraint that would make [INSERT OR IGNORE] skip it. The occurrence is
    queued whatever its status was, also when it was cancelled or had succeeded,
    and keeps its attempts. *)
Theorem second_claim_requeues env claim db row :
  calm env -> claimable claim = true -> sd_occurrences db !! claimJobID claim = Some row ->
  exists job db', ClaimOccurrence env claim db = (Ok job, db') /\ sj_Status job = "queued"
    /\ jobsOf db' !! claimJobID claim
       = Some (mkJobState "queued" (map aw_Attempt (attemptsOf (claimJobID claim) db))).
Proof.
  intros (Hready & Hbegin & Hst & Hcommit & Hread) Hg Hrow. unfold claimable in Hg. apply negb_true_iff in Hg.
  unfold ClaimOccurrence. rewrite Hg. unfold inTx, claimChange, statement. rewrite Hready, Hbegin, !Hst.
  unfold occurrenceIgnored. rewrite (bool_decide_eq_true_2 (is_Some (sd_occurrences db !! claimJobID claim))) by by eexists.
  cbn [orb]. unfold appendTransition. cbn [tr_JobID]. rewrite Hrow, Hcommit. unfold thenOccurrence.
  set (t := mkTransitionRow _ _ _ _ _ _ _). set (db' := withTransitions (fun rows => rows ++ [t]) db).
  assert (Hlast : last (transitionsOf (claimJobID claim) db') = Some t).
  { rewrite (transitionsOf_append _ t db db' eq_refl), decide_True by done. apply last_snoc. }
  unfold GetOccurrence, reading, of_option. rewrite Hread. unfold occurrence.
  change (sd_occurrences db') with (sd_occurrences db). rewrite Hrow. cbn [mbind option_bind]. rewrite Hlast.
  cbn [mbind option_bind]. eexists _, db'. split; [done|]. split; [done|].
  rewrite jobsOf_lookup. change (sd_occurrences db') with (sd_occurrences db). rewrite Hrow. cbn [mbind option_bind].
  unfold jobState. rewrite Hlast. done.
Qed.

End Lifecycle.

(** ** Witnesses *)

Section Witnesses.
#[local] Existing Instance Checksum.

Definition calmEnv (clock : string) : ScheduleEnv :=
  mkScheduleEnv None None (fun _ => None) None (fun _ => None) (parseTime clock).

Definition sampleClaim : OccurrenceClaim :=
  mkOccurrenceClaim (samplePolicy 60 600) (parseTime "2024-01-01T05:00:00Z") (parseTime "2024-01-01T05:30:00Z") "token"
    "sha256:aa" "key" (mkRevision 3 0).

Definition sampleJobID : string := claimJobID sampleClaim.

(** An occurrence that is claimed and then cancelled. *)
Definition sampleCalls : list (ScheduleEnv * ScheduleCall) :=
  [(calmEnv "2024-01-01T05:01:00Z", CallClaim sampleClaim);
   (calmEnv "2024-01-01T05:02:00Z", CallTransition sampleJobID "queued" "cancelled" "operator-cancelled" None None)].
Definition cancelledDb : ScheduleDb := performAll sampleCalls (emptyDb (mkRevision 3 0)).

Lemma cancelledDb_wellFormed : wellFormed cancelledDb.
Proof. apply performAll_wellFormed, emptyDb_wellFormed. Qed.

Lemma cancelledDb_job : jobsOf cancelledDb !! sampleJobID = Some (mkJobState "cancelled" []).
Proof. vm_compute. reflexivity. Qed.

Lemma settled_occurrence_final_witness :
  exists s, jobsOf (performAll [(calmEnv "2024-01-01T05:03:00Z",
      CallTransition sampleJobID "cancelled" "running" "attempt-started" None None)] cancelledDb) !! sampleJobID = Some s
    /\ js_status s = "cancelled".
Proof.
  apply (settled_occurrence_final cancelledDb _ sampleJobID (mkJobState "cancelled" []) cancelledDb_wellFormed cancelledDb_job);
    [|reflexivity].
  exact (proj1 (Forall_forall _ _) settled_statuses "cancelled" ltac:(in_list)).
Defined.

Lemma second_claim_requeues_witness :
  exists job db', ClaimOccurrence (calmEnv "2024-01-01T05:03:00Z") sampleClaim cancelledDb = (Ok job, db')
    /\ sj_Status job = "queued"
    /\ jobsOf db' !! sampleJobID = Some (mkJobState "queued" (map aw_Attempt (attemptsOf sampleJobID cancelledDb))).
Proof.
  assert (H0 : is_Some (sd_occurrences cancelledDb !! sampleJobID)) by (vm_compute; eexists; reflexivity).
  destruct H0 as [row Hrow].
  apply (second_claim_requeues (calmEnv "2024-01-01T05:03:00Z") sampleClaim cancelledDb row); [|vm_compute; reflexivity|exact Hrow].
  repeat split.
Defined.

End Witnesses.
