(* ===== verification/ScheduleRunner.v ===== *)
(** The scheduler of [internal/schedule/service.go] and [runner.go]: claiming and
    cancelling an occurrence, running one attempt of it, and the startup that takes
    up what a stopped process left behind.

    As the run engine, the scheduler is a state monad over a world: the tables of
    the schedule repository, a counter of the interactions so far, and the trace of
    what happened. The clock, the failures of the repository, the plan service, the
    authorizer, the engine that executes the run and the readers of observations
    and prerequisites are oracles indexed by the counter; other clients of the
    repository may make calls of their own before each call of the scheduler. *)

From S2P Require Import Prelude GoTime Hash GoJson Contracts AuditLog AuditStore Schedule.
From S2P Require Import ScheduleRepository ScheduleLifecycle.

(** ** The surroundings *)

Record PlanRequest := mkPlanRequest {
  pq_Policy : ScheduledJobPolicy;
  pq_PolicyDigest : string;
  pq_JobID : string;
  pq_OccurrenceDigest : string;
  pq_ObservationFingerprint : string;
  pq_Attempt : Z;
  pq_ScheduledAt : Time;
  pq_WindowClosesAt : Time;
  pq_Expected : Revision
}.

Class RunnerSurroundings := {
  ss_clock : nat -> Time;
  ss_env : nat -> ScheduleEnv;
  ss_others : nat -> list (ScheduleEnv * ScheduleCall);
  ss_plan : nat -> PlanRequest -> result Plan;
  ss_authorize : nat -> string -> Plan -> result AuthorizationDecision;
  ss_submit : nat -> Plan -> AuthorizationDecision -> string -> Attribution -> Run * option error;
  ss_run : nat -> string -> result Run;
  ss_fingerprint : nat -> ScheduledJobPolicy -> result string;
  ss_current : nat -> list PrerequisiteRequirement -> result (list PrerequisiteStatus);
  ss_principalID : string
}.

(** What happened: calls that change the tables, by the scheduler (with the error
    they returned) and by others, the statuses of prerequisites that were read, the decisions, the submissions
    with their results, and the runs that were read at startup. *)
Inductive RunnerEvent :=
| OwnCall (env : ScheduleEnv) (call : ScheduleCall) (err : option error)
| OtherCall (env : ScheduleEnv) (call : ScheduleCall)
| Prerequisites (policy : ScheduledJobPolicy) (statuses : list PrerequisiteStatus) (now : Time)
| Authorized (principalID : string) (plan : Plan) (decision : AuthorizationDecision)
| Submitted (plan : Plan) (decision : AuthorizationDecision) (submitKey : string) (run : Run) (err : option error)
| Recovered (runID : string) (run : Run).

Record RunnerWorld := mkRunnerWorld { rw_db : ScheduleDb; rw_tick : nat; rw_trace : list RunnerEvent }.

Definition R (A : Type) : Type := RunnerWorld -> A * RunnerWorld.
#[global] Instance R_ret : MRet R := fun _ x w => (x, w).
#[global] Instance R_bind : MBind R := fun _ _ f m w => let '(x, w') := m w in f x w'.

(** A job and an error, as most methods return them. *)
Definition Outcome : Type := ScheduledJob * option error.
Definition zeroJob : ScheduledJob := mkScheduledJob "" "" 0 "" 0 None None "" "" 0.
Definition ofJob (r : result ScheduledJob) : Outcome :=
  match r with Ok job => (job, None) | Err err => (zeroJob, Some err) end.

Section Scheduler.
Context `{Hasher} `{RunnerSurroundings}.

(** ** Interactions *)

Definition ask {A} (oracle : nat -> A) : R A := fun w =>
  (oracle (rw_tick w), mkRunnerWorld (rw_db w) (S (rw_tick w)) (rw_trace w)).

Definition note (event : RunnerEvent) : R unit := fun w =>
  (tt, mkRunnerWorld (rw_db w) (rw_tick w) (rw_trace w ++ [event])).

(** The calls of others that come before the next interaction. *)
Definition interleaved (w : RunnerWorld) : RunnerWorld :=
  let others := ss_others (rw_tick w) in
  mkRunnerWorld (performAll others (rw_db w)) (rw_tick w) (rw_trace w ++ map (fun c => OtherCall c.1 c.2) others).

(** A read of the repository. *)
Definition query {A} (method : ScheduleEnv -> ScheduleDb -> A) : R A := fun w =>
  let w := interleaved w in
  (method (ss_env (rw_tick w)) (rw_db w), mkRunnerWorld (rw_db w) (S (rw_tick w)) (rw_trace w)).

(** A call that changes the tables, and the error in its answer. *)
Definition failure {A} (r : result A) : option error := match r with Ok _ => None | Err err => Some err end.
Definition invoke {A} (report : A -> option error) (call : ScheduleCall)
    (method : ScheduleEnv -> ScheduleDb -> A * ScheduleDb) : R A := fun w =>
  let w := interleaved w in
  let answer := method (ss_env (rw_tick w)) (rw_db w) in
  (answer.1, mkRunnerWorld answer.2 (S (rw_tick w)) (rw_trace w ++ [OwnCall (ss_env (rw_tick w)) call (report answer.1)])).

(** [clock().UTC().Truncate(time.Second)] *)
Definition now : R Time := t ← ask ss_clock; mret (TruncateSecond (UTC t)).

Definition transition (jobID from to reason : string) (planID runID : option string) : R Outcome :=
  r ← invoke failure (CallTransition jobID from to reason planID runID)
        (fun env => TransitionScheduledOccurrence env jobID from to reason planID runID);
  mret (ofJob r).

(** ** The dispatch service (service.go) *)

Record DispatchRequest := mkDispatchRequest {
  dq_PolicyID : string;
  dq_OccurrenceToken : string;
  dq_TargetDigest : string;
  dq_IdempotencyKey : string;
  dq_PolicyRevision : Z;
  dq_ExpectedStateRevision : Z;
  dq_RecoveryEpoch : Z;
  dq_ObservedAt : Time
}.

Definition targetJSON (policy : ScheduledJobPolicy) : string :=
  let strings ids := jsonArray (map jsonString ids) in
  jsonObject [("SourceIDs", strings (sp_ExactSourceIDs policy)); ("SubjectIDs", strings (sp_ExactSubjectIDs policy));
              ("TargetIDs", strings (sp_ExactTargetIDs policy))].

Definition ExactTargetDigest (policy : ScheduledJobPolicy) : result string :=
  let body := targetJSON policy in
  if withinArtifact body then Ok (hashString body) else Err (Coded InputInvalid "canonical-json").

(** [ClaimScheduledOccurrence], and the transition of a slot that was missed *)
Definition claimSlot (policy : ScheduledJobPolicy) (slot : Slot) (missed : bool) (request : DispatchRequest)
    (targetDigest : string) (current : Revision) : R Outcome :=
  r ← invoke failure (CallClaim (mkOccurrenceClaim policy (sl_ScheduledAt slot) (sl_WindowClosesAt slot) (dq_OccurrenceToken request)
                           targetDigest (dq_IdempotencyKey request) current))
        (fun env => ClaimScheduledOccurrence env policy slot (dq_OccurrenceToken request) targetDigest
                      (dq_IdempotencyKey request) current);
  match r with
  | Err err => mret (zeroJob, Some err)
  | Ok job =>
      if missed && (sj_Status job == "queued")
      then transition (sj_JobID job) "queued" "skipped" "window-missed" None None
      else mret (job, None)
  end.

Definition Dispatch (request : DispatchRequest) : R Outcome :=
  let fails code target : R Outcome := mret (zeroJob, Some (Coded code target)) in
  if (dq_PolicyID request == "") || (dq_PolicyRevision request <=? 0) || (dq_OccurrenceToken request == "")
     || (dq_TargetDigest request == "") || (dq_IdempotencyKey request == "") || IsZero (dq_ObservedAt request)
  then fails InputInvalid "scheduled-dispatch"
  else
    at_ ← now;
    if ns (TruncateSecond (dq_ObservedAt request)) != ns at_ then fails StateConflict "scheduled-clock"
    else
      p ← query (fun env => GetActivePolicy env 0 (dq_PolicyID request));
      match p with
      | Err err => mret (zeroJob, Some err)
      | Ok policy =>
          if (sp_Revision policy != dq_PolicyRevision request) || negb (sp_Enabled policy)
          then fails PlanStale "scheduled-policy"
          else
            c ← query CurrentScheduleRevision;
            match c with
            | Err err => mret (zeroJob, Some err)
            | Ok current =>
                if (current != mkRevision (dq_ExpectedStateRevision request) (dq_RecoveryEpoch request))
                   || (sp_StateRevision policy != rv_StateRevision current)
                   || (sp_RecoveryEpoch policy != rv_RecoveryEpoch current)
                then fails RecoveryEpochMismatch "scheduled-policy"
                else match ExactTargetDigest policy with
                | Err _ => fails AuthorizationDenied "scheduled-target"
                | Ok targetDigest =>
                    if targetDigest != dq_TargetDigest request then fails AuthorizationDenied "scheduled-target"
                    else if negb match parseRFC3339 (sp_ExpiresAt policy) with Some expires => Before at_ expires | None => false end
                    then fails PlanStale "scheduled-policy"
                    else
                      let '(slot, dueErr) := Due policy at_ in
                      let slot :=
                        if (dueErr == None) && (sp_CatchUp policy == "latest") && negb (Before at_ (sl_WindowClosesAt slot))
                        then mkSlot (sl_ScheduledAt slot) (sl_WindowOpensAt slot) (Add at_ (seconds (sp_WindowSeconds policy)))
                        else slot in
                      if (dueErr != None) && (dueErr != Some ErrWindowMissed) then fails StateConflict "scheduled-slot"
                      else claimSlot policy slot (dueErr == Some ErrWindowMissed) request targetDigest current
                end
            end
      end.

Definition CancelJob (jobID : string) : R Outcome :=
  if jobID == "" then mret (zeroJob, Some (Coded InputInvalid "scheduled-cancel"))
  else
    r ← query (fun env => GetOccurrence env 0 jobID);
    match r with
    | Err err => mret (zeroJob, Some err)
    | Ok job =>
        if sj_Status job == "cancelled" then mret (job, None)
        else if (sj_Status job != "queued") && (sj_Status job != "retry-wait")
        then mret (job, Some (Coded StateConflict "scheduled-cancel"))
        else transition jobID (sj_Status job) "cancelled" "operator-cancelled" (sj_PlanID job) (sj_RunID job)
    end.

(** ** The runner (runner.go) *)

Definition hasUncertainEffect (run : Run) : bool :=
  existsb (fun step => bool_decide (s_EffectState step ∈ ["intent-recorded"; "effect-unknown"; "receipt-recorded"])) (r_Steps run).

Definition allNotStarted (run : Run) : bool :=
  if (length (r_Steps run) =? 0)%nat then false
  else forallb (fun step => s_EffectState step == "not-started") (r_Steps run).

Definition block (job : ScheduledJob) (reason : string) : R Outcome :=
  if sj_Status job == "retry-wait"
  then transition (sj_JobID job) "retry-wait" "failed" reason (sj_PlanID job) (sj_RunID job)
  else transition (sj_JobID job) "queued" "blocked" reason None None.

(** The job with the number of the attempt that is made. *)
Definition withAttempt (attempt : Z) (job : ScheduledJob) : ScheduledJob :=
  mkScheduledJob (sj_JobID job) (sj_PolicyID job) (sj_PolicyRevision job) (sj_ScheduledAt job) attempt (sj_PlanID job)
    (sj_RunID job) (sj_Status job) (sj_ReasonCode job) (sj_RecoveryEpoch job).

(** The end of an attempt whose run came back. *)
Definition concludeAttempt (policy : ScheduledJobPolicy) (job : ScheduledJob) (at_ windowCloses : Time) (planID runID : string)
    (run : Run) (submitErr : option error) : R Outcome :=
  let ends to reason := transition (sj_JobID job) "running" to reason (Some planID) (Some runID) in
  if (submitErr != None) || (r_Status run == "uncertain") || hasUncertainEffect run then ends "uncertain" "effect-unknown"
  else if r_Status run == "succeeded" then ends "succeeded" "verified"
  else if (r_Status run == "failed") && allNotStarted run then
    if (sj_Attempt job <? sp_MaxAttempts policy) && Before (Add at_ (Backoff policy (sj_Attempt job))) windowCloses
    then ends "retry-wait" "failed-before-effect"
    else ends "failed" "retry-exhausted"
  else ends "uncertain" "non-terminal-run".

(** The attempt is recorded, then the job is running, then the plan is submitted. *)
Definition startAttempt (policy : ScheduledJobPolicy) (job : ScheduledJob) (at_ windowCloses : Time) (plan : Plan)
    (decision : AuthorizationDecision) (attribution : Attribution) : R Outcome :=
  let submitKey := attemptID (sj_JobID job) (sj_Attempt job) in
  let run := runID (p_PlanID plan) submitKey in
  let attempt := mkScheduledAttempt "" (sj_JobID job) (sj_Attempt job) "running" (p_PlanID plan) run false at_ in
  err ← invoke id (CallAttempt attempt) (fun env => AppendScheduledAttempt env (sj_JobID job) (sj_Attempt job) "running"
                                                   (p_PlanID plan) run false at_);
  match err with
  | Some err => mret (job, Some err)
  | None =>
      running ← transition (sj_JobID job) (sj_Status job) "running" "attempt-started" (Some (p_PlanID plan)) (Some run);
      match running.2 with
      | Some err => mret (job, Some err)
      | None =>
          answer ← ask (fun n => ss_submit n plan decision submitKey attribution);
          _ ← note (Submitted plan decision submitKey answer.1 answer.2);
          concludeAttempt policy job at_ windowCloses (p_PlanID plan) run answer.1 answer.2
      end
  end.

(** The decision covers this policy. *)
Definition authorizes (policy : ScheduledJobPolicy) (decision : AuthorizationDecision) : bool :=
  ad_Allowed decision && (ad_Branch decision == Some "preauthorized")
  && (ad_GrantRevision decision == sp_GrantRevision policy) && (ad_RecoveryEpoch decision == sp_RecoveryEpoch policy).

(** What is done under the lease of the occurrence. *)
Definition underLease (policy : ScheduledJobPolicy) (job : ScheduledJob) (at_ scheduledAt windowCloses : Time)
    (revision : Revision) (attribution : Attribution) : R Outcome :=
  let requirements := Requirements policy in
  s ← ask (fun n => ss_current n requirements);
  match s with
  | Err _ => block job "prerequisite-unavailable"
  | Ok statuses =>
      _ ← note (Prerequisites policy statuses at_);
      if bool_decide (is_Some (RequireCurrent requirements statuses at_)) then block job "prerequisite-blocked"
      else
        o ← ask (fun n => ss_fingerprint n policy);
        match o with
        | Err _ => block job "observation-unavailable"
        | Ok observation =>
            if observation == "" then block job "observation-unavailable"
            else match CanonicalPolicy policy with
            | Err _ => block job "policy-invalid"
            | Ok (_, policyDigest) =>
                d ← query (fun env => ScheduledOccurrenceDigest env 0 (sj_JobID job));
                match d with
                | Err _ => block job "occurrence-invalid"
                | Ok occurrenceDigest =>
                    p ← ask (fun n => ss_plan n (mkPlanRequest policy policyDigest (sj_JobID job) occurrenceDigest observation
                                                   (sj_Attempt job) scheduledAt windowCloses revision));
                    match p with
                    | Err _ => block job "plan-create-failed"
                    | Ok plan =>
                        a ← ask (fun n => ss_authorize n (at_PrincipalID attribution) plan);
                        match a with
                        | Err _ => block job "authorization-denied"
                        | Ok decision =>
                            _ ← note (Authorized (at_PrincipalID attribution) plan decision);
                            if negb (authorizes policy decision) then block job "authorization-denied"
                            else startAttempt policy job at_ windowCloses plan decision attribution
                        end
                    end
                end
            end
        end
  end.

(** The lease is acquired, and released on every path. *)
Definition withLease (policy : ScheduledJobPolicy) (job : ScheduledJob) (at_ scheduledAt windowCloses : Time)
    (revision : Revision) (attribution : Attribution) : R Outcome :=
  let leaseID := sj_JobID job +:+ "-lease-" +:+ pretty (sj_Attempt job) in
  let holder := "schedule:" +:+ sp_PolicyID policy in
  err ← invoke id (CallAcquireLease (sj_JobID job) leaseID holder windowCloses)
          (fun env => AcquireOccurrenceLease env (sj_JobID job) leaseID holder windowCloses);
  match err with
  | Some _ => block job "overlap"
  | None =>
      outcome ← underLease policy job at_ scheduledAt windowCloses revision attribution;
      _ ← invoke id (CallReleaseLease (sj_JobID job) leaseID) (fun env => ReleaseOccurrenceLease env (sj_JobID job) leaseID);
      mret outcome
  end.

(** From the window of the occurrence on. *)
Definition withinWindow (policy : ScheduledJobPolicy) (job : ScheduledJob) (at_ : Time) (attribution : Attribution) : R Outcome :=
  match parseRFC3339 (sj_ScheduledAt job) with
  | None => block job "scheduled-at-invalid"
  | Some scheduledAt =>
      c ← query (fun env => ScheduledOccurrenceWindowClosesAt env (sj_JobID job));
      match c with
      | Err _ => block job "window-unavailable"
      | Ok windowCloses =>
          if negb (Before at_ windowCloses) then block job "window-closed"
          else
            v ← query CurrentScheduleRevision;
            match v with
            | Err err => mret (job, Some err)
            | Ok revision =>
                if revision != mkRevision (sp_StateRevision policy) (sp_RecoveryEpoch policy)
                then block job "revision-or-epoch-stale"
                else withLease policy job at_ scheduledAt windowCloses revision attribution
            end
      end
  end.

(** The attempt a job is at: a job that waits for a retry gets the next number, when
    its back-off is over. *)
Definition nextAttempt (policy : ScheduledJobPolicy) (job : ScheduledJob) (at_ : Time)
    (continue : ScheduledJob -> R Outcome) : R Outcome :=
  if sj_Status job == "retry-wait" then
    l ← query (fun env => LatestScheduledAttempt env (sj_JobID job));
    match l with
    | Err err => mret (job, Some err)
    | Ok None => mret (job, None)
    | Ok (Some previous) =>
        if Before at_ (Add (ac_RecordedAt previous) (Backoff policy (ac_Attempt previous))) then mret (job, None)
        else continue (withAttempt (int64 (ac_Attempt previous + 1)) job)
    end
  else continue job.

Definition RunJob (job : ScheduledJob) (attribution : Attribution) : R Outcome :=
  if (sj_Status job != "queued") && (sj_Status job != "retry-wait") || (sj_Attempt job <=? 0)
  then mret (zeroJob, Some (Plain "invalid scheduled job"))
  else
    p ← query (fun env => GetActivePolicy env 0 (sj_PolicyID job));
    match p with
    | Err err => mret (job, Some err)
    | Ok policy =>
        if negb (ValidateScheduledJobBinding policy job) then block job "policy-binding-stale"
        else if (at_PrincipalID attribution == "") || (at_PrincipalMethod attribution == "")
        then block job "runner-principal-missing"
        else
          h ← query (fun env => GetActivePolicyApprover env (sp_PolicyID policy) (sp_Revision policy));
          match h with
          | Err _ => block job "policy-approver-unavailable"
          | Ok approver =>
              if approver == "" then block job "policy-approver-unavailable"
              else
                let attribution := mkAttribution (at_PrincipalID attribution) (at_PrincipalMethod attribution)
                                     (Some approver) (at_Agent attribution) in
                at_ ← now;
                nextAttempt policy job at_ (fun job => withinWindow policy job at_ attribution)
          end
    end.

(** ** Startup *)

Definition settleRecovered (job : ScheduledJob) (current : Run) (at_ : Time) : R Outcome :=
  let ends to reason := transition (sj_JobID job) "running" to reason (sj_PlanID job) (sj_RunID job) in
  if r_Status current == "succeeded" then ends "succeeded" "restart-verified"
  else if bool_decide (r_Status current ∈ ["failed"; "interrupted"; "cancelled"]) && allNotStarted current then
    p ← query (fun env => GetActivePolicy env 0 (sj_PolicyID job));
    match p with
    | Err err => mret (job, Some err)
    | Ok policy =>
        c ← query (fun env => ScheduledOccurrenceWindowClosesAt env (sj_JobID job));
        let again := match c with
          | Ok windowCloses => (sj_Attempt job <? sp_MaxAttempts policy)
                               && Before (Add at_ (Backoff policy (sj_Attempt job))) windowCloses
          | Err _ => false
          end in
        if (again : bool) then ends "retry-wait" "restart-before-effect" else ends "failed" "restart-retry-exhausted"
    end
  else ends "uncertain" "restart-effect-unknown".

(** One job of the startup: the error, if there is one. *)
Definition recoverJob (job : ScheduledJob) (at_ : Time) : R (option error) :=
  if sj_Status job == "running" then
    match sj_RunID job with
    | None => out ← transition (sj_JobID job) "running" "uncertain" "restart-after-intent" (sj_PlanID job) (sj_RunID job);
              mret out.2
    | Some id =>
        r ← ask (fun n => ss_run n id);
        match r with
        | Err _ => out ← transition (sj_JobID job) "running" "uncertain" "restart-run-unavailable" (sj_PlanID job) (sj_RunID job);
                   mret out.2
        | Ok current => _ ← note (Recovered id current); out ← settleRecovered job current at_; mret out.2
        end
    end
  else out ← RunJob job (mkAttribution ss_principalID "local-os-peer" None None); mret out.2.

Fixpoint recoverJobs (jobs : list ScheduledJob) (at_ : Time) : R (option error) :=
  match jobs with
  | [] => mret None
  | job :: rest =>
      err ← recoverJob job at_;
      match err with Some err => mret (Some err) | None => recoverJobs rest at_ end
  end.

Definition StartupScheduler : R (option error) :=
  at_ ← now;
  err ← invoke id (CallReleaseExpired at_) (fun env => ReleaseExpiredOccurrenceLeases env at_);
  match err with
  | Some err => mret (Some err)
  | None =>
      l ← query ListRecoverableOccurrences;
      match l with Err err => mret (Some err) | Ok jobs => recoverJobs jobs at_ end
  end.

End Scheduler.
