(* ===== verification/ScheduleSafety.v ===== *)
(** Safety of the scheduler: a submission is guarded by everything an attempt must
    pass, a job is only retried when nothing of its run started, and no attempt is
    submitted twice, over any history of operations and whatever other clients of
    the repository do in between. *)

From S2P Require Import Prelude GoTime Hash GoJson Contracts AuditLog AuditStore Schedule.
From S2P Require Import ScheduleRepository ScheduleLifecycle ScheduleRunner.

(** ** A program logic *)

Section Logic.
Context `{Hasher} `{RunnerSurroundings}.

Definition triple {A} (P : RunnerWorld -> Prop) (m : R A) (Q : A -> RunnerWorld -> Prop) : Prop :=
  forall w, P w -> Q (m w).1 (m w).2.

Lemma sched_ret {A} (P : RunnerWorld -> Prop) (x : A) (Q : A -> RunnerWorld -> Prop) :
  (forall w, P w -> Q x w) -> triple P (mret x) Q.
Proof. intros HQ w HP. by apply HQ. Qed.

Lemma sched_bind {A B} P (m : R A) (f : A -> R B) (Q : A -> RunnerWorld -> Prop) S :
  triple P m Q -> (forall x, triple (Q x) (f x) S) -> triple P (m ≫= f) S.
Proof.
  intros Hm Hf w HP. unfold mbind, R_bind. specialize (Hm w HP). destruct (m w) as [x w'] eqn:E. cbn in Hm. by apply Hf.
Qed.

Lemma sched_conseq {A} (P P' : RunnerWorld -> Prop) (m : R A) (Q Q' : A -> RunnerWorld -> Prop) :
  triple P' m Q' -> (forall w, P w -> P' w) -> (forall x w, Q' x w -> Q x w) -> triple P m Q.
Proof. intros Hm HP HQ w Hw. by apply HQ, Hm, HP. Qed.

(** ** Traces whose events are justified by the events before them *)

Definition isOwn (event : RunnerEvent) : bool := match event with OtherCall _ _ => false | _ => true end.

(** The events of the scheduler itself. *)
Definition owned (trace : list RunnerEvent) : list RunnerEvent := List.filter isOwn trace.

Variable J : list RunnerEvent -> RunnerEvent -> Prop.
Hypothesis J_other : forall trace env call, J trace (OtherCall env call).

Definition Justified (trace : list RunnerEvent) : Prop :=
  forall pre event post, trace = pre ++ event :: post -> J (owned pre) event.

Lemma Justified_nil : Justified [].
Proof. intros pre e post E. by destruct pre. Qed.

Lemma Justified_snoc trace event : Justified trace -> J (owned trace) event -> Justified (trace ++ [event]).
Proof.
  intros HJ He pre e post E. destruct post as [|x post] using rev_ind.
  - apply app_inj_tail in E as [<- <-]. done.
  - clear IHpost. rewrite app_comm_cons, app_assoc in E. apply app_inj_tail in E as [-> _]. by eapply HJ.
Qed.

Lemma owned_app t t' : owned (t ++ t') = owned t ++ owned t'.
Proof. apply List.filter_app. Qed.

Lemma Justified_others trace (others : list (ScheduleEnv * ScheduleCall)) : Justified trace ->
  Justified (trace ++ map (fun c => OtherCall c.1 c.2) others)
  /\ owned (trace ++ map (fun c => OtherCall c.1 c.2) others) = owned trace.
Proof.
  intros HJ. induction others as [|c others [IHj IHo]] using rev_ind; cbn; [by rewrite app_nil_r|].
  rewrite map_app, app_assoc. split; [by apply Justified_snoc; [|apply J_other]|]. rewrite owned_app, IHo. cbn.
  by rewrite app_nil_r.
Qed.

(** What the trace of the scheduler's own events shows, on a justified trace. *)
Definition At (T : list RunnerEvent -> Prop) (w : RunnerWorld) : Prop := Justified (rw_trace w) /\ T (owned (rw_trace w)).

Lemma at_interleaved T w : At T w -> At T (interleaved w).
Proof.
  intros [HJ HT]. unfold At, interleaved. cbn [rw_trace].
  destruct (Justified_others (rw_trace w) (ss_others (rw_tick w)) HJ) as [? ->]. done.
Qed.

Lemma at_ask {A} T (oracle : nat -> A) : triple (At T) (ask oracle) (fun _ => At T).
Proof. by intros w Hw. Qed.

Lemma at_now T : triple (At T) now (fun _ => At T).
Proof. by intros w Hw. Qed.

Lemma at_query {A} T (method : ScheduleEnv -> ScheduleDb -> A) : triple (At T) (query method) (fun _ => At T).
Proof. intros w Hw. exact (at_interleaved T w Hw). Qed.

Lemma at_note (T T' : list RunnerEvent -> Prop) event : isOwn event = true ->
  (forall trace, T trace -> J trace event /\ T' (trace ++ [event])) -> triple (At T) (note event) (fun _ => At T').
Proof.
  intros Ho HT w [HJ Hw]. destruct (HT _ Hw) as [He Hw']. split; cbn [rw_trace note snd].
  - by apply Justified_snoc.
  - rewrite owned_app. cbn. by rewrite Ho.
Qed.

Lemma at_invoke {A} (T : list RunnerEvent -> Prop) (T' : A -> list RunnerEvent -> Prop) report call method :
  (forall trace env x, T trace -> J trace (OwnCall env call (report x)) /\ T' x (trace ++ [OwnCall env call (report x)])) ->
  triple (At T) (invoke report call method) (fun x => At (T' x)).
Proof.
  intros HT w Hw. apply at_interleaved in Hw as [HJ Hw]. unfold invoke. cbv zeta.
  destruct (method _ _) as [x db] eqn:E. cbn [fst snd].
  destruct (HT _ (ss_env (rw_tick (interleaved w))) x Hw) as [He Hw']. split; cbn [rw_trace].
  - by apply Justified_snoc.
  - by rewrite owned_app.
Qed.

Lemma at_weaken {A} (T T' : list RunnerEvent -> Prop) (m : R A) Q :
  triple (At T') m Q -> (forall trace, T trace -> T' trace) -> triple (At T) m Q.
Proof. intros Hm HT. apply (sched_conseq _ (At T') _ _ Q Hm); [|done]. intros w [HJ Hw]. split; [done|by apply HT]. Qed.

End Logic.

(** ** The justification of a submission and of a retry *)

Section Guards.
Context `{Hasher} `{RunnerSurroundings}.

(** What must have happened before a plan is submitted: the prerequisites of a
    policy were all current, the decision was made for this plan and covers the
    policy, the attempt was recorded under the submit key, with this plan and its
    run, and just before the job was moved to running for them. *)
Definition guarded (before : list RunnerEvent) (plan : Plan) (decision : AuthorizationDecision) (submitKey : string) : Prop :=
  exists policy statuses at_ principal jobID attempt from,
    let run := runID (p_PlanID plan) submitKey in
    submitKey = attemptID jobID attempt
    /\ Prerequisites policy statuses at_ ∈ before /\ RequireCurrent (Requirements policy) statuses at_ = None
    /\ Authorized principal plan decision ∈ before /\ authorizes policy decision = true
    /\ (exists env, OwnCall env (CallAttempt (mkScheduledAttempt "" jobID attempt "running" (p_PlanID plan) run false at_)) None
                      ∈ before)
    /\ exists env, last before = Some (OwnCall env (CallTransition jobID from "running" "attempt-started" (Some (p_PlanID plan))
                                                      (Some run)) None).

(** What must have happened just before a job is sent back to wait for a retry:
    its run came back, or was found again at startup, with no step started. *)
Definition retried (before : list RunnerEvent) (run : option string) : Prop :=
  exists result, allNotStarted result = true
    /\ ((exists plan decision submitKey, last before = Some (Submitted plan decision submitKey result None)
           /\ run = Some (runID (p_PlanID plan) submitKey))
        \/ exists id, last before = Some (Recovered id result) /\ run = Some id).

Definition justified (before : list RunnerEvent) (event : RunnerEvent) : Prop :=
  match event with
  | Submitted plan decision submitKey _ _ => guarded before plan decision submitKey
  | OwnCall _ (CallTransition _ from to _ _ run) _ => from = "running" -> to = "retry-wait" -> retried before run
  | _ => True
  end.

Lemma justified_other trace env call : justified trace (OtherCall env call).
Proof. done. Qed.

Notation At := (At justified).

(** Nothing in particular is known. *)
Notation Any := (fun _ : list RunnerEvent => True).

Lemma at_any {A} T (m : R A) : triple (At Any) m (fun _ => At Any) -> triple (At T) m (fun _ => At Any).
Proof. intros Hm. by apply (at_weaken _ T Any). Qed.

Lemma at_transition T jobID from to reason planID run :
  (from = "running" -> to = "retry-wait" -> forall trace, T trace -> retried trace run) ->
  triple (At T) (transition jobID from to reason planID run)
    (fun out => At (fun trace => T (removelast trace) /\
       (out.2 = None -> exists env, last trace = Some (OwnCall env (CallTransition jobID from to reason planID run) None)))).
Proof.
  intros Hr. unfold transition. eapply sched_bind.
  - apply (at_invoke justified justified_other T
      (fun r trace => T (removelast trace) /\ exists env,
         last trace = Some (OwnCall env (CallTransition jobID from to reason planID run) (failure r)))).
    intros trace env x HT. split; [intros ??; by apply Hr|]. rewrite removelast_last. split; [done|]. exists env. apply last_snoc.
  - intros r. apply sched_ret. intros w [HJ [HT [env Hl]]]. split; [done|]. split; [done|]. intros Hn.
    exists env. rewrite Hl. by destruct r.
Qed.

Lemma at_move T jobID from to reason planID run : (from = "running" -> to = "retry-wait" -> False) ->
  triple (At T) (transition jobID from to reason planID run) (fun _ => At Any).
Proof.
  intros Hr. eapply sched_conseq; [by apply (at_transition T); intros ??; exfalso; auto|done|]. by intros x w [? _].
Qed.

Lemma at_block T job reason : triple (At T) (block job reason) (fun _ => At Any).
Proof. unfold block. destruct (_ == _); by apply at_move. Qed.

Lemma at_conclude policy job at_ windowCloses plan decision submitKey run err :
  triple (At (fun trace => last trace = Some (Submitted plan decision submitKey run err)))
    (concludeAttempt policy job at_ windowCloses (p_PlanID plan) (runID (p_PlanID plan) submitKey) run err) (fun _ => At Any).
Proof.
  unfold concludeAttempt. destruct (_ || _ || _) eqn:He; [by apply at_move|]. destruct (r_Status run == "succeeded"); [by apply at_move|].
  destruct ((r_Status run == "failed") && allNotStarted run) eqn:Hn; [|by apply at_move].
  destruct ((_ <? _) && _); [|by apply at_move].
  bool_hyps. subst err. eapply sched_conseq; [apply at_transition|intros w Hw; exact Hw|by intros x w [? _]].
  intros _ _ trace Hl. exists run. split; [done|]. left. by exists plan, decision, submitKey.
Qed.

(** The knowledge under which an attempt is started. *)
Definition prepared (policy : ScheduledJobPolicy) (at_ : Time) (plan : Plan) (decision : AuthorizationDecision)
    (trace : list RunnerEvent) : Prop :=
  (exists statuses, Prerequisites policy statuses at_ ∈ trace /\ RequireCurrent (Requirements policy) statuses at_ = None)
  /\ (exists principal, Authorized principal plan decision ∈ trace) /\ authorizes policy decision = true.

Lemma at_start policy job at_ windowCloses plan decision attribution :
  triple (At (prepared policy at_ plan decision)) (startAttempt policy job at_ windowCloses plan decision attribution)
    (fun _ => At Any).
Proof.
  unfold startAttempt. cbv zeta. set (key := attemptID _ _). set (run := runID _ _). set (call := CallAttempt _).
  eapply sched_bind.
  { apply (at_invoke justified justified_other (prepared policy at_ plan decision)
      (fun err trace => err = None -> prepared policy at_ plan decision trace /\ exists env, OwnCall env call None ∈ trace)).
    intros trace env x ((st & Hs & Hr) & (p & Hp) & Ha). split; [done|]. intros ->. split.
    - split_and!; [|exists p; apply elem_of_app; by left|done]. exists st. split; [apply elem_of_app; by left|done].
    - exists env. apply elem_of_app. right. apply elem_of_cons. by left. }
  intros [err|]; [by apply sched_ret; intros w [? _]|].
  eapply sched_bind.
  { apply at_transition. intros Hf Ht. discriminate Ht. }
  intros out. destruct out as [job' [err|]]; cbn [snd]; [by apply sched_ret; intros w [? _]|].
  eapply sched_bind; [apply at_ask|]. intros [result submitErr]. cbn [fst snd]. eapply sched_bind.
  { apply (at_note justified _ (fun trace => last trace = Some (Submitted plan decision key result submitErr))); [done|].
    intros trace [HT Hlast]. split; [|apply last_snoc]. destruct (Hlast eq_refl) as [env Hl]. destruct (HT eq_refl) as [((st & Hs & Hr) & (p & Hp) & Ha) (env0 & Hc)].
    assert (Hin : forall e, e ∈ removelast trace -> e ∈ trace).
    { intros e He. destruct trace as [|x trace] using rev_ind; [done|]. rewrite removelast_last in He. apply elem_of_app. by left. }
    exists policy, st, at_, p, (sj_JobID job), (sj_Attempt job), (sj_Status job). cbv zeta. fold key run.
    split_and!; [done|by apply Hin|done|by apply Hin|done|exists env0; by apply Hin|by exists env]. }
  intros ?. apply at_conclude.
Qed.

Lemma at_underLease policy job at_ scheduledAt windowCloses revision attribution :
  triple (At Any) (underLease policy job at_ scheduledAt windowCloses revision attribution) (fun _ => At Any).
Proof.
  unfold underLease. cbv zeta. eapply sched_bind; [apply at_ask|]. intros [statuses|]; [|apply at_block].
  eapply sched_bind.
  { apply (at_note justified Any (fun trace => Prerequisites policy statuses at_ ∈ trace)); [done|].
    intros trace _. split; [done|]. apply elem_of_app. right. apply elem_of_cons. by left. }
  intros ?. destruct (bool_decide (is_Some _)) eqn:Hr; [apply at_block|]. bool_hyps. apply eq_None_not_Some in Hr.
  eapply sched_bind; [apply at_ask|]. intros [observation|]; [|apply at_block]. destruct (observation == ""); [apply at_block|].
  destruct (CanonicalPolicy policy) as [[canonical policyDigest]|]; [|apply at_block].
  eapply sched_bind; [apply (at_query justified justified_other)|]. intros [occurrenceDigest|]; [|apply at_block].
  eapply sched_bind; [apply at_ask|]. intros [plan|]; [|apply at_block].
  eapply sched_bind; [apply at_ask|]. intros [decision|]; [|apply at_block]. cbv beta iota.
  eapply sched_bind.
  { apply (at_note justified _ (fun trace => (exists statuses, Prerequisites policy statuses at_ ∈ trace
        /\ RequireCurrent (Requirements policy) statuses at_ = None)
      /\ exists principal, Authorized principal plan decision ∈ trace)); [done|].
    intros trace HT. split; [done|]. split.
    - exists statuses. split; [apply elem_of_app; by left|done].
    - exists (at_PrincipalID attribution). apply elem_of_app. right. apply elem_of_cons. by left. }
  intros ?. destruct (authorizes policy decision) eqn:Ha; cbn [negb]; [|apply at_block].
  apply (at_weaken justified _ (prepared policy at_ plan decision)); [apply at_start|]. intros trace [Hs Hp]. by split_and!.
Qed.

(** One step through a program about whose calls nothing needs to be known. *)
#[local] Ltac walk_step :=
  lazymatch goal with
  | |- triple _ (block _ _) _ => apply at_block
  | |- triple _ (transition _ _ _ _ _ _) _ => apply at_move; congruence
  | |- triple _ (if ?b then _ else _) _ => destruct b eqn:?
  | |- triple _ (match ?x with _ => _ end) _ => destruct x
  | |- triple _ (now ≫= _) _ => eapply sched_bind; [apply at_now|intros ?]
  | |- triple _ (query _ ≫= _) _ => eapply sched_bind; [apply (at_query justified justified_other)|intros ?]
  | |- triple _ (mret _) _ => apply sched_ret; by intros
  end.
#[local] Ltac walk := repeat (cbv beta; walk_step).

Lemma at_withLease policy job at_ scheduledAt windowCloses revision attribution :
  triple (At Any) (withLease policy job at_ scheduledAt windowCloses revision attribution) (fun _ => At Any).
Proof.
  unfold withLease. cbv zeta. eapply sched_bind; [by apply (at_invoke justified justified_other Any (fun _ => Any))|].
  intros [err|]; [apply at_block|]. eapply sched_bind; [apply at_underLease|]. intros outcome.
  eapply sched_bind; [by apply (at_invoke justified justified_other Any (fun _ => Any))|]. intros ?. apply sched_ret. by intros.
Qed.

Lemma at_withinWindow policy job at_ attribution :
  triple (At Any) (withinWindow policy job at_ attribution) (fun _ => At Any).
Proof. unfold withinWindow. walk. apply at_withLease. Qed.

Lemma at_run job attribution : triple (At Any) (RunJob job attribution) (fun _ => At Any).
Proof. unfold RunJob, nextAttempt. walk; apply at_withinWindow. Qed.

Lemma at_settleRecovered job current at_ id : sj_RunID job = Some id ->
  triple (At (fun trace => last trace = Some (Recovered id current))) (settleRecovered job current at_) (fun _ => At Any).
Proof.
  intros Hid. unfold settleRecovered. destruct (r_Status current == "succeeded"); [by apply at_move|].
  destruct (bool_decide (r_Status current ∈ _) && allNotStarted current) eqn:Hn; [|by apply at_move].
  eapply sched_bind; [apply (at_query justified justified_other)|]. intros [policy|err]; [|apply sched_ret; by intros w [? _]].
  eapply sched_bind; [apply (at_query justified justified_other)|]. intros c. cbv zeta.
  destruct (match c with Ok _ => _ | Err _ => _ end); [|by apply at_move]. bool_hyps.
  eapply sched_conseq; [apply at_transition|intros w Hw; exact Hw|by intros x w [? _]].
  intros _ _ trace Hl. exists current. split; [done|]. right. exists id. by rewrite Hid.
Qed.

Lemma at_recoverJob job at_ : triple (At Any) (recoverJob job at_) (fun _ => At Any).
Proof.
  unfold recoverJob. destruct (_ == _).
  - destruct (sj_RunID job) as [id|] eqn:Hid.
    + eapply sched_bind; [apply at_ask|]. intros [current|err].
      * eapply sched_bind; [apply (at_note justified Any (fun trace => last trace = Some (Recovered id current))); [done|]|].
        { intros trace _. split; [done|apply last_snoc]. }
        intros ?. eapply sched_bind; [by apply at_settleRecovered|]. intros out. apply sched_ret. by intros.
      * eapply sched_bind; [by apply at_move|]. intros out. apply sched_ret. by intros.
    + eapply sched_bind; [by apply at_move|]. intros out. apply sched_ret. by intros.
  - eapply sched_bind; [apply at_run|]. intros out. apply sched_ret. by intros.
Qed.

Lemma at_recoverJobs jobs at_ : triple (At Any) (recoverJobs jobs at_) (fun _ => At Any).
Proof.
  induction jobs as [|job jobs IH]; cbn [recoverJobs]; [apply sched_ret; by intros|].
  eapply sched_bind; [apply at_recoverJob|]. intros [err|]; [apply sched_ret; by intros|exact IH].
Qed.

Lemma at_startup : triple (At Any) StartupScheduler (fun _ => At Any).
Proof.
  unfold StartupScheduler. eapply sched_bind; [apply at_now|]. intros at_.
  eapply sched_bind; [by apply (at_invoke justified justified_other Any (fun _ => Any))|]. intros [err|]; [apply sched_ret; by intros|].
  eapply sched_bind; [apply (at_query justified justified_other)|]. intros [jobs|]; [apply at_recoverJobs|apply sched_ret; by intros].
Qed.

Lemma at_dispatch request : triple (At Any) (Dispatch request) (fun _ => At Any).
Proof.
  unfold Dispatch. walk. unfold claimSlot.
  eapply sched_bind; [by apply (at_invoke justified justified_other Any (fun _ => Any))|]. intros [job|err]; walk.
Qed.

Lemma at_cancel jobID : triple (At Any) (CancelJob jobID) (fun _ => At Any).
Proof.
  unfold CancelJob. walk.
Qed.

End Guards.

(** ** Histories *)

Section Histories.
Context `{Hasher} `{RunnerSurroundings}.

Inductive SchedulerOperation :=
| OpRun (job : ScheduledJob) (attribution : Attribution)
| OpDispatch (request : DispatchRequest)
| OpCancel (jobID : string)
| OpStartup.

Definition operate (operation : SchedulerOperation) (w : RunnerWorld) : RunnerWorld :=
  match operation with
  | OpRun job attribution => (RunJob job attribution w).2
  | OpDispatch request => (Dispatch request w).2
  | OpCancel jobID => (CancelJob jobID w).2
  | OpStartup => (StartupScheduler w).2
  end.

(** What a sequence of operations leaves behind, from a database on. *)
Definition history (operations : list SchedulerOperation) (db : ScheduleDb) : RunnerWorld :=
  fold_left (fun w operation => operate operation w) operations (mkRunnerWorld db 0 []).

Lemma schedule_history_snoc operations operation db : history (operations ++ [operation]) db = operate operation (history operations db).
Proof. unfold history. by rewrite fold_left_app. Qed.

Lemma history_justified operations db : Justified justified (rw_trace (history operations db)).
Proof.
  induction operations as [|operation operations IH] using rev_ind; [apply Justified_nil|]. rewrite schedule_history_snoc.
  destruct operation as [job attribution|request|jobID|]; cbn [operate].
  - by apply (at_run job attribution _ (conj IH I)).
  - by apply (at_dispatch request _ (conj IH I)).
  - by apply (at_cancel jobID _ (conj IH I)).
  - by apply (at_startup _ (conj IH I)).
Qed.

(** C10: in every history of the scheduler, whatever its surroundings answer and
    whatever other clients of the repository do in between, a plan is only
    submitted when the prerequisites of a policy were all current, a decision for
    exactly this plan covered the policy, the attempt was recorded under the submit
    key, and the job was just moved to running for this plan and this run. *)
Theorem submission_guarded operations db before plan decision submitKey run err after :
  rw_trace (history operations db) = before ++ Submitted plan decision submitKey run err :: after ->
  guarded (owned before) plan decision submitKey.
Proof. intros E. exact (history_justified operations db _ _ _ E). Qed.

(** C36: in every such history a job is only sent back to wait for a retry directly
    after its run came back, or was found again at startup, with no step started:
    an attempt whose effect may have begun is never repeated. *)
Theorem retry_only_before_effect operations db before env jobID reason planID run err after :
  rw_trace (history operations db)
    = before ++ OwnCall env (CallTransition jobID "running" "retry-wait" reason planID run) err :: after ->
  retried (owned before) run.
Proof. intros E. by apply (history_justified operations db _ _ _ E). Qed.

End Histories.

(** ** Every attempt is submitted at most once *)

Section Once.
Context `{Hasher} `{RunnerSurroundings}.
Variable key : string.

Definition isSubmission (event : RunnerEvent) : bool :=
  match event with Submitted _ _ submitKey _ _ => submitKey == key | _ => false end.

Definition submissions (trace : list RunnerEvent) : nat := length (List.filter isSubmission trace).

(** The attempt of the key is in the attempt table. *)
Definition recorded (db : ScheduleDb) : Prop := exists a, a ∈ sd_attempts db /\ aw_AttemptID a = key.

Lemma submissions_snoc trace event :
  submissions (trace ++ [event]) = (submissions trace + (if isSubmission event then 1 else 0))%nat.
Proof. unfold submissions. rewrite List.filter_app, length_app. cbn. by destruct (isSubmission event). Qed.

Lemma submissions_others trace (others : list (ScheduleEnv * ScheduleCall)) :
  submissions (trace ++ map (fun c => OtherCall c.1 c.2) others) = submissions trace.
Proof.
  induction others as [|c others IH] using rev_ind; cbn; [by rewrite app_nil_r|].
  rewrite map_app, app_assoc. cbn [map]. rewrite submissions_snoc, IH. cbn. lia.
Qed.

Lemma recorded_perform env call db : recorded db -> recorded (perform env call db).
Proof.
  intros (a & Ha & Hk). exists a. split; [|done].
  destruct (perform_effects env call db) as [? ? ? ->|? ? ? ? ? ? ? ? ? ? ->|? ? ? ? ? ? ? ? ? ->|? ? -> ? ? ? ? ?]; try done.
  apply elem_of_app. by left.
Qed.

Lemma recorded_performAll calls db : recorded db -> recorded (performAll calls db).
Proof. revert db. induction calls as [|c calls IH]; intros db Hr; [done|]. by apply IH, recorded_perform. Qed.

(** At most one submission, and none before the attempt is recorded. *)
Definition once (w : RunnerWorld) : Prop :=
  (submissions (rw_trace w) <= 1)%nat /\ (submissions (rw_trace w) <> 0%nat -> recorded (rw_db w)).

(** The attempt is recorded but not yet submitted. *)
Definition pending (w : RunnerWorld) : Prop := submissions (rw_trace w) = 0%nat /\ recorded (rw_db w).

Lemma once_interleaved w : once w -> once (interleaved w).
Proof.
  intros [H1 H2]. unfold once, interleaved. cbn [rw_trace rw_db]. rewrite submissions_others. split; [done|].
  intros Hs. by apply recorded_performAll, H2.
Qed.

Lemma pending_interleaved w : pending w -> pending (interleaved w).
Proof.
  intros [H1 H2]. unfold pending, interleaved. cbn [rw_trace rw_db]. rewrite submissions_others. split; [done|].
  by apply recorded_performAll.
Qed.

Lemma once_query {A} (method : ScheduleEnv -> ScheduleDb -> A) : triple once (query method) (fun _ => once).
Proof. intros w Hw. exact (once_interleaved w Hw). Qed.

Lemma once_ask {A} (oracle : nat -> A) : triple once (ask oracle) (fun _ => once).
Proof. by intros w Hw. Qed.

Lemma once_now : triple once now (fun _ => once).
Proof. by intros w Hw. Qed.

Lemma once_note event : isSubmission event = false -> triple once (note event) (fun _ => once).
Proof.
  intros He w [H1 H2]. unfold once, note. cbn [snd rw_trace rw_db]. rewrite submissions_snoc, He, Nat.add_0_r. done.
Qed.

Lemma once_invoke {A} report call (method : ScheduleEnv -> ScheduleDb -> A * ScheduleDb) :
  (forall env db, (method env db).2 = perform env call db) -> triple once (invoke report call method) (fun _ => once).
Proof.
  intros Hm w Hw. apply once_interleaved in Hw as [H1 H2]. unfold once, invoke. cbn [fst snd rw_trace rw_db].
  rewrite submissions_snoc, Hm. cbn [isSubmission]. rewrite Nat.add_0_r. split; [done|]. intros Hs. by apply recorded_perform, H2.
Qed.

Lemma once_transition jobID from to reason planID run :
  triple once (transition jobID from to reason planID run) (fun _ => once).
Proof. eapply sched_bind; [by apply once_invoke|]. intros r. by apply sched_ret. Qed.

Lemma pending_transition jobID from to reason planID run :
  triple pending (transition jobID from to reason planID run) (fun _ => pending).
Proof.
  apply (sched_bind _ _ _ (fun _ => pending)); [|intros r; by apply sched_ret]. intros w Hw. apply pending_interleaved in Hw as [H1 H2].
  unfold pending, invoke. cbn [fst snd rw_trace rw_db]. rewrite submissions_snoc, H1. split; [done|].
  by apply (recorded_perform _ (CallTransition jobID from to reason planID run)).
Qed.

Lemma pending_once w : pending w -> once w.
Proof. intros [H1 H2]. split; [lia|done]. Qed.

(** Recording an attempt succeeds only when its identifier is new. *)
Lemma AppendScheduledAttempt_new env jobID attempt status planID run started at_ db db' :
  AppendScheduledAttempt env jobID attempt status planID run started at_ db = (None, db') ->
  (exists a, a ∈ sd_attempts db' /\ aw_AttemptID a = attemptID jobID attempt)
  /\ forall a, a ∈ sd_attempts db -> aw_AttemptID a <> attemptID jobID attempt.
Proof.
  unfold AppendScheduledAttempt, AppendAttempt. cbn. destruct (_ || _); [done|]. unfold inTx.
  destruct (se_ready env); [done|]. destruct (se_begin env); [done|]. unfold statement. destruct (se_statement env 0); [done|].
  destruct (attemptConflict _ _) eqn:Hc; [done|]. destruct (se_commit env) as [[]|]; [done|]. intros [= <-]. cbn. split.
  - eexists. split; [apply elem_of_app; right; apply elem_of_cons; by left|done].
  - intros a Ha He. unfold attemptConflict in Hc. bool_hyps.
    match goal with Hx : existsb _ _ = false |- _ => apply not_true_iff_false in Hx; apply Hx end.
    apply existsb_exists. exists a. split; [by apply list_elem_of_In|]. cbn. by rewrite He, bool_decide_refl.
Qed.

Lemma once_conclude policy job at_ windowCloses planID runID run err :
  triple once (concludeAttempt policy job at_ windowCloses planID runID run err) (fun _ => once).
Proof. unfold concludeAttempt. repeat (match goal with |- context [if ?b then _ else _] => destruct b end; try apply once_transition). Qed.

Lemma once_start policy job at_ windowCloses plan decision attribution :
  triple once (startAttempt policy job at_ windowCloses plan decision attribution) (fun _ => once).
Proof.
  unfold startAttempt. cbv zeta. set (submitKey := attemptID _ _). set (run := runID _ _).
  apply (sched_bind once _ _ (fun err w => once w /\ (err = None -> submitKey = key -> pending w))).
  { intros w Hw. pose proof (once_invoke id (CallAttempt (mkScheduledAttempt "" (sj_JobID job) (sj_Attempt job) "running"
      (p_PlanID plan) run false at_)) (fun env => AppendScheduledAttempt env (sj_JobID job) (sj_Attempt job) "running"
        (p_PlanID plan) run false at_) (fun _ _ => eq_refl) w Hw) as Ho.
    split; [exact Ho|]. revert Ho. unfold invoke. cbv zeta. apply once_interleaved in Hw as [_ Hw].
    destruct (AppendScheduledAttempt _ _ _ _ _ _ _ _ _) as [err db'] eqn:E. cbn [fst snd]. intros _ -> Hk.
    apply AppendScheduledAttempt_new in E as [(a & Ha & Hid) Hnew]. unfold pending. cbn [rw_trace rw_db]. rewrite submissions_snoc.
    cbn [isSubmission]. rewrite Nat.add_0_r. split; [|exists a; split; [done|]; by rewrite Hid, <- Hk].
    destruct (Nat.eq_dec (submissions (rw_trace (interleaved w))) 0%nat) as [|Hn]; [done|]. destruct (Hw Hn) as (b & Hb & Hbk).
    exfalso. apply (Hnew b Hb). by rewrite Hbk, <- Hk. }
  intros [err|]; [apply sched_ret; by intros w [? _]|].
  apply (sched_bind _ _ _ (fun _ w => once w /\ (submitKey = key -> pending w))).
  { intros w [Ho Hp]. split; [by apply once_transition|]. intros Hk. by apply pending_transition, Hp. }
  intros [job' [err|]]; cbn [snd]; [apply sched_ret; by intros w [? _]|].
  apply (sched_bind _ _ _ (fun _ w => once w /\ (submitKey = key -> pending w))); [by intros w Hw|]. intros [result submitErr]. cbn [fst snd].
  eapply sched_bind; [|intros ?; apply once_conclude].
  intros w [Ho Hp]. unfold once, note. cbn [snd rw_trace rw_db]. rewrite submissions_snoc. cbn [isSubmission].
  destruct (bool_decide (submitKey = key)) eqn:Hk; bool_hyps.
  - destruct (Hp Hk) as [H1 H2]. cbn in H1, H2. rewrite H1. split; [lia|done].
  - rewrite Nat.add_0_r. exact Ho.
Qed.

#[local] Ltac once_step :=
  lazymatch goal with
  | |- triple _ (transition _ _ _ _ _ _) _ => apply once_transition
  | |- triple _ (if ?b then _ else _) _ => destruct b
  | |- triple _ (match ?x with _ => _ end) _ => destruct x
  | |- triple _ (now ≫= _) _ => eapply sched_bind; [apply once_now|intros ?]
  | |- triple _ (ask _ ≫= _) _ => eapply sched_bind; [apply once_ask|intros ?]
  | |- triple _ (query _ ≫= _) _ => eapply sched_bind; [apply once_query|intros ?]
  | |- triple _ (note _ ≫= _) _ => eapply sched_bind; [by apply once_note|intros ?]
  | |- triple _ (invoke _ _ _ ≫= _) _ => eapply sched_bind; [by apply once_invoke|intros ?]
  | |- triple _ (transition _ _ _ _ _ _ ≫= _) _ => eapply sched_bind; [apply once_transition|intros ?]
  | |- triple _ (mret _) _ => apply sched_ret; by intros
  end.
#[local] Ltac once_walk := repeat (cbv beta zeta; once_step).

Lemma once_block job reason : triple once (block job reason) (fun _ => once).
Proof. unfold block. once_walk. Qed.

Lemma once_underLease policy job at_ scheduledAt windowCloses revision attribution :
  triple once (underLease policy job at_ scheduledAt windowCloses revision attribution) (fun _ => once).
Proof. unfold underLease. once_walk; try apply once_block. apply once_start. Qed.

Lemma once_withLease policy job at_ scheduledAt windowCloses revision attribution :
  triple once (withLease policy job at_ scheduledAt windowCloses revision attribution) (fun _ => once).
Proof.
  unfold withLease. once_walk; [apply once_block|]. eapply sched_bind; [apply once_underLease|intros ?]. once_walk.
Qed.

Lemma once_run job attribution : triple once (RunJob job attribution) (fun _ => once).
Proof.
  unfold RunJob, nextAttempt, withinWindow. once_walk; try apply once_block; apply once_withLease.
Qed.

Lemma once_recoverJobs jobs at_ : triple once (recoverJobs jobs at_) (fun _ => once).
Proof.
  induction jobs as [|job jobs IH]; cbn [recoverJobs]; [apply sched_ret; by intros|].
  eapply (sched_bind _ _ _ (fun _ => once)); [|intros [err|]; [apply sched_ret; by intros|exact IH]].
  unfold recoverJob, settleRecovered. once_walk.
  - eapply (sched_bind _ _ _ (fun _ => once)); [once_walk|intros ?; once_walk].
  - eapply sched_bind; [apply once_run|intros ?; once_walk].
Qed.

Lemma once_operate operation w : once w -> once (operate operation w).
Proof.
  destruct operation as [job attribution|request|jobID|]; cbn [operate].
  - apply once_run.
  - revert w. change (triple once (Dispatch request) (fun _ => once)). unfold Dispatch, claimSlot. once_walk.
  - revert w. change (triple once (CancelJob jobID) (fun _ => once)). unfold CancelJob. once_walk.
  - revert w. change (triple once StartupScheduler (fun _ => once)). unfold StartupScheduler. once_walk. apply once_recoverJobs.
Qed.

(** C11: over any history of the scheduler, with any failures, restarts and calls of
    other clients in between, and also when a slot is claimed again, every submit
    key, that is every attempt of every job, is submitted at most once. *)
Theorem attempt_submitted_at_most_once operations db :
  (submissions (rw_trace (history operations db)) <= 1)%nat.
Proof.
  assert (Hall : once (history operations db)); [|apply Hall].
  induction operations as [|operation operations IH] using rev_ind; [by split; cbn; [lia|]|].
  rewrite schedule_history_snoc. by apply once_operate.
Qed.

End Once.
