(* ===== verification/ScheduleWitnesses.v ===== *)
(** The scheduler at work on one policy: the histories at which the theorems about
    it are applied, a cancelled occurrence that is executed after all, and an
    attempt cut short before its job was running, which startup cannot get past. *)

From S2P Require Import Prelude GoTime Hash GoJson Contracts AuditLog AuditStore Schedule.
From S2P Require Import ScheduleRepository ScheduleLifecycle ScheduleRunner ScheduleSafety.

#[local] Existing Instance Checksum.

Definition theDraft : DraftRow := mkDraftRow "policy-1" 1 (samplePolicy 60 600) sampleDigest "alice" 2 0 "2024-01-01T00:00:00Z".
Definition theActivation : ActivationRow :=
  mkActivationRow "activation-1" "draft-1" "policy-1" 1 "active" "plan-0" "sha256:aa" "ack-1" "alice" 3 0 "2024-01-01T00:00:00Z".

(** A store with one active policy and no occurrence yet. *)
Definition activeDb : ScheduleDb := mkScheduleDb (mkRevision 3 0) {["draft-1" := theDraft]} [theActivation] ∅ [] [] ∅.

Definition theRun (status effect : string) : Run :=
  mkRun "run-1" "plan-1" "sha256:aa" "decision-1" None "1.0.0" "central" "executor-1" "sha256:bb" status
    [mkRunStep 1 "op-1" "schedule.gate.check" "core.schedule-observe" "executor-1" "target-1" "sha256:cc" "sha256:cc" true
       "step-1" "failed" effect]
    false "not-requested" "pending" None false 3 0 "2024-01-01T05:02:00Z" "2024-01-01T05:02:00Z" [].

Definition thePlan : Plan :=
  mkPlan "plan-1" "sha256:aa" "declaration-1" (mkPlanBinding 0 3 3 1 "sha256:dd" "sha256:ee" "sha256:ff" "1.0.0" "1.0.0" "1.0.0")
    [] "planned" "routine" "preauthorized" "central" None "2024-01-01T05:02:00Z" "2024-01-01T05:32:00Z"
    None None None None None None None None None [].
Definition theDecision : AuthorizationDecision :=
  mkAuthorizationDecision "decision-1" "runner" "execute" "target-1" true (Some "preauthorized") "allowed" 1 0 "sha256:aa"
    "2024-01-01T05:02:00Z".

(** Everything works, and each run fails before its step starts. *)
#[local] Instance theSurroundings : RunnerSurroundings := {|
  ss_clock _ := parseTime "2024-01-01T05:02:00Z";
  ss_env _ := calmEnv "2024-01-01T05:02:00Z";
  ss_others _ := [];
  ss_plan _ _ := Ok thePlan;
  ss_authorize _ _ _ := Ok theDecision;
  ss_submit _ _ _ _ _ := (theRun "failed" "not-started", None);
  ss_run _ _ := Ok (theRun "failed" "not-started");
  ss_fingerprint _ _ := Ok "sha256:dd";
  ss_current _ requirements :=
    Ok (map (fun r => mkStatus r "current" (parseTime "2024-01-01T05:01:00Z") (pr_RecoveryEpoch r)) requirements);
  ss_principalID := "runner"
|}.

Definition theTarget : string := match ExactTargetDigest (samplePolicy 60 600) with Ok digest => digest | Err _ => "" end.
Definition theRequest : DispatchRequest :=
  mkDispatchRequest "policy-1" "token" theTarget "key" 1 3 0 (parseTime "2024-01-01T05:02:00Z").
Definition theJob : ScheduledJob :=
  mkScheduledJob sampleJobID "policy-1" 1 "2024-01-01T05:00:00Z" 1 None None "queued" "due" 0.
Definition theActor : Attribution := mkAttribution "runner" "local-os-peer" None None.

Definition statusIn (id : string) (w : RunnerWorld) : option string := option_map js_status (jobsOf (rw_db w) !! id).

(** The occurrence of the slot is dispatched and run once: it waits for a retry. *)
Definition firstAttempt : RunnerWorld := history [OpDispatch theRequest; OpRun theJob theActor] activeDb.

Example firstAttempt_waits : statusIn sampleJobID firstAttempt = Some "retry-wait".
Proof. vm_compute. reflexivity. Qed.

(** Where the trace of the first attempt shows an event of a kind. *)
Definition isRetryCall (event : RunnerEvent) : bool :=
  match event with OwnCall _ (CallTransition _ _ to _ _ _) _ => to == "retry-wait" | _ => false end.

Fixpoint position (p : RunnerEvent -> bool) (trace : list RunnerEvent) : nat :=
  match trace with [] => 0 | event :: rest => if p event then 0 else S (position p rest) end.

Definition theKey : string := attemptID sampleJobID 1.
Definition beforeSubmission : list RunnerEvent := take (position (isSubmission theKey) (rw_trace firstAttempt)) (rw_trace firstAttempt).
Definition afterSubmission : list RunnerEvent := drop (S (position (isSubmission theKey) (rw_trace firstAttempt))) (rw_trace firstAttempt).

Lemma submission_guarded_witness : guarded (owned beforeSubmission) thePlan theDecision theKey.
Proof.
  apply (submission_guarded [OpDispatch theRequest; OpRun theJob theActor] activeDb beforeSubmission thePlan theDecision theKey
    (theRun "failed" "not-started") None afterSubmission).
  vm_compute. reflexivity.
Defined.

Definition beforeRetry : list RunnerEvent := take (position isRetryCall (rw_trace firstAttempt)) (rw_trace firstAttempt).
Definition afterRetry : list RunnerEvent := drop (S (position isRetryCall (rw_trace firstAttempt))) (rw_trace firstAttempt).

Lemma retry_only_before_effect_witness : retried (owned beforeRetry) (Some (runID "plan-1" theKey)).
Proof.
  apply (retry_only_before_effect [OpDispatch theRequest; OpRun theJob theActor] activeDb beforeRetry
    (calmEnv "2024-01-01T05:02:00Z") sampleJobID "failed-before-effect" (Some "plan-1") (Some (runID "plan-1" theKey)) None
    afterRetry).
  vm_compute. reflexivity.
Defined.

(** ** A cancelled occurrence that is executed *)

(** An occurrence that was dispatched and cancelled before it began is queued
    again by a second dispatch of the same slot, with the very same request, and
    the attempt that follows is submitted. *)
Theorem cancelled_occurrence_executed :
  statusIn sampleJobID (history [OpDispatch theRequest; OpCancel sampleJobID] activeDb) = Some "cancelled"
  /\ statusIn sampleJobID (history [OpDispatch theRequest; OpCancel sampleJobID; OpDispatch theRequest] activeDb) = Some "queued"
  /\ submissions theKey (rw_trace (history [OpDispatch theRequest; OpCancel sampleJobID; OpDispatch theRequest;
                                            OpRun theJob theActor] activeDb)) = 1%nat.
Proof. vm_compute. split_and!; reflexivity. Qed.

(** ** An attempt cut short *)

(** The process stopped after it had recorded the attempt and before the job was
    moved to running. *)
Definition cutShort : ScheduleDb :=
  performAll [(calmEnv "2024-01-01T05:01:00Z", CallClaim sampleClaim);
              (calmEnv "2024-01-01T05:01:00Z", CallAttempt (mkScheduledAttempt "" sampleJobID 1 "running" "plan-1"
                 (runID "plan-1" theKey) false (parseTime "2024-01-01T05:01:00Z")))] activeDb.

(** When a process stops between recording an attempt and moving its job to
    running, every later startup within the window of the occurrence makes the
    attempt again under the same number, fails on the unique constraint and
    returns the conflict, so that the jobs after this one are not taken up; the
    job stays queued. *)
Theorem cut_short_attempt_blocks_startup :
  (StartupScheduler (mkRunnerWorld cutShort 0 [])).1 = Some constraintError
  /\ statusIn sampleJobID (history [OpStartup] cutShort) = Some "queued"
  /\ (StartupScheduler (history [OpStartup] cutShort)).1 = Some constraintError.
Proof. vm_compute. split_and!; reflexivity. Qed.
