(* ===== verification/AckRepository.v ===== *)
(** The durable acknowledgements of [internal/store/acknowledgement_repository.go]:
    the request and the terminal proof of a human's decision on a plan, one
    definition per repository method, each mutation a business change of the
    audited writer of [AuditStore], and the life cycle every call refines.

    A column that holds canonical bytes holds the document itself: the encoder
    and [decodeExact] are inverse on the documents the schemas accept. The
    [CHECK] clauses on lengths and digests repeat those schemas; the keys, unique
    columns, foreign keys and the two triggers are modelled. Of the columns that
    repeat a field of the request those that a statement reads appear.

    Each method runs several transactions. What other callers do to the store
    between two of them is part of the environment of the call. *)

From S2P Require Import Prelude GoTime Hash GoJson Contracts AuditLog AuditStore ExecutorLease RunRepository RunHistory.

#[global] Instance AcknowledgementRequest_eq_dec : EqDecision AcknowledgementRequest.
Proof. solve_decision. Defined.
#[global] Instance Acknowledgement_eq_dec : EqDecision Acknowledgement.
Proof. solve_decision. Defined.

(** ** Records (acknowledgement/types.go) *)

Definition ExpiryPrincipalID := "policy.acknowledgement-expiry".
Definition ExpiryPrincipalMode := "internal-policy".

Record Stored := mkStored {
  sd_Request : AcknowledgementRequest;
  sd_Acknowledgement : Acknowledgement;
  sd_Consumed : bool
}.

Record CreateRecord := mkCreateRecord {
  cr_Request : AcknowledgementRequest;
  cr_Pending : Acknowledgement;
  cr_CreatedAt : Time;
  cr_Attribution : Attribution
}.

Record DecisionRecord := mkDecisionRecord {
  dn_Expected : AcknowledgementRequest;
  dn_Outcome : Acknowledgement;
  dn_DecidedAt : Time;
  dn_Attribution : Attribution
}.

Record DenialRecord := mkDenialRecord {
  dl_TargetKind : string;
  dl_TargetID : string;
  dl_CorrelationID : string;
  dl_AttemptDigest : string;
  dl_ReasonCode : string;
  dl_RejectedAt : Time;
  dl_Attribution : Attribution
}.

(** ** The tables *)

(** A row of [acknowledgement_requests], keyed by the acknowledgement *)
Record AckRow := mkAckRow {
  kr_PlanID : string;
  kr_NonceDigest : string;
  kr_Status : string;
  kr_Request : AcknowledgementRequest;
  kr_Pending : Acknowledgement;
  kr_CreatedAt : string;
  kr_DecidedAt : option string;
  kr_ConsumedAt : option string
}.

(** A row of [acknowledgement_proofs], keyed by the acknowledgement *)
Record ProofRow := mkProofRow {
  pw_ProofDigest : string;
  pw_Status : string;
  pw_Document : Acknowledgement;
  pw_ReceivedAt : string
}.

(** [immutable_plans] and [plan_runs] are written by others. *)
Record AckTables := mkAckTables {
  ack_requests : gmap string AckRow;
  ack_proofs : gmap string ProofRow;
  ack_plans : gmap string Plan;
  ack_runs : gmap string RunRow
}.

Definition setRequests (x : gmap string AckRow) (t : AckTables) : AckTables :=
  mkAckTables x (ack_proofs t) (ack_plans t) (ack_runs t).
Definition setProofs (x : gmap string ProofRow) (t : AckTables) : AckTables :=
  mkAckTables (ack_requests t) x (ack_plans t) (ack_runs t).

(** [WHERE plan_id=?], a unique column *)
Definition requestOfPlan (planID : string) (t : AckTables) : option (string * AckRow) :=
  List.find (fun r => kr_PlanID r.2 == planID) (map_to_list (ack_requests t)).

(** [INSERT INTO acknowledgement_requests]: the primary key, the unique plan, the
    unique nonce and the foreign key. *)
Definition insertRequest (id : string) (row : AckRow) (t : AckTables) : result AckTables :=
  if bool_decide (is_Some (ack_requests t !! id))
     || existsb (fun r => (kr_PlanID r.2 == kr_PlanID row) || (kr_NonceDigest r.2 == kr_NonceDigest row))
          (map_to_list (ack_requests t))
     || bool_decide (ack_plans t !! kr_PlanID row = None)
  then violates else Ok (setRequests (<[id := row]> (ack_requests t)) t).

(** The trigger [acknowledgement_requests_terminal]: the bound columns never
    change, a pending request is decided once and an approved one consumed once. *)
Definition transition (old new : AckRow) : bool :=
  (kr_PlanID new == kr_PlanID old) && (kr_NonceDigest new == kr_NonceDigest old)
  && (kr_Request new == kr_Request old) && (kr_Pending new == kr_Pending old) && (kr_CreatedAt new == kr_CreatedAt old)
  && ((kr_Status old == "pending") && bool_decide (kr_Status new ∈ ["approved"; "rejected"; "expired"])
      && (kr_DecidedAt old == None) && negb (kr_DecidedAt new == None)
      && (kr_ConsumedAt old == None) && (kr_ConsumedAt new == None)
      || (kr_Status old == "approved") && (kr_Status new == "approved") && (kr_DecidedAt new == kr_DecidedAt old)
         && (kr_ConsumedAt old == None) && negb (kr_ConsumedAt new == None)).

(** [UPDATE acknowledgement_requests SET ... WHERE ...]: the number of rows. *)
Definition updateRequests (where_ : string -> AckRow -> bool) (f : AckRow -> AckRow) (t : AckTables)
    : result (Z * AckTables) :=
  let hit := filter (fun kv => where_ kv.1 kv.2 = true) (ack_requests t) in
  if forallb (fun kv => transition kv.2 (f kv.2)) (map_to_list hit)
  then Ok (Z.of_nat (size hit), setRequests ((f <$> hit) ∪ ack_requests t) t)
  else violates.

(** [INSERT INTO acknowledgement_proofs]: the primary key, the unique digest and
    the foreign key. *)
Definition insertProof (id : string) (row : ProofRow) (t : AckTables) : result AckTables :=
  if bool_decide (is_Some (ack_proofs t !! id))
     || existsb (fun p => pw_ProofDigest p.2 == pw_ProofDigest row) (map_to_list (ack_proofs t))
     || bool_decide (ack_requests t !! id = None)
  then violates else Ok (setProofs (<[id := row]> (ack_proofs t)) t).

(** ** Calls *)

(** The transactions of a call (the read before, the audited one, the read after)
    and what other callers do between them. *)
Record AckEnv := mkAckEnv {
  ae_first : TxEnv;
  ae_write : TxEnv;
  ae_last : TxEnv;
  ae_beforeWrite : Store AckTables -> Store AckTables;
  ae_afterWrite : Store AckTables -> Store AckTables
}.

(** A call during which nothing fails and nobody else writes. *)
Definition quietAckEnv (clock : Time) : AckEnv :=
  mkAckEnv (quietEnv clock) (quietEnv clock) (quietEnv clock) id id.

(** The contract schemas of [generated.ValidateContractJSON]. *)
Class AckSchemas := {
  exactRequest : AcknowledgementRequest -> bool;
  exactOutcome : Acknowledgement -> bool;
  exactApproval : ApprovalStatus -> bool
}.

(** A call whose error the caller inspects. *)
Definition attempt {S A} (m : action S A) : action S (result A) := fun s => let '(r, s') := m s in (Ok r, s').

Section Repository.
Context `{Hasher} `{AckSchemas}.

Notation Store := (Store AckTables).

(** ** Documents *)

(** The fields an outcome shares with its request, from the plan to the expiry *)
Definition bindingFields (r : AcknowledgementRequest) : list (string * string) :=
  [("planId", jsonString (kq_PlanID r)); ("planDigest", jsonString (kq_PlanDigest r));
   ("targetDigest", jsonString (kq_TargetDigest r)); ("reasonDigest", jsonString (kq_ReasonDigest r));
   ("humanId", jsonString (kq_HumanID r)); ("authorityId", jsonString (kq_AuthorityID r));
   ("nonceDigest", jsonString (kq_NonceDigest r)); ("stateRevision", jsonInt (kq_StateRevision r));
   ("recoveryEpoch", jsonInt (kq_RecoveryEpoch r)); ("expiresAt", jsonString (kq_ExpiresAt r))].

Definition requestJSON (r : AcknowledgementRequest) : string :=
  jsonObject
    ([("schema", jsonString "vegastack-labs.dev/acknowledgement-request"); ("schemaVersion", jsonString "1.0.0")]
     ++ bindingFields r ++ [("extensions", jsonArray (map extensionJSON (kq_Extensions r)))]).

(** The request part of an outcome *)
Definition bindingOf (a : Acknowledgement) : AcknowledgementRequest :=
  mkAcknowledgementRequest (ak_PlanID a) (ak_PlanDigest a) (ak_TargetDigest a) (ak_ReasonDigest a) (ak_HumanID a)
    (ak_AuthorityID a) (ak_NonceDigest a) (ak_StateRevision a) (ak_RecoveryEpoch a) (ak_ExpiresAt a) (ak_Extensions a).

Definition outcomeJSON (a : Acknowledgement) : string :=
  jsonObject
    ([("schema", jsonString "vegastack-labs.dev/acknowledgement"); ("schemaVersion", jsonString "1.0.0")]
     ++ bindingFields (bindingOf a)
     ++ [("acknowledgementId", jsonString (ak_AcknowledgementID a)); ("proofDigest", jsonString (ak_ProofDigest a));
         ("status", jsonString (ak_Status a)); ("receivedAt", jsonString (ak_ReceivedAt a));
         ("extensions", jsonArray (map extensionJSON (ak_Extensions a)))]).

Definition sameAcknowledgementBinding (r : AcknowledgementRequest) (a : Acknowledgement) : bool :=
  (kq_PlanID r == ak_PlanID a) && (kq_PlanDigest r == ak_PlanDigest a) && (kq_TargetDigest r == ak_TargetDigest a)
  && (kq_ReasonDigest r == ak_ReasonDigest a) && (kq_HumanID r == ak_HumanID a) && (kq_AuthorityID r == ak_AuthorityID a)
  && (kq_NonceDigest r == ak_NonceDigest a) && (kq_StateRevision r == ak_StateRevision a)
  && (kq_RecoveryEpoch r == ak_RecoveryEpoch a) && (kq_ExpiresAt r == ak_ExpiresAt a).

Definition validAcknowledgementCreate (record : CreateRecord) : bool :=
  exactRequest (cr_Request record) && exactOutcome (cr_Pending record) && (ak_Status (cr_Pending record) == "pending")
  && sameAcknowledgementBinding (cr_Request record) (cr_Pending record).

Definition validAcknowledgementDecision (record : DecisionRecord) : bool :=
  let outcome := dn_Outcome record in
  exactRequest (dn_Expected record) && exactOutcome outcome
  && ((ak_Status outcome == "approved") || (ak_Status outcome == "rejected") || (ak_Status outcome == "expired"))
  && sameAcknowledgementBinding (dn_Expected record) outcome
  && (ak_ReceivedAt outcome == FormatRFC3339 (dn_DecidedAt record)).

(** ** Reads *)

(** The join of the request of a plan with its proof *)
Definition joined (planID : string) (t : AckTables) : option (AckRow * option Acknowledgement) :=
  '(id, row) ← requestOfPlan planID t;
  Some (row, pw_Document <$> ack_proofs t !! id).

(** What [Get] makes of the row. *)
Definition decodeStored (found : AckRow * option Acknowledgement) : result Stored :=
  let '(row, proof) := found in
  require (exactRequest (kr_Request row)) (Coded IntegrityFailure "acknowledgement-request");;
  outcome ← of_option (Coded IntegrityFailure "acknowledgement-proof")
              (if kr_Status row != "pending" then proof else Some (kr_Pending row));
  require (exactOutcome outcome && (ak_Status outcome == kr_Status row)) (Coded IntegrityFailure "acknowledgement-proof");;
  Ok (mkStored (kr_Request row) outcome (negb (kr_ConsumedAt row == None))).

Definition Get (env : TxEnv) (planID : string) : action Store Stored :=
  check (planID != "") (Coded InputInvalid "acknowledgement");;
  rows (Read env (fun db => of_option errNoRows (joined planID (tables db))))
    (Err (Coded ResourceNotFound "acknowledgement")) decodeStored.

(** ** Writes *)

Definition ackIntent (expected : option RevisionToken) (scope key request eventType correlation kind target after : string)
    (attribution : Attribution) : intentRequest :=
  mkIntentRequest None expected (mkIntentKey scope key request)
    (mkEventDraft eventType correlation None None attribution (mkTarget kind target) None (Some after))
    (mkContextIDs "" "" "") [].

(** The revision a request was issued at *)
Definition revisionOf (r : AcknowledgementRequest) : RevisionToken :=
  mkRevisionToken (kq_StateRevision r) (kq_RecoveryEpoch r).

Definition requestRow (record : CreateRecord) : AckRow :=
  let r := cr_Request record in
  mkAckRow (kq_PlanID r) (kq_NonceDigest r) "pending" r (cr_Pending record) (FormatRFC3339 (cr_CreatedAt record)) None None.

Definition createChange (record : CreateRecord) (t : AckTables) : result AckTables :=
  let r := cr_Request record in
  plan ← of_option (Coded PlanStale "plan")
    (plan ← ack_plans t !! kq_PlanID r;
     if (b_StateRevision (p_Binding plan) == kq_StateRevision r) && (b_RecoveryEpoch (p_Binding plan) == kq_RecoveryEpoch r)
     then Some plan else None);
  require (p_PlanDigest plan == kq_PlanDigest r) (Coded PlanStale "plan");;
  insertRequest (ak_AcknowledgementID (cr_Pending record)) (requestRow record) t.

Definition Create (env : AckEnv) (record : CreateRecord) : action Store (Stored * bool) :=
  let r := cr_Request record in
  let id := ak_AcknowledgementID (cr_Pending record) in
  check (validAt (cr_CreatedAt record) && (at_PrincipalID (cr_Attribution record) == kq_HumanID r)
         && validAcknowledgementCreate record) (Coded InputInvalid "acknowledgement-request");;
  existing ← attempt (Get (ae_first env) (kq_PlanID r));
  match existing with
  | Ok stored => mret (stored, false)
  | Err err =>
      check (Code (Some err) == ResourceNotFound) err;;
      modify (ae_beforeWrite env);;
      result ← executeAuditIntent (ae_write env)
        (ackIntent (Some (revisionOf r)) "acknowledgement-request" (hashString id) (hashString (requestJSON r))
           "acknowledgement.requested" id "plan" (kq_PlanID r) (kq_PlanDigest r) (cr_Attribution record))
        false (Some (fun _ => createChange record));
      modify (ae_afterWrite env);;
      stored ← Get (ae_last env) (kq_PlanID r);
      mret (stored, ir_Created result)
  end.

Definition decidedRow (status decidedAt : string) (row : AckRow) : AckRow :=
  mkAckRow (kr_PlanID row) (kr_NonceDigest row) status (kr_Request row) (kr_Pending row) (kr_CreatedAt row)
    (Some decidedAt) (kr_ConsumedAt row).

Definition decideChange (record : DecisionRecord) (t : AckTables) : result AckTables :=
  let outcome := dn_Outcome record in
  let id := ak_AcknowledgementID outcome in
  row ← of_option errNoRows (ack_requests t !! id);
  require ((kr_Request row == dn_Expected record) && (kr_Status row == "pending")) (Coded PlanStale "acknowledgement");;
  '(_, t) ← updateRequests (fun k row => (k == id) && (kr_Status row == "pending"))
              (decidedRow (ak_Status outcome) (FormatRFC3339 (dn_DecidedAt record))) t;
  insertProof id (mkProofRow (ak_ProofDigest outcome) (ak_Status outcome) outcome (ak_ReceivedAt outcome)) t.

(** A decision is attributed to the bound human, an expiry to the policy. *)
Definition expectedAttribution (record : DecisionRecord) : bool :=
  let a := dn_Attribution record in
  if ak_Status (dn_Outcome record) == "expired"
  then (at_PrincipalID a == ExpiryPrincipalID) && (at_PrincipalMethod a == ExpiryPrincipalMode)
       && (at_ResponsibleHuman a == None) && (at_Agent a == None)
  else at_PrincipalID a == kq_HumanID (dn_Expected record).

Definition Decide (env : AckEnv) (record : DecisionRecord) : action Store (Stored * bool) :=
  let r := dn_Expected record in
  let outcome := dn_Outcome record in
  check (validAt (dn_DecidedAt record) && expectedAttribution record && validAcknowledgementDecision record)
        (Coded InputInvalid "acknowledgement-decision");;
  result ← executeAuditIntent (ae_write env)
    (ackIntent (Some (revisionOf r)) "acknowledgement-decision" (hashString (ak_ProofDigest outcome))
       (hashString (outcomeJSON outcome)) ("acknowledgement." +:+ ak_Status outcome) (ak_AcknowledgementID outcome) "plan"
       (kq_PlanID r) (ak_ProofDigest outcome) (dn_Attribution record))
    false (Some (fun _ => decideChange record));
  modify (ae_afterWrite env);;
  stored ← Get (ae_last env) (kq_PlanID r);
  mret (stored, ir_Created result).

Definition consumedRow (consumedAt : string) (row : AckRow) : AckRow :=
  mkAckRow (kr_PlanID row) (kr_NonceDigest row) (kr_Status row) (kr_Request row) (kr_Pending row) (kr_CreatedAt row)
    (kr_DecidedAt row) (Some consumedAt).

Definition consumeChange (planID consumedAt : string) (t : AckTables) : result AckTables :=
  '(n, t) ← updateRequests (fun _ row => (kr_PlanID row == planID) && (kr_Status row == "approved")
                                         && (kr_ConsumedAt row == None)) (consumedRow consumedAt) t;
  require (n == 1) (Coded PlanStale "acknowledgement-proof");;
  Ok t.

Definition Consume (env : AckEnv) (planID : string) (consumedAt : Time) : action Store (Stored * bool) :=
  check ((planID != "") && validAt consumedAt) (Coded InputInvalid "acknowledgement-consume");;
  stored ← Get (ae_first env) planID;
  if sd_Consumed stored then mret (stored, false)
  else
    let a := sd_Acknowledgement stored in
    modify (ae_beforeWrite env);;
    result ← executeAuditIntent (ae_write env)
      (ackIntent (Some (revisionOf (sd_Request stored))) "acknowledgement-consume" (hashString (ak_ProofDigest a))
         (hashString (FormatRFC3339 consumedAt)) "acknowledgement.consumed" (ak_AcknowledgementID a) "plan" planID
         (ak_ProofDigest a) (mkAttribution (ak_HumanID a) "slack-socket-mode" None None))
      false (Some (fun _ => consumeChange planID (FormatRFC3339 consumedAt)));
    modify (ae_afterWrite env);;
    stored ← Get (ae_last env) planID;
    mret (stored, ir_Created result).

(** ** Runs *)

(** The queued runs that own an acknowledgement, created at the given time *)
Definition runClaims (planID acknowledgementID createdAt : string) (t : AckTables) : gmap string RunRow :=
  filter (fun kv => rr_PlanID kv.2 = planID /\ rr_AcknowledgementID kv.2 = Some acknowledgementID
                    /\ rr_CreatedAt kv.2 = createdAt /\ rr_Status kv.2 = "queued") (ack_runs t).

Definition VerifyRunClaim (env : AckEnv) (planID acknowledgementID : string) (claimedAt : Time) : action Store unit :=
  check ((planID != "") && (acknowledgementID != "") && validAt claimedAt)
        (Coded InputInvalid "acknowledgement-run-claim");;
  count ← Read (ae_first env) (fun db =>
            Ok (size (runClaims planID acknowledgementID (FormatRFC3339 claimedAt) (tables db))));
  check (count =? 1)%nat (Coded AuthorizationDenied "acknowledgement-run-claim").

(** [ORDER BY created_at DESC,run_id DESC LIMIT 1] over the runs of a plan *)
Definition latestRun (planID digest : string) (t : AckTables) : option (string * RunRow) :=
  fold_left (fun best r =>
    if (rr_PlanID r.2 == planID) && (r_PlanDigest (rr_Document r.2) == digest) then
      match best with
      | Some b =>
          if String.ltb (rr_CreatedAt r.2) (rr_CreatedAt b.2)
             || (rr_CreatedAt r.2 == rr_CreatedAt b.2) && String.ltb r.1 b.1
          then best else Some r
      | None => Some r
      end
    else best) (map_to_list (ack_runs t)) None.

Definition ExecutionStatus (env : AckEnv) (planID digest : string) : action Store string :=
  rows (Read (ae_first env) (fun db => of_option errNoRows (latestRun planID digest (tables db))))
    (Ok "")
    (fun r => Ok (if (rr_Status r.2 == "succeeded") && (rr_VerificationStatus r.2 != "verified") then "partial"
                  else rr_Status r.2)).

(** ** Denials *)

Definition acknowledgementDenialEventType (reason : string) : string :=
  if reason == InputInvalid then "acknowledgement.input-denied"
  else if reason == PlanStale then "acknowledgement.stale-denied"
  else if reason == RecoveryEpochMismatch then "acknowledgement.epoch-denied"
  else if reason == AuthorizationDenied then "acknowledgement.authorization-denied"
  else "acknowledgement.proof-denied".

Definition denialIntent (record : DenialRecord) : intentRequest :=
  ackIntent None "acknowledgement-denial" (dl_AttemptDigest record) (hashString (dl_ReasonCode record))
    (acknowledgementDenialEventType (dl_ReasonCode record)) (dl_CorrelationID record) (dl_TargetKind record)
    (dl_TargetID record) (dl_AttemptDigest record) (dl_Attribution record).

Definition RecordDenial (env : AckEnv) (record : DenialRecord) : action Store unit :=
  check ((dl_TargetKind record != "") && (dl_TargetID record != "") && (dl_CorrelationID record != "")
         && ValidFingerprint (dl_AttemptDigest record) && (dl_ReasonCode record != "") && validAt (dl_RejectedAt record))
        (Coded InputInvalid "acknowledgement-denial");;
  executeAuditIntent (ae_write env) (denialIntent record) false (Some (fun _ t => Ok t));;
  mret tt.

End Repository.
