(* ===== verification/AckLifecycle.v ===== *)
(** The life cycle of an acknowledgement as an abstract machine, and that every
    method of [AckRepository] refines it: a request is issued once, decided once
    and, when it was approved, consumed once, whatever fails during a call and
    whatever other callers do between its transactions. *)

From S2P Require Import Prelude GoTime Hash GoJson Contracts AuditLog AuditStore ExecutorLease RunRepository RunHistory AckRepository.

(** ** The abstract machine *)

Inductive Phase :=
| Open
| Settled (proof : Acknowledgement)
| Spent (proof : Acknowledgement).

(** What is known of one acknowledgement: its request and its phase. *)
Notation View := (option (AcknowledgementRequest * Phase)).

Section Lifecycle.
Context `{Hasher} `{AckSchemas}.

Notation Store := (Store AckTables).

Inductive AckStep : View -> View -> Prop :=
| step_issue r : AckStep None (Some (r, Open))
| step_decide r proof :
    sameAcknowledgementBinding r proof = true -> ak_Status proof ∈ ["approved"; "rejected"; "expired"] ->
    AckStep (Some (r, Open)) (Some (r, Settled proof))
| step_consume r proof :
    ak_Status proof = "approved" -> AckStep (Some (r, Settled proof)) (Some (r, Spent proof)).

(** ** The view of the tables *)

Definition view (t : AckTables) (id : string) : View :=
  row ← ack_requests t !! id;
  if kr_Status row == "pending" then Some (kr_Request row, Open)
  else proof ← ack_proofs t !! id;
       Some (kr_Request row, if kr_ConsumedAt row == None then Settled (pw_Document proof) else Spent (pw_Document proof)).

(** One row and its proof *)
Record row_wf (t : AckTables) (id : string) (row : AckRow) : Prop := {
  rw_key : kr_PlanID row = kq_PlanID (kr_Request row) /\ kr_NonceDigest row = kq_NonceDigest (kr_Request row);
  rw_pending : ak_Status (kr_Pending row) = "pending"
               /\ sameAcknowledgementBinding (kr_Request row) (kr_Pending row) = true
               /\ ak_AcknowledgementID (kr_Pending row) = id;
  rw_plan : exists plan, ack_plans t !! kr_PlanID row = Some plan
              /\ p_PlanDigest plan = kq_PlanDigest (kr_Request row)
              /\ b_StateRevision (p_Binding plan) = kq_StateRevision (kr_Request row)
              /\ b_RecoveryEpoch (p_Binding plan) = kq_RecoveryEpoch (kr_Request row);
  rw_proof : match ack_proofs t !! id with
             | None => kr_Status row = "pending" /\ kr_DecidedAt row = None /\ kr_ConsumedAt row = None
             | Some p =>
                 kr_Status row = pw_Status p /\ ak_Status (pw_Document p) = pw_Status p
                 /\ pw_Status p ∈ ["approved"; "rejected"; "expired"]
                 /\ sameAcknowledgementBinding (kr_Request row) (pw_Document p) = true
                 /\ ak_AcknowledgementID (pw_Document p) = id
                 /\ kr_DecidedAt row <> None
                 /\ (kr_ConsumedAt row <> None -> pw_Status p = "approved")
             end
}.

Record ack_wf (t : AckTables) : Prop := {
  aw_row : map_Forall (row_wf t) (ack_requests t);
  aw_proof : forall id, is_Some (ack_proofs t !! id) -> is_Some (ack_requests t !! id);
  aw_unique : forall id id' row row', ack_requests t !! id = Some row -> ack_requests t !! id' = Some row' ->
    kr_PlanID row = kr_PlanID row' \/ kr_NonceDigest row = kr_NonceDigest row' -> id = id'
}.

(** The tables moved along the machine. *)
Definition evolves (t t' : AckTables) : Prop :=
  (forall id, rtc AckStep (view t id) (view t' id)) /\ ack_plans t ⊆ ack_plans t'.

#[global] Instance evolves_preorder : PreOrder evolves.
Proof.
  split; [by intros t; split|]. intros t1 t2 t3 [S1 P1] [S2 P2]. split; [|by transitivity (ack_plans t2)].
  intros id. by transitivity (view t2 id).
Qed.

(** What every caller may rely on, and what every call guarantees. *)
Definition guarantee (s s' : Store) : Prop :=
  (audit_wf (st_db s) -> audit_wf (st_db s'))
  /\ (ack_wf (tables (st_db s)) -> ack_wf (tables (st_db s')) /\ evolves (tables (st_db s)) (tables (st_db s'))).

#[global] Instance guarantee_preorder : PreOrder guarantee.
Proof.
  split; [by intros s; split|]. intros s1 s2 s3 [A1 W1] [A2 W2]. split; [auto|].
  intros W. destruct (W1 W) as [W' E1], (W2 (proj1 (W1 W))) as [W'' E2]. split; [done|]. by etransitivity.
Qed.

Definition polite (f : Store -> Store) : Prop := forall s, guarantee s (f s).

Record PoliteEnv (env : AckEnv) : Prop := {
  pe_before : polite (ae_beforeWrite env);
  pe_after : polite (ae_afterWrite env)
}.

(** ** A logic of guarantees *)

Definition sound {A} (m : action Store A) : Prop := forall s, guarantee s (m s).2.

Lemma sound_bind {A B} (m : action Store A) (f : A -> action Store B) :
  sound m -> (forall x, sound (f x)) -> sound (m ≫= f).
Proof.
  intros Hm Hf s. specialize (Hm s). unfold mbind, action_bind. destruct (m s) as [[x|e] s1]; [|done].
  etransitivity; [exact Hm|apply Hf].
Qed.

Lemma sound_keeps {A} (m : action Store A) : keeps_db m -> sound m.
Proof.
  intros Hm s. destruct (m s) as [r s'] eqn:E. cbn. unfold guarantee. rewrite (Hm _ _ _ E). by split; [|split].
Qed.

Lemma sound_modify f : polite f -> sound (modify f).
Proof. intros Hf s. apply Hf. Qed.

Lemma sound_check {A} (b : bool) e (m : action Store A) : (b = true -> sound m) -> sound (check b e;; m).
Proof.
  intros Hm s. destruct b; [by apply Hm|]. reflexivity.
Qed.

Lemma sound_attempt {A} (m : action Store A) : sound m -> sound (attempt m).
Proof. intros Hm s. specialize (Hm s). unfold attempt. by destruct (m s). Qed.

(** A business change that moves well-formed tables along the machine. *)
Definition lawful (change : RevisionToken -> AckTables -> result AckTables) : Prop :=
  forall current t t', change current t = Ok t' -> ack_wf t -> ack_wf t' /\ evolves t t'.

Lemma sound_intent env request advance change :
  lawful change -> sound (executeAuditIntent env request advance (Some change)).
Proof.
  intros Hc s. destruct (executeAuditIntent env request advance (Some change) s) as [r s'] eqn:E. split; cbn.
  - intros W. by apply (executeAuditIntent_wf _ _ _ _ _ _ _ W E).
  - intros W. apply executeAuditIntent_outcome in E as [[-> _]|(res & ev & p & d & l & A & _)]; [done|].
    exact (Hc _ _ _ (ap_tables _ _ _ _ _ _ _ _ _ _ _ A) W).
Qed.

End Lifecycle.

Create HintDb acks.
#[export] Hint Resolve sound_bind sound_keeps sound_modify sound_check sound_attempt sound_intent pe_before pe_after
  keeps_check keeps_mret keeps_fail keeps_gets keeps_Read keeps_rows keeps_lift : acks.

Section Methods.
Context `{Hasher} `{AckSchemas}.

Notation Store := (Store AckTables).
Implicit Types (t : AckTables).

(** ** The statements *)

Lemma updateRequests_Ok w f t n t' :
  updateRequests w f t = Ok (n, t') ->
  ack_proofs t' = ack_proofs t /\ ack_plans t' = ack_plans t
  /\ n = Z.of_nat (size (filter (fun kv => w kv.1 kv.2 = true) (ack_requests t)))
  /\ (forall k, ack_requests t' !! k = (fun row => if w k row then f row else row) <$> ack_requests t !! k)
  /\ (forall k row, ack_requests t !! k = Some row -> w k row = true -> transition row (f row) = true).
Proof.
  unfold updateRequests. case_match eqn:Ef; [|done]. intros [= <- <-]. cbn. do 3 (split; [done|]).
  rewrite forallb_Forall in Ef. split.
  - intros k. rewrite lookup_union, lookup_fmap.
    destruct (ack_requests t !! k) as [row|] eqn:E; cbn.
    + destruct (w k row) eqn:Ew.
      * erewrite (map_lookup_filter_Some_2 _ _ k row) by done. cbn. by destruct (f row).
      * rewrite map_lookup_filter_None_2; [done|]. right. intros x Ex. simplify_eq. cbn. by rewrite Ew.
    + rewrite map_lookup_filter_None_2; [done|by left].
  - intros k row E Ew. rewrite Forall_forall in Ef. apply (Ef (k, row)).
    apply elem_of_map_to_list. by apply map_lookup_filter_Some.
Qed.

Lemma insertRequest_Ok id row t t' :
  insertRequest id row t = Ok t' ->
  t' = setRequests (<[id := row]> (ack_requests t)) t /\ ack_requests t !! id = None
  /\ (forall k r, ack_requests t !! k = Some r -> kr_PlanID r <> kr_PlanID row /\ kr_NonceDigest r <> kr_NonceDigest row).
Proof.
  unfold insertRequest. case_match eqn:Eb; [done|]. intros [= <-]. split; [done|].
  apply orb_false_iff in Eb as [Eb _]. apply orb_false_iff in Eb as [Eb1 Eb2].
  split; [by apply bool_decide_eq_false_1, eq_None_not_Some in Eb1|]. intros k r Ek.
  destruct (decide (kr_PlanID r = kr_PlanID row \/ kr_NonceDigest r = kr_NonceDigest row)) as [D|D]; [|tauto].
  exfalso. apply not_true_iff_false in Eb2. apply Eb2, existsb_exists. exists (k, r).
  split; [by apply list_elem_of_In, elem_of_map_to_list|]. cbn. destruct D as [->| ->]; rewrite bool_decide_refl; [done|].
  apply orb_true_r.
Qed.

Lemma insertProof_Ok id row t t' :
  insertProof id row t = Ok t' -> t' = setProofs (<[id := row]> (ack_proofs t)) t /\ ack_proofs t !! id = None.
Proof.
  unfold insertProof. case_match eqn:Eb; [done|]. intros [= <-]. split; [done|].
  apply orb_false_iff in Eb as [Eb _]. apply orb_false_iff in Eb as [Eb _].
  by apply bool_decide_eq_false_1, eq_None_not_Some in Eb.
Qed.

(** What the trigger leaves of a row *)
Lemma transition_keeps old new :
  transition old new = true ->
  kr_PlanID new = kr_PlanID old /\ kr_NonceDigest new = kr_NonceDigest old /\ kr_Request new = kr_Request old
  /\ kr_Pending new = kr_Pending old.
Proof. unfold transition. intros E. by bool_hyps. Qed.

(** A pending request has no proof. *)
Lemma pending_no_proof t id row :
  row_wf t id row -> kr_Status row = "pending" ->
  ack_proofs t !! id = None /\ kr_DecidedAt row = None /\ kr_ConsumedAt row = None.
Proof.
  intros [_ _ _ W] Hs. destruct (ack_proofs t !! id) as [p|]; [|tauto]. exfalso.
  destruct W as (Ep & _ & Hin & _). rewrite <- Ep, Hs in Hin. set_solver.
Qed.

(** Rows other than the changed one are as well formed as before. *)
Lemma row_wf_other t t' id row :
  ack_proofs t' !! id = ack_proofs t !! id -> ack_plans t' = ack_plans t -> row_wf t id row -> row_wf t' id row.
Proof. intros Ep El [W1 W2 W3 W4]. constructor; [done|done|by rewrite El|by rewrite Ep]. Qed.

(** Well-formedness after a change of one row that keeps its bound columns *)
Lemma ack_wf_update t t' id row row' :
  ack_wf t -> ack_requests t !! id = Some row ->
  (forall k, ack_requests t' !! k = <[id := row']> (ack_requests t) !! k) ->
  (forall k, k <> id -> ack_proofs t' !! k = ack_proofs t !! k) -> ack_plans t' = ack_plans t ->
  kr_PlanID row' = kr_PlanID row -> kr_NonceDigest row' = kr_NonceDigest row -> row_wf t' id row' ->
  ack_wf t' /\ (forall k, k <> id -> view t' k = view t k).
Proof.
  intros [W1 W2 W3] Er Hr Hp Hl E1 E2 Hw. split; [constructor|].
  - intros k r Ek. rewrite Hr in Ek. apply lookup_insert_Some in Ek as [[<- <-]|[Hk Ek]]; [done|].
    apply (row_wf_other t); [by apply Hp|done|by apply W1].
  - intros k Ek. rewrite Hr. destruct (decide (k = id)) as [->|Hk]; [rewrite lookup_insert_eq; eauto|].
    rewrite lookup_insert_ne by done. rewrite Hp in Ek by done. by apply W2.
  - assert (forall k r, ack_requests t' !! k = Some r -> exists r0, ack_requests t !! k = Some r0
              /\ kr_PlanID r0 = kr_PlanID r /\ kr_NonceDigest r0 = kr_NonceDigest r) as Hold.
    { intros k r Ek. rewrite Hr in Ek. apply lookup_insert_Some in Ek as [[<- <-]|[Hk Ek]]; eauto. }
    intros k k' r r' Ek Ek' Eq. apply Hold in Ek as (r0 & Ek & Hp1 & Hn1). apply Hold in Ek' as (r0' & Ek' & Hp2 & Hn2).
    eapply W3; eauto. rewrite Hp1, Hp2, Hn1, Hn2. done.
  - intros k Hk. unfold view. by rewrite Hr, lookup_insert_ne, Hp by done.
Qed.

(** ** The changes are steps of the machine *)

Lemma evolves_at t t' id :
  (forall k, k <> id -> view t' k = view t k) -> AckStep (view t id) (view t' id) -> ack_plans t' = ack_plans t ->
  evolves t t'.
Proof.
  intros Ho Hs Hp. split; [|by rewrite Hp]. intros k. destruct (decide (k = id)) as [->|Hk].
  - by apply rtc_once.
  - rewrite Ho by done. apply rtc_refl.
Qed.

Lemma createChange_lawful record :
  validAcknowledgementCreate record = true -> lawful (fun _ => createChange record).
Proof.
  unfold validAcknowledgementCreate. intros Hv _ t t' E W. bool_hyps. unfold createChange in E. result_hyps.
  match goal with E : insertRequest _ _ _ = Ok _ |- _ => apply insertRequest_Ok in E as (-> & Hn & Hu) end.
  match goal with E : (_ ≫= _) = Some _ |- _ => apply bind_Some in E as (plan & Ep & E); case_match eqn:Eb; [|done] end.
  simplify_eq. bool_hyps.
  set (id := ak_AcknowledgementID (cr_Pending record)) in *.
  assert (ack_proofs t !! id = None) as Hnp.
  { apply eq_None_not_Some. intros Hs. apply W in Hs. rewrite Hn in Hs. by destruct Hs. }
  split.
  - constructor; cbn.
    + intros k r Ek. apply lookup_insert_Some in Ek as [[<- <-]|[Hk Ek]].
      * constructor; cbn; [done|done|eauto|]. by rewrite Hnp.
      * apply (row_wf_other t); [done|done|by apply W].
    + intros k Hk. apply W in Hk as [r Hk]. destruct (decide (id = k)) as [<-|]; [rewrite lookup_insert_eq; eauto|].
      rewrite lookup_insert_ne; eauto.
    + intros k k' r r' Ek Ek' Eq.
      apply lookup_insert_Some in Ek as [[<- <-]|[Hk Ek]]; apply lookup_insert_Some in Ek' as [[<- <-]|[Hk' Ek']].
      * done.
      * destruct (Hu _ _ Ek') as [H8 H9]. destruct Eq as [Eq|Eq]; by rewrite Eq in *.
      * destruct (Hu _ _ Ek) as [H8 H9]. destruct Eq as [Eq|Eq]; by rewrite Eq in *.
      * by eapply (aw_unique _ W).
  - apply (evolves_at _ _ id); [| |done].
    + intros k Hk. unfold view. cbn. by rewrite lookup_insert_ne.
    + unfold view. cbn. rewrite lookup_insert_eq, Hn. cbn. constructor.
Qed.

Lemma decideChange_step record t t' :
  let id := ak_AcknowledgementID (dn_Outcome record) in
  validAcknowledgementDecision record = true -> decideChange record t = Ok t' -> ack_wf t ->
  ack_wf t' /\ (forall k, k <> id -> view t' k = view t k) /\ ack_plans t' = ack_plans t
  /\ AckStep (view t id) (view t' id) /\ view t' id = Some (dn_Expected record, Settled (dn_Outcome record)).
Proof.
  cbn zeta. unfold validAcknowledgementDecision. intros Hv E W. unfold decideChange in E. result_hyps.
  set (outcome := dn_Outcome record) in *. set (id := ak_AcknowledgementID outcome) in *.
  match goal with E : ack_requests t !! id = Some ?r |- _ => rename r into row; rename E into Er end.
  match goal with p : (Z * AckTables)%type |- _ => destruct p as [n t1] end.
  match goal with E : updateRequests _ _ _ = Ok _ |- _ => apply updateRequests_Ok in E as (Hp & Hl & _ & Hr & _) end.
  match goal with E : insertProof _ _ _ = Ok _ |- _ => apply insertProof_Ok in E as (-> & Hn) end.
  rewrite Hp in Hn. bool_hyps.
  set (row' := decidedRow (ak_Status outcome) (FormatRFC3339 (dn_DecidedAt record)) row).
  assert (ak_Status outcome ∈ ["approved"; "rejected"; "expired"]) as Hin.
  { match goal with E : _ || _ || _ = true |- _ => apply orb_true_iff in E as [E|E]; [apply orb_true_iff in E as [E|E]|] end;
      bool_hyps; match goal with E : ak_Status outcome = _ |- _ => rewrite E end; set_solver. }
  destruct (pending_no_proof t id row (aw_row _ W _ _ Er)) as (_ & Hd & Hc); [done|].
  pose proof (aw_row _ W _ _ Er) as [Wk Wp Wl _].
  destruct (ack_wf_update t (setProofs (<[id := mkProofRow (ak_ProofDigest outcome) (ak_Status outcome) outcome
    (ak_ReceivedAt outcome)]> (ack_proofs t1)) t1) id row row') as [W' Hv]; try done.
  - intros k. cbn. rewrite Hr. destruct (decide (k = id)) as [->|Hk].
    + rewrite Er, lookup_insert_eq. cbn. rewrite bool_decide_refl. rewrite bool_decide_eq_true_2 by done. done.
    + rewrite lookup_insert_ne by done. rewrite (bool_decide_eq_false_2 (k = id)) by done. cbn. by destruct (ack_requests t !! k).
  - intros k Hk. cbn. by rewrite lookup_insert_ne, Hp.
  - constructor; cbn; [done|done|by rewrite Hl|]. rewrite lookup_insert_eq. cbn. repeat split; try done. congruence.
  - assert (view t id = Some (dn_Expected record, Open)) as V.
    { unfold view. rewrite Er. cbn. rewrite bool_decide_eq_true_2 by done. congruence. }
    assert (view (setProofs (<[id := mkProofRow (ak_ProofDigest outcome) (ak_Status outcome) outcome
      (ak_ReceivedAt outcome)]> (ack_proofs t1)) t1) id = Some (dn_Expected record, Settled outcome)) as V'.
    { unfold view. cbn. rewrite Hr, Er, lookup_insert_eq. cbn. rewrite bool_decide_refl.
      rewrite (bool_decide_eq_true_2 (kr_Status row = "pending")) by done. cbn. rewrite Hc.
      rewrite bool_decide_eq_false_2 by (intros Ex; rewrite Ex in Hin; set_solver).
      rewrite (bool_decide_eq_true_2 (@None string = None)) by done. congruence. }
    split_and!; [done|done|done| |done]. rewrite V, V'. by constructor.
Qed.

Lemma decideChange_lawful record :
  validAcknowledgementDecision record = true -> lawful (fun _ => decideChange record).
Proof.
  intros Hv _ t t' E W. destruct (decideChange_step _ _ _ Hv E W) as (W' & Ho & Hp & Hs & _).
  split; [done|]. by eapply evolves_at.
Qed.

Lemma consumeChange_lawful planID consumedAt : lawful (fun _ => consumeChange planID consumedAt).
Proof.
  intros _ t t' E W. unfold consumeChange in E. result_hyps.
  match goal with p : (Z * AckTables)%type |- _ => destruct p as [n t1] end. result_hyps.
  match goal with E : updateRequests _ _ _ = Ok _ |- _ => apply updateRequests_Ok in E as (Hp & Hl & Hs & Hr & _) end.
  set (hits := fun (_ : string) row => (kr_PlanID row == planID) && (kr_Status row == "approved") && (kr_ConsumedAt row == None)).
  change (forall k, ack_requests t' !! k = (fun row => if hits k row then consumedRow consumedAt row else row) <$> ack_requests t !! k) in Hr.
  change (1 = Z.of_nat (size (filter (fun kv => hits kv.1 kv.2 = true) (ack_requests t)))) in Hs.
  destruct (map_size_ne_0_lookup_1 (filter (fun kv => hits kv.1 kv.2 = true) (ack_requests t))) as (id & row & Ef); [lia|].
  apply map_lookup_filter_Some in Ef as [Er Eh]. cbn in Eh. pose proof Eh as Eh'. unfold hits in Eh'. bool_hyps.
  assert (forall k r, ack_requests t !! k = Some r -> k <> id -> hits k r = false) as Ho.
  { intros k r Ek Hk. apply not_true_iff_false. unfold hits. intros Eb. bool_hyps. apply Hk.
    eapply (aw_unique _ W); eauto. left. congruence. }
  pose proof (aw_row _ W _ _ Er) as [Wk Wp Wl Wpr].
  destruct (ack_proofs t !! id) as [p|] eqn:Epr; [|destruct Wpr; congruence].
  destruct Wpr as (E1 & E2 & E3 & E4 & E5 & E6 & E7).
  destruct (ack_wf_update t t' id row (consumedRow consumedAt row)) as [W' Hv]; try done.
  - intros k. rewrite Hr. destruct (decide (k = id)) as [->|Hk].
    + by rewrite Er, lookup_insert_eq; cbn; rewrite Eh.
    + rewrite lookup_insert_ne by done. destruct (ack_requests t !! k) eqn:Ek; [|done]. cbn. by rewrite (Ho k).
  - intros k Hk. by rewrite Hp.
  - constructor; cbn; [done|done|by rewrite Hl|]. rewrite Hp, Epr. repeat split; try done. congruence.
  - split; [done|]. apply (evolves_at _ _ id); [done| |done].
    unfold view. rewrite Hr, Er, Hp, Epr. cbn. rewrite Eh. cbn.
    rewrite bool_decide_eq_false_2 by congruence. rewrite bool_decide_eq_true_2 by done. constructor. congruence.
Qed.

(** ** Every method keeps the guarantee *)

Lemma keeps_AckGet env planID : keeps_db (Get env planID).
Proof. unfold Get. apply keeps_bind; [apply keeps_check|]. intros _. apply keeps_rows, keeps_Read. Qed.

Lemma sound_Get env planID : sound (Get env planID).
Proof. apply sound_keeps, keeps_AckGet. Qed.
#[local] Hint Resolve sound_Get createChange_lawful decideChange_lawful consumeChange_lawful : acks.

Lemma sound_Create env record : PoliteEnv env -> sound (Create env record).
Proof.
  intros He. unfold Create. apply sound_check. intros Hv. bool_hyps.
  apply sound_bind; [eauto with acks|]. intros [stored|err]; [eauto with acks|].
  apply sound_check. intros _. eauto 12 with acks.
Qed.

Lemma sound_Decide env record : PoliteEnv env -> sound (Decide env record).
Proof. intros He. unfold Decide. apply sound_check. intros Hv. bool_hyps. eauto 12 with acks. Qed.

Lemma sound_Consume env planID consumedAt : PoliteEnv env -> sound (Consume env planID consumedAt).
Proof.
  intros He. unfold Consume. apply sound_check. intros Hv. apply sound_bind; [eauto with acks|].
  intros stored. case_match; eauto 12 with acks.
Qed.

Lemma sound_VerifyRunClaim env planID id claimedAt : sound (VerifyRunClaim env planID id claimedAt).
Proof. unfold VerifyRunClaim. apply sound_check. eauto 8 with acks. Qed.

Lemma sound_RecordDenial env record : sound (RecordDenial env record).
Proof.
  unfold RecordDenial. apply sound_check. intros _. apply sound_bind; [|eauto with acks].
  apply sound_intent. intros _ t t' [= <-] W. by split.
Qed.

Lemma sound_ExecutionStatus env planID digest : sound (ExecutionStatus env planID digest).
Proof. unfold ExecutionStatus. eauto 8 with acks. Qed.

End Methods.

#[export] Hint Resolve sound_Get sound_Create sound_Decide sound_Consume sound_VerifyRunClaim sound_RecordDenial
  sound_ExecutionStatus : acks.
