(* ===== verification/AckService.v ===== *)
(** The acknowledgement service of [internal/acknowledgement/service.go]: what a
    human is asked, which answers count, when an approval may be consumed by an
    execution, and which refusals are audited.

    A call of the service is a sequence of repository calls. The plans, the
    authorizer, the clock and the failures of the repository calls are the
    [Surroundings] of the call; [su_others] is what other callers do to the store
    before each of them. *)

From S2P Require Import Prelude GoTime Hash GoJson Contracts AuditLog AuditStore Authorization ExecutorLease RunRepository RunHistory.
From S2P Require Import AckRepository AckLifecycle.

(** ** Types (types.go) *)

Definition ActionApprove := "approved".
Definition ActionReject := "rejected".
Definition UnknownSourcePrincipalID := "policy.acknowledgement-unknown-source".
Definition UnknownSourcePrincipalMode := "internal-policy".
Definition SlackSocketModeMethod := "slack-socket-mode".

Record Scope := mkScope {
  sc_Human : Principal;
  sc_AuthorityID : string;
  sc_Nonce : string
}.

Record Candidate := mkCandidate {
  cd_Human : Principal;
  cd_AuthorityID : string;
  cd_Action : string;
  cd_PlanID : string;
  cd_PlanDigest : string;
  cd_TargetDigest : string;
  cd_ReasonDigest : string;
  cd_Nonce : string;
  cd_StateRevision : Z;
  cd_RecoveryEpoch : Z;
  cd_ExpiresAt : Time;
  cd_DecidedAt : Time
}.

Record AdapterRejection := mkAdapterRejection {
  rj_SourcePrincipal : Principal;
  rj_AuthorityID : string;
  rj_AttemptDigest : string;
  rj_ReasonCode : string;
  rj_RejectedAt : Time
}.

Record RequestCard := mkRequestCard {
  rd_Request : AcknowledgementRequest;
  rd_AcknowledgementID : string;
  rd_Nonce : string
}.

Definition decisionClockSkew : Z := 5 * Second.
Definition terminalDenialTarget := "acknowledgement-terminal-denial".

(** No error of the service with this target is retryable. *)
Definition IsTerminalDenial (err : error) : bool :=
  match err with Coded _ target => target == terminalDenialTarget | _ => false end.

(** ** Text *)

(** The runes of a valid UTF-8 string; [rest] continuation bytes of the rune
    [value] are still to be read. *)
Fixpoint runes (rest : nat) (value : Z) (s : string) : option (list Z) :=
  match s with
  | EmptyString => match rest with O => Some [] | S _ => None end
  | String c r =>
      let b := Z.of_nat (nat_of_ascii c) in
      match rest with
      | S more =>
          let value := value * 64 + Z.land b 63 in
          match more with O => cons value <$> runes 0 0 r | S _ => runes more value r end
      | O =>
          if b <? 128 then cons b <$> runes 0 0 r
          else match utf8Tail s with
               | Some n => runes n (Z.land b (match n with 1%nat => 31 | 2%nat => 15 | _ => 7 end)) r
               | None => None
               end
      end
  end.

(** [unicode.IsControl] and [unicode.IsSpace] *)
Definition IsControl (r : Z) : bool := (r <? 32) || (127 <=? r) && (r <? 160).
Definition IsSpace (r : Z) : bool :=
  bool_decide (r ∈ [9; 10; 11; 12; 13; 32; 0x85; 0xA0; 0x1680; 0x2028; 0x2029; 0x202F; 0x205F; 0x3000])
  || (0x2000 <=? r) && (r <=? 0x200A).

Definition validNonce (value : string) : bool :=
  if (value == "") || (512 <? String.length value)%nat then false
  else match runes 0 0 value with
       | None => false
       | Some rs =>
           negb (IsSpace (hd 0 rs)) && negb (IsSpace (List.last rs 0)) && forallb (fun r => negb (IsControl r)) rs
       end.

Definition isHex (c : ascii) : bool := isDigit c || between "a" "f" c || between "A" "F" c.

(** [hex.DecodeString] accepts both cases. *)
Definition validDigest (value : string) : bool :=
  (String.length value =? 71)%nat && HasPrefix value "sha256:" && all_chars isHex (TrimPrefix value "sha256:").

(** The loop of [intString] over its buffer of twenty digits, from the end *)
Fixpoint intDigits (room : nat) (value : Z) (buffer : string) : string :=
  match room with
  | O => buffer
  | S room' =>
      if 0 <? value
      then intDigits room' (value / 10) (String (ascii_of_nat (48 + Z.to_nat (value mod 10))) buffer)
      else buffer
  end.

Definition intString (value : Z) : string := if value == 0 then "0" else intDigits 20 value "".

Definition mustTime (value : string) : Time := parseTime value.

(** ** Surroundings *)

Inductive ClockRead := DecisionClock | DenialClock | ProjectionClock | ObservedClock.
Inductive RepositoryCall :=
| FirstRead | SecondRead | CreateCall | DecideCall | ExpireCall | ClaimCall | ConsumeCall | DenialCall | StatusCall.
Inductive PlanCheck := HumanCheck | ExecutionCheck.

Record Surroundings := mkSurroundings {
  su_Plan : string -> result Plan;
  su_ValidateCurrent : PlanCheck -> Plan -> option error;
  su_Authorize : Principal -> Authorization.Request -> Decision * option error;
  su_Clock : ClockRead -> Time;
  su_env : RepositoryCall -> AckEnv;
  su_others : RepositoryCall -> Store AckTables -> Store AckTables
}.

Section Service.
Context `{Hasher} `{HostReplacementContract} `{AckSchemas}.

Notation Store := (Store AckTables).

(** The n-th call of the repository. *)
Definition call {A} (su : Surroundings) (c : RepositoryCall) (m : AckEnv -> action Store A) : action Store A :=
  modify (su_others su c);; m (su_env su c).

(** [service.config.Clock().UTC().Truncate(time.Second)] *)
Definition nowAt (su : Surroundings) (c : ClockRead) : Time := TruncateSecond (UTC (su_Clock su c)).

(** ** Bindings *)

Definition proofDigest (r : AcknowledgementRequest) (status : string) (at_ : Time) : string :=
  hashString (Join nul
    ["acknowledgement-proof-v1"; kq_PlanID r; kq_PlanDigest r; kq_TargetDigest r; kq_ReasonDigest r; kq_HumanID r;
     kq_AuthorityID r; kq_NonceDigest r; kq_ExpiresAt r; status; FormatRFC3339 (TruncateSecond (UTC at_));
     intString (kq_StateRevision r); intString (kq_RecoveryEpoch r)]).

Definition outcomeFrom (r : AcknowledgementRequest) (acknowledgementID status : string) (receivedAt : Time)
    (proof : string) : Acknowledgement :=
  mkAcknowledgement (kq_PlanID r) (kq_PlanDigest r) (kq_TargetDigest r) (kq_ReasonDigest r) (kq_HumanID r)
    (kq_AuthorityID r) (kq_NonceDigest r) (kq_StateRevision r) (kq_RecoveryEpoch r) (kq_ExpiresAt r) acknowledgementID
    proof status (FormatRFC3339 (TruncateSecond (UTC receivedAt))) [].

Definition validScope (scope : Scope) : bool :=
  ValidPrincipal (sc_Human scope) && (EffectivePrincipalKind (sc_Human scope) == PrincipalHuman)
  && ValidIdentifier (sc_AuthorityID scope) && validNonce (sc_Nonce scope).

Definition validCandidate (c : Candidate) : bool :=
  ((cd_Action c == ActionApprove) || (cd_Action c == ActionReject))
  && validScope (mkScope (cd_Human c) (cd_AuthorityID c) (cd_Nonce c)) && ValidIdentifier (cd_PlanID c)
  && validDigest (cd_PlanDigest c) && validDigest (cd_TargetDigest c) && validDigest (cd_ReasonDigest c)
  && (0 <=? cd_StateRevision c) && (0 <=? cd_RecoveryEpoch c) && negb (IsZero (cd_ExpiresAt c))
  && negb (IsZero (cd_DecidedAt c)).

Definition candidateMatchesRequest (c : Candidate) (r : AcknowledgementRequest) : bool :=
  (pn_ID (cd_Human c) == kq_HumanID r) && (cd_AuthorityID c == kq_AuthorityID r) && (cd_PlanID c == kq_PlanID r)
  && (cd_PlanDigest c == kq_PlanDigest r) && (cd_TargetDigest c == kq_TargetDigest r)
  && (cd_ReasonDigest c == kq_ReasonDigest r) && (hashString (cd_Nonce c) == kq_NonceDigest r)
  && (cd_StateRevision c == kq_StateRevision r) && (cd_RecoveryEpoch c == kq_RecoveryEpoch r)
  && (FormatRFC3339 (TruncateSecond (UTC (cd_ExpiresAt c))) == kq_ExpiresAt r).

Definition candidateMismatch (c : Candidate) (r : AcknowledgementRequest) : error :=
  if cd_RecoveryEpoch c != kq_RecoveryEpoch r then Coded RecoveryEpochMismatch "acknowledgement"
  else if cd_StateRevision c != kq_StateRevision r then Coded PlanStale "acknowledgement"
  else Coded AuthorizationDenied "acknowledgement".

Definition proofMatchesPlan (stored : Stored) (plan : Plan) : bool :=
  let r := sd_Request stored in
  let proof := sd_Acknowledgement stored in
  let b := p_Binding plan in
  (kq_PlanID r == p_PlanID plan) && (kq_PlanDigest r == p_PlanDigest plan) && (kq_TargetDigest r == b_TargetDigest b)
  && (kq_ReasonDigest r == b_ReasonDigest b) && (kq_StateRevision r == b_StateRevision b)
  && (kq_RecoveryEpoch r == b_RecoveryEpoch b) && (ak_PlanID proof == kq_PlanID r)
  && (ak_PlanDigest proof == kq_PlanDigest r) && (ak_TargetDigest proof == kq_TargetDigest r)
  && (ak_ReasonDigest proof == kq_ReasonDigest r) && (ak_HumanID proof == kq_HumanID r)
  && (ak_AuthorityID proof == kq_AuthorityID r) && (ak_NonceDigest proof == kq_NonceDigest r)
  && (ak_StateRevision proof == kq_StateRevision r) && (ak_RecoveryEpoch proof == kq_RecoveryEpoch r)
  && (ak_ExpiresAt proof == kq_ExpiresAt r)
  && (ak_ProofDigest proof == proofDigest r (ak_Status proof) (mustTime (ak_ReceivedAt proof))).

Definition sameRequest (left right : AcknowledgementRequest) : bool := requestJSON left == requestJSON right.

(** ** The human and the plan *)

#[local] Instance stringOrder_dec (x y : string) : base.Decision (String.leb x y = true) := _.

(** The keys of the map [seen], sorted *)
Definition uniqueTargets (plan : Plan) : list string :=
  let scope := match p_HostBaselineScope plan with
               | Some p => [hb_SubjectHostID p; hb_ExecutionHostID p]
               | None => []
               end in
  let auxiliary := default [] (p_HostAccessAuxiliaryHostIDs plan) in
  let operations := flat_map (ExecutionResourceIDs plan) (p_Operations plan) in
  merge_sort (fun x y => String.leb x y = true)
    (elements (list_to_set (scope ++ auxiliary ++ operations) : gset string)).

(** The decision about one target is the permission that was asked for. *)
Definition acknowledges (human : Principal) (plan : Plan) (target : Target) (decision : Decision) : bool :=
  negb (negb (de_Allowed decision) || (de_PrincipalID decision != pn_ID human)
        || (de_Action decision != ActionAcknowledge) || (de_Target decision != target)
        || (de_Branch decision != Some BranchHuman) || (de_PlanDigest decision != p_PlanDigest plan)
        || (de_StateRevision decision != b_StateRevision (p_Binding plan))
        || (de_RecoveryEpoch decision != b_RecoveryEpoch (p_Binding plan))).

Fixpoint authorizeTargets (su : Surroundings) (human : Principal) (plan : Plan) (targets : list string) : option error :=
  match targets with
  | [] => None
  | targetID :: rest =>
      let target := Authorization.mkTarget "plan.acknowledge" "plan-target" targetID in
      match su_Authorize su human (mkRequest ActionAcknowledge target (Some plan) [BranchHuman] None false) with
      | (_, Some _) => Some (Coded DependencyUnavailable "authorization-policy")
      | (decision, None) =>
          if acknowledges human plan target decision then authorizeTargets su human plan rest
          else Some (Coded AuthorizationDenied "acknowledgement-human")
      end
  end.

Definition validCurrentHumanPlan (su : Surroundings) (human : Principal) (plan : Plan) : option error :=
  if negb (ValidPrincipal human) || (EffectivePrincipalKind human != PrincipalHuman)
     || (p_AuthorizationBranch plan != BranchHuman)
  then Some (Coded AuthorizationDenied "acknowledgement-human")
  else match su_ValidateCurrent su HumanCheck plan with
       | Some _ => Some (Coded PlanStale "plan")
       | None =>
           let targets := uniqueTargets plan in
           if (length targets =? 0)%nat then Some (Coded AuthorizationDenied "acknowledgement-target")
           else authorizeTargets su human plan targets
       end.

(** ** Denials *)

Definition attemptDigest (c : Candidate) : string :=
  hashString (Join nul
    ["candidate-denial-v1"; cd_Action c; cd_PlanID c; cd_PlanDigest c; cd_TargetDigest c; cd_ReasonDigest c;
     hashString (cd_Nonce c); intString (cd_StateRevision c); intString (cd_RecoveryEpoch c);
     FormatRFC3339 (UTC (cd_ExpiresAt c))]).

Definition denialCode (cause : error) : string :=
  if Code (Some cause) == "" then AuthorizationDenied else Code (Some cause).

Definition candidateDenial (su : Surroundings) (stored : Stored) (c : Candidate) (cause : error) (attribution : Attribution)
    : DenialRecord :=
  mkDenialRecord "plan" (kq_PlanID (sd_Request stored)) (ak_AcknowledgementID (sd_Acknowledgement stored)) (attemptDigest c)
    (denialCode cause) (nowAt su DenialClock) attribution.

(** The error that ends the call, after the denial was recorded. *)
Definition denyCandidate {A} (su : Surroundings) (stored : Stored) (c : Candidate) (cause : error) : action Store A :=
  match NewAttribution (cd_Human c) (Some (cd_Human c)) with
  | Err _ => fail (Coded IntegrityFailure "acknowledgement-denial-audit")
  | Ok attribution =>
      recorded ← attempt (call su DenialCall (fun env => RecordDenial env (candidateDenial su stored c cause attribution)));
      match recorded with
      | Err _ => fail (Coded IntegrityFailure "acknowledgement-denial-audit")
      | Ok _ => fail (Coded (denialCode cause) terminalDenialTarget)
      end
  end.

Definition storedDenial (su : Surroundings) (stored : Stored) (kind : string) (cause : error) : DenialRecord :=
  let code := Code (Some cause) in
  mkDenialRecord "plan" (kq_PlanID (sd_Request stored)) (ak_AcknowledgementID (sd_Acknowledgement stored))
    (hashString (Join nul ["proof-denial-v1"; kind; ak_ProofDigest (sd_Acknowledgement stored); code])) code
    (nowAt su DenialClock) (mkAttribution (kq_HumanID (sd_Request stored)) SlackSocketModeMethod None None).

Definition denyStored {A} (su : Surroundings) (stored : Stored) (kind : string) (cause : error) : action Store A :=
  recorded ← attempt (call su DenialCall (fun env => RecordDenial env (storedDenial su stored kind cause)));
  match recorded with
  | Err _ => fail (Coded IntegrityFailure "acknowledgement-denial-audit")
  | Ok _ => fail cause
  end.

Definition Reject (su : Surroundings) (rejection : AdapterRejection) : action Store unit :=
  let source := rj_SourcePrincipal rejection in
  let validReason := (rj_ReasonCode rejection == InputInvalid) || (rj_ReasonCode rejection == AuthorizationDenied) in
  let validSource := ValidPrincipal source
    || (pn_ID source == UnknownSourcePrincipalID) && (pn_Method source == UnknownSourcePrincipalMode)
       && (pn_Kind source == PrincipalPolicy) in
  check (validSource && ValidIdentifier (rj_AuthorityID rejection) && validDigest (rj_AttemptDigest rejection)
         && validReason && validAt (rj_RejectedAt rejection)) (Coded InputInvalid "acknowledgement-adapter-rejection");;
  match NewAttribution source None with
  | Err _ => fail (Coded IntegrityFailure "acknowledgement-denial-audit")
  | Ok attribution =>
      let record := mkDenialRecord "acknowledgement-authority" (rj_AuthorityID rejection)
        ("denial-" +:+ take_string 32 (TrimPrefix (rj_AttemptDigest rejection) "sha256:"))
        (rj_AttemptDigest rejection) (rj_ReasonCode rejection) (rj_RejectedAt rejection) attribution in
      recorded ← attempt (call su DenialCall (fun env => RecordDenial env record));
      match recorded with
      | Err _ => fail (Coded IntegrityFailure "acknowledgement-denial-audit")
      | Ok _ => mret tt
      end
  end.

(** ** Requests *)

Definition requestFor (scope : Scope) (plan : Plan) : AcknowledgementRequest :=
  let b := p_Binding plan in
  mkAcknowledgementRequest (p_PlanID plan) (p_PlanDigest plan) (b_TargetDigest b) (b_ReasonDigest b)
    (pn_ID (sc_Human scope)) (sc_AuthorityID scope) (hashString (sc_Nonce scope)) (b_StateRevision b) (b_RecoveryEpoch b)
    (p_ExpiresAt plan) [].

Definition acknowledgementIDFor (r : AcknowledgementRequest) : string :=
  "ack-" +:+ shortDigest (hashString (Join nul ["acknowledgement-v1"; kq_PlanID r; kq_NonceDigest r])).

Definition Request (su : Surroundings) (scope : Scope) (planID : string) : action Store RequestCard :=
  check (validScope scope && ValidIdentifier planID) (Coded InputInvalid "acknowledgement-request");;
  plan ← lift (su_Plan su planID);
  match validCurrentHumanPlan su (sc_Human scope) plan with
  | Some err => fail err
  | None =>
      let now := nowAt su DecisionClock in
      let expiresAt := mustTime (p_ExpiresAt plan) in
      check (negb (IsZero expiresAt) && Before now expiresAt) (Coded PlanStale "plan");;
      let r := requestFor scope plan in
      check (exactRequest r) (Coded InputInvalid "acknowledgement-request");;
      let id := acknowledgementIDFor r in
      let pending := outcomeFrom r id "pending" now (proofDigest r "pending" now) in
      match NewAttribution (sc_Human scope) (Some (sc_Human scope)) with
      | Err _ => fail (Coded InputInvalid "acknowledgement-attribution")
      | Ok attribution =>
          '(stored, created) ← call su CreateCall (fun env => Create env (mkCreateRecord r pending now attribution));
          if (created : bool) then mret (mkRequestCard r id (sc_Nonce scope))
          else
            check ((ak_Status (sd_Acknowledgement stored) == "pending") && sameRequest (sd_Request stored) r)
                  (Coded PlanStale "acknowledgement-request");;
            mret (mkRequestCard r (ak_AcknowledgementID (sd_Acknowledgement stored)) (sc_Nonce scope))
      end
  end.

(** ** Decisions *)

Definition outcomeOf (stored : Stored) (status : string) (now : Time) : Acknowledgement :=
  outcomeFrom (sd_Request stored) (ak_AcknowledgementID (sd_Acknowledgement stored)) status now
    (proofDigest (sd_Request stored) status now).

Definition expire (su : Surroundings) (stored : Stored) (now : Time) : action Store Stored :=
  let record := mkDecisionRecord (sd_Request stored) (outcomeOf stored "expired" now) now
    (mkAttribution ExpiryPrincipalID ExpiryPrincipalMode None None) in
  '(expired, changed) ← call su ExpireCall (fun env => AckRepository.Decide env record);
  check (changed || (ak_Status (sd_Acknowledgement expired) == "expired")) (Coded PlanStale "acknowledgement");;
  mret expired.

(** The candidate was decided within the clock skew. *)
Definition timely (now : Time) (c : Candidate) : bool :=
  negb (Before (cd_DecidedAt c) (Add now (- decisionClockSkew)) || After (cd_DecidedAt c) (Add now decisionClockSkew)).

(** The tail of [Decide]: a live pending request, answered in time. *)
Definition settle (su : Surroundings) (stored : Stored) (c : Candidate) (now : Time) : action Store Acknowledgement :=
  plan ← lift (su_Plan su (cd_PlanID c));
  match validCurrentHumanPlan su (cd_Human c) plan with
  | Some err => denyCandidate su stored c err
  | None =>
      let outcome := outcomeOf stored (cd_Action c) now in
      match NewAttribution (cd_Human c) (Some (cd_Human c)) with
      | Err _ => fail (Coded AuthorizationDenied "acknowledgement-attribution")
      | Ok attribution =>
          '(decided, changed) ← call su DecideCall
            (fun env => AckRepository.Decide env (mkDecisionRecord (sd_Request stored) outcome now attribution));
          check (changed || (ak_ProofDigest (sd_Acknowledgement decided) == ak_ProofDigest outcome))
                (Coded PlanStale "acknowledgement");;
          mret (sd_Acknowledgement decided)
      end
  end.

Definition Decide (su : Surroundings) (c : Candidate) : action Store Acknowledgement :=
  check (validCandidate c) (Coded AuthorizationDenied "acknowledgement-candidate");;
  stored ← call su FirstRead (fun env => Get (ae_first env) (cd_PlanID c));
  let r := sd_Request stored in
  let a := sd_Acknowledgement stored in
  if negb (candidateMatchesRequest c r) then denyCandidate su stored c (candidateMismatch c r)
  else if ak_Status a != "pending" then
    if ak_Status a == cd_Action c then mret a else denyCandidate su stored c (Coded PlanStale "acknowledgement")
  else
    let now := nowAt su DecisionClock in
    if negb (Before now (mustTime (kq_ExpiresAt r))) then
      expire su stored now;;
      denyCandidate su stored c (Coded PlanStale "acknowledgement")
    else if negb (timely now c) then denyCandidate su stored c (Coded PlanStale "acknowledgement")
    else settle su stored c now.

Definition Submit (su : Surroundings) (c : Candidate) : action Store unit := Decide su c;; mret tt.

Definition Status (su : Surroundings) (planID : string) : action Store Acknowledgement :=
  check (ValidIdentifier planID) (Coded InputInvalid "acknowledgement");;
  stored ← call su FirstRead (fun env => Get (ae_first env) planID);
  let now := nowAt su DecisionClock in
  if (ak_Status (sd_Acknowledgement stored) == "pending") && negb (Before now (mustTime (kq_ExpiresAt (sd_Request stored))))
  then expired ← expire su stored now; mret (sd_Acknowledgement expired)
  else mret (sd_Acknowledgement stored).

(** ** Projections *)

(** The human a stored request is bound to, as the provider authenticates it *)
Definition boundHuman (r : AcknowledgementRequest) : Principal :=
  mkPrincipal (kq_HumanID r) SlackSocketModeMethod PrincipalHuman "".

Definition Projection (su : Surroundings) (planID : string) : action Store ApprovalStatus :=
  status ← Status su planID;
  stored ← call su SecondRead (fun env => Get (ae_first env) planID);
  plan ← lift (su_Plan su planID);
  let current := proofMatchesPlan stored plan && isNil (validCurrentHumanPlan su (boundHuman (sd_Request stored)) plan)
                 && Before (UTC (su_Clock su ProjectionClock)) (mustTime (ak_ExpiresAt status)) in
  let projection := mkApprovalStatus (p_PlanID plan) (p_PlanDigest plan) (ak_Status status) current
    ((ak_Status status == "approved") && current) "slack" "assigned-maintainer" (b_StateRevision (p_Binding plan))
    (b_RecoveryEpoch (p_Binding plan)) (ak_ExpiresAt status) (FormatRFC3339 (nowAt su ObservedClock)) in
  check (exactApproval projection) (Coded IntegrityFailure "approval-status");;
  mret projection.

Definition MessageStatus (su : Surroundings) (planID digest : string) : action Store string :=
  status ← Status su planID;
  check (ak_PlanDigest status == digest) (Coded IntegrityFailure "message-plan");;
  run ← call su StatusCall (fun env => ExecutionStatus env planID digest);
  if run != "" then mret run
  else if (ak_Status status == "approved") || (ak_Status status == "pending") then
    projection ← Projection su planID;
    mret (if as_AuthorizationCurrent projection then ak_Status status else "stale")
  else mret (ak_Status status).

(** ** Execution *)

(** The last step of [verifyExecution]: a proof that was not consumed yet is. *)
Definition spend (su : Surroundings) (planID : string) (now : Time) (stored : Stored) : action Store Acknowledgement :=
  if sd_Consumed stored then mret (sd_Acknowledgement stored)
  else
    '(consumed, changed) ← call su ConsumeCall (fun env => Consume env planID now);
    check (changed && sd_Consumed consumed) (Coded PlanStale "acknowledgement-proof");;
    mret (sd_Acknowledgement consumed).

(** The checks of [verifyExecution] against the plan as it is now *)
Definition checkAndSpend (su : Surroundings) (planID : string) (claimedAt : option Time) (stored : Stored)
    : action Store Acknowledgement :=
  let a := sd_Acknowledgement stored in
  plan ← lift (su_Plan su planID);
  if negb (proofMatchesPlan stored plan)
  then denyStored su stored "execution-binding" (Coded AuthorizationDenied "acknowledgement-proof")
  else match validCurrentHumanPlan su (boundHuman (sd_Request stored)) plan with
  | Some err => denyStored su stored "execution-authorization" err
  | None =>
      let now := nowAt su DecisionClock in
      let expiry := mustTime (ak_ExpiresAt a) in
      let claimedWhileFresh := match claimedAt with Some at_ => Before at_ expiry | None => false end in
      if negb (sd_Consumed stored) && negb (Before now expiry) && negb claimedWhileFresh
      then denyStored su stored "execution-expired" (Coded PlanStale "acknowledgement-proof")
      else match su_ValidateCurrent su ExecutionCheck plan with
           | Some _ => denyStored su stored "execution-stale" (Coded PlanStale "plan")
           | None => spend su planID now stored
           end
  end.

(** [claim] is the acknowledgement and the creation time of the run that claims
    it, when consumed proofs are allowed. *)
Definition verifyExecution (su : Surroundings) (planID : string) (claim : option (string * Time))
    : action Store Acknowledgement :=
  check (ValidIdentifier planID) (Coded InputInvalid "acknowledgement-proof");;
  stored ← call su FirstRead (fun env => Get (ae_first env) planID);
  let a := sd_Acknowledgement stored in
  if (ak_Status a != "approved") || sd_Consumed stored && isNil claim
  then denyStored su stored "execution-replay" (Coded PlanStale "acknowledgement-proof")
  else match claim with
  | None => checkAndSpend su planID None stored
  | Some (acknowledgementID, claimedAt) =>
      let denied := denyStored su stored "execution-claim" (Coded AuthorizationDenied "acknowledgement-proof") in
      if ak_AcknowledgementID a != acknowledgementID then denied
      else
        claimed ← attempt (call su ClaimCall (fun env => VerifyRunClaim env planID acknowledgementID claimedAt));
        match claimed with
        | Err _ => denied
        | Ok _ => checkAndSpend su planID (Some claimedAt) stored
        end
  end.

Definition VerifyForExecution (su : Surroundings) (planID : string) : action Store Acknowledgement :=
  verifyExecution su planID None.

Definition VerifyForRunExecution (su : Surroundings) (planID acknowledgementID : string) (claimedAt : Time)
    : action Store Acknowledgement :=
  check (ValidIdentifier acknowledgementID && validAt claimedAt) (Coded InputInvalid "acknowledgement-proof");;
  verifyExecution su planID (Some (acknowledgementID, claimedAt)).

End Service.
