(* ===== verification/AckSafety.v ===== *)
(** What the acknowledgement service guarantees: every call refines the life
    cycle, an approval serves at most one run, an answer counts only while
    it is current, and a denial is reported as terminal only when it is audited.
    Between any two repository calls other callers may move the store along the
    life cycle. *)

From S2P Require Import Prelude GoTime Hash GoJson Contracts AuditLog AuditStore Authorization ExecutorLease RunRepository RunHistory.
From S2P Require Import AckRepository AckLifecycle AckService.

Section Safety.
Context `{Hasher} `{HostReplacementContract} `{AckSchemas}.

Notation Store := (Store AckTables).
Implicit Types (s : Store) (t : AckTables) (su : Surroundings).

Record PoliteSurroundings su : Prop := {
  ps_others c : polite (su_others su c);
  ps_env c : PoliteEnv (su_env su c)
}.

(** ** Every call keeps the guarantee *)

Lemma sound_call {A} su c (m : AckEnv -> action Store A) :
  PoliteSurroundings su -> (PoliteEnv (su_env su c) -> sound (m (su_env su c))) -> sound (call su c m).
Proof.
  intros Hs Hm. unfold call. apply sound_bind; [apply sound_modify, Hs|]. intros _. apply Hm, Hs.
Qed.

Lemma sound_fail {A} e : sound (fail (S:=Store) (A:=A) e).
Proof. apply sound_keeps, keeps_fail. Qed.
Lemma sound_mret {A} (x : A) : sound (mret (M:=action Store) x).
Proof. apply sound_keeps, keeps_mret. Qed.
Lemma sound_lift {A} (r : result A) : sound (lift (S:=Store) r).
Proof. apply sound_keeps, keeps_lift. Qed.
Hint Resolve sound_call sound_fail sound_mret sound_lift : acks.

Lemma sound_denyCandidate {A} su stored c cause : PoliteSurroundings su -> sound (denyCandidate (A:=A) su stored c cause).
Proof.
  intros Hs. unfold denyCandidate. case_match; [|auto with acks].
  apply sound_bind; [auto with acks|]. intros []; auto with acks.
Qed.

Lemma sound_denyStored {A} su stored kind cause : PoliteSurroundings su -> sound (denyStored (A:=A) su stored kind cause).
Proof. intros Hs. unfold denyStored. apply sound_bind; [auto with acks|]. intros []; auto with acks. Qed.

Lemma sound_expire su stored now : PoliteSurroundings su -> sound (expire su stored now).
Proof.
  intros Hs. unfold expire. apply sound_bind; [auto with acks|]. intros [expired changed].
  apply sound_check. auto with acks.
Qed.
Hint Resolve sound_denyCandidate sound_denyStored sound_expire : acks.

Lemma sound_Decide_service su c : PoliteSurroundings su -> sound (AckService.Decide su c).
Proof.
  intros Hs. unfold AckService.Decide. apply sound_check. intros _. apply sound_bind; [auto with acks|]. intros stored.
  repeat case_match; auto with acks.
  unfold settle. apply sound_bind; [auto with acks|]. intros plan. repeat case_match; auto with acks.
  apply sound_bind; [auto with acks|]. intros [decided changed]. apply sound_check. auto with acks.
Qed.

Lemma sound_Request su scope planID : PoliteSurroundings su -> sound (AckService.Request su scope planID).
Proof.
  intros Hs. unfold AckService.Request. apply sound_check. intros _. apply sound_bind; [auto with acks|]. intros plan.
  case_match; [auto with acks|]. apply sound_check. intros _. apply sound_check. intros _.
  case_match; [|auto with acks]. apply sound_bind; [auto with acks|]. intros [stored []]; [auto with acks|].
  apply sound_check. auto with acks.
Qed.

Lemma sound_Reject su rejection : PoliteSurroundings su -> sound (Reject su rejection).
Proof.
  intros Hs. unfold Reject. apply sound_check. intros _. case_match; [|auto with acks].
  apply sound_bind; [auto with acks|]. intros []; auto with acks.
Qed.

Lemma sound_Status su planID : PoliteSurroundings su -> sound (Status su planID).
Proof.
  intros Hs. unfold Status. apply sound_check. intros _. apply sound_bind; [auto with acks|]. intros stored.
  case_match; [apply sound_bind|]; auto with acks.
Qed.
Hint Resolve sound_Status : acks.

Lemma sound_Projection su planID : PoliteSurroundings su -> sound (Projection su planID).
Proof.
  intros Hs. unfold Projection. apply sound_bind; [auto with acks|]. intros status.
  apply sound_bind; [auto with acks|]. intros stored. apply sound_bind; [auto with acks|]. intros plan.
  apply sound_check. auto with acks.
Qed.
Hint Resolve sound_Projection : acks.

Lemma sound_MessageStatus su planID digest : PoliteSurroundings su -> sound (MessageStatus su planID digest).
Proof.
  intros Hs. unfold MessageStatus. apply sound_bind; [auto with acks|]. intros status. apply sound_check. intros _.
  apply sound_bind; [auto with acks|]. intros run. repeat case_match; auto with acks.
Qed.

Lemma sound_checkAndSpend su planID claimed stored : PoliteSurroundings su -> sound (checkAndSpend su planID claimed stored).
Proof.
  intros Hs. unfold checkAndSpend. apply sound_bind; [auto with acks|]. intros plan. repeat case_match; auto with acks.
  all: unfold spend; case_match; auto with acks; apply sound_bind; [auto with acks|]; intros [consumed changed];
    apply sound_check; auto with acks.
Qed.
Hint Resolve sound_checkAndSpend : acks.

Lemma sound_verifyExecution su planID claim : PoliteSurroundings su -> sound (verifyExecution su planID claim).
Proof.
  intros Hs. unfold verifyExecution. apply sound_check. intros _. apply sound_bind; [auto with acks|]. intros stored.
  repeat case_match; auto with acks. apply sound_bind; [auto with acks|]. intros []; auto with acks.
Qed.

(** ** The calls of the service *)

Inductive ServiceCall :=
| CallRequest (scope : Scope) (planID : string)
| CallDecide (c : Candidate)
| CallReject (rejection : AdapterRejection)
| CallStatus (planID : string)
| CallProjection (planID : string)
| CallMessageStatus (planID digest : string)
| CallVerify (planID : string)
| CallVerifyRun (planID acknowledgementID : string) (claimedAt : Time).

Definition perform su (c : ServiceCall) s : Store :=
  match c with
  | CallRequest scope planID => (AckService.Request su scope planID s).2
  | CallDecide c => (AckService.Decide su c s).2
  | CallReject rejection => (Reject su rejection s).2
  | CallStatus planID => (Status su planID s).2
  | CallProjection planID => (Projection su planID s).2
  | CallMessageStatus planID digest => (MessageStatus su planID digest s).2
  | CallVerify planID => (VerifyForExecution su planID s).2
  | CallVerifyRun planID id claimedAt => (VerifyForRunExecution su planID id claimedAt s).2
  end.

Lemma perform_guarantee su c s : PoliteSurroundings su -> guarantee s (perform su c s).
Proof.
  intros Hs. destruct c; cbn.
  - by apply sound_Request.
  - by apply sound_Decide_service.
  - by apply sound_Reject.
  - by apply sound_Status.
  - by apply sound_Projection.
  - by apply sound_MessageStatus.
  - by apply sound_verifyExecution.
  - unfold VerifyForRunExecution. apply sound_check. intros _. by apply sound_verifyExecution.
Qed.

(** Calls after one another, each in its own surroundings *)
Definition performCalls (calls : list (Surroundings * ServiceCall)) s : Store :=
  fold_left (fun s c => perform c.1 c.2 s) calls s.

Lemma performCalls_guarantee calls s :
  Forall (fun c => PoliteSurroundings c.1) calls -> guarantee s (performCalls calls s).
Proof.
  unfold performCalls. revert s. induction calls as [|c calls IH]; intros s Hc; [reflexivity|].
  apply Forall_cons in Hc as [Hc Hr]. cbn. etransitivity; [by apply perform_guarantee|by apply IH].
Qed.

(** ** What a read says about the tables *)

Definition phaseOf (stored : Stored) : Phase :=
  let a := sd_Acknowledgement stored in
  if sd_Consumed stored then Spent a else if ak_Status a == "pending" then Open else Settled a.

(** The tables hold what was read, under the identifier it names. *)
Record holds t (planID : string) (stored : Stored) : Prop := {
  hl_view : view t (ak_AcknowledgementID (sd_Acknowledgement stored)) = Some (sd_Request stored, phaseOf stored);
  hl_plan : kq_PlanID (sd_Request stored) = planID;
  hl_binding : sameAcknowledgementBinding (sd_Request stored) (sd_Acknowledgement stored) = true;
  hl_consumed : sd_Consumed stored = true -> ak_Status (sd_Acknowledgement stored) = "approved"
}.

Lemma requestOfPlan_Some t planID id row :
  requestOfPlan planID t = Some (id, row) -> ack_requests t !! id = Some row /\ kr_PlanID row = planID.
Proof.
  unfold requestOfPlan. intros E. apply find_some in E as [Hin Hp]. cbn in Hp. bool_hyps. split; [|done].
  by apply elem_of_map_to_list, list_elem_of_In.
Qed.

Lemma decodeStored_holds t planID found stored :
  ack_wf t -> joined planID t = Some found -> decodeStored found = Ok stored -> holds t planID stored.
Proof.
  unfold joined. intros W Ej Ed. apply bind_Some in Ej as ([id row] & Er & [= <-]).
  apply requestOfPlan_Some in Er as [Er Hp]. pose proof (aw_row _ W _ _ Er) as [[Wk _] (Wp1 & Wp2 & Wp3) _ Wpr].
  unfold decodeStored in Ed.
  destruct (ack_proofs t !! id) as [p|] eqn:Epr; cbn [fmap option_fmap option_map] in Ed.
  - destruct Wpr as (E1 & E2 & E3 & E4 & E5 & E6 & E7).
    assert (kr_Status row <> "pending") as Hnp by (rewrite E1; intros Ex; rewrite Ex in E3; set_solver).
    rewrite (bool_decide_eq_false_2 _ Hnp) in Ed. cbn [negb] in Ed. clear Wp3. result_hyps. simplify_eq.
    constructor; cbn; try done; [|intros Hc; rewrite E2; apply E7; by destruct (kr_ConsumedAt row)].
    unfold view, phaseOf. rewrite Er, Epr. cbn. rewrite (bool_decide_eq_false_2 _ Hnp).
    rewrite (bool_decide_eq_false_2 (ak_Status (pw_Document p) = "pending")) by congruence.
    by destruct (kr_ConsumedAt row).
  - destruct Wpr as (E1 & E2 & E3). rewrite E1, E3 in Ed. cbn [negb] in Ed. result_hyps. simplify_eq/=.
    constructor; cbn; try done. unfold view, phaseOf. rewrite Er. cbn. by rewrite E1, Wp1.
Qed.

Lemma Get_holds env planID s stored s' :
  Get env planID s = (Ok stored, s') -> st_db s' = st_db s /\ (ack_wf (tables (st_db s')) -> holds (tables (st_db s')) planID stored).
Proof.
  intros E. assert (st_db s' = st_db s) as Hdb by (by apply (keeps_AckGet env planID _ _ _ E)). split; [done|].
  rewrite Hdb. intros W. unfold Get in E. apply action_bind_Ok in E as (u & s1 & E1 & E). apply check_Ok in E1 as [_ ->].
  apply rows_Ok in E as (found & Er & Ed). apply Read_Ok in Er.
  apply of_option_Ok in Er. by eapply decodeStored_holds.
Qed.

(** ** Along the life cycle *)

(** A later phase of the same request *)
Definition later (p p' : Phase) : Prop :=
  match p with Open => True | Settled a => p' = Settled a \/ p' = Spent a | Spent a => p' = Spent a end.

Lemma view_later v v' r p : rtc AckStep v v' -> v = Some (r, p) -> exists p', v' = Some (r, p') /\ later p p'.
Proof.
  intros Hs. revert r p. induction Hs as [v|v1 v2 v3 Hs _ IH]; intros r p ->.
  - exists p. split; [done|]. destruct p; cbn; auto.
  - inversion Hs; simplify_eq.
    + destruct (IH _ _ eq_refl) as (p' & -> & Hl). exists p'. done.
    + destruct (IH _ _ eq_refl) as (p' & -> & Hl). exists p'. cbn in *. subst. auto.
Qed.

Lemma view_request t id r p : view t id = Some (r, p) -> exists row, ack_requests t !! id = Some row /\ kr_Request row = r.
Proof.
  unfold view. intros E. apply bind_Some in E as (row & Er & E). exists row. split; [done|].
  case_match; [by simplify_eq|]. apply bind_Some in E as (proof & _ & E). by simplify_eq.
Qed.

(** What a later read of the same plan finds: the same acknowledgement, in a later
    phase. *)
Lemma holds_later t t' id r p planID stored :
  ack_wf t' -> evolves t t' -> view t id = Some (r, p) -> kq_PlanID r = planID -> holds t' planID stored ->
  ak_AcknowledgementID (sd_Acknowledgement stored) = id /\ sd_Request stored = r /\ later p (phaseOf stored).
Proof.
  intros W' [Hv _] V P [V' P' _ _]. destruct (view_later _ _ _ _ (Hv _) V) as (p' & Ev & Hl).
  assert (ak_AcknowledgementID (sd_Acknowledgement stored) = id) as Eid.
  { apply view_request in Ev as (row & Er & Eq), V' as (row' & Er' & Eq').
    eapply (aw_unique _ W'); eauto. left. destruct (aw_row _ W' _ _ Er) as [[-> _] _ _ _], (aw_row _ W' _ _ Er') as [[-> _] _ _ _].
    congruence. }
  rewrite Eid in V'. rewrite V' in Ev. injection Ev as -> <-. done.
Qed.

Lemma phaseOf_Spent stored a : phaseOf stored = Spent a -> sd_Consumed stored = true /\ sd_Acknowledgement stored = a.
Proof. unfold phaseOf. repeat case_match; naive_solver. Qed.

(** ** Answers of the calls *)

Lemma call_Ok {A} su c (m : AckEnv -> action Store A) s : call su c m s = m (su_env su c) (su_others su c s).
Proof. reflexivity. Qed.

Lemma denyCandidate_fails {A} su stored c cause s (x : A) s' : denyCandidate su stored c cause s <> (Ok x, s').
Proof.
  unfold denyCandidate. case_match; [|done]. intros E. apply action_bind_Ok in E as ([y|e] & s1 & _ & E); discriminate E.
Qed.

Lemma denyStored_fails {A} su stored kind cause s (x : A) s' : denyStored su stored kind cause s <> (Ok x, s').
Proof. unfold denyStored. intros E. apply action_bind_Ok in E as ([y|e] & s1 & _ & E); discriminate E. Qed.

(** A write answers with what the tables hold at its end. *)
Lemma Consume_holds env planID at_ s stored changed s' :
  Consume env planID at_ s = (Ok (stored, changed), s') -> ack_wf (tables (st_db s')) ->
  holds (tables (st_db s')) planID stored.
Proof.
  unfold Consume. intros E. apply action_bind_Ok in E as (u & s1 & E1 & E). apply check_Ok in E1 as [_ ->].
  apply action_bind_Ok in E as (first & s1 & E1 & E). destruct (sd_Consumed first).
  - injection E as -> _ ->. by apply Get_holds in E1 as [_ E1].
  - apply action_bind_Ok in E as (u1 & s2 & _ & E). apply action_bind_Ok in E as (res & s3 & _ & E).
    apply action_bind_Ok in E as (u2 & s4 & _ & E). apply action_bind_Ok in E as (last & s5 & E5 & E).
    injection E as -> _ ->. by apply Get_holds in E5 as [_ E5].
Qed.

Lemma Decide_holds env record s stored changed s' :
  AckRepository.Decide env record s = (Ok (stored, changed), s') -> ack_wf (tables (st_db s')) ->
  holds (tables (st_db s')) (kq_PlanID (dn_Expected record)) stored.
Proof.
  unfold AckRepository.Decide. intros E. apply action_bind_Ok in E as (u & s1 & _ & E).
  apply action_bind_Ok in E as (res & s3 & _ & E).
  apply action_bind_Ok in E as (u2 & s4 & _ & E). apply action_bind_Ok in E as (last & s5 & E5 & E).
  injection E as -> _ ->. by apply Get_holds in E5 as [_ E5].
Qed.

Lemma VerifyRunClaim_Ok env planID id at_ s u s' :
  VerifyRunClaim env planID id at_ s = (Ok u, s') ->
  st_db s' = st_db s /\ size (runClaims planID id (FormatRFC3339 at_) (tables (st_db s))) = 1%nat.
Proof.
  unfold VerifyRunClaim. intros E. apply action_bind_Ok in E as (u1 & s1 & E1 & E). apply check_Ok in E1 as [_ ->].
  apply action_bind_Ok in E as (n & s2 & E1 & E). apply check_Ok in E as [E ->]. apply keeps_Read in E1 as Hdb.
  apply Read_Ok in E1. injection E1 as <-. by apply Nat.eqb_eq in E.
Qed.

(** ** Execution *)

(** What a successful verification says: the approval [a] of request [r] is
    spent, the plan is the one it approves and is current, its human may
    acknowledge every target now, and the approval was fresh when it was first
    consumed or claimed. *)
Record Verified su (planID : string) (claim : option (string * Time)) (a : Acknowledgement) s s' : Prop := {
  vf_plan : exists r plan, su_Plan su planID = Ok plan /\ kq_PlanID r = planID
    /\ view (tables (st_db s')) (ak_AcknowledgementID a) = Some (r, Spent a)
    /\ proofMatchesPlan (mkStored r a false) plan = true
    /\ validCurrentHumanPlan su (boundHuman r) plan = None /\ su_ValidateCurrent su ExecutionCheck plan = None;
  vf_status : ak_Status a = "approved";
  vf_fresh : let expiry := mustTime (ak_ExpiresAt a) in
    Before (nowAt su DecisionClock) expiry = true
    \/ exists id at_, claim = Some (id, at_) /\ (Before at_ expiry = true \/ exists s1 r, guarantee s s1
         /\ view (tables (st_db s1)) (ak_AcknowledgementID a) = Some (r, Spent a));
  vf_claim : forall id at_, claim = Some (id, at_) ->
    id = ak_AcknowledgementID a
    /\ exists s1, guarantee s s1 /\ guarantee s1 s'
         /\ size (runClaims planID id (FormatRFC3339 at_) (tables (st_db s1))) = 1%nat
}.

(** The stored acknowledgement was read at some earlier time. *)
Definition held s planID stored : Prop :=
  exists s0, ack_wf (tables (st_db s0)) /\ guarantee s0 s /\ holds (tables (st_db s0)) planID stored.

Lemma spend_Ok su planID now stored s a s' :
  PoliteSurroundings su -> held s planID stored ->
  ak_Status (sd_Acknowledgement stored) = "approved" -> spend su planID now stored s = (Ok a, s') ->
  guarantee s s' /\ a = sd_Acknowledgement stored
  /\ view (tables (st_db s')) (ak_AcknowledgementID a) = Some (sd_Request stored, Spent a).
Proof.
  intros Hs (s0 & W & G0 & Hh) Ha E. assert (guarantee s s') as G.
  { change s' with ((Ok a, s').2). rewrite <- E. unfold spend. case_match; [apply sound_mret|].
    apply sound_bind; [auto with acks|]. intros [consumed changed]. apply sound_check. auto with acks. }
  split; [done|]. assert (guarantee s0 s') as G' by (by etransitivity). destruct (proj2 G' W) as [W' Ev].
  unfold spend in E. destruct (sd_Consumed stored) eqn:Ec.
  - injection E as <- <-. split; [done|]. destruct Hh as [Hv _ _ _]. unfold phaseOf in Hv. rewrite Ec in Hv.
    destruct (view_later _ _ _ _ (proj1 Ev _) Hv) as (p' & -> & ->). done.
  - apply action_bind_Ok in E as ([consumed changed] & s2 & E1 & E). apply action_bind_Ok in E as (u & s3 & E2 & E).
    apply check_Ok in E2 as [Ech ->]. injection E as <- <-. bool_hyps. rewrite call_Ok in E1.
    apply Consume_holds in E1 as Hh'; [|done].
    destruct (holds_later _ _ _ _ _ _ _ W' Ev (hl_view _ _ _ Hh) (hl_plan _ _ _ Hh) Hh') as (Eid & Er & Hl).
    assert (phaseOf stored = Settled (sd_Acknowledgement stored)) as Ep.
    { unfold phaseOf. rewrite Ec, Ha. done. }
    assert (phaseOf consumed = Spent (sd_Acknowledgement consumed)) as Ep'.
    { unfold phaseOf. match goal with E : sd_Consumed consumed = true |- _ => by rewrite E end. }
    rewrite Ep, Ep' in Hl. destruct Hl as [Hl|Hl]; [done|]. injection Hl as Hl. split; [done|].
    rewrite <- Er, <- Ep'. apply Hh'.
Qed.

Lemma checkAndSpend_Ok su planID claimed stored s a s' :
  PoliteSurroundings su -> held s planID stored ->
  ak_Status (sd_Acknowledgement stored) = "approved" -> checkAndSpend su planID claimed stored s = (Ok a, s') ->
  exists plan, su_Plan su planID = Ok plan /\ proofMatchesPlan (mkStored (sd_Request stored) a false) plan = true
    /\ validCurrentHumanPlan su (boundHuman (sd_Request stored)) plan = None
    /\ su_ValidateCurrent su ExecutionCheck plan = None
    /\ (sd_Consumed stored = true \/ Before (nowAt su DecisionClock) (mustTime (ak_ExpiresAt a)) = true
        \/ exists at_, claimed = Some at_ /\ Before at_ (mustTime (ak_ExpiresAt a)) = true)
    /\ guarantee s s' /\ a = sd_Acknowledgement stored
    /\ view (tables (st_db s')) (ak_AcknowledgementID a) = Some (sd_Request stored, Spent a).
Proof.
  intros Hs Hh Ha E. unfold checkAndSpend in E. apply action_bind_Ok in E as (plan & s1 & E1 & E).
  assert (su_Plan su planID = Ok plan /\ s1 = s) as [Epl ->] by (unfold lift in E1; by injection E1).
  destruct (proofMatchesPlan stored plan) eqn:Em; cbn [negb] in E; [|by apply denyStored_fails in E].
  destruct (validCurrentHumanPlan su (boundHuman (sd_Request stored)) plan) eqn:Eh; [by apply denyStored_fails in E|].
  match type of E with (if ?b then _ else _) _ = _ => destruct b eqn:Ef end; [by apply denyStored_fails in E|].
  destruct (su_ValidateCurrent su ExecutionCheck plan) eqn:Ec; [by apply denyStored_fails in E|].
  destruct (spend_Ok _ _ _ _ _ _ _ Hs Hh Ha E) as (G & -> & Hv). exists plan. split_and!; try done.
  destruct (sd_Consumed stored); [by left|]. right. cbn [negb andb] in Ef.
  destruct (Before (nowAt su DecisionClock) _); [by left|right]. destruct claimed as [at_|]; [|discriminate Ef].
  exists at_. split; [done|]. by destruct (Before at_ _).
Qed.

Lemma verifyExecution_Ok su planID claim s a s' :
  PoliteSurroundings su -> ack_wf (tables (st_db s)) -> verifyExecution su planID claim s = (Ok a, s') ->
  Verified su planID claim a s s' /\ guarantee s s'.
Proof.
  intros Hs W E. unfold verifyExecution in E. apply action_bind_Ok in E as (u & s1 & E1 & E). apply check_Ok in E1 as [_ ->].
  apply action_bind_Ok in E as (stored & s1 & E1 & E).
  assert (guarantee s s1) as G1.
  { change s1 with ((Ok stored, s1).2). rewrite <- E1. apply sound_call; [done|]. auto with acks. }
  destruct (proj2 G1 W) as [W1 _]. rewrite call_Ok in E1. apply Get_holds in E1 as [_ Hh]. specialize (Hh W1).
  match type of E with (if ?b then _ else _) _ = _ => destruct b eqn:Eb end; [by apply denyStored_fails in E|].
  apply orb_false_iff in Eb as [Ea Eb]. bool_hyps.
  assert (forall claimed s2, guarantee s1 s2 -> checkAndSpend su planID claimed stored s2 = (Ok a, s') ->
    (forall at_, claimed = Some at_ -> exists id, claim = Some (id, at_)) ->
    (forall id at_, claim = Some (id, at_) -> id = ak_AcknowledgementID (sd_Acknowledgement stored)
       /\ size (runClaims planID id (FormatRFC3339 at_) (tables (st_db s2))) = 1%nat) ->
    Verified su planID claim a s s' /\ guarantee s s') as Hend.
  { intros claimed s2 G2 E2 Hcl Hc. assert (held s2 planID stored) as Hh2 by (by exists s1).
    destruct (checkAndSpend_Ok _ _ _ _ _ _ _ Hs Hh2 Ea E2) as (plan & P1 & P2 & P3 & P4 & P5 & G3 & -> & Hv).
    split; [|by do 2 (etransitivity; [eassumption|])]. constructor.
    - exists (sd_Request stored), plan. split_and!; try done. apply Hh.
    - done.
    - cbn zeta. destruct (sd_Consumed stored) eqn:Ec.
      + destruct claim as [[id at_]|]; [|discriminate Eb]. right. exists id, at_. split; [done|]. right.
        exists s1, (sd_Request stored). split; [done|]. destruct Hh as [Hv1 _ _ _]. unfold phaseOf in Hv1. by rewrite Ec in Hv1.
      + destruct P5 as [P5|[P5|(at_ & Hat & P5)]]; [done|by left|right].
        destruct (Hcl _ Hat) as [id Hid]. exists id, at_. auto.
    - intros id at_ Hid. destruct (Hc _ _ Hid) as [-> Hsz]. split; [done|]. exists s2.
      split_and!; [by etransitivity|done|done]. }
  destruct claim as [[id at_]|].
  2: { apply (Hend None s1); [done|done|by intros|by intros]. }
  match type of E with (if ?b then _ else _) _ = _ => destruct b eqn:Ei end; [by apply denyStored_fails in E|]. bool_hyps.
  apply action_bind_Ok in E as ([u'|err] & s2 & E2 & E); [|by apply denyStored_fails in E].
  assert (call su ClaimCall (fun env => VerifyRunClaim env planID id at_) s1 = (Ok u', s2)) as E3.
  { unfold attempt in E2. destruct (call su ClaimCall _ s1) as [r s3]. by injection E2 as -> ->. }
  assert (guarantee s1 s2) as G2.
  { change s2 with ((Ok u', s2).2). rewrite <- E3. apply sound_call; [done|]. auto with acks. }
  apply (Hend (Some at_) s2); [done|done|intros ? [= ->]; eauto|].
  intros id' at' [= <- <-]. split; [done|]. rewrite call_Ok in E3. apply VerifyRunClaim_Ok in E3 as [Hdb Hn]. by rewrite Hdb.
Qed.

(** ** Decisions *)

(** A decision that changed the tables is the one they hold afterwards. *)
Lemma Decide_changed env record s stored s' :
  PoliteEnv env -> ack_wf (tables (st_db s)) -> AckRepository.Decide env record s = (Ok (stored, true), s') ->
  sd_Acknowledgement stored = dn_Outcome record /\ sd_Request stored = dn_Expected record.
Proof.
  intros He W E. apply Decide_holds in E as Hh; [|change s' with ((Ok (stored, true), s').2); rewrite <- E; by apply sound_Decide].
  unfold AckRepository.Decide in E. apply action_bind_Ok in E as (u & s1 & E1 & E). apply check_Ok in E1 as [Hv ->]. bool_hyps.
  apply action_bind_Ok in E as (res & s2 & E2 & E). apply action_bind_Ok in E as (u2 & s3 & E3 & E).
  unfold modify in E3. injection E3 as _ E3. apply action_bind_Ok in E as (last & s4 & E4 & E). injection E as -> Ec ->.
  apply executeAuditIntent_outcome in E2 as [[_ Hr]|(res' & ev & p & d & l & A & Hr)].
  { destruct (Hr _ eq_refl) as (row & _ & _ & ->). discriminate Ec. }
  apply ap_tables in A. match goal with E : validAcknowledgementDecision _ = true |- _ => rename E into Hvd end.
  destruct (decideChange_step _ _ _ Hvd A W) as (W2 & _ & _ & _ & V).
  destruct (pe_after _ He s2) as [_ G]. rewrite E3 in G. destruct (G W2) as [W3 Ev].
  apply Get_holds in E4 as [Hdb Hh4]. rewrite Hdb in *. specialize (Hh4 W3).
  destruct (holds_later _ _ _ _ _ _ _ W3 Ev V eq_refl Hh) as (_ & -> & [Hl|Hl]); (split; [|done]);
    unfold phaseOf in Hl; repeat case_match; by simplify_eq.
Qed.

(** The plan a live decision was checked against *)
Definition decidable su (c : Candidate) (r : AcknowledgementRequest) : Prop :=
  let now := nowAt su DecisionClock in
  Before now (mustTime (kq_ExpiresAt r)) = true /\ timely now c = true
  /\ exists plan, su_Plan su (cd_PlanID c) = Ok plan /\ validCurrentHumanPlan su (cd_Human c) plan = None.

(** Where an answer of [Decide] comes from: it repeats the recorded decision, it
    decides the request, or the very proof of this decision was recorded by
    another call. *)
Inductive DecisionOrigin su (c : Candidate) (r : AcknowledgementRequest) (a : Acknowledgement) s : Store -> Prop :=
| origin_recorded s1 s' :
    guarantee s s1 -> guarantee s1 s' -> ak_Status a = cd_Action c -> ak_Status a <> "pending" ->
    view (tables (st_db s1)) (ak_AcknowledgementID a) = Some (r, Settled a)
    \/ view (tables (st_db s1)) (ak_AcknowledgementID a) = Some (r, Spent a) ->
    DecisionOrigin su c r a s s'
| origin_decided s' :
    decidable su c r ->
    a = outcomeFrom r (ak_AcknowledgementID a) (cd_Action c) (nowAt su DecisionClock)
          (proofDigest r (cd_Action c) (nowAt su DecisionClock)) ->
    view (tables (st_db s')) (ak_AcknowledgementID a) = Some (r, Settled a)
    \/ view (tables (st_db s')) (ak_AcknowledgementID a) = Some (r, Spent a) ->
    DecisionOrigin su c r a s s'
| origin_concurrent s' :
    decidable su c r -> ak_ProofDigest a = proofDigest r (cd_Action c) (nowAt su DecisionClock) ->
    DecisionOrigin su c r a s s'.

Lemma phaseOf_settled stored : ak_Status (sd_Acknowledgement stored) <> "pending" ->
  phaseOf stored = Settled (sd_Acknowledgement stored) \/ phaseOf stored = Spent (sd_Acknowledgement stored).
Proof. intros Hn. unfold phaseOf. destruct (sd_Consumed stored); [by right|left]. by case_bool_decide. Qed.

Lemma settle_Ok su stored c s a s' :
  PoliteSurroundings su -> ack_wf (tables (st_db s)) -> validCandidate c = true ->
  settle su stored c (nowAt su DecisionClock) s = (Ok a, s') ->
  (exists plan, su_Plan su (cd_PlanID c) = Ok plan /\ validCurrentHumanPlan su (cd_Human c) plan = None)
  /\ (a = outcomeOf stored (cd_Action c) (nowAt su DecisionClock)
       /\ (view (tables (st_db s')) (ak_AcknowledgementID a) = Some (sd_Request stored, Settled a)
            \/ view (tables (st_db s')) (ak_AcknowledgementID a) = Some (sd_Request stored, Spent a))
      \/ ak_ProofDigest a = proofDigest (sd_Request stored) (cd_Action c) (nowAt su DecisionClock)).
Proof.
  intros Hs W Hvc E. unfold settle in E. apply action_bind_Ok in E as (plan & s1 & E1 & E).
  assert (su_Plan su (cd_PlanID c) = Ok plan /\ s1 = s) as [Epl ->] by (unfold lift in E1; by injection E1).
  destruct (validCurrentHumanPlan su (cd_Human c) plan) eqn:Eh; [by apply denyCandidate_fails in E|].
  split; [by exists plan|]. destruct (NewAttribution _ _); [|discriminate E].
  apply action_bind_Ok in E as ([decided changed] & s2 & E2 & E). apply action_bind_Ok in E as (u & s3 & E3 & E).
  apply check_Ok in E3 as [Ep ->]. injection E as <- <-. destruct changed; cbn [orb] in Ep; [left|right; by bool_hyps].
  rewrite call_Ok in E2. destruct (proj2 (ps_others _ Hs DecideCall s) W) as [W1 _].
  pose proof E2 as Hh. apply Decide_holds in Hh;
    [|change s2 with ((Ok (decided, true), s2).2); rewrite <- E2; apply sound_Decide; [apply Hs|done]].
  apply Decide_changed in E2 as [E2 E3]; [|apply Hs|done]. cbn in E2, E3. split; [done|].
  destruct Hh as [Hv _ _ _]. rewrite E3 in Hv. rewrite Hv.
  destruct (phaseOf_settled decided) as [->| ->]; [|by left|by right].
  rewrite E2. cbn. unfold validCandidate in Hvc. bool_hyps.
  match goal with E : _ || _ = true |- _ => apply orb_true_iff in E as [E|E]; bool_hyps; by rewrite E end.
Qed.

Lemma service_Decide_Ok su c s a s' :
  PoliteSurroundings su -> ack_wf (tables (st_db s)) -> AckService.Decide su c s = (Ok a, s') ->
  exists r, candidateMatchesRequest c r = true /\ DecisionOrigin su c r a s s'.
Proof.
  intros Hs W E. unfold AckService.Decide in E. apply action_bind_Ok in E as (u & s1 & E1 & E).
  apply check_Ok in E1 as [Hvc ->]. apply action_bind_Ok in E as (stored & s1 & E1 & E).
  assert (guarantee s s1) as G1.
  { change s1 with ((Ok stored, s1).2). rewrite <- E1. apply sound_call; [done|]. auto with acks. }
  destruct (proj2 G1 W) as [W1 _]. rewrite call_Ok in E1. apply Get_holds in E1 as [_ Hh]. specialize (Hh W1).
  destruct (candidateMatchesRequest c (sd_Request stored)) eqn:Em; cbn [negb] in E; [|by apply denyCandidate_fails in E].
  exists (sd_Request stored). split; [done|].
  destruct (decide (ak_Status (sd_Acknowledgement stored) = "pending")) as [Ea|Ea].
  - rewrite (bool_decide_eq_true_2 _ Ea) in E. cbn [negb] in E.
    destruct (Before (nowAt su DecisionClock) _) eqn:Eb; cbn [negb] in E.
    2: { apply action_bind_Ok in E as (x & s2 & _ & E). by apply denyCandidate_fails in E. }
    destruct (timely _ c) eqn:Et; cbn [negb] in E; [|by apply denyCandidate_fails in E].
    destruct (settle_Ok _ _ _ _ _ _ Hs W1 Hvc E) as [Hp [[Ho Hv]|Ho]].
    + apply origin_decided; [done| |done]. rewrite Ho at 1. by rewrite Ho.
    + by apply origin_concurrent.
  - rewrite (bool_decide_eq_false_2 _ Ea) in E. cbn [negb] in E.
    case_bool_decide as Es; [|by apply denyCandidate_fails in E]. injection E as <- <-.
    apply (origin_recorded _ _ _ _ _ s1); [done|done|done|done|]. destruct Hh as [Hv _ _ _]. rewrite Hv.
    by destruct (phaseOf_settled stored Ea) as [->| ->]; [left|right].
Qed.

(** ** Denials *)

Notation denialKey digest := ("acknowledgement-denial", digest).

(** A denial that was recorded is an intent of the audit log, bound to its
    reason. *)
Lemma RecordDenial_Ok env record s u s' :
  RecordDenial env record s = (Ok u, s') ->
  exists row, intent_keys (st_db s') !! denialKey (dl_AttemptDigest record) = Some row
    /\ in_RequestDigest row = hashString (dl_ReasonCode record).
Proof.
  unfold RecordDenial. intros E. apply action_bind_Ok in E as (u1 & s1 & E1 & E). apply check_Ok in E1 as [_ ->].
  apply action_bind_Ok in E as (res & s2 & E1 & E). injection E as _ ->.
  apply executeAuditIntent_outcome in E1 as [[-> Hr]|(res' & ev & p & d & l & A & _)].
  - destruct (Hr _ eq_refl) as (row & Hk & Hd & _). by exists row.
  - rewrite (ap_intents _ _ _ _ _ _ _ _ _ _ _ A). eexists. split; [apply lookup_insert_eq|done].
Qed.

(** The key of a denial that was recorded for another reason is taken. *)
Lemma RecordDenial_conflict env record s row :
  intent_keys (st_db s) !! denialKey (dl_AttemptDigest record) = Some row ->
  in_RequestDigest row <> hashString (dl_ReasonCode record) ->
  exists e s', RecordDenial env record s = (Err e, s') /\ st_db s' = st_db s.
Proof.
  intros Hk Hd. destruct (RecordDenial env record s) as [[u|e] s'] eqn:E.
  - apply RecordDenial_Ok in E as Hr. destruct Hr as (row' & Hk' & Hd'). exfalso.
    unfold RecordDenial in E. apply action_bind_Ok in E as (u1 & s1 & E1 & E). apply check_Ok in E1 as [_ ->].
    apply action_bind_Ok in E as (res & s2 & E1 & E). injection E as _ ->.
    apply executeAuditIntent_outcome in E1 as [[Hdb Hr]|(res' & ev & p & d & l & A & _)].
    + rewrite Hdb in Hk'. congruence.
    + apply ap_fresh in A. cbn in A. congruence.
  - exists e, s'. split; [done|]. unfold RecordDenial in E. apply action_bind_Err in E as [E|(u1 & s1 & E1 & E)].
    + unfold check, lift in E. by injection E as _ <-.
    + apply check_Ok in E1 as [_ ->]. apply action_bind_Err in E as [E|(res & s2 & _ & E)]; [|discriminate E].
      apply executeAuditIntent_outcome in E as [[Hdb _]|(res' & ev & p & d & l & A & _)]; [done|].
      apply ap_fresh in A. cbn in A. congruence.
Qed.

(** ** Targets *)

(** A host or resource the plan touches *)
Definition touches (plan : Plan) (id : string) : Prop :=
  (exists p, p_HostBaselineScope plan = Some p /\ (id = hb_SubjectHostID p \/ id = hb_ExecutionHostID p))
  \/ (exists hosts, p_HostAccessAuxiliaryHostIDs plan = Some hosts /\ id ∈ hosts)
  \/ (exists op, op ∈ p_Operations plan /\ id ∈ ExecutionResourceIDs plan op).

Lemma uniqueTargets_elem plan id : id ∈ uniqueTargets plan <-> touches plan id.
Proof.
  unfold uniqueTargets, touches. rewrite merge_sort_Permutation, elem_of_elements, elem_of_list_to_set, !elem_of_app.
  rewrite (list_elem_of_In (flat_map _ _)), in_flat_map. setoid_rewrite <- list_elem_of_In.
  destruct (p_HostBaselineScope plan) as [p|], (p_HostAccessAuxiliaryHostIDs plan) as [hosts|]; cbn; set_solver.
Qed.

Lemma uniqueTargets_NoDup plan : NoDup (uniqueTargets plan).
Proof. unfold uniqueTargets. rewrite merge_sort_Permutation. apply NoDup_elements. Qed.

Lemma authorizeTargets_None su human plan targets :
  authorizeTargets su human plan targets = None <->
  forall id, id ∈ targets -> exists decision,
    su_Authorize su human (mkRequest ActionAcknowledge (Authorization.mkTarget "plan.acknowledge" "plan-target" id)
                             (Some plan) [BranchHuman] None false) = (decision, None)
    /\ acknowledges human plan (Authorization.mkTarget "plan.acknowledge" "plan-target" id) decision = true.
Proof.
  induction targets as [|id rest IH]; cbn [authorizeTargets]; [split; [|done]; intros _ id Hid; set_solver|].
  destruct (su_Authorize su human _) as [decision [err|]] eqn:Ea.
  - split; [done|]. intros Hall. destruct (Hall id) as (d & Hd & _); [left|]. congruence.
  - destruct (acknowledges human plan _ decision) eqn:Ek.
    + rewrite IH. setoid_rewrite elem_of_cons. naive_solver.
    + split; [done|]. intros Hall. destruct (Hall id) as (d & Hd & Hk); [left|]. congruence.
Qed.

(** ** Digits *)

Lemma intDigits_pretty room value buffer :
  0 <= value < 10 ^ Z.of_nat room -> intDigits room value buffer = pretty_N_go (Z.to_N value) buffer.
Proof.
  revert value buffer. induction room as [|room IH]; intros value buffer Hv.
  - replace value with 0 by (cbn in Hv; lia). by rewrite pretty_N_go_0.
  - cbn [intDigits]. destruct (Z.ltb_spec 0 value) as [Hp|Hp].
    2: { replace value with 0 by lia. by rewrite pretty_N_go_0. }
    rewrite Nat2Z.inj_succ, Z.pow_succ_r in Hv by lia. rewrite pretty_N_go_step by lia.
    rewrite IH by (split; [apply Z.div_pos; lia|apply Z.div_lt_upper_bound; lia]).
    f_equal; [rewrite Z2N.inj_div by lia; done|]. f_equal.
    assert (0 <= value mod 10 < 10) as Hd by (apply Z.mod_pos_bound; lia).
    replace (Z.to_N value `mod` 10)%N with (Z.to_N (value mod 10)) by (rewrite Z2N.inj_mod by lia; done).
    assert (value mod 10 ∈ seqZ 0 10) as Hin by (apply elem_of_seqZ; lia). revert Hin. clear.
    generalize (value mod 10). intros z Hz. change (seqZ 0 10) with [0; 1; 2; 3; 4; 5; 6; 7; 8; 9] in Hz.
    repeat (apply elem_of_cons in Hz as [->|Hz]; [reflexivity|]). by apply elem_of_nil in Hz.
Qed.

(** ** Properties *)

(** C18: the acknowledgement tables refine the life cycle: whatever calls the
    service serves, whatever fails in them and whatever others do in between,
    the tables stay well formed, the audit log stays verifiable, and every
    acknowledgement only moves from issued to decided to consumed, keeping its
    request and its proof. *)
Theorem acknowledgement_lifecycle calls s :
  Forall (fun c => PoliteSurroundings c.1) calls -> ack_wf (tables (st_db s)) -> audit_wf (st_db s) ->
  let s' := performCalls calls s in
  ack_wf (tables (st_db s')) /\ audit_wf (st_db s')
  /\ forall id, rtc AckStep (view (tables (st_db s)) id) (view (tables (st_db s')) id).
Proof.
  intros Hc W A. destruct (performCalls_guarantee calls s Hc) as [GA GW]. destruct (GW W) as [W' [Hv _]]. auto.
Qed.

(** Without a run to claim it a consumed approval is of no use: after
    [VerifyForExecution] (which the engine does not call) succeeded for a plan, it
    does not succeed again. *)
Theorem approval_executes_once su su' planID a a' s s1 s2 s3 :
  PoliteSurroundings su -> PoliteSurroundings su' -> ack_wf (tables (st_db s)) ->
  VerifyForExecution su planID s = (Ok a, s1) -> guarantee s1 s2 ->
  VerifyForExecution su' planID s2 <> (Ok a', s3).
Proof.
  intros Hs Hs' W E G E'. apply verifyExecution_Ok in E as [[(r & plan & _ & Hr & V & _) _ _ _] G1]; [|done..].
  destruct (proj2 G1 W) as [W1 _]. destruct (proj2 G W1) as [W2 Ev2].
  unfold VerifyForExecution, verifyExecution in E'. apply action_bind_Ok in E' as (u & s4 & E1 & E'). apply check_Ok in E1 as [_ ->].
  apply action_bind_Ok in E' as (stored & s4 & E1 & E').
  assert (guarantee s2 s4) as G4.
  { change s4 with ((Ok stored, s4).2). rewrite <- E1. apply sound_call; [done|]. auto with acks. }
  destruct (proj2 G4 W2) as [W4 Ev4]. rewrite call_Ok in E1. apply Get_holds in E1 as [_ Hh]. specialize (Hh W4).
  assert (evolves (tables (st_db s1)) (tables (st_db s4))) as Ev by (by etransitivity).
  destruct (holds_later _ _ _ _ _ _ _ W4 Ev V Hr Hh) as (_ & _ & Hl). apply phaseOf_Spent in Hl as [Hl _].
  rewrite Hl in E'. cbn [isNil andb] in E'. rewrite orb_true_r in E'. by apply denyStored_fails in E'.
Qed.

(** The unique index of the runs on their acknowledgement. *)
Definition oneOwner (t : AckTables) : Prop :=
  forall runID row runID' row' id, ack_runs t !! runID = Some row -> ack_runs t !! runID' = Some row' ->
    rr_AcknowledgementID row = Some id -> rr_AcknowledgementID row' = Some id -> runID = runID'.

(** Runs are neither deleted nor given another acknowledgement or creation time. *)
Definition runsKept (t t' : AckTables) : Prop :=
  forall runID row, ack_runs t !! runID = Some row ->
    exists row', ack_runs t' !! runID = Some row' /\ rr_AcknowledgementID row' = rr_AcknowledgementID row
                 /\ rr_CreatedAt row' = rr_CreatedAt row.

Lemma size_one {A} (m : gmap string A) : size m = 1%nat -> exists k x, m = {[k := x]}.
Proof.
  intros Hs. rewrite <- length_map_to_list in Hs.
  destruct (map_to_list m) as [|[k x] [|]] eqn:E; try done. exists k, x.
  rewrite <- (list_to_map_to_list m), E. done.
Qed.

Lemma claims_member planID id createdAt t runID row :
  runClaims planID id createdAt t = {[runID := row]} ->
  ack_runs t !! runID = Some row /\ rr_AcknowledgementID row = Some id /\ rr_CreatedAt row = createdAt.
Proof.
  intros E. assert (Hl : runClaims planID id createdAt t !! runID = Some row) by (rewrite E; apply lookup_singleton_eq).
  by apply map_lookup_filter_Some in Hl as (? & _ & ? & ? & _).
Qed.

Lemma claims_owner planID id at_ at' t t' runID row runID' row' :
  oneOwner t' -> runsKept t t' ->
  runClaims planID id at_ t = {[runID := row]} -> runClaims planID id at' t' = {[runID' := row']} ->
  runID' = runID /\ at' = at_.
Proof.
  intros U K (E & Ho & Hc)%claims_member (E' & Ho' & Hc')%claims_member.
  destruct (K _ _ E) as (x & Ex & Hxo & Hx).
  assert (runID' = runID) as -> by (eapply U; [exact E'|exact Ex|exact Ho'|congruence]).
  split; [done|]. congruence.
Qed.

(** A spent approval is the only one of its plan, for good. *)
Lemma spent_unique t t' planID id id' r r' a a' :
  ack_wf t' -> evolves t t' -> view t id = Some (r, Spent a) -> view t' id' = Some (r', Spent a') ->
  kq_PlanID r = planID -> kq_PlanID r' = planID -> a' = a.
Proof.
  intros W' [Ev _] V V' Hr Hr'. destruct (view_later _ _ _ _ (Ev id) V) as (p & Vp & ->).
  assert (Hrow : forall k r p, view t' k = Some (r, p) -> exists row, ack_requests t' !! k = Some row /\ kr_PlanID row = kq_PlanID r).
  { intros k r0 p0 Hk. unfold view in Hk. apply bind_Some in Hk as (row & Ek & Hk). exists row. split; [done|].
    destruct (rw_key _ _ _ (aw_row _ W' _ _ Ek)) as [-> _]. destruct (_ == _) in Hk; [by simplify_eq|].
    apply bind_Some in Hk as (proof & _ & Hk). by simplify_eq. }
  destruct (Hrow _ _ _ Vp) as (row & Ek & Hk), (Hrow _ _ _ V') as (row' & Ek' & Hk').
  assert (id' = id) as -> by (eapply (aw_unique _ W'); [exact Ek'|exact Ek|left; congruence]). congruence.
Qed.

(** C17: an approval serves one run. When two executions of a plan were verified
    for a run, one after the other, with any calls of the service and any polite
    behaviour of others before, between and within them, both were verified by
    one and the same approval, which both name; when each was verified exactly one
    queued run of the plan, created at the time the caller gave, owned this
    approval; and it is one and the same run when, between the two counts, no run
    was deleted or given another acknowledgement or creation time, and the unique
    index of the runs on their acknowledgement held at the second. So a consumed
    approval lets its own run go on after a crash and no other one start. *)
Theorem approval_serves_one_run su su' planID id id' at_ at' a a' s s1 s2 s3 :
  PoliteSurroundings su -> PoliteSurroundings su' -> ack_wf (tables (st_db s)) ->
  VerifyForRunExecution su planID id at_ s = (Ok a, s1) -> guarantee s1 s2 ->
  VerifyForRunExecution su' planID id' at' s2 = (Ok a', s3) ->
  a' = a /\ ak_AcknowledgementID a = id /\ id' = id
  /\ exists c c' runID row runID' row',
       guarantee s c /\ guarantee c s1 /\ guarantee s2 c' /\ guarantee c' s3
       /\ runClaims planID id (FormatRFC3339 at_) (tables (st_db c)) = {[runID := row]}
       /\ runClaims planID id (FormatRFC3339 at') (tables (st_db c')) = {[runID' := row']}
       /\ (oneOwner (tables (st_db c')) -> runsKept (tables (st_db c)) (tables (st_db c')) ->
           runID' = runID /\ FormatRFC3339 at' = FormatRFC3339 at_).
Proof.
  intros Hs Hs' W E G E'. unfold VerifyForRunExecution in E, E'.
  apply action_bind_Ok in E as (u & s4 & E1 & E). apply check_Ok in E1 as [_ ->].
  apply action_bind_Ok in E' as (u' & s4 & E1 & E'). apply check_Ok in E1 as [_ ->].
  apply verifyExecution_Ok in E as [[(r & plan & _ & Hr & V & _) _ _ C] G1]; [|done..].
  destruct (proj2 G1 W) as [W1 _]. destruct (proj2 G W1) as [W2 Ev2].
  apply verifyExecution_Ok in E' as [[(r' & plan' & _ & Hr' & V' & _) _ _ C'] G3]; [|done..].
  destruct (proj2 G3 W2) as [W3 Ev3].
  assert (Ev : evolves (tables (st_db s1)) (tables (st_db s3))) by (by etransitivity).
  rewrite (spent_unique _ _ _ _ _ _ _ _ _ W3 Ev V V' Hr Hr') in *. clear V'.
  destruct (C _ _ eq_refl) as (-> & c & Gc & Gc' & Hn), (C' _ _ eq_refl) as (-> & c' & Hc & Hc' & Hn').
  do 3 (split; [done|]). apply size_one in Hn as (runID & row & Hn), Hn' as (runID' & row' & Hn').
  exists c, c', runID, row, runID', row'. split_and!; try done. intros U K. by eapply claims_owner.
Qed.


(** C20: an answer of a human counts only for the request it names: it matches
    the stored request in every field and knows the nonce, and it either repeats
    the recorded decision or decides a live request, in time, for a plan its human
    may acknowledge now. *)
Theorem decision_binds_request su c a s s' :
  PoliteSurroundings su -> ack_wf (tables (st_db s)) -> AckService.Decide su c s = (Ok a, s') ->
  exists r, candidateMatchesRequest c r = true /\ DecisionOrigin su c r a s s'.
Proof. apply service_Decide_Ok. Qed.

(** A human may acknowledge a plan exactly when the plan is current and on
    the human branch, touches something, and the authorizer grants this human, at
    the revision and epoch of the plan, each host and resource it touches. *)
Theorem acknowledging_human_covers_targets su human plan :
  validCurrentHumanPlan su human plan = None <->
  ValidPrincipal human = true /\ EffectivePrincipalKind human = PrincipalHuman
  /\ p_AuthorizationBranch plan = BranchHuman /\ su_ValidateCurrent su HumanCheck plan = None
  /\ (exists id, touches plan id)
  /\ forall id, touches plan id -> exists decision,
       su_Authorize su human (mkRequest ActionAcknowledge (Authorization.mkTarget "plan.acknowledge" "plan-target" id)
                                (Some plan) [BranchHuman] None false) = (decision, None)
       /\ acknowledges human plan (Authorization.mkTarget "plan.acknowledge" "plan-target" id) decision = true.
Proof.
  setoid_rewrite <- uniqueTargets_elem. rewrite <- authorizeTargets_None. unfold validCurrentHumanPlan.
  destruct (ValidPrincipal human); cbn [negb orb]; [|naive_solver].
  repeat case_bool_decide; cbn [negb orb]; try naive_solver.
  destruct (su_ValidateCurrent su HumanCheck plan); [naive_solver|].
  destruct (uniqueTargets plan) as [|x l]; cbn [length Nat.eqb].
  - split; [done|]. intros (_ & _ & _ & _ & [id Hid] & _). by apply elem_of_nil in Hid.
  - split; [|naive_solver]. intros E. split_and!; try done. exists x. left.
Qed.

(** A denial is terminal only when it is audited: the error that lets an
    adapter drop the provider's envelope is only returned when the attempt is
    recorded as an intent of the audit log, under its reason. *)
Theorem terminal_denial_is_audited {A} su stored c cause s e s' :
  denyCandidate (A:=A) su stored c cause s = (Err e, s') -> IsTerminalDenial e = true ->
  e = Coded (denialCode cause) terminalDenialTarget
  /\ exists row, intent_keys (st_db s') !! denialKey (attemptDigest c) = Some row
       /\ in_RequestDigest row = hashString (denialCode cause).
Proof.
  unfold denyCandidate. intros E Ht. destruct (NewAttribution _ _); [|injection E as <- _; discriminate Ht].
  apply action_bind_Err in E as [E|(recorded & s1 & E1 & E)].
  - unfold attempt in E. by destruct (call su DenialCall _ s).
  - destruct recorded as [u|err]; injection E as <- <-; [|discriminate Ht]. split; [done|].
    unfold attempt in E1. destruct (call su DenialCall _ s) as [r s2] eqn:Ec. injection E1 as -> ->.
    rewrite call_Ok in Ec. by apply RecordDenial_Ok in Ec.
Qed.

(** The fingerprint of an attempt names neither the human nor the reason:
    once an attempt was denied for one reason, the same attempt denied for another
    reason is neither audited nor terminal, so that the adapter keeps receiving
    the envelope. *)
Theorem denial_for_second_reason_is_lost {A} su stored c cause s row :
  let s1 := su_others su DenialCall s in
  intent_keys (st_db s1) !! denialKey (attemptDigest c) = Some row ->
  in_RequestDigest row <> hashString (denialCode cause) ->
  exists e s', denyCandidate (A:=A) su stored c cause s = (Err e, s') /\ IsTerminalDenial e = false
    /\ (st_db s' = st_db s1 \/ st_db s' = st_db s).
Proof.
  intros s1 Hk Hd. unfold denyCandidate. destruct (NewAttribution _ _) as [attribution|]; [|eauto 10].
  destruct (RecordDenial_conflict (su_env su DenialCall) (candidateDenial su stored c cause attribution) s1 row)
    as (e & s' & E & Hdb); [done|done|].
  exists (Coded IntegrityFailure "acknowledgement-denial-audit"), s'. split_and!; [|done|by left].
  unfold mbind, action_bind, attempt. rewrite call_Ok. fold s1. by rewrite E.
Qed.

(** The decimal printer of the digests is exact: for every int64 its twenty
    digits are enough, and it prints a natural number as [strconv] does; a
    negative number, which no valid request holds, prints as nothing. *)
Theorem intString_decimal v : in_int64 v -> intString v = if v <? 0 then "" else pretty v.
Proof.
  intros [_ Hv]. unfold max_int64 in Hv. unfold intString. case_bool_decide as E0; [by subst|].
  destruct (Z.ltb_spec v 0) as [Hn|Hn].
  - cbn [intDigits]. by destruct (Z.ltb_spec 0 v); [lia|].
  - rewrite intDigits_pretty by (change (10 ^ Z.of_nat 20) with 100000000000000000000; lia).
    destruct v as [|p|p]; [done| |lia]. reflexivity.
Qed.
End Safety.
