(* ===== verification/AckAdmission.v ===== *)
(** The admission gate of runs with the acknowledgement service behind it: the
    approval that activates a run is one the service has spent for this run. *)

From S2P Require Import Prelude GoTime Hash GoJson Contracts AuditLog AuditStore Authorization Adapter ExecutorLease RunRepository RunHistory.
From S2P Require Import RunEngine Admission AckRepository AckLifecycle AckService AckSafety.

Section Composition.
Context `{Hasher} `{HostReplacementContract} `{AdmissionSchemas} `{AckSchemas}.

(** The service as the gate sees it, at the moment of the call *)
Definition acknowledgementSource (su : AckService.Surroundings) (s : Store AckTables) : AcknowledgementSource :=
  mkAcknowledgementSource (fun planID => (AckService.Status su planID s).1)
    (fun planID id at_ => (AckService.VerifyForRunExecution su planID id at_ s).1).

(** C21: a run whose plan a human must approve is only activated with an approval
    the service has spent: after the activation the stored acknowledgement the run
    names is consumed, it is the approval of exactly this plan and of the plan the
    service read, and exactly one queued run created at the time of this one owned
    it. *)
Theorem activation_spends_approval su s clock ctx plan decision current acknowledgement :
  PoliteSurroundings su -> ack_wf (tables (st_db s)) -> p_AuthorizationBranch plan <> BranchPreauthorized ->
  Admission.Activate (mkAdmissionGate (Some (acknowledgementSource su s)) clock) ctx plan decision current acknowledgement
    = None ->
  exists id a s', r_AcknowledgementID current = Some id /\ ak_AcknowledgementID a = id
    /\ AckService.VerifyForRunExecution su (p_PlanID plan) id (parseTime (r_CreatedAt current)) s = (Ok a, s')
    /\ Verified su (p_PlanID plan) (Some (id, parseTime (r_CreatedAt current))) a s s'
    /\ ak_PlanDigest a = p_PlanDigest plan /\ runOf plan current.
Proof.
  intros Hs W Hb E. apply activate_vouched in E as (_ & Hrun & source & id & a & Hg & Hid & Hv & Ha & _ & Hx); [|done].
  injection Hg as <-. cbn [Admission.VerifyForRunExecution acknowledgementSource] in Hv.
  destruct (AckService.VerifyForRunExecution su (p_PlanID plan) id (parseTime (r_CreatedAt current)) s) as [r s'] eqn:Ev.
  cbn [fst] in Hv. subst r. exists id, a, s'. split_and!; [done|done|done| |by destruct Hx as [_ _ [_ ?] _ _]|done].
  unfold AckService.VerifyForRunExecution in Ev. apply action_bind_Ok in Ev as (u & s1 & E1 & Ev). apply check_Ok in E1 as [_ ->].
  by apply verifyExecution_Ok in Ev as [V _].
Qed.

End Composition.
