(* ===== verification/AckWitnesses.v ===== *)
(** The acknowledgement theorems at concrete inputs: a plan that a human is asked
    about, approves, and executes (and claims again after a restart), evaluated through the service and the audited
    store; and a click that is denied twice for two reasons, of which the second
    is lost. *)

From S2P Require Import Prelude GoTime Hash GoJson Contracts AuditLog AuditStore Authorization Adapter ExecutorLease RunRepository RunHistory.
From S2P Require Import RunEngine Admission AckRepository AckLifecycle AckService AckSafety AckAdmission.

Section AckWitnesses.

#[local] Existing Instance Checksum.
#[local] Instance lenientInputs : HostReplacementContract :=
  {| ValidateInput _ := true; ValidateAliasClaim _ := true |}.
#[local] Instance lenientAcks : AckSchemas :=
  {| exactRequest r := sha256Digest (kq_PlanDigest r); exactOutcome a := sha256Digest (ak_PlanDigest a);
     exactApproval _ := true |}.
#[local] Instance lenientAdmission : AdmissionSchemas :=
  {| exactPlan plan := sha256Digest (p_PlanDigest plan); exactDecision decision := sha256Digest (ad_PlanDigest decision);
     exactAcknowledgement a := sha256Digest (ak_PlanDigest a) |}.

Definition askedPlan : Plan :=
  mkPlan "plan-1" (hashString "plan") "host-1"
    (mkPlanBinding 0 0 0 1 (hashString "o") (hashString "t") (hashString "r") "v1" "v1" "v1")
    [mkPlanOperation 1 "op-1" "backup.snapshot" "core.backup" "executor-1" "host-1" (hashString "input")
       (hashString "artifact") false]
    "planned" "production-like" "human" "central" None "2026-09-16T01:10:00Z" "2026-09-16T01:40:00Z"
    None None None None None None None None None [].

Definition alice : Principal := mkPrincipal "alice" "slack-socket-mode" "human" "".
Definition mallory : Principal := mkPrincipal "mallory" "slack-socket-mode" "human" "".

(** An authorizer that grants [alice] what she asks for. *)
Definition grantsAlice (human : Principal) (request : Authorization.Request) : Decision * option error :=
  let plan := default askedPlan (rq_Plan request) in
  (mkDecision (pn_ID human) (rq_Action request) (rq_Target request) (pn_ID human == "alice") (Some BranchHuman) "allowed" 1
     (b_StateRevision (p_Binding plan)) (b_RecoveryEpoch (p_Binding plan)) (p_PlanDigest plan) "routine" zeroScope, None).

(** Minutes after one o'clock, with a store that never fails and nobody else. *)
Definition askedAt (minute : Z) : Time := parseTime ("2026-09-16T01:" +:+ pretty minute +:+ ":00Z").

Definition askedSurroundings (minute : Z) : AckService.Surroundings := {|
  su_Plan _ := Ok askedPlan; su_ValidateCurrent _ _ := None; su_Authorize := grantsAlice;
  su_Clock _ := askedAt minute; su_env _ := quietAckEnv (askedAt minute); su_others _ := id |}.

Lemma polite_id : polite id.
Proof. intros s. reflexivity. Qed.

Lemma askedSurroundings_polite minute : PoliteSurroundings (askedSurroundings minute).
Proof. split; intros c; [exact polite_id|]. by split; exact polite_id. Qed.

(** The run that will claim the approval *)
Definition askedRun : Run :=
  mkRun "run-1" "plan-1" (hashString "plan") "decision-1"
    (Some (acknowledgementIDFor (requestFor (mkScope alice "authority-1" "nonce-1") askedPlan))) "v1" "central"
    "executor-1" (hashString "binding") "queued" [] false "not-requested" "pending" None false 0 0 "2026-09-16T01:13:00Z"
    "2026-09-16T01:13:00Z" [].

Definition askedTables : AckTables :=
  mkAckTables empty empty {["plan-1" := askedPlan]}
    {["run-1" := mkRunRow "plan-1" (r_AcknowledgementID askedRun) "queued" false "not-requested" "pending" None false
        (hashString "submit") (hashString "request") askedRun "2026-09-16T01:13:00Z" "2026-09-16T01:13:00Z"]}.

Definition askedStart : Store AckTables := readyStore (emptyDb askedTables).

Lemma askedStart_wf : ack_wf (tables (st_db askedStart)) /\ audit_wf (st_db askedStart).
Proof.
  split; [constructor; cbn|constructor; cbn; try done; constructor].
  - apply map_Forall_empty.
  - intros id [p Hp]. by rewrite lookup_empty in Hp.
  - intros id id' row row' Hr. by rewrite lookup_empty in Hr.
Qed.

Definition askedOnce : result RequestCard * Store AckTables :=
  AckService.Request (askedSurroundings 11) (mkScope alice "authority-1" "nonce-1") "plan-1" askedStart.

(** A click of a human on the card *)
Definition click (human : Principal) (action : string) (minute : Z) : Candidate :=
  mkCandidate human "authority-1" action "plan-1" (hashString "plan") (hashString "t") (hashString "r") "nonce-1" 0 0
    (askedAt 40) (askedAt minute).

Definition approvedOnce : result Acknowledgement * Store AckTables :=
  AckService.Decide (askedSurroundings 12) (click alice ActionApprove 12) askedOnce.2.

Definition executedOnce : result Acknowledgement * Store AckTables :=
  VerifyForExecution (askedSurroundings 13) "plan-1" approvedOnce.2.

Definition status_of (r : result Acknowledgement) : string := match r with Ok a => ak_Status a | Err _ => "" end.

Lemma asked_approved_executed :
  is_ok askedOnce.1 = true /\ status_of approvedOnce.1 = "approved" /\ status_of executedOnce.1 = "approved".
Proof. vm_compute. by split_and!. Qed.

Lemma wf_of_guarantee s s' : guarantee s s' -> ack_wf (tables (st_db s)) -> ack_wf (tables (st_db s')).
Proof. intros [_ G] W. exact (proj1 (G W)). Qed.

Lemma approvedOnce_wf : ack_wf (tables (st_db approvedOnce.2)).
Proof.
  refine (wf_of_guarantee askedOnce.2 _ _ (wf_of_guarantee askedStart _ _ (proj1 askedStart_wf))).
  - exact (sound_Decide_service (askedSurroundings 12) _ (askedSurroundings_polite 12) _).
  - exact (sound_Request (askedSurroundings 11) _ _ (askedSurroundings_polite 11) _).
Qed.

Definition spentID : string := Eval vm_compute in
  acknowledgementIDFor (requestFor (mkScope alice "authority-1" "nonce-1") askedPlan).

Definition phaseName (v : option (AcknowledgementRequest * Phase)) : string :=
  match v with None => "" | Some (_, Open) => "open" | Some (_, Settled _) => "settled" | Some (_, Spent _) => "spent" end.

Definition askedCalls : list (AckService.Surroundings * ServiceCall) :=
  [(askedSurroundings 11, CallRequest (mkScope alice "authority-1" "nonce-1") "plan-1");
   (askedSurroundings 12, CallDecide (click alice ActionApprove 12)); (askedSurroundings 13, CallVerify "plan-1")].

Lemma acknowledgement_lifecycle_witness :
  phaseName (view (tables (st_db (performCalls askedCalls askedStart))) spentID) = "spent"
  /\ rtc AckStep None (view (tables (st_db (performCalls askedCalls askedStart))) spentID).
Proof.
  split; [vm_compute; reflexivity|].
  refine (proj2 (proj2 (acknowledgement_lifecycle askedCalls askedStart _ (proj1 askedStart_wf) (proj2 askedStart_wf))) spentID).
  unfold askedCalls. rewrite !Forall_cons. split_and!; try apply askedSurroundings_polite. by apply Forall_nil.
Defined.


(** The run claims its approval, and claims it again after a restart. *)
Definition claimedFirst : result Acknowledgement * Store AckTables :=
  VerifyForRunExecution (askedSurroundings 13) "plan-1" spentID (askedAt 13) approvedOnce.2.

Definition claimedAgain : result Acknowledgement * Store AckTables :=
  VerifyForRunExecution (askedSurroundings 41) "plan-1" spentID (askedAt 13) claimedFirst.2.

Lemma claimed_twice : status_of claimedFirst.1 = "approved" /\ status_of claimedAgain.1 = "approved".
Proof. vm_compute. by split. Qed.

Lemma status_Ok (answer : result Acknowledgement * Store AckTables) : status_of answer.1 = "approved" ->
  exists a, answer = (Ok a, answer.2).
Proof. destruct answer as [[a|e] s]; [by exists a|done]. Qed.

Lemma approval_serves_one_run_witness : exists a, claimedFirst.1 = Ok a /\ claimedAgain.1 = Ok a.
Proof.
  destruct (status_Ok claimedFirst (proj1 claimed_twice)) as [a E].
  destruct (status_Ok claimedAgain (proj2 claimed_twice)) as [a' E'].
  exists a. rewrite E, E'. unfold claimedFirst at 1 in E. unfold claimedAgain at 1 in E'.
  pose proof (reflexivity (R := guarantee) claimedFirst.2) as G.
  pose proof (proj1 (approval_serves_one_run (askedSurroundings 13) (askedSurroundings 41) "plan-1" spentID spentID
    (askedAt 13) (askedAt 13) a a' approvedOnce.2 claimedFirst.2 claimedFirst.2 claimedAgain.2
    (askedSurroundings_polite 13) (askedSurroundings_polite 41) approvedOnce_wf E G E')) as Ha.
  subst a'. by split.
Defined.

Definition claimedOnce : result Acknowledgement * Store AckTables :=
  VerifyForRunExecution (askedSurroundings 14) "plan-1" spentID (askedAt 13) executedOnce.2.

Lemma claimedOnce_Ok : status_of claimedOnce.1 = "approved".
Proof. vm_compute. reflexivity. Qed.


Lemma decision_binds_request_witness :
  exists a r, approvedOnce.1 = Ok a /\ kq_HumanID r = "alice" /\ kq_NonceDigest r = hashString "nonce-1".
Proof.
  pose proof (proj1 (proj2 asked_approved_executed)) as E.
  destruct (approvedOnce) as [[a|] s'] eqn:Ea; [|discriminate E]. exists a.
  destruct (decision_binds_request (askedSurroundings 12) (click alice ActionApprove 12) a askedOnce.2 s'
    (askedSurroundings_polite 12)) as (r & Hr & _); [|exact Ea|].
  - refine (wf_of_guarantee askedStart _ _ (proj1 askedStart_wf)).
    exact (sound_Request (askedSurroundings 11) _ _ (askedSurroundings_polite 11) _).
  - exists r. unfold candidateMatchesRequest in Hr. bool_hyps. by split_and!.
Defined.

(** ** A click that is denied twice *)

(** What the adapter learns of an error *)
Definition terminalAnswer {A} (r : result A) : bool := match r with Ok _ => false | Err e => IsTerminalDenial e end.

(** Another human clicks first, and is denied for that. *)
Definition deniedOnce : result Acknowledgement * Store AckTables :=
  AckService.Decide (askedSurroundings 12) (click mallory ActionApprove 12) askedOnce.2.

Definition storedOnce : Stored :=
  match (Get (quietEnv (askedAt 50)) "plan-1" askedOnce.2).1 with
  | Ok stored => stored
  | Err _ => mkStored (requestFor (mkScope alice "authority-1" "nonce-1") askedPlan)
               (outcomeFrom (requestFor (mkScope alice "authority-1" "nonce-1") askedPlan) "" "" (askedAt 50) "") false
  end.

Lemma terminal_denial_is_audited_witness :
  terminalAnswer deniedOnce.1 = true
  /\ is_Some (intent_keys (st_db (denyCandidate (A:=unit) (askedSurroundings 12) storedOnce (click mallory ActionApprove 12)
        (Coded AuthorizationDenied "acknowledgement") askedOnce.2).2)
        !! ("acknowledgement-denial", attemptDigest (click mallory ActionApprove 12))).
Proof.
  split; [vm_compute; reflexivity|].
  destruct (denyCandidate (A:=unit) (askedSurroundings 12) storedOnce (click mallory ActionApprove 12)
    (Coded AuthorizationDenied "acknowledgement") askedOnce.2) as [[u|e] s'] eqn:E; [by apply denyCandidate_fails in E|].
  assert (terminalAnswer (denyCandidate (A:=unit) (askedSurroundings 12) storedOnce (click mallory ActionApprove 12)
    (Coded AuthorizationDenied "acknowledgement") askedOnce.2).1 = true) as Ht by (vm_compute; reflexivity).
  rewrite E in Ht. destruct (terminal_denial_is_audited _ _ _ _ _ _ _ E Ht) as (_ & row & Hr & _). cbn [snd].
  rewrite Hr. by exists row.
Defined.

(** The bound human clicks after the expiry: the same attempt, denied as stale. *)
Lemma denial_for_second_reason_is_lost_witness :
  terminalAnswer deniedOnce.1 = true
  /\ terminalAnswer (denyCandidate (A:=unit) (askedSurroundings 50) storedOnce (click alice ActionApprove 50)
        (Coded PlanStale "acknowledgement") deniedOnce.2).1 = false.
Proof.
  split; [vm_compute; reflexivity|].
  destruct (intent_keys (st_db deniedOnce.2) !! ("acknowledgement-denial", attemptDigest (click alice ActionApprove 50)))
    as [row|] eqn:Ek; [|exfalso; revert Ek; vm_compute; discriminate].
  destruct (denial_for_second_reason_is_lost (A:=unit) (askedSurroundings 50) storedOnce (click alice ActionApprove 50)
    (Coded PlanStale "acknowledgement") deniedOnce.2 row Ek) as (e & s' & E & Ht & _).
  - intros Ed. assert (in_RequestDigest <$> intent_keys (st_db deniedOnce.2)
      !! ("acknowledgement-denial", attemptDigest (click alice ActionApprove 50)) = Some (hashString AuthorizationDenied)) as Hk
      by (vm_compute; reflexivity).
    rewrite Ek in Hk. cbn in Hk. injection Hk as Hk. rewrite Hk in Ed. revert Ed. vm_compute. discriminate.
  - rewrite E. exact Ht.
Defined.

Lemma intString_decimal_witness : intString max_int64 = "9223372036854775807" /\ intString (-1) = "".
Proof.
  assert (in_int64 max_int64) as Hmax by (vm_compute; split; discriminate).
  split; [rewrite (intString_decimal _ Hmax); vm_compute; reflexivity|].
  rewrite (intString_decimal (-1)); [reflexivity|vm_compute; split; discriminate].
Defined.

(** ** The activation of the claiming run *)

Definition askedDecision : AuthorizationDecision :=
  mkAuthorizationDecision "decision-1" "alice" "execute" "host-1" true (Some "human") "allowed" 1 0
    (hashString "plan") "2026-09-16T01:13:00Z".

Definition approvalOnce : Acknowledgement :=
  match approvedOnce.1 with Ok a => a | Err _ => sd_Acknowledgement storedOnce end.

Lemma activation_spends_approval_witness :
  exists a, ak_Status approvalOnce = "approved" /\ ak_AcknowledgementID a = spentID
  /\ ak_PlanDigest a = p_PlanDigest askedPlan.
Proof.
  destruct (activation_spends_approval (askedSurroundings 14) approvedOnce.2 (askedAt 14) (mkRequestContext None None)
    askedPlan askedDecision askedRun (Some approvalOnce) (askedSurroundings_polite 14) approvedOnce_wf)
    as (id & a & s' & Hid & <- & _ & _ & Hp & _).
  - discriminate.
  - vm_compute. reflexivity.
  - exists a. split_and!; [vm_compute; reflexivity| |exact Hp]. injection Hid as Hid. rewrite <- Hid. vm_compute. reflexivity.
Defined.

End AckWitnesses.
