(* ===== verification/Outbox.v ===== *)
(** The delivery of outbox rows ([store/outbox.go], [audit/types.go]): reading a
    row, recording an attempt to deliver it, and handing out its payload. The rows
    themselves are written by [AuditStore]; none is ever deleted, so that the
    generated key of a row is its place in the table. *)

From S2P Require Import Prelude GoTime Hash GoJson Contracts AuditLog AuditStore.

(** ** Types (audit/types.go) *)

Definition MaxDeliveryAttempts : Z := 8.

Definition ValidDeliveryErrorCode (code : string) : bool :=
  bool_decide (code ∈ ["DESTINATION_UNAVAILABLE"; "DELIVERY_REJECTED"; "PAYLOAD_INVALID"; "INTERRUPTED"]).

(** The schema of the payload and the bound on the attempts are constants. *)
Record OutboxRecord := mkOutboxRecord {
  or_OutboxID : Z;
  or_EventID : Z;
  or_Destination : string;
  or_PayloadSHA256 : string;
  or_DedupeSHA256 : string;
  or_Status : string;
  or_AttemptCount : Z;
  or_NextAttemptAt : option Time;
  or_LastErrorCode : option string;
  or_CreatedAt : Time;
  or_UpdatedAt : Time;
  or_DeliveredAt : option Time
}.

Record OutboxAttempt := mkOutboxAttempt {
  oa_OutboxID : Z;
  oa_ExpectedAttempt : Z;
  oa_Delivered : bool;
  oa_Retryable : bool;
  oa_ErrorCode : string;
  oa_AttemptedAt : Time
}.

Definition validateOutboxAttempt (attempt : OutboxAttempt) : bool :=
  (0 <? oa_OutboxID attempt) && (0 <=? oa_ExpectedAttempt attempt) && (oa_ExpectedAttempt attempt <? MaxDeliveryAttempts)
  && validAt (oa_AttemptedAt attempt)
  && (if oa_Delivered attempt then negb (oa_Retryable attempt) && (oa_ErrorCode attempt == "")
      else ValidDeliveryErrorCode (oa_ErrorCode attempt)).

(** ** Stored rows *)

Definition formatAuditTime (value : Time) : string := FormatRFC3339Nano (UTC value).

Definition parseAuditTime (value : string) : option Time :=
  parsed ← parseRFC3339 value;
  if FormatRFC3339Nano (UTC parsed) == value then Some (UTC parsed) else None.

(** The statuses of an attempt that may still come. *)
Definition openStatus (status : string) : bool := (status == "pending") || (status == "retry_wait").

Definition validOutboxState (record : OutboxRecord) : bool :=
  let attempts := or_AttemptCount record in
  let next := isNil (or_NextAttemptAt record) in
  let code := isNil (or_LastErrorCode record) in
  let delivered := isNil (or_DeliveredAt record) in
  if (or_Status record == "pending") || (or_Status record == "paused")
  then (attempts =? 0) && next && code && delivered
  else if or_Status record == "retry_wait"
  then (0 <? attempts) && (attempts <? MaxDeliveryAttempts) && negb next && negb code && delivered
  else if or_Status record == "delivered" then (0 <? attempts) && next && code && negb delivered
  else if or_Status record == "dead_letter" then next && negb code && delivered
  else false.

(** A column that may be null. *)
Definition scanTime (column : option string) : option (option Time) :=
  match column with
  | None => Some None
  | Some value => Some <$> parseAuditTime value
  end.

Section Outbox.
Context `{Hasher} {T : Type}.

Definition scanOutboxRecord (id : Z) (row : OutboxRow) : option OutboxRecord :=
  if (id <=? 0) || (ox_EventID row <=? 0)
     || negb (ValidateOutboxRequirements [mkOutboxRequirement (ox_Destination row) true])
     || (ox_AttemptCount row <? 0) || (MaxDeliveryAttempts <? ox_AttemptCount row)
     || negb (ValidFingerprint (ox_PayloadSHA256 row)) || negb (ValidFingerprint (ox_DedupeSHA256 row))
  then None
  else
    created ← parseAuditTime (ox_CreatedAt row);
    updated ← parseAuditTime (ox_UpdatedAt row);
    next ← scanTime (ox_NextAttemptAt row);
    code ← match ox_LastErrorCode row with
           | Some value => if ValidDeliveryErrorCode value then Some (Some value) else None
           | None => Some None
           end;
    delivered ← scanTime (ox_DeliveredAt row);
    let record := mkOutboxRecord id (ox_EventID row) (ox_Destination row) (ox_PayloadSHA256 row) (ox_DedupeSHA256 row)
                    (ox_Status row) (ox_AttemptCount row) next code created updated delivered in
    if Before updated created || negb (validOutboxState record) then None else Some record.

(** The row with a generated key. *)
Definition outboxAt (id : Z) (db : Db T) : option OutboxRow :=
  if id <=? 0 then None else outbox db !! Z.to_nat (id - 1).

(** The columns an attempt changes; the others of a row are immutable by a
    trigger. *)
Definition attempted (status : string) (attempts : Z) (next code : option string) (updated : string)
    (delivered : option string) (row : OutboxRow) : OutboxRow :=
  mkOutboxRow (ox_EventID row) (ox_Destination row) (ox_PayloadBytes row) (ox_PayloadSHA256 row) (ox_DedupeSHA256 row)
    status attempts next code (ox_CreatedAt row) updated delivered.

Definition columnTime (value : string) : bool :=
  (1 <=? String.length value)%nat && (String.length value <=? 64)%nat.
Definition nullOr (check : string -> bool) (column : option string) : bool :=
  match column with None => true | Some value => check value end.

(** The checks of the table on these columns *)
Definition outboxChecks (row : OutboxRow) : bool :=
  (0 <=? ox_AttemptCount row) && (ox_AttemptCount row <=? 8)
  && nullOr columnTime (ox_NextAttemptAt row) && nullOr ValidDeliveryErrorCode (ox_LastErrorCode row)
  && columnTime (ox_UpdatedAt row) && nullOr columnTime (ox_DeliveredAt row)
  && (((ox_Status row == "pending") || (ox_Status row == "paused")) && (ox_AttemptCount row =? 0)
        && isNil (ox_NextAttemptAt row) && isNil (ox_LastErrorCode row) && isNil (ox_DeliveredAt row)
      || (ox_Status row == "retry_wait") && (1 <=? ox_AttemptCount row) && (ox_AttemptCount row <=? 7)
        && negb (isNil (ox_NextAttemptAt row)) && negb (isNil (ox_LastErrorCode row)) && isNil (ox_DeliveredAt row)
      || (ox_Status row == "delivered") && (1 <=? ox_AttemptCount row)
        && isNil (ox_NextAttemptAt row) && isNil (ox_LastErrorCode row) && negb (isNil (ox_DeliveredAt row))
      || (ox_Status row == "dead_letter")
        && isNil (ox_NextAttemptAt row) && negb (isNil (ox_LastErrorCode row)) && isNil (ox_DeliveredAt row)).

(** [UPDATE outbox SET ... WHERE outbox_id=? AND ...]: the number of rows *)
Definition updateOutbox (id : Z) (matches : OutboxRow -> bool) (f : OutboxRow -> OutboxRow) (db : Db T)
    : SqlError + (Z * Db T) :=
  match outboxAt id db with
  | Some row =>
      if matches row then
        if outboxChecks (f row) then inr (1, setOutbox (<[Z.to_nat (id - 1) := f row]> (outbox db)) db)
        else inl SqlConstraint
      else inr (0, db)
  | None => inr (0, db)
  end.

(** [store.outboxReadError(ctx, cause)] *)
Definition outboxReadError {A} (env : TxEnv) (cause : error) : action (Store T) A :=
  if te_ctx env OnError then fail (Coded Interrupted "outbox")
  else enter "outbox-record-integrity";; fail (databaseError IntegrityFailure cause).

(** An error of the driver, as its callers see it. *)
Definition errDriver : error := Plain "sqlite".

(** The query of one record *)
Definition queryRecord (env : TxEnv) (id : Z) (missing : action (Store T) OutboxRecord) : action (Store T) OutboxRecord :=
  match te_sql env (Named "outbox-record") with
  | Some _ => outboxReadError env errDriver
  | None =>
      row ← gets (fun store => outboxAt id (st_db store));
      match row with
      | None => missing
      | Some row =>
          match scanOutboxRecord id row with
          | Some record => mret record
          | None => outboxReadError env (Plain "invalid persisted outbox record")
          end
      end
  end.

Definition noRecord : action (Store T) OutboxRecord := fail (Coded StateConflict "outbox-record").

(** ** Operations *)

Definition InspectOutbox (env : TxEnv) (id : Z) : action (Store T) OutboxRecord :=
  check (0 <? id) (Coded InputInvalid "outbox-id");;
  readyForRead env;;
  queryRecord env id noRecord.

(** The columns an attempt leaves behind. *)
Definition afterAttempt (record : OutboxRecord) (attempt : OutboxAttempt) : OutboxRow -> OutboxRow :=
  let attempts := or_AttemptCount record + 1 in
  let at_ := formatAuditTime (oa_AttemptedAt attempt) in
  if oa_Delivered attempt then attempted "delivered" attempts None None at_ (Some at_)
  else if oa_Retryable attempt && (attempts <? MaxDeliveryAttempts)
  then attempted "retry_wait" attempts (Some (formatAuditTime (Add (oa_AttemptedAt attempt) (RetryDelay attempts))))
         (Some (oa_ErrorCode attempt)) at_ None
  else attempted "dead_letter" attempts None (Some (oa_ErrorCode attempt)) at_ None.

Definition notDue (record : OutboxRecord) (at_ : Time) : bool :=
  Before at_ (or_UpdatedAt record) || match or_NextAttemptAt record with Some next => Before at_ next | None => false end.

Definition attemptInTx (env : TxEnv) (attempt : OutboxAttempt) : action (Store T) OutboxRecord :=
  record ← queryRecord env (oa_OutboxID attempt) noRecord;
  check ((or_AttemptCount record == oa_ExpectedAttempt attempt) && openStatus (or_Status record))
    (Coded StateConflict "outbox-attempt");;
  check (negb (notDue record (oa_AttemptedAt attempt))) (Coded StateConflict "outbox-not-due");;
  rows ← sql env (Named "update-outbox")
    (updateOutbox (oa_OutboxID attempt)
       (fun row => (ox_Status row == or_Status record) && (ox_AttemptCount row == or_AttemptCount record))
       (afterAttempt record attempt));
  check (rows == 1) (Coded StateConflict "outbox-attempt");;
  updated ← queryRecord env (oa_OutboxID attempt) (outboxReadError env errNoRows);
  checkIdentity (te_identityAtCommit env);;
  mret updated.

(** The commit of such a transaction, that began with [db]. *)
Definition commitOr (env : TxEnv) (reason : string) (db : Db T) : action (Store T) unit :=
  match te_sql env CommitTx with
  | Some cause =>
      (if te_commitDurable env then mret tt else modify (withDb db));;
      enter reason;;
      transactionError env CommitTx cause
  | None => mret tt
  end.

(** A transaction with its deferred rollback. *)
Definition transact {A} (env : TxEnv) (m : Db T -> action (Store T) A) : action (Store T) A :=
  match te_sql env BeginTx with
  | Some cause => transactionError env BeginTx cause
  | None => fun store => m (st_db store) store
  end.

Definition RecordOutboxAttempt (env : TxEnv) (attempt : OutboxAttempt) : action (Store T) OutboxRecord :=
  check (validateOutboxAttempt attempt) (Coded InputInvalid "outbox-attempt");;
  readyForTransaction env;;
  transact env (fun db =>
    updated ← rollback db (attemptInTx env attempt);
    commitOr env "outbox-commit-failure" db;;
    mret updated).

(** The event of a row; [audit_events] has a foreign key for it. *)
Definition eventOf (row : OutboxRow) (db : Db T) : option EventRow :=
  List.find (fun e => e_EventID (ev_Event e) == ox_EventID row) (audit_events db).

(** The payload is the stored event, canonical and with its digest. *)
Definition payloadExact (row : OutboxRow) (event : EventRow) : bool :=
  (ox_PayloadSHA256 row == hashString (ox_PayloadBytes row))
  && (ox_PayloadSHA256 row == ev_PayloadSHA256 event) && (ox_PayloadBytes row == ev_Payload event)
  && match CanonicalEvent (ev_Event event) with
     | Ok (canonical, digest) => (canonical == ev_Payload event) && (digest == ev_PayloadSHA256 event)
     | Err _ => false
     end.

(** A row whose payload is not is put aside for good. *)
Definition quarantine {A} (env : TxEnv) (id : Z) (row : OutboxRow) (now : Time) (db : Db T) : action (Store T) A :=
  rollback db
    (rows ← sql env (Named "quarantine-outbox")
       (updateOutbox id (fun r => ox_Status r == ox_Status row)
          (fun r => attempted "dead_letter" (ox_AttemptCount r) None (Some "PAYLOAD_INVALID") (formatAuditTime now) None r));
     if rows == 1 then mret tt else transactionError env (Named "quarantine-outbox") SqlOther);;
  commitOr env "outbox-commit-failure" db;;
  enter "outbox-payload-integrity";;
  fail (Coded IntegrityFailure "outbox-payload").

(** What [payloadForAttempt] does in its transaction; [inl] is a payload that is
    not exact. *)
Definition payloadInTx (env : TxEnv) (id : Z) (now : Time) : action (Store T) (OutboxRow + string) :=
  joined ← sql env (Named "outbox-payload") (query (fun db => row ← outboxAt id db; event ← eventOf row db; Some (row, event)));
  match joined with
  | None => fail (Coded StateConflict "outbox-record")
  | Some (row, event) =>
      check (openStatus (ox_Status row)) (Coded StateConflict "outbox-attempt");;
      match ox_NextAttemptAt row with
      | None => mret tt
      | Some next =>
          match parseAuditTime next with
          | None => outboxReadError env (Plain "invalid persisted audit timestamp")
          | Some due => check (negb (Before now due)) (Coded StateConflict "outbox-not-due")
          end
      end;;
      mret (if payloadExact row event then inr (ox_PayloadBytes row) else inl row)
  end.

Definition payloadForAttempt (env : TxEnv) (id : Z) (now : Time) : action (Store T) string :=
  check ((0 <? id) && validAt now) (Coded InputInvalid "outbox-attempt");;
  readyForTransaction env;;
  transact env (fun db =>
    answer ← rollback db (payloadInTx env id now);
    match answer with
    | inr payload => mret payload
    | inl row => quarantine env id row now db
    end).

End Outbox.

(** ** What the operations do to the rows *)

Section Outcomes.
Context `{Hasher} {T : Type}.
Implicit Types (db : Db T) (store : Store T).

Lemma keeps_outboxReadError {A} env cause : keeps_db (T:=T) (outboxReadError (A:=A) env cause).
Proof. unfold outboxReadError. case_match; eauto with audit_store. Qed.

Lemma keeps_queryRecord env id missing : keeps_db missing -> keeps_db (T:=T) (queryRecord env id missing).
Proof.
  intros Hm. unfold queryRecord. case_match; [apply keeps_outboxReadError|].
  apply keeps_bind; [apply keeps_gets|]. intros [row|]; [|done]. case_match; [apply keeps_mret|apply keeps_outboxReadError].
Qed.

Lemma outboxReadError_Ok {A} env cause store (x : A) store' : outboxReadError env cause store <> (Ok x, store').
Proof. unfold outboxReadError. by case_match. Qed.

Lemma queryRecord_Ok env id missing store record store' : (forall s s' x, missing s <> (Ok x, s')) ->
  queryRecord env id missing store = (Ok record, store') ->
  store' = store /\ exists row, outboxAt id (st_db store) = Some row /\ scanOutboxRecord id row = Some record.
Proof.
  intros Hm. unfold queryRecord. case_match; [intros E; by apply outboxReadError_Ok in E|].
  unfold mbind, action_bind, gets. destruct (outboxAt id (st_db store)) as [row|]; [|intros E; by apply Hm in E].
  destruct (scanOutboxRecord id row) as [r|] eqn:E; [|intros E'; by apply outboxReadError_Ok in E'].
  intros [= <- <-]. eauto.
Qed.

Lemma scan_columns id row record : scanOutboxRecord id row = Some record ->
  0 < id /\ or_OutboxID record = id /\ or_Status record = ox_Status row /\ or_AttemptCount record = ox_AttemptCount row
  /\ or_PayloadSHA256 record = ox_PayloadSHA256 row /\ or_EventID record = ox_EventID row
  /\ scanTime (ox_NextAttemptAt row) = Some (or_NextAttemptAt record)
  /\ parseAuditTime (ox_UpdatedAt row) = Some (or_UpdatedAt record) /\ validOutboxState record = true.
Proof.
  unfold scanOutboxRecord. case_match eqn:Hg; [done|]. intros E.
  apply bind_Some in E as (created & Ec & E). apply bind_Some in E as (updated & Eu & E).
  apply bind_Some in E as (next & En & E). apply bind_Some in E as (code & Eo & E).
  apply bind_Some in E as (delivered & Ed & E). cbv zeta in E. case_match eqn:Hs; [done|]. injection E as <-.
  bool_hyps. by split_and!.
Qed.

Lemma outboxAt_lookup id db row : outboxAt id db = Some row <-> 0 < id /\ outbox db !! Z.to_nat (id - 1) = Some row.
Proof. unfold outboxAt. destruct (Z.leb_spec id 0); naive_solver lia. Qed.

(** The row of an attempt, and the rest of the table. *)
Definition withRow (id : Z) (row : OutboxRow) (db : Db T) : Db T := setOutbox (<[Z.to_nat (id - 1) := row]> (outbox db)) db.

Lemma outboxAt_withRow id row db i old : outboxAt id db = Some old ->
  outboxAt i (withRow id row db) = (if decide (i = id) then Some row else outboxAt i db).
Proof.
  intros Ho. apply outboxAt_lookup in Ho as [Hid Ho]. unfold outboxAt, withRow. cbn. destruct (Z.leb_spec i 0).
  - by rewrite decide_False by lia.
  - case_decide; [subst; rewrite list_lookup_insert_eq; [done|by eapply lookup_lt_Some]|].
    by rewrite list_lookup_insert_ne by lia.
Qed.

Lemma updateOutbox_Ok id matches f db n db' : updateOutbox id matches f db = inr (n, db') -> n = 1 ->
  exists row, outboxAt id db = Some row /\ matches row = true /\ outboxChecks (f row) = true /\ db' = withRow id (f row) db.
Proof.
  unfold updateOutbox. intros E ->. destruct (outboxAt id db) as [row|]; [|by injection E].
  destruct (matches row) eqn:Hm; [|by injection E]. destruct (outboxChecks _) eqn:Hc; [|done]. injection E as <-. by exists row.
Qed.

Lemma noRecord_fails s s' (x : OutboxRecord) : noRecord (T:=T) s <> (Ok x, s').
Proof. done. Qed.

(** An attempt that was recorded *)
Record attemptMade (attempt : OutboxAttempt) (db : Db T) (record : OutboxRecord) (row : OutboxRow) : Prop := {
  am_valid : validateOutboxAttempt attempt = true;
  am_row : outboxAt (oa_OutboxID attempt) db = Some row;
  am_record : scanOutboxRecord (oa_OutboxID attempt) row = Some record;
  am_count : or_AttemptCount record = oa_ExpectedAttempt attempt;
  am_open : openStatus (or_Status record) = true;
  am_due : notDue record (oa_AttemptedAt attempt) = false;
  am_after : is_Some (scanOutboxRecord (oa_OutboxID attempt) (afterAttempt record attempt row))
}.

Lemma attemptInTx_Ok env attempt store updated store' : validateOutboxAttempt attempt = true ->
  attemptInTx env attempt store = (Ok updated, store') ->
  exists record row, attemptMade attempt (st_db store) record row
    /\ scanOutboxRecord (oa_OutboxID attempt) (afterAttempt record attempt row) = Some updated
    /\ st_db store' = withRow (oa_OutboxID attempt) (afterAttempt record attempt row) (st_db store).
Proof.
  intros Hv. unfold attemptInTx. intros E. apply action_bind_Ok in E as (record & s1 & E1 & E).
  apply queryRecord_Ok in E1 as (-> & row & Hrow & Hscan); [|apply noRecord_fails].
  apply action_bind_Ok in E as (? & ? & E1 & E). apply check_Ok in E1 as (Hc & ->).
  apply action_bind_Ok in E as (? & ? & E1 & E). apply check_Ok in E1 as (Hd & ->).
  apply action_bind_Ok in E as (n & s2 & E1 & E). apply sql_Ok in E1 as (_ & db1 & E1 & ->).
  apply action_bind_Ok in E as (? & ? & E2 & E). apply check_Ok in E2 as (Hn & ->). bool_hyps.
  apply updateOutbox_Ok in E1 as (row1 & Hrow1 & _ & _ & ->); [|done]. rewrite Hrow in Hrow1. injection Hrow1 as <-.
  apply action_bind_Ok in E as (rec' & s3 & E1 & E).
  apply queryRecord_Ok in E1 as (-> & row2 & Hrow2 & Hscan2); [|intros ???; apply outboxReadError_Ok].
  cbn [st_db withDb] in Hrow2. rewrite (outboxAt_withRow _ _ _ _ _ Hrow), decide_True in Hrow2 by done. injection Hrow2 as <-.
  apply action_bind_Ok in E as (? & s4 & E1 & E). apply keeps_checkIdentity in E1. injection E as <- <-.
  exists record, row. split; [|split; [done|by rewrite E1]]. constructor; eauto.
Qed.

Lemma commitOr_outcome env reason db store r store' : commitOr env reason db store = (r, store') ->
  (r = Ok tt /\ store' = store)
  \/ (st_db store' = st_db store \/ st_db store' = db) /\ (exists e, r = Err e) /\ h_MutationEnabled (st_health store') = false.
Proof.
  unfold commitOr. destruct (te_sql env CommitTx) as [cause|]; [|intros [= <- <-]; by left].
  unfold mbind, action_bind, enter, modify, mret, action_ret. intros E. right.
  destruct (te_commitDurable env); rewrite transactionError_result in E; simplify_eq;
    (split; [case_match; auto|]); (split; [eauto|]); by case_match.
Qed.

Lemma transact_outcome {A} env (m : Db T -> action (Store T) A) store r store' :
  transact env m store = (r, store') ->
  (st_db store' = st_db store /\ exists e, r = Err e) \/ m (st_db store) store = (r, store').
Proof.
  unfold transact. destruct (te_sql env BeginTx); [|auto]. rewrite transactionError_result. intros [= <- <-].
  left. split; [by case_match|eauto].
Qed.

Lemma RecordOutboxAttempt_outcome env attempt store r store' :
  RecordOutboxAttempt env attempt store = (r, store') ->
  (st_db store' = st_db store /\ exists e, r = Err e)
  \/ exists record row, attemptMade attempt (st_db store) record row
     /\ st_db store' = withRow (oa_OutboxID attempt) (afterAttempt record attempt row) (st_db store).
Proof.
  unfold RecordOutboxAttempt. intros E. unfold mbind at 1, action_bind in E.
  destruct (check _ _ store) as [[u|e] s1] eqn:Ev; [|injection E as <- <-; left; split; [by rewrite (keeps_check _ _ _ _ _ Ev)|eauto]].
  apply check_Ok in Ev as [Hv ->]. unfold mbind at 1, action_bind in E.
  destruct (readyForTransaction env store) as [[v|e] s1] eqn:Er; pose proof (keeps_readyForTransaction _ _ _ _ Er) as Hs1;
    [|injection E as <- <-; left; split; [done|eauto]].
  apply transact_outcome in E as [[Hs2 He]|E]; [left; by rewrite Hs2, Hs1|]. rewrite Hs1 in E.
  unfold mbind at 1, action_bind in E. destruct (rollback _ _ s1) as [[updated|e] s2] eqn:Et.
  2: { injection E as <- <-. left. split; [by rewrite (rollback_Err _ _ _ _ _ Et)|eauto]. }
  apply rollback_Ok, attemptInTx_Ok in Et as (record & row & M & Hscan & Hs2); [|done]. rewrite Hs1 in M, Hs2.
  unfold mbind, action_bind in E. destruct (commitOr _ _ _ s2) as [rc s3] eqn:Ec.
  apply commitOr_outcome in Ec as [[-> ->]|([Hd|Hd] & [e ->] & _)].
  - injection E as _ <-. right. exists record, row. auto.
  - injection E as _ <-. right. exists record, row. split; [done|]. by rewrite Hd.
  - injection E as <- <-. left. eauto.
Qed.

(** The payloads of a table in which all are exact are never put aside, and
    reading one changes nothing. *)
Lemma payloadForAttempt_outcome env id now store r store' :
  (forall row event, outboxAt id (st_db store) = Some row -> eventOf row (st_db store) = Some event -> payloadExact row event = true) ->
  payloadForAttempt env id now store = (r, store') ->
  st_db store' = st_db store
  /\ forall payload, r = Ok payload -> exists row event, outboxAt id (st_db store) = Some row
       /\ eventOf row (st_db store) = Some event /\ openStatus (ox_Status row) = true /\ ox_PayloadBytes row = payload.
Proof.
  intros Hx. unfold payloadForAttempt. intros E. unfold mbind at 1, action_bind in E.
  destruct (check _ _ store) as [[u|e] s1] eqn:Ev; [|injection E as <- <-; split; [by rewrite (keeps_check _ _ _ _ _ Ev)|done]].
  apply check_Ok in Ev as [_ ->]. unfold mbind at 1, action_bind in E.
  destruct (readyForTransaction env store) as [[v|e] s1] eqn:Er; pose proof (keeps_readyForTransaction _ _ _ _ Er) as Hs1;
    [|injection E as <- <-; done].
  apply transact_outcome in E as [[Hs2 [e ->]]|E]; [by rewrite Hs2, Hs1|].
  unfold mbind at 1, action_bind in E. destruct (rollback _ _ s1) as [[answer|e] s2] eqn:Et.
  2: { injection E as <- <-. split; [by rewrite (rollback_Err _ _ _ _ _ Et), Hs1|done]. }
  apply rollback_Ok in Et. unfold payloadInTx in Et.
  apply action_bind_Ok in Et as (joined & s3 & E1 & Et). apply sql_Ok in E1 as (_ & db1 & E1 & ->).
  unfold query in E1. injection E1 as <- <-. rewrite withDb_same, Hs1 in Et.
  destruct (outboxAt id (st_db store)) as [row|] eqn:Hrow; [|discriminate Et]. cbn [mbind option_bind] in Et.
  destruct (eventOf row (st_db store)) as [event|] eqn:Hev; [|discriminate Et]. cbn [mbind option_bind] in Et.
  apply action_bind_Ok in Et as (? & ? & E1 & Et). apply check_Ok in E1 as (Ho & ->).
  apply action_bind_Ok in Et as (u2 & s4 & E1 & Et).
  assert (s4 = s1) as ->.
  { destruct (ox_NextAttemptAt row) as [next|]; [|by injection E1].
    destruct (parseAuditTime next); [by apply check_Ok in E1 as [_ ->]|by apply outboxReadError_Ok in E1]. }
  rewrite (Hx row event eq_refl Hev) in Et. injection Et as <- <-. injection E as <- <-. split; [done|].
  intros payload [= <-]. exists row, event. auto.
Qed.

End Outcomes.

(** ** Well-formed rows *)

Section WellFormed.
Context `{Hasher} {T : Type}.
Implicit Types (db : Db T) (store : Store T).

(** Every row has an exact payload and is a valid record. *)
Record outbox_wf (db : Db T) : Prop := {
  ow_exact : forall id row, outboxAt id db = Some row -> exists event, eventOf row db = Some event /\ payloadExact row event = true;
  ow_scan : forall id row, outboxAt id db = Some row -> is_Some (scanOutboxRecord id row)
}.

Lemma distinctDestinations_valid seen requirements r : distinctDestinations seen requirements = true -> r ∈ requirements ->
  validToken (ob_Destination r) 96 = true.
Proof.
  revert seen. induction requirements as [|x l IH]; intros seen Hd Hr; [set_solver|]. cbn [distinctDestinations] in Hd. bool_hyps.
  apply elem_of_cons in Hr as [->|Hr]; eauto.
Qed.

Lemma validRequirement requirements r : ValidateOutboxRequirements requirements = true -> r ∈ requirements ->
  ValidateOutboxRequirements [mkOutboxRequirement (ob_Destination r) true] = true.
Proof.
  intros Hv Hr. unfold ValidateOutboxRequirements in *. bool_hyps. cbn [distinctDestinations ob_Destination].
  erewrite distinctDestinations_valid by eassumption. reflexivity.
Qed.

Lemma parseAuditTime_format t : fourDigitYear (UTC t) = true -> parseAuditTime (formatAuditTime t) = Some (UTC t).
Proof.
  intros Hy. unfold parseAuditTime, formatAuditTime, FormatRFC3339Nano. rewrite (parse_formatWith true (UTC t)) by done. cbn.
  change (UTC (UTC t)) with (UTC t). by rewrite bool_decide_refl.
Qed.

Lemma parseAuditTime_occurred event payload digest : CanonicalEvent event = Ok (payload, digest) ->
  is_Some (parseAuditTime (e_OccurredAt event)).
Proof.
  unfold CanonicalEvent. intros E. result_hyps. unfold parseAuditTime.
  match goal with H : parseRFC3339 _ = Some ?w, Hz : isUTC ?w = true |- _ =>
    rewrite H; cbn [mbind option_bind]; destruct w as [n z]; unfold isUTC in Hz; bool_hyps; cbn [zone] in Hz; subst z end.
  change (UTC (mkTime ?n None)) with (mkTime n None). rewrite bool_decide_eq_true_2 by done. eauto.
Qed.

Lemma eventOf_app row event db db' l : audit_events db' = audit_events db ++ l -> eventOf (T:=T) row db = Some event ->
  eventOf (T:=T) row db' = Some event.
Proof.
  unfold eventOf. intros ->. generalize (audit_events db) as events. intros events.
  induction events as [|e events IH]; cbn; [done|]. by case_match.
Qed.

(** The events of well-formed tables are numbered from one. *)
Lemma eventOf_bound row event db : audit_wf db -> eventOf row db = Some event -> 1 <= ox_EventID row <= audit_sequence db.
Proof.
  intros W E. apply find_some in E as [Hin He]. bool_hyps. apply list_elem_of_In, list_elem_of_lookup in Hin as [i Hi].
  apply (wf_rows _ W) in Hi as Hid. apply lookup_lt_Some in Hi. rewrite (wf_sequence _ W). lia.
Qed.

Lemma eventOf_snoc row event db db' : audit_wf db -> audit_events db' = audit_events db ++ [event] ->
  e_EventID (ev_Event event) = audit_sequence db + 1 -> ox_EventID row = audit_sequence db + 1 ->
  eventOf (T:=T) row db' = Some event.
Proof.
  intros W He Hid Hr. destruct (eventOf row db) as [e|] eqn:E; [apply eventOf_bound in E; [lia|done]|].
  unfold eventOf in *. rewrite He. revert E. generalize (audit_events db) as events. intros events.
  induction events as [|e events IH]; cbn; [by rewrite Hid, Hr, bool_decide_refl|]. by case_match.
Qed.

Lemma outboxAt_app id db db' l : outbox db' = outbox db ++ l ->
  outboxAt id db' = match outboxAt id db with
                    | Some row => Some row
                    | None => if id <=? Z.of_nat (length (outbox db)) then None else l !! (Z.to_nat (id - 1) - length (outbox db))%nat
                    end.
Proof.
  intros Hl. unfold outboxAt. rewrite Hl. destruct (Z.leb_spec id 0).
  - by rewrite (proj2 (Z.leb_le _ _)) by lia.
  - destruct (outbox db !! _) as [row|] eqn:E; [by rewrite (lookup_app_l_Some _ _ _ _ E)|].
    apply lookup_ge_None in E. rewrite lookup_app_r by done. by rewrite (proj2 (Z.leb_gt _ _)) by lia.
Qed.

Lemma outboxAt_old id db db' l row : outbox db' = outbox db ++ l -> outboxAt id db = Some row -> outboxAt id db' = Some row.
Proof. intros Hl E. by rewrite (outboxAt_app _ _ _ _ Hl), E. Qed.

(** A new row is one of the appended ones. *)
Lemma outboxAt_new id db db' l row : outbox db' = outbox db ++ l -> outboxAt id db' = Some row ->
  outboxAt id db = Some row \/ 0 < id /\ row ∈ l.
Proof.
  intros Hl E. rewrite (outboxAt_app _ _ _ _ Hl) in E. destruct (outboxAt id db); [by left|]. case_match eqn:Hid; [done|].
  bool_hyps. right. split; [lia|]. by eapply list_elem_of_lookup_2.
Qed.

Lemma newRow_scans id event destination payload digest dedupe status : 0 < id -> 0 < e_EventID event ->
  is_Some (parseAuditTime (e_OccurredAt event)) -> ValidFingerprint digest = true -> ValidFingerprint dedupe = true ->
  ValidateOutboxRequirements [mkOutboxRequirement destination true] = true -> status = "pending" \/ status = "paused" ->
  is_Some (scanOutboxRecord id (newOutboxRow (e_EventID event) destination payload digest dedupe status (e_OccurredAt event))).
Proof.
  intros Hid He [t Ht] Hd Hdd Hr Hs. unfold scanOutboxRecord, newOutboxRow.
  cbn [ox_EventID ox_Destination ox_PayloadSHA256 ox_DedupeSHA256 ox_Status ox_AttemptCount ox_NextAttemptAt ox_LastErrorCode
       ox_CreatedAt ox_UpdatedAt ox_DeliveredAt scanTime]. rewrite Hd, Hdd, Hr, Ht.
  rewrite !(proj2 (Z.leb_gt _ _)) by done. cbn [orb negb Z.ltb mbind option_bind].
  replace (MaxDeliveryAttempts <? 0) with false by done. replace (0 <? 0) with false by done. cbn [orb].
  unfold Before. rewrite Z.ltb_irrefl. unfold validOutboxState.
  cbn [or_AttemptCount or_NextAttemptAt or_LastErrorCode or_DeliveredAt or_Status]. by destruct Hs as [->| ->]; eexists.
Qed.

Lemma appended_outbox_wf env request advance business db result db' event payload digest link :
  audit_wf db -> outbox_wf db -> ValidateOutboxRequirements (iq_Destinations request) = true ->
  appended env request advance business db result db' event payload digest link -> outbox_wf db'.
Proof.
  intros W O Hv A. pose proof (ap_canonical _ _ _ _ _ _ _ _ _ _ _ A) as Hc.
  pose proof (CanonicalEvent_Ok _ _ _ Hc) as (_ & Hdig & Hpos & _).
  destruct (ap_event _ _ _ _ _ _ _ _ _ _ _ A) as [now Ee]. apply EventFromDraft_fields in Ee as [Hid _].
  pose proof (ap_sequence_bound _ _ _ _ _ _ _ _ _ _ _ A) as Hsb.
  rewrite int64_id in Hid by (unfold in_int64, min_int64, max_int64 in *; lia).
  constructor; intros id row Hrow; apply (outboxAt_new _ _ _ _ _ (ap_outbox _ _ _ _ _ _ _ _ _ _ _ A)) in Hrow as [Hrow|[Hi Hrow]].
  - destruct (ow_exact _ O _ _ Hrow) as (e & He & Hx). exists e. split; [|done].
    eapply eventOf_app; [exact (ap_events _ _ _ _ _ _ _ _ _ _ _ A)|done].
  - apply list_elem_of_In, in_map_iff in Hrow as (r & <- & _). exists (mkEventRow event payload digest). split.
    + eapply eventOf_snoc; [done|exact (ap_events _ _ _ _ _ _ _ _ _ _ _ A)|done..].
    + unfold payloadExact. cbn [ox_PayloadSHA256 ox_PayloadBytes newOutboxRow ev_Event ev_Payload ev_PayloadSHA256].
      rewrite Hc, <- Hdig, !bool_decide_refl. done.
  - by apply (ow_scan _ O).
  - apply list_elem_of_In, in_map_iff in Hrow as (r & <- & Hr). apply newRow_scans; try done.
    + by eapply parseAuditTime_occurred.
    + rewrite Hdig. apply hashString_digest.
    + apply hashString_digest.
    + eapply validRequirement; [done|]. by apply list_elem_of_In.
    + destruct (ob_Enabled r); auto.
Qed.

(** The columns of a row that never change. *)
Record sameNotification (row row' : OutboxRow) : Prop := {
  sn_event : ox_EventID row' = ox_EventID row;
  sn_destination : ox_Destination row' = ox_Destination row;
  sn_payload : ox_PayloadBytes row' = ox_PayloadBytes row;
  sn_digest : ox_PayloadSHA256 row' = ox_PayloadSHA256 row;
  sn_dedupe : ox_DedupeSHA256 row' = ox_DedupeSHA256 row;
  sn_created : ox_CreatedAt row' = ox_CreatedAt row
}.

Lemma afterAttempt_same record attempt row : sameNotification row (afterAttempt record attempt row).
Proof. unfold afterAttempt. repeat case_match; constructor; done. Qed.

Lemma attempt_outbox_wf attempt db record row : outbox_wf db -> attemptMade attempt db record row ->
  outbox_wf (withRow (oa_OutboxID attempt) (afterAttempt record attempt row) db).
Proof.
  intros O M. pose proof (am_row _ _ _ _ M) as Hrow. pose proof (afterAttempt_same record attempt row) as S.
  constructor; intros id r Hr; rewrite (outboxAt_withRow _ _ _ _ _ Hrow) in Hr; case_decide as Hd; subst; simplify_eq;
    [|exact (ow_exact _ O _ _ Hr)|apply M|by apply (ow_scan _ O)].
  destruct (ow_exact _ O _ _ Hrow) as (event & He & Hx). exists event. unfold eventOf, payloadExact in *.
  rewrite (sn_event _ _ S), (sn_payload _ _ S), (sn_digest _ _ S). done.
Qed.

(** ** The life of a row *)

(** A row at a later time: the attempts change an open row only. *)
Definition laterRow (row row' : OutboxRow) : Prop :=
  sameNotification row row'
  /\ (row' = row \/ openStatus (ox_Status row) = true /\ ox_AttemptCount row < ox_AttemptCount row'
                   /\ ox_Status row' ∈ ["retry_wait"; "delivered"; "dead_letter"]).

#[export] Instance laterRow_preorder : PreOrder laterRow.
Proof.
  split.
  - intros row. split; [by constructor|by left].
  - intros a b c [[] Hab] [[] Hbc]. split; [constructor; congruence|].
    destruct Hbc as [->|(Ho & Hn & Hs)]; [done|]. right.
    destruct Hab as [->|(Ho' & Hn' & _)]; [done|]. split_and!; [done|lia|done].
Qed.

Lemma attempt_later attempt db record row : attemptMade attempt db record row -> laterRow row (afterAttempt record attempt row).
Proof.
  intros M. split; [apply afterAttempt_same|]. right.
  pose proof (scan_columns _ _ _ (am_record _ _ _ _ M)) as (_ & _ & Hs & Hn & _). rewrite <- Hs. split; [apply M|].
  unfold afterAttempt. rewrite <- Hn. split; repeat case_match; cbn; set_solver by lia.
Qed.

Lemma delivered_stays row row' : laterRow row row' -> ox_Status row = "delivered" -> ox_Status row' = "delivered".
Proof. intros [_ [->|[Ho _]]] Hs; [done|]. by rewrite Hs in Ho. Qed.

(** The rows of [db] are those of [db'] at a later time. *)
Definition outboxLater (db db' : Db T) : Prop :=
  forall id row, outboxAt id db = Some row -> exists row', outboxAt id db' = Some row' /\ laterRow row row'.

#[export] Instance outboxLater_preorder : PreOrder outboxLater.
Proof.
  split.
  - intros db id row E. by exists row.
  - intros a b c Hab Hbc id row E. destruct (Hab _ _ E) as (row' & E' & L). destruct (Hbc _ _ E') as (row'' & E'' & L').
    exists row''. split; [done|]. by transitivity row'.
Qed.

Lemma attempt_outboxLater attempt db record row : attemptMade attempt db record row ->
  outboxLater db (withRow (oa_OutboxID attempt) (afterAttempt record attempt row) db).
Proof.
  intros M id r Hr. rewrite (outboxAt_withRow _ _ _ _ _ (am_row _ _ _ _ M)). case_decide as Hd; [|by exists r].
  subst. rewrite (am_row _ _ _ _ M) in Hr. injection Hr as <-. eexists. split; [done|]. by eapply attempt_later.
Qed.

(** The status of a valid record *)
Lemma scan_status id row record : scanOutboxRecord id row = Some record ->
  ox_Status row ∈ ["pending"; "paused"; "retry_wait"; "delivered"; "dead_letter"] /\ 0 <= ox_AttemptCount row <= MaxDeliveryAttempts.
Proof.
  intros E. pose proof (scan_columns _ _ _ E) as (_ & _ & Hs & Hn & _ & _ & _ & _ & Hv).
  unfold scanOutboxRecord in E. case_match eqn:Hg; [done|]. bool_hyps. split; [|lia]. rewrite <- Hs.
  unfold validOutboxState in Hv. repeat (split_match_in Hv; bool_hyps; try done);
    repeat match goal with H : _ || _ = true |- _ => apply orb_true_iff in H as [H|H] end; bool_hyps;
    match goal with H : or_Status record = _ |- _ => rewrite H end; set_solver.
Qed.

End WellFormed.
