(* ===== verification/Operations.v ===== *)
(** Operations alerts ([operations/alerts.go], [store/operations.go]): bounded
    observations of sources are evaluated into alerts, and the opening and the
    closing of an alert are recorded with an audit event and a notification in the
    outbox. *)

From S2P Require Import Prelude GoTime Hash GoJson Contracts AuditLog AuditStore Outbox.

(** ** Alerts (alerts.go) *)

Definition ValidSourceState (state : string) : bool :=
  bool_decide (state ∈ ["healthy"; "stale"; "unknown"; "unavailable"; "failed"]).

Record Observation := mkObservation {
  on_TargetDigest : string;
  on_Class : string;
  on_State : string;
  on_Severity : string;
  on_ObservedAt : Time;
  on_SampleAt : Time;
  on_Verified : bool
}.

Record Alert := mkAlert {
  al_Key : string;
  al_TargetDigest : string;
  al_Class : string;
  al_Severity : string;
  al_State : string;
  al_Status : string;
  al_FirstFailure : option Time;
  al_LastFailure : option Time;
  al_LastGood : option Time;
  al_ObservedAt : Time;
  al_Occurrences : Z;
  al_Consecutive : Z;
  al_Generation : Z
}.

(** The zero value *)
Definition noAlert : Alert := mkAlert "" "" "" "" "" "" None None None zeroTime 0 0 0.

Definition ValidObservation (o : Observation) : bool :=
  sha256Digest (on_TargetDigest o) && (on_Class o == "source-health")
  && ((on_Severity o == "critical") || (on_Severity o == "warning")) && ValidSourceState (on_State o)
  && negb (IsZero (on_ObservedAt o)) && isUTC (on_ObservedAt o)
  && ((on_State o != "healthy")
      || on_Verified o && negb (IsZero (on_SampleAt o)) && isUTC (on_SampleAt o) && negb (After (on_SampleAt o) (on_ObservedAt o))).

Definition ErrInvalid : error := Plain "invalid operations observation".

Section Evaluation.
Context `{Hasher}.

Definition alertKey (o : Observation) : string := hashString (on_TargetDigest o +:+ nul +:+ on_Class o).

(** An alert that was never observed *)
Definition firstAlert (o : Observation) : Alert :=
  mkAlert (alertKey o) (on_TargetDigest o) (on_Class o) (on_Severity o) "" "clear" None None None zeroTime 0 0 0.

Definition observedAs (o : Observation) (a : Alert) : Alert :=
  mkAlert (al_Key a) (al_TargetDigest a) (al_Class a) (al_Severity a) (on_State o) (al_Status a) (al_FirstFailure a)
    (al_LastFailure a) (al_LastGood a) (on_ObservedAt o) (al_Occurrences a) (al_Consecutive a) (al_Generation a).

Definition withStatus (status : string) (generation : Z) (a : Alert) : Alert :=
  mkAlert (al_Key a) (al_TargetDigest a) (al_Class a) (al_Severity a) (al_State a) status (al_FirstFailure a)
    (al_LastFailure a) (al_LastGood a) (al_ObservedAt a) (al_Occurrences a) (al_Consecutive a) generation.

(** The counters of a failure. *)
Definition countFailure (o : Observation) (a : Alert) : Alert :=
  let consecutive := int64 (al_Consecutive a + 1) in
  let first := if isNil (al_FirstFailure a) || (al_Status a == "closed") || (al_Status a == "clear")
                  || (al_Status a != "open") && (consecutive =? 1)
               then Some (on_ObservedAt o) else al_FirstFailure a in
  mkAlert (al_Key a) (al_TargetDigest a) (al_Class a) (al_Severity a) (al_State a) (al_Status a) first
    (Some (on_ObservedAt o)) (al_LastGood a) (al_ObservedAt a) (int64 (al_Occurrences a + 1)) consecutive (al_Generation a).

Definition endFailures (lastGood : option Time) (a : Alert) : Alert :=
  mkAlert (al_Key a) (al_TargetDigest a) (al_Class a) (al_Severity a) (al_State a) (al_Status a) (al_FirstFailure a)
    (al_LastFailure a) lastGood (al_ObservedAt a) (al_Occurrences a) 0 (al_Generation a).

(** [Evaluate]: the alert and the transition it made, if any. *)
Definition Evaluate (a : Alert) (o : Observation) : result (Alert * string) :=
  require (ValidObservation o && (IsZero (al_ObservedAt a) || After (on_ObservedAt o) (al_ObservedAt a))) ErrInvalid;;
  require ((al_Key a == "") || (al_Key a == alertKey o) && (al_Severity a == on_Severity o)) ErrInvalid;;
  let a := observedAs o (if al_Key a == "" then firstAlert o else a) in
  if on_State o == "failed" then
    let a := countFailure o a in
    if al_Status a == "open" then Ok (a, "")
    else if (on_Severity o == "critical") || (2 <=? al_Consecutive a)
    then Ok (withStatus "open" (int64 (al_Generation a + 1)) a, "opened")
    else Ok (withStatus "pending" (al_Generation a) a, "")
  else if on_State o == "healthy" then
    let a := endFailures (Some (on_SampleAt o)) a in
    if (al_Status a == "open") && match al_LastFailure a with Some last => After (on_SampleAt o) last | None => true end
    then Ok (withStatus "closed" (al_Generation a) a, "closed")
    else if (al_Status a != "open") && (al_Status a != "closed") then Ok (withStatus "clear" (al_Generation a) a, "")
    else Ok (a, "")
  else Ok (endFailures (al_LastGood a) a, "").

Definition jsonTime (t : Time) : string := jsonString (FormatRFC3339Nano t).

(** [json.Marshal] of an alert; a year of more than four digits is an error. *)
Definition alertJSON (a : Alert) : option string :=
  let times := al_ObservedAt a :: option_list (al_FirstFailure a) ++ option_list (al_LastFailure a) ++ option_list (al_LastGood a) in
  if negb (forallb fourDigitYear times) then None
  else Some (jsonObject
    [("key", jsonString (al_Key a)); ("targetDigest", jsonString (al_TargetDigest a)); ("class", jsonString (al_Class a));
     ("severity", jsonString (al_Severity a)); ("observationState", jsonString (al_State a)); ("status", jsonString (al_Status a));
     ("firstFailure", jsonOption jsonTime (al_FirstFailure a)); ("lastFailure", jsonOption jsonTime (al_LastFailure a));
     ("lastGood", jsonOption jsonTime (al_LastGood a)); ("observedAt", jsonTime (al_ObservedAt a));
     ("occurrences", jsonInt (al_Occurrences a)); ("consecutive", jsonInt (al_Consecutive a));
     ("generation", jsonInt (al_Generation a))]).

End Evaluation.

(** ** Tables (migrations/0048_operations_alerts.sql) *)

(** The column of the time repeats a field of the document. *)
Record TransitionRow := mkTransitionRow {
  tr_EventID : Z;
  tr_RecoveryEpoch : Z;
  tr_AlertKey : string;
  tr_Generation : Z;
  tr_Transition : string
}.

(** The alerts by epoch and key; the transitions in the order of their insertion *)
Record OperationsTables := mkOperationsTables {
  operations_alerts : gmap (Z * string) Alert;
  operations_transitions : list TransitionRow
}.

(** An audited projection of a notification with its retry state *)
Record OperationsDelivery := mkOperationsDelivery { dl_Record : OutboxRecord; dl_Event : Event }.

Section Store.
Context `{Hasher}.

Notation store := (Store OperationsTables).
Notation database := (Db OperationsTables).

(** A statement whose error is returned as it is. *)
Definition rawSql {A} (env : TxEnv) (name : string) (run : database -> result (A * database)) : action store A :=
  match te_sql env (Named name) with
  | Some _ => fail errDriver
  | None => fun s => match run (st_db s) with Ok (x, db) => (Ok x, withDb db s) | Err e => (Err e, s) end
  end.

Definition rawQuery {A} (env : TxEnv) (name : string) (f : database -> A) : action store A :=
  rawSql env name (fun db => Ok (f db, db)).

(** [INSERT INTO operations_alerts ... ON CONFLICT ... DO UPDATE] *)
Definition upsertAlert (epoch : Z) (alert : Alert) (t : OperationsTables) : result OperationsTables :=
  Ok (mkOperationsTables (<[(epoch, al_Key alert) := alert]> (operations_alerts t)) (operations_transitions t)).

(** [INSERT INTO operations_transitions], with its keys and checks *)
Definition insertTransition (row : TransitionRow) (db : database) : result (unit * database) :=
  let t := tables db in
  if existsb (fun r => tr_EventID r == tr_EventID row) (operations_transitions t)
     || negb (existsb (fun e => e_EventID (ev_Event e) == tr_EventID row) (audit_events db))
     || (tr_Generation row <=? 0) || negb ((tr_Transition row == "opened") || (tr_Transition row == "closed"))
     || isNil (operations_alerts t !! (tr_RecoveryEpoch row, tr_AlertKey row))
  then Err errConstraint
  else Ok (tt, setTables (mkOperationsTables (operations_alerts t) (operations_transitions t ++ [row])) db).

(** ** Observations (operations.go) *)

Definition destinations (destination : string) : list OutboxRequirement :=
  if destination == "" then [] else [mkOutboxRequirement destination true].

(** The audited intent of an observation *)
Definition observationIntent (expected : RevisionToken) (o : Observation) (actor : Attribution) (destination : string)
    (raw transition : string) : intentRequest :=
  let key := alertKey o in
  {| iq_eventTime := None;
     iq_Expected := Some expected;
     iq_Idempotency := mkIntentKey "operations-observation" (hashString (key +:+ FormatRFC3339Nano (on_ObservedAt o))) (hashString raw);
     iq_Event := mkEventDraft (if transition == "" then "operations.observed" else "operations.alert." +:+ transition)
                   ("operations-" +:+ String.substring 7 32 key) None None actor (mkTarget "operations-target" (on_TargetDigest o))
                   None (Some (hashString raw));
     iq_Context := mkContextIDs "" "" "";
     iq_Destinations := if transition == "" then [] else destinations destination |}.

(** The alert so far; an observation at the time of the last one only repeats it.
    The table holds the alerts themselves for their JSON, which only this method
    writes, by marshalling them, so that the error of an [alert_json] that does not
    unmarshal is left out. *)
Definition previousAlert (env : TxEnv) (epoch : Z) (o : Observation) : action store (Alert * bool) :=
  row ← rawQuery env "operations-alert" (fun db => operations_alerts (tables db) !! (epoch, alertKey o));
  match row with
  | None => mret (noAlert, false)
  | Some previous =>
      if Equal (on_ObservedAt o) (al_ObservedAt previous) then
        check ((on_State o == al_State previous) && (on_Severity o == al_Severity previous))
          (Coded StateConflict "operations-observation");;
        mret (previous, true)
      else mret (previous, false)
  end.

(** The new alert, its event, its notification and its transition. *)
Definition recordEvaluation (env : TxEnv) (expected : RevisionToken) (o : Observation) (actor : Attribution)
    (destination : string) (next : Alert) (transition : string) : action store unit :=
  match alertJSON next with
  | None => fail (Plain "json: year outside of range")
  | Some raw =>
      result ← appendAuditInTx env (observationIntent expected o actor destination raw transition) false
        (Some (fun _ t => upsertAlert (rt_RecoveryEpoch expected) next t));
      (if transition == "" then mret tt
       else rawSql env "operations-transition" (insertTransition
              (mkTransitionRow (ir_EventID result) (rt_RecoveryEpoch expected) (alertKey o) (al_Generation next) transition)));;
      checkIdentity (te_identityAtCommit env)
  end.

(** The transaction of an observation: the alert, and whether it is to be
    committed. *)
Definition observeInTx (env : TxEnv) (expected : RevisionToken) (o : Observation) (actor : Attribution)
    (destination : string) : action store (Alert * bool) :=
  meta ← rawQuery env "operations-meta"
    (fun db => (mkRevisionToken (state_revision db) (recovery_epoch db), audit_sequence db));
  check (0 <=? meta.2) errDriver;;
  check (meta.1 == expected) (Coded StateConflict "operations-revision");;
  '(previous, repeated) ← previousAlert env (rt_RecoveryEpoch expected) o;
  if (repeated : bool) then mret (previous, false)
  else match Evaluate previous o with
       | Err _ => fail (Coded StateConflict "operations-observation")
       | Ok (next, transition) =>
           recordEvaluation env expected o actor destination next transition;;
           mret (next, true)
       end.

Definition signal : action store unit :=
  modify (fun s => mkStore (st_db s) (st_health s) (st_closed s) (S (st_signals s))).

Definition RecordOperationsObservation (env : TxEnv) (expected : RevisionToken) (o : Observation) (actor : Attribution)
    (destination : string) : action store Alert :=
  check (ValidateOutboxRequirements (destinations destination) && ValidObservation o
         && negb (After (on_ObservedAt o) (UTC (te_Clock env)))) (Coded InputInvalid "operations-observation");;
  readyForTransaction env;;
  transact env (fun db =>
    '(alert, changed) ← rollback db (observeInTx env expected o actor destination);
    (if (changed : bool) then commitOr env "operations-commit-failure" db;; signal else mret tt);;
    mret alert).

Definition alertBefore (a b : string * Alert) : Prop := String.leb a.1 b.1 = true.
#[local] Instance alertBefore_dec a b : base.Decision (alertBefore a b).
Proof. unfold alertBefore. apply _. Defined.

(** The alerts of an epoch by key; more than two hundred are refused. *)
Definition alertsOf (epoch : Z) (t : OperationsTables) : list Alert :=
  map snd (merge_sort alertBefore
    (omap (fun entry => if entry.1.1 =? epoch then Some (entry.1.2, entry.2) else None) (map_to_list (operations_alerts t)))).

Definition OperationsAlerts (env : TxEnv) (expected : RevisionToken) : action store (list Alert) :=
  readyForRead env;;
  health ← gets st_health;
  check (h_Revision health == expected) (Coded StateConflict "operations-revision");;
  alerts ← rawQuery env "operations-alerts" (fun db => alertsOf (rt_RecoveryEpoch expected) (tables db));
  check (length alerts <=? 200)%nat (Coded IntegrityFailure "operations-alert");;
  mret alerts.

(** ** Deliveries *)

(** The rows of the outbox with their keys *)
Definition numbered (rows : list OutboxRow) : list (Z * OutboxRow) := imap (fun i row => (Z.of_nat i + 1, row)) rows.

(** The transition of a row, by its event *)
Definition transitionOf (db : database) (row : OutboxRow) : option TransitionRow :=
  List.find (fun t => tr_EventID t == ox_EventID row) (operations_transitions (tables db)).

(** An earlier notification of the same alert that was not delivered. *)
Definition blocks (db : database) (id : Z) (row : OutboxRow) (t : TransitionRow) (earlier : Z * OutboxRow) : bool :=
  match transitionOf db earlier.2 with
  | Some t2 =>
      (tr_RecoveryEpoch t2 =? tr_RecoveryEpoch t) && (tr_AlertKey t2 == tr_AlertKey t)
      && (ox_Destination earlier.2 == ox_Destination row) && (earlier.1 <? id)
      && bool_decide (ox_Status earlier.2 ∈ ["pending"; "retry_wait"; "paused"; "dead_letter"])
  | None => false
  end.

(** Times are compared as the strings of their columns. *)
Definition dueRow (db : database) (destination : string) (epoch : Z) (now : string) (entry : Z * OutboxRow) : bool :=
  match transitionOf db entry.2 with
  | Some t =>
      (tr_RecoveryEpoch t =? epoch) && (ox_Destination entry.2 == destination) && openStatus (ox_Status entry.2)
      && match ox_NextAttemptAt entry.2 with Some next => String.leb next now | None => true end
      && negb (existsb (blocks db entry.1 entry.2 t) (numbered (outbox db)))
  | None => false
  end.

Definition dueIDs (destination : string) (epoch : Z) (now : string) (db : database) : list Z :=
  take 20 (map fst (List.filter (dueRow db destination epoch now) (numbered (outbox db)))).

(** One due notification with the event it projects. *)
Definition readDelivery (env : TxEnv) (id : Z) : action store OperationsDelivery :=
  match te_sql env (Named "outbox-record") with
  | Some _ => fail errDriver
  | None =>
      found ← gets (fun s => row ← outboxAt id (st_db s); record ← scanOutboxRecord id row; Some (row, record));
      match found with
      | None => fail (Plain "invalid persisted outbox record")
      | Some (row, record) =>
          event ← rawQuery env "operations-event" (eventOf row);
          match event with
          | None => fail errNoRows
          | Some event =>
              match CanonicalEvent (ev_Event event) with
              | Ok (canonical, digest) =>
                  check ((canonical == ev_Payload event) && (digest == or_PayloadSHA256 record))
                    (Coded IntegrityFailure "operations-event");;
                  mret (mkOperationsDelivery record (ev_Event event))
              | Err _ => fail (Coded IntegrityFailure "operations-event")
              end
          end
      end
  end.

Fixpoint readDeliveries (env : TxEnv) (ids : list Z) : action store (list OperationsDelivery) :=
  match ids with
  | [] => mret []
  | id :: rest =>
      delivery ← readDelivery env id;
      deliveries ← readDeliveries env rest;
      mret (delivery :: deliveries)
  end.

Definition DueOperationsDeliveries (env : TxEnv) (destination : string) (epoch : Z) (now : Time)
    : action store (list OperationsDelivery) :=
  readyForRead env;;
  health ← gets st_health;
  check (epoch =? rt_RecoveryEpoch (h_Revision health)) (Coded RecoveryEpochMismatch "operations-delivery");;
  ids ← rawQuery env "operations-due" (dueIDs destination epoch (formatAuditTime now));
  readDeliveries env ids.

Definition PrepareOperationsDelivery (env : TxEnv) (d : OperationsDelivery) (now : Time) : action store unit :=
  raw ← payloadForAttempt env (or_OutboxID (dl_Record d)) now;
  match CanonicalEvent (dl_Event d) with
  | Ok (canonical, digest) =>
      check ((raw == canonical) && (digest == or_PayloadSHA256 (dl_Record d))) (Coded IntegrityFailure "operations-delivery")
  | Err _ => fail (Coded IntegrityFailure "operations-delivery")
  end.

(** The records of the current epoch, the newest first *)
Definition outboxIDs (epoch : Z) (db : database) : list Z :=
  take 200 (reverse (map fst (List.filter (fun entry =>
    match transitionOf db entry.2 with Some t => tr_RecoveryEpoch t =? epoch | None => false end) (numbered (outbox db))))).

Fixpoint readRecords (env : TxEnv) (ids : list Z) : action store (list OutboxRecord) :=
  match ids with
  | [] => mret []
  | id :: rest =>
      found ← rawQuery env "outbox-record" (fun db => row ← outboxAt id db; scanOutboxRecord id row);
      match found with
      | None => fail (Plain "invalid persisted outbox record")
      | Some record => records ← readRecords env rest; mret (record :: records)
      end
  end.

Definition OperationsOutbox (env : TxEnv) (expected : RevisionToken) : action store (list OutboxRecord) :=
  readyForRead env;;
  health ← gets st_health;
  check (h_Revision health == expected) (Coded StateConflict "operations-revision");;
  ids ← rawQuery env "operations-outbox" (outboxIDs (rt_RecoveryEpoch expected));
  readRecords env ids.

End Store.
