(* ===== verification/Dispatch.v ===== *)
(** The dispatcher of notifications ([dispatch] of
    [server/operations_monitoring.go]): the consumer of the outbox that sends due
    notifications to their destination and records each attempt. *)

From S2P Require Import Prelude GoTime Hash GoJson Contracts AuditLog AuditStore Outbox Operations.

Definition operationsDestination := "operations-github-alerts".

(** ** Calls of the store *)

Inductive OperationsCall :=
| CallObserve (env : TxEnv) (expected : RevisionToken) (o : Observation) (actor : Attribution) (destination : string)
| CallWrite (env : TxEnv) (request : intentRequest) (advance : bool)
| CallHealth (env : TxEnv)
| CallDue (env : TxEnv) (destination : string) (epoch : Z) (now : Time)
| CallPrepare (env : TxEnv) (d : OperationsDelivery) (now : Time)
| CallAttempt (env : TxEnv) (attempt : OutboxAttempt).

(** What others than the dispatcher call: observations, and the intents of the
    other repositories, in scopes of their own. *)
Definition foreign (call : OperationsCall) : bool :=
  match call with
  | CallObserve _ _ _ _ _ | CallHealth _ => true
  | CallWrite _ request _ => ik_Scope (iq_Idempotency request) != "operations-observation"
  | CallDue _ _ _ _ | CallPrepare _ _ _ | CallAttempt _ _ => false
  end.

Section Calls.
Context `{Hasher}.

Notation store := (Store OperationsTables).

(** [store.Health] *)
Definition readHealth (env : TxEnv) : action store Health :=
  closed ← gets st_closed;
  check (negb closed) (Coded DependencyUnavailable "database");;
  checkIdentity (te_identityAtReady env);;
  gets st_health.

Definition performOperation (call : OperationsCall) (s : store) : store :=
  match call with
  | CallObserve env expected o actor destination => (RecordOperationsObservation env expected o actor destination s).2
  | CallWrite env request advance => (executeAuditIntent env request advance (Some (fun _ t => Ok t)) s).2
  | CallHealth env => (readHealth env s).2
  | CallDue env destination epoch now => (DueOperationsDeliveries env destination epoch now s).2
  | CallPrepare env d now => (PrepareOperationsDelivery env d now s).2
  | CallAttempt env attempt => (RecordOutboxAttempt env attempt s).2
  end.

Definition performOperations (calls : list OperationsCall) (s : store) : store := fold_left (fun s call => performOperation call s) calls s.

End Calls.

(** ** The surroundings *)

(** The clock, the failures of the store, the calls of others before each
    interaction, the gate of notifications, and the answer of the destination. *)
Class DispatchSurroundings := {
  ds_clock : nat -> Time;
  ds_store : nat -> TxEnv;
  ds_others : nat -> list OperationsCall;
  ds_allowed : nat -> bool;
  ds_deliver : nat -> Event -> bool;
  ds_foreign : forall n, Forall (fun call => foreign call = true) (ds_others n)
}.

Inductive DispatchEvent :=
| Performed (call : OperationsCall)
| Sent (d : OperationsDelivery) (accepted : bool).

Record DispatchWorld := mkDispatchWorld {
  dw_store : Store OperationsTables;
  dw_tick : nat;
  dw_trace : list DispatchEvent
}.

Section Dispatcher.
Context `{Hasher} `{DispatchSurroundings}.

Notation dispatcher := (action DispatchWorld).

(** The calls of others before an interaction. *)
Definition interrupted (w : DispatchWorld) : DispatchWorld :=
  let others := ds_others (dw_tick w) in
  mkDispatchWorld (performOperations others (dw_store w)) (S (dw_tick w)) (dw_trace w ++ map Performed others).

Definition askSurroundings {A} (oracle : nat -> A) : dispatcher A := fun w =>
  (Ok (oracle (dw_tick w)), interrupted w).

(** A call of the store. *)
Definition callStore {A} (call : TxEnv -> OperationsCall) (method : TxEnv -> action (Store OperationsTables) A)
    : dispatcher A := fun w =>
  let env := ds_store (dw_tick w) in
  let w := interrupted w in
  let answer := method env (dw_store w) in
  (answer.1, mkDispatchWorld answer.2 (dw_tick w) (dw_trace w ++ [Performed (call env)])).

(** The notification leaves the process. *)
Definition send (d : OperationsDelivery) : dispatcher bool := fun w =>
  let accepted := ds_deliver (dw_tick w) (dl_Event d) in
  let w := interrupted w in
  (Ok accepted, mkDispatchWorld (dw_store w) (dw_tick w) (dw_trace w ++ [Sent d accepted])).

(** ** dispatch *)

Definition attemptOf (d : OperationsDelivery) (accepted : bool) (at_ : Time) : OutboxAttempt :=
  mkOutboxAttempt (or_OutboxID (dl_Record d)) (or_AttemptCount (dl_Record d)) accepted (negb accepted)
    (if accepted then "" else "DESTINATION_UNAVAILABLE") (UTC at_).

(** The loop; every error ends the dispatch. *)
Fixpoint deliverDue (now : Time) (due : list OperationsDelivery) : dispatcher unit :=
  match due with
  | [] => mret tt
  | d :: rest =>
      allowed ← askSurroundings ds_allowed;
      if negb allowed then mret tt
      else
        callStore (fun env => CallPrepare env d now) (fun env => PrepareOperationsDelivery env d now);;
        accepted ← send d;
        at_ ← askSurroundings ds_clock;
        callStore (fun env => CallAttempt env (attemptOf d accepted at_))
          (fun env => RecordOutboxAttempt env (attemptOf d accepted at_));;
        deliverDue now rest
  end.

Definition dispatch : dispatcher unit :=
  allowed ← askSurroundings ds_allowed;
  if negb allowed then mret tt
  else
    health ← callStore CallHealth readHealth;
    now ← askSurroundings ds_clock;
    let epoch := rt_RecoveryEpoch (h_Revision health) in
    due ← callStore (fun env => CallDue env operationsDestination epoch (UTC now))
      (fun env => DueOperationsDeliveries env operationsDestination epoch (UTC now));
    deliverDue (UTC now) due.

(** The ticks of the timer; the errors of a dispatch are not reported. *)
Fixpoint dispatches (n : nat) (w : DispatchWorld) : DispatchWorld :=
  match n with
  | O => w
  | S n => dispatches n (dispatch w).2
  end.

Definition dispatcherFrom (s : Store OperationsTables) : DispatchWorld := mkDispatchWorld s 0 [].

End Dispatcher.
