(* ===== verification/OperationsSafety.v ===== *)
(** The safety of notifications: what the rows of the outbox go through in every
    sequence of calls, and in which order the dispatcher sends them. *)

From S2P Require Import Prelude GoTime Hash GoJson Contracts AuditLog AuditStore Outbox Operations Dispatch.

(** ** Well-formed tables *)

Section Tables.
Context `{Hasher}.

Notation store := (Store OperationsTables).
Notation database := (Db OperationsTables).
Implicit Types db : database.

Definition transitions (db : database) : list TransitionRow := operations_transitions (tables db).

(** The event of a recorded observation either has its transition or was never
    to be notified. *)
Record ops_wf (db : database) : Prop := {
  oz_audit : audit_wf db;
  oz_outbox : outbox_wf db;
  oz_keys : forall digest row, intent_keys db !! ("operations-observation", digest) = Some row ->
    in_EventID row <= audit_sequence db
    /\ ((exists t, t ∈ transitions db /\ tr_EventID t = in_EventID row)
        \/ forall r, r ∈ outbox db -> ox_EventID r <> in_EventID row)
}.

(** What every call does to the notifications there are. *)
Record continues (db db' : database) : Prop := {
  fo_rows : outboxLater db db';
  fo_events : exists l, audit_events db' = audit_events db ++ l;
  fo_transitions : forall id row, outboxAt id db = Some row -> transitionOf db' row = transitionOf db row
}.

Definition kept (db db' : database) : Prop := forall id row, outboxAt id db = Some row -> outboxAt id db' = Some row.

Lemma transitionOf_event db row row' : ox_EventID row' = ox_EventID row -> transitionOf db row' = transitionOf db row.
Proof. unfold transitionOf. by intros ->. Qed.

#[export] Instance continues_preorder : PreOrder continues.
Proof.
  split.
  - intros db. split; [done|exists []; by rewrite app_nil_r|done].
  - intros a b c [R1 [l1 E1] T1] [R2 [l2 E2] T2]. split.
    + by transitivity b.
    + exists (l1 ++ l2). by rewrite E2, E1, app_assoc.
    + intros id row Hrow. destruct (R1 _ _ Hrow) as (row' & Hrow' & [S _]).
      rewrite <- (T1 _ _ Hrow), <- !(transitionOf_event _ row row') by apply S. eauto.
Qed.

#[export] Instance kept_preorder : PreOrder kept.
Proof. split; [by intros db id row|]. intros a b c Hab Hbc id row Hrow. by apply Hbc, Hab. Qed.

Lemma kept_later db db' : kept db db' -> outboxLater db db'.
Proof. intros K id row E. exists row. split; [by apply K|done]. Qed.

Lemma row_event_bound db id row : ops_wf db -> outboxAt id db = Some row -> 1 <= ox_EventID row <= audit_sequence db.
Proof.
  intros [W O _] Hrow. destruct (ow_exact _ O _ _ Hrow) as (event & He & _). by eapply eventOf_bound.
Qed.

Lemma outbox_at_row db r : r ∈ outbox db -> exists id, outboxAt id db = Some r.
Proof.
  intros [i Hi]%list_elem_of_lookup. exists (Z.of_nat i + 1). apply outboxAt_lookup. split; [lia|].
  by replace (Z.to_nat (Z.of_nat i + 1 - 1)) with i by lia.
Qed.

Lemma transitionOf_snoc db db' row t : transitions db' = transitions db ++ [t] -> tr_EventID t <> ox_EventID row ->
  transitionOf db' row = transitionOf db row.
Proof.
  unfold transitions, transitionOf. intros -> Hne. induction (operations_transitions (tables db)) as [|x l IH]; cbn.
  - by rewrite bool_decide_eq_false_2.
  - by case_match.
Qed.

Lemma insertTransition_Ok row db u db' : insertTransition row db = Ok (u, db') ->
  (forall t, t ∈ transitions db -> tr_EventID t <> tr_EventID row)
  /\ db' = setTables (mkOperationsTables (operations_alerts (tables db)) (operations_transitions (tables db) ++ [row])) db.
Proof.
  unfold insertTransition. case_match eqn:Hc; [done|]. intros [= _ <-]. bool_hyps. split; [|done].
  intros t Ht Heq. assert (Hx : existsb (fun r => tr_EventID r == tr_EventID row) (operations_transitions (tables db)) = true).
  { apply existsb_exists. exists t. split; [by apply list_elem_of_In|]. by rewrite Heq, bool_decide_refl. }
  by rewrite Hx in *.
Qed.

(** ** Appends *)

Section Append.
Variables (env : TxEnv) (request : intentRequest) (advance : bool) (business : option (RevisionToken -> OperationsTables -> result OperationsTables)).
Variables (db : database) (res : intentResult) (db' : database) (event : Event) (payload digest : string) (link : ChainLink).
Hypothesis W : ops_wf db.
Hypothesis A : appended env request advance business db res db' event payload digest link.

Lemma append_event : e_EventID event = audit_sequence db + 1 /\ ir_EventID res = audit_sequence db + 1.
Proof.
  destruct (ap_event _ _ _ _ _ _ _ _ _ _ _ A) as [now Ee]. apply EventFromDraft_fields in Ee as [-> _].
  rewrite (ap_result _ _ _ _ _ _ _ _ _ _ _ A). cbn [ir_EventID].
  pose proof (ap_sequence_bound _ _ _ _ _ _ _ _ _ _ _ A) as Hsb.
  by rewrite int64_id by (unfold in_int64, min_int64, max_int64 in *; lia).
Qed.

Lemma append_kept : kept db db'.
Proof. intros id row. eapply outboxAt_old, A. Qed.

Lemma append_rows r : r ∈ outbox db' -> r ∈ outbox db \/ ox_EventID r = audit_sequence db + 1 /\ iq_Destinations request <> [].
Proof.
  rewrite (ap_outbox _ _ _ _ _ _ _ _ _ _ _ A), elem_of_app. intros [Hr|Hr]; [by left|right].
  apply list_elem_of_In, in_map_iff in Hr as (q & <- & Hq). split; [apply append_event|by intros E; rewrite E in Hq].
Qed.

(** What is known of the keys before stays true if the transitions grow. *)
Lemma append_keys digest' row : incl (transitions db) (transitions db') ->
  intent_keys db !! ("operations-observation", digest') = Some row ->
  in_EventID row <= audit_sequence db'
  /\ ((exists t, t ∈ transitions db' /\ tr_EventID t = in_EventID row)
      \/ forall r, r ∈ outbox db' -> ox_EventID r <> in_EventID row).
Proof.
  intros Hincl Hk. destruct (oz_keys _ W _ _ Hk) as [Hle Hor]. rewrite (ap_sequence _ _ _ _ _ _ _ _ _ _ _ A). split; [lia|].
  destruct Hor as [(t & Ht & He)|Hno]; [left|right].
  - exists t. split; [|done]. apply list_elem_of_In, Hincl. by apply list_elem_of_In.
  - intros r Hr. apply append_rows in Hr as [Hr|[-> _]]; [by apply Hno|lia].
Qed.

Lemma append_base : ValidateOutboxRequirements (iq_Destinations request) = true -> audit_wf db' /\ outbox_wf db'.
Proof.
  intros Hv. split; [eapply appended_wf; [apply W|exact A]|]. eapply appended_outbox_wf; [apply W..|exact Hv|exact A].
Qed.

(** The intents of other repositories *)
Lemma foreign_append : ValidateOutboxRequirements (iq_Destinations request) = true ->
  ik_Scope (iq_Idempotency request) <> "operations-observation" -> tables db' = tables db ->
  ops_wf db' /\ continues db db' /\ kept db db'.
Proof.
  intros Hv Hs Ht. destruct (append_base Hv) as [Wa Wo]. split_and!; [|split|apply append_kept].
  - constructor; [done..|]. intros d row Hk. rewrite (ap_intents _ _ _ _ _ _ _ _ _ _ _ A) in Hk.
    rewrite lookup_insert_ne in Hk by congruence. apply (append_keys d row); [|done]. unfold transitions. rewrite Ht. apply incl_refl.
  - apply kept_later, append_kept.
  - eexists. apply A.
  - intros id row _. unfold transitionOf. by rewrite Ht.
Qed.

(** The key of the new intent *)
Lemma append_new_key digest' row : intent_keys db' !! ("operations-observation", digest') = Some row ->
  intent_keys db !! ("operations-observation", digest') = Some row \/ in_EventID row = audit_sequence db + 1.
Proof.
  rewrite (ap_intents _ _ _ _ _ _ _ _ _ _ _ A). intros Hk. apply lookup_insert_Some in Hk as [[_ <-]|[_ Hk]]; [right|by left].
  cbn [in_EventID]. apply append_event.
Qed.

(** An observation without a transition notifies nobody. *)
Lemma observed_append : iq_Destinations request = [] -> transitions db' = transitions db ->
  ops_wf db' /\ continues db db' /\ kept db db'.
Proof.
  intros Hd Ht. destruct append_base as [Wa Wo]; [by rewrite Hd|]. split_and!; [|split|apply append_kept].
  - constructor; [done..|]. intros d row Hk. apply append_new_key in Hk as [Hk|Hk].
    { apply (append_keys d row); [rewrite Ht; apply incl_refl|done]. }
    rewrite Hk, (ap_sequence _ _ _ _ _ _ _ _ _ _ _ A). split; [done|]. right. intros r Hr.
    apply append_rows in Hr as [Hr|[_ Hr]]; [|done]. apply outbox_at_row in Hr as [id Hr]. apply row_event_bound in Hr; [lia|done].
  - apply kept_later, append_kept.
  - eexists. apply A.
  - intros id row _. unfold transitionOf, transitions in *. by rewrite Ht.
Qed.

(** An observation with its transition. *)
Lemma transition_append t db'' : ValidateOutboxRequirements (iq_Destinations request) = true -> transitions db' = transitions db ->
  tr_EventID t = ir_EventID res ->
  db'' = setTables (mkOperationsTables (operations_alerts (tables db')) (operations_transitions (tables db') ++ [t])) db' ->
  ops_wf db'' /\ continues db db'' /\ kept db db''.
Proof.
  intros Hv Ht He ->. destruct (append_base Hv) as [Wa Wo]. destruct append_event as [_ Hid]. rewrite Hid in He.
  split_and!; [|split|apply append_kept].
  - constructor; [by destruct Wa|by destruct Wo|]. intros d row Hk. apply append_new_key in Hk as [Hk|Hk].
    + apply (append_keys d row) in Hk as [Hle Hor]; [|rewrite Ht; apply incl_refl]. split; [exact Hle|].
      destruct Hor as [(x & Hx & Hxe)|Hno]; [left|right; exact Hno]. exists x. split; [|done].
      unfold transitions. cbn. apply elem_of_app. by left.
    + split; [rewrite Hk; cbn; by rewrite (ap_sequence _ _ _ _ _ _ _ _ _ _ _ A)|]. left. exists t. split; [|congruence].
      unfold transitions. cbn. apply elem_of_app. right. by apply list_elem_of_singleton.
  - apply kept_later, append_kept.
  - eexists. apply A.
  - intros id row Hrow. apply transitionOf_snoc with (t := t); [unfold transitions in *; cbn; by rewrite Ht|].
    apply row_event_bound in Hrow; [lia|done].
Qed.

End Append.

(** ** Observations *)

Lemma rawSql_Ok {A} env name (run : database -> result (A * database)) (s : store) x s' :
  rawSql env name run s = (Ok x, s') -> exists db, run (st_db s) = Ok (x, db) /\ s' = withDb db s.
Proof.
  unfold rawSql. destruct (te_sql env (Named name)); [done|]. destruct (run (st_db s)) as [[y db]|e]; intros E; [|done].
  injection E as <- <-. by exists db.
Qed.

Lemma rawQuery_Ok {A} env name (f : database -> A) (s : store) x s' :
  rawQuery env name f s = (Ok x, s') -> x = f (st_db s) /\ s' = s.
Proof. intros E. apply rawSql_Ok in E as (db & [= <- <-] & ->). by rewrite withDb_same. Qed.

Lemma previousAlert_Ok env epoch o (s : store) p s' : previousAlert env epoch o s = (Ok p, s') -> s' = s.
Proof.
  unfold previousAlert. intros E. apply action_bind_Ok in E as (row & s1 & E1 & E). apply rawQuery_Ok in E1 as [_ ->].
  destruct row as [previous|]; [|by injection E]. destruct (Equal _ _); [|by injection E].
  apply action_bind_Ok in E as (u & s2 & E1 & E). apply check_Ok in E1 as [_ ->]. by injection E.
Qed.

(** The intent of an observation is appended, or was recorded before. *)
Lemma recordEvaluation_Ok env expected o actor destination next transition (s : store) u s' :
  ops_wf (st_db s) -> ValidateOutboxRequirements (destinations destination) = true ->
  recordEvaluation env expected o actor destination next transition s = (Ok u, s') ->
  ops_wf (st_db s') /\ continues (st_db s) (st_db s') /\ kept (st_db s) (st_db s').
Proof.
  intros W Hv E. unfold recordEvaluation in E. destruct (alertJSON next) as [raw|]; [|discriminate E].
  set (request := observationIntent _ _ _ _ _ _) in E.
  assert (Hv' : ValidateOutboxRequirements (iq_Destinations request) = true).
  { unfold request, observationIntent. cbn [iq_Destinations]. by destruct (transition == ""). }
  apply action_bind_Ok in E as (res & s1 & E1 & E). apply action_bind_Ok in E as (v & s2 & E2 & E).
  apply keeps_checkIdentity in E. rewrite E. clear E. apply appendAuditInTx_Ok in E1.
  destruct (transition == "") eqn:Ht.
  - injection E2 as _ <-. destruct E1 as [(row & _ & _ & -> & _)|(event & p & d & l & A & _)]; [done|].
    eapply observed_append; [done|exact A|by unfold request, observationIntent; rewrite Ht|].
    pose proof (ap_tables _ _ _ _ _ _ _ _ _ _ _ A) as Hb. injection Hb as Hb. unfold transitions. by rewrite <- Hb.
  - apply rawSql_Ok in E2 as (db2 & E2 & ->). cbn [st_db withDb]. apply insertTransition_Ok in E2 as [Hnew Hdb].
    destruct E1 as [(row & Hk & _ & -> & ->)|(event & p & d & l & A & _)].
    + subst db2. destruct (oz_keys _ W _ _ Hk) as [Hle Hor]. cbn [ir_EventID tr_EventID] in Hnew.
      destruct Hor as [(t & Ht' & He)|Hno]; [by apply Hnew in Ht'|].
      split_and!; [|split; [apply kept_later; by intros ??|by exists []; rewrite app_nil_r|]|by intros ??].
      * constructor; [by destruct W as [[] ? ?]|by destruct W as [? [] ?]|]. intros d r Hr. cbn in Hr.
        destruct (oz_keys _ W _ _ Hr) as [Hle' Hor']. split; [exact Hle'|].
        destruct Hor' as [(t & Ht' & He)|Hno']; [left|right; exact Hno']. exists t. split; [|done].
        unfold transitions. cbn. apply elem_of_app. by left.
      * intros id r Hr. eapply transitionOf_snoc; [reflexivity|]. cbn [tr_EventID ir_EventID]. intros Heq.
        apply outboxAt_lookup in Hr as [_ Hr]. by eapply Hno, eq_sym; [eapply list_elem_of_lookup_2|].
    + refine (transition_append _ _ _ _ _ _ _ _ _ _ _ W A _ db2 Hv' _ _ Hdb); [|reflexivity].
      pose proof (ap_tables _ _ _ _ _ _ _ _ _ _ _ A) as Hb. injection Hb as Hb. unfold transitions. by rewrite <- Hb.
Qed.

Lemma observeInTx_Ok env expected o actor destination (s : store) x s' :
  ops_wf (st_db s) -> ValidateOutboxRequirements (destinations destination) = true ->
  observeInTx env expected o actor destination s = (Ok x, s') ->
  ops_wf (st_db s') /\ continues (st_db s) (st_db s') /\ kept (st_db s) (st_db s').
Proof.
  intros W Hv E. unfold observeInTx in E. apply action_bind_Ok in E as (meta & s1 & E1 & E). apply rawQuery_Ok in E1 as [_ ->].
  apply action_bind_Ok in E as (u & s1 & E1 & E). apply check_Ok in E1 as [_ ->].
  apply action_bind_Ok in E as (u2 & s1 & E1 & E). apply check_Ok in E1 as [_ ->].
  apply action_bind_Ok in E as ([previous repeated] & s1 & E1 & E). apply previousAlert_Ok in E1 as ->.
  destruct repeated; [by injection E as _ <-|]. destruct (Evaluate previous o) as [[next transition]|]; [|discriminate E].
  apply action_bind_Ok in E as (u3 & s1 & E1 & E). apply recordEvaluation_Ok in E1; [|done..]. by injection E as _ <-.
Qed.

Lemma continues_refl_all db : ops_wf db -> ops_wf db /\ continues db db /\ kept db db.
Proof. done. Qed.

Lemma observation_effect env expected o actor destination (s : store) r s' : ops_wf (st_db s) ->
  RecordOperationsObservation env expected o actor destination s = (r, s') ->
  ops_wf (st_db s') /\ continues (st_db s) (st_db s') /\ kept (st_db s) (st_db s').
Proof.
  intros W E. unfold RecordOperationsObservation in E. unfold mbind at 1, action_bind in E.
  destruct (check _ _ s) as [[u|e] s1] eqn:Ev; [|injection E as _ <-; by rewrite (keeps_check _ _ _ _ _ Ev)].
  apply check_Ok in Ev as [Hv ->]. apply andb_true_iff in Hv as [[Hv _]%andb_true_iff _]. unfold mbind at 1, action_bind in E.
  destruct (readyForTransaction env s) as [[v|e] s1] eqn:Er; pose proof (keeps_readyForTransaction _ _ _ _ Er) as Hs1;
    [|injection E as _ <-; by rewrite Hs1].
  apply transact_outcome in E as [[Hs2 _]|E]; [by rewrite Hs2, Hs1|]. rewrite Hs1 in E.
  unfold mbind at 1, action_bind in E. destruct (rollback _ _ s1) as [[[alert changed]|e] s3] eqn:Et.
  2: { injection E as _ <-. by rewrite (rollback_Err _ _ _ _ _ Et). }
  apply rollback_Ok, observeInTx_Ok in Et as Hst; [|by rewrite Hs1|done]. rewrite Hs1 in Hst.
  destruct changed; [|by injection E as _ <-].
  unfold mbind, action_bind in E. destruct (commitOr _ _ _ s3) as [[c|e] s4] eqn:Ec;
    apply commitOr_outcome in Ec as [[Hc ->]|([Hd|Hd] & [e' He] & _)]; simplify_eq; [|by rewrite Hd..].
  unfold signal, modify in E. by injection E as _ <-.
Qed.

(** ** The other calls *)

Lemma attempt_effect env attempt (s : store) r s' : ops_wf (st_db s) -> RecordOutboxAttempt env attempt s = (r, s') ->
  ops_wf (st_db s') /\ continues (st_db s) (st_db s').
Proof.
  intros W E. apply RecordOutboxAttempt_outcome in E as [[-> _]|(record & row & M & ->)]; [done|].
  destruct W as [Wa Wo Wk]. split; [constructor|split].
  - by destruct Wa.
  - by eapply attempt_outbox_wf.
  - intros d k Hk. destruct (Wk _ _ Hk) as [Hle [Ht|Hno]]; (split; [exact Hle|]); [left; exact Ht|right].
    intros r' Hr'. apply outbox_at_row in Hr' as [id Hr']. rewrite (outboxAt_withRow _ _ _ _ _ (am_row _ _ _ _ M)) in Hr'.
    case_decide; simplify_eq.
    + rewrite (sn_event _ _ (afterAttempt_same record attempt row)). apply Hno.
      pose proof (am_row _ _ _ _ M) as Hrow. apply outboxAt_lookup in Hrow as [_ Hrow]. by eapply list_elem_of_lookup_2.
    + apply Hno. apply outboxAt_lookup in Hr' as [_ Hr']. by eapply list_elem_of_lookup_2.
  - by eapply attempt_outboxLater.
  - exists []. by rewrite app_nil_r.
  - done.
Qed.

Lemma executeAuditIntent_valid env request advance business (s : store) r s' :
  executeAuditIntent env request advance business s = (r, s') ->
  ValidateOutboxRequirements (iq_Destinations request) = true \/ s' = s.
Proof.
  unfold executeAuditIntent. case_match eqn:Hg; [intros [= _ <-]; by right|]. bool_hyps. by left.
Qed.

Lemma write_effect env request advance (s : store) r s' : ops_wf (st_db s) ->
  ik_Scope (iq_Idempotency request) <> "operations-observation" ->
  executeAuditIntent env request advance (Some (fun _ t => Ok t)) s = (r, s') ->
  ops_wf (st_db s') /\ continues (st_db s) (st_db s') /\ kept (st_db s) (st_db s').
Proof.
  intros W Hs E. apply executeAuditIntent_valid in E as Hv. destruct Hv as [Hv| ->]; [|done].
  apply executeAuditIntent_outcome in E as [[-> _]|(res & event & p & d & l & A & _)]; [done|].
  eapply foreign_append; [done|exact A|done|done|]. pose proof (ap_tables _ _ _ _ _ _ _ _ _ _ _ A) as Hb. by injection Hb.
Qed.

Lemma health_keeps env (s : store) r s' : readHealth env s = (r, s') -> st_db s' = st_db s.
Proof.
  revert s r s'. change (keeps_db (T:=OperationsTables) (readHealth env)). unfold readHealth. eauto 10 with audit_store.
Qed.

Lemma keeps_rawQuery {A} env name (f : database -> A) : keeps_db (rawQuery env name f).
Proof.
  intros s r s'. unfold rawQuery, rawSql. destruct (te_sql env (Named name)); intros [= _ <-]; done.
Qed.

Lemma keeps_readDeliveries env ids : keeps_db (readDeliveries env ids).
Proof.
  induction ids as [|id ids IH]; cbn [readDeliveries]; [apply keeps_mret|]. apply keeps_bind; [|intros d; apply keeps_bind; [done|intros ds; apply keeps_mret]].
  unfold readDelivery. destruct (te_sql env _); [apply keeps_fail|]. apply keeps_bind; [apply keeps_gets|].
  intros [[row record]|]; [|apply keeps_fail]. apply keeps_bind; [apply keeps_rawQuery|]. intros [event|]; [|apply keeps_fail].
  destruct (CanonicalEvent _) as [[canonical digest]|]; [|apply keeps_fail].
  apply keeps_bind; [apply keeps_check|intros _; apply keeps_mret].
Qed.

Lemma due_keeps env destination epoch now (s : store) r s' :
  DueOperationsDeliveries env destination epoch now s = (r, s') -> st_db s' = st_db s.
Proof.
  revert s r s'. change (keeps_db (DueOperationsDeliveries env destination epoch now)). unfold DueOperationsDeliveries.
  apply keeps_bind; [apply keeps_readyForRead|intros _]. apply keeps_bind; [apply keeps_gets|intros h].
  apply keeps_bind; [apply keeps_check|intros _]. apply keeps_bind; [apply keeps_rawQuery|]. apply keeps_readDeliveries.
Qed.

Lemma exact_rows db : ops_wf db -> forall id row event, outboxAt id db = Some row -> eventOf row db = Some event ->
  payloadExact row event = true.
Proof.
  intros W id row event Hrow He. destruct (ow_exact _ (oz_outbox _ W) _ _ Hrow) as (e & He' & Hx). congruence.
Qed.

(** A payload is prepared for an open notification only. *)
Lemma prepare_outcome env d now (s : store) r s' : ops_wf (st_db s) -> PrepareOperationsDelivery env d now s = (r, s') ->
  st_db s' = st_db s
  /\ (is_ok r = true -> exists row event, outboxAt (or_OutboxID (dl_Record d)) (st_db s) = Some row
        /\ eventOf row (st_db s) = Some event /\ openStatus (ox_Status row) = true
        /\ CanonicalEvent (dl_Event d) = Ok (ox_PayloadBytes row, or_PayloadSHA256 (dl_Record d))).
Proof.
  intros W E. unfold PrepareOperationsDelivery in E. unfold mbind at 1, action_bind in E.
  destruct (payloadForAttempt _ _ _ s) as [[raw|e] s1] eqn:Ep;
    apply payloadForAttempt_outcome in Ep as [Hs1 Hp]; try (by intros; eapply exact_rows);
    [|injection E as <- <-; by split].
  destruct (Hp raw eq_refl) as (row & event & Hrow & Hev & Ho & <-).
  destruct (CanonicalEvent (dl_Event d)) as [[canonical digest]|] eqn:Hc; [|injection E as <- <-; by split].
  unfold check, lift, require in E. injection E as <- <-. split; [done|]. case_match eqn:Hb; [|done]. bool_hyps. subst.
  intros _. eauto 10.
Qed.

Lemma perform_effect call (s : store) : ops_wf (st_db s) -> (forall env request advance, call = CallWrite env request advance -> foreign call = true) ->
  ops_wf (st_db (performOperation call s)) /\ continues (st_db s) (st_db (performOperation call s))
  /\ (foreign call = true -> kept (st_db s) (st_db (performOperation call s))).
Proof.
  intros W Hf. destruct call as [env expected o actor destination|env request advance|env|env destination epoch now|env d now|env attempt];
    cbn [performOperation foreign] in *.
  - destruct (RecordOperationsObservation _ _ _ _ _ s) as [r s'] eqn:E. apply observation_effect in E; naive_solver.
  - destruct (executeAuditIntent _ _ _ _ s) as [r s'] eqn:E. apply write_effect in E; [naive_solver|done|].
    specialize (Hf _ _ _ eq_refl). by bool_hyps.
  - destruct (readHealth _ s) as [r s'] eqn:E. apply health_keeps in E. cbn [snd]. by rewrite E.
  - destruct (DueOperationsDeliveries _ _ _ _ s) as [r s'] eqn:E. apply due_keeps in E. cbn [snd]. by rewrite E.
  - destruct (PrepareOperationsDelivery _ _ _ s) as [r s'] eqn:E. apply prepare_outcome in E as [E _]; [|done]. cbn [snd]. by rewrite E.
  - destruct (RecordOutboxAttempt _ _ s) as [r s'] eqn:E. apply attempt_effect in E; naive_solver.
Qed.

(** Every call of the dispatcher and of the others *)
Definition proper (call : OperationsCall) : bool :=
  match call with CallWrite _ _ _ => foreign call | _ => true end.

Lemma perform_proper call (s : store) : ops_wf (st_db s) -> proper call = true ->
  ops_wf (st_db (performOperation call s)) /\ continues (st_db s) (st_db (performOperation call s)).
Proof.
  intros W Hp. destruct (perform_effect call s W) as (W' & F & _); [|done]. by intros env request advance ->.
Qed.

Lemma performs_proper calls (s : store) : ops_wf (st_db s) -> Forall (fun call => proper call = true) calls ->
  ops_wf (st_db (performOperations calls s)) /\ continues (st_db s) (st_db (performOperations calls s)).
Proof.
  intros W Hc. revert s W. induction Hc as [|call calls Hp Hc IH]; intros s W; [done|].
  destruct (perform_proper call s W Hp) as [W1 F1]. destruct (IH _ W1) as [W2 F2]. split; [exact W2|]. by etransitivity.
Qed.

Lemma performs_foreign calls (s : store) : ops_wf (st_db s) -> Forall (fun call => foreign call = true) calls ->
  ops_wf (st_db (performOperations calls s)) /\ continues (st_db s) (st_db (performOperations calls s))
  /\ kept (st_db s) (st_db (performOperations calls s)).
Proof.
  intros W Hc. revert s W. induction Hc as [|call calls Hp Hc IH]; intros s W; [done|].
  destruct (perform_effect call s W) as (W1 & F1 & K1); [done|]. destruct (IH _ W1) as (W2 & F2 & K2).
  split_and!; [exact W2|by etransitivity|]. etransitivity; [by apply K1|exact K2].
Qed.

End Tables.
