(* ===== verification/AlertLife.v ===== *)
(** The life of an alert over every sequence of observations of its target
    ([operations.Evaluate]). *)

From S2P Require Import Prelude GoTime Hash GoJson Contracts AuditLog AuditStore Outbox Operations OperationsSafety.

Section Life.
Context `{Hasher}.

(** A transition with its generation, the observation that made it and the
    accepted observations before it *)
Record AlertTransition := mkAlertTransition {
  lt_Transition : string;
  lt_Generation : Z;
  lt_Before : list Observation;
  lt_Observation : Observation
}.

Record AlertHistory := mkAlertHistory {
  hy_Alert : Alert;
  hy_Accepted : list Observation;
  hy_Transitions : list AlertTransition
}.

(** One observation; a refused one changes nothing. *)
Definition observe (h : AlertHistory) (o : Observation) : AlertHistory :=
  match Evaluate (hy_Alert h) o with
  | Err _ => h
  | Ok (a, transition) =>
      mkAlertHistory a (hy_Accepted h ++ [o])
        (if transition == "" then hy_Transitions h
         else hy_Transitions h ++ [mkAlertTransition transition (al_Generation a) (hy_Accepted h) o])
  end.

Definition alertHistory (os : list Observation) : AlertHistory := fold_left observe os (mkAlertHistory noAlert [] []).

Definition failedNow (o : Observation) : bool := on_State o == "failed".

(** The failures since the last observation that was none. *)
Fixpoint leading (l : list Observation) : nat :=
  match l with o :: rest => if failedNow o then S (leading rest) else 0%nat | [] => 0%nat end.
Definition trailing (l : list Observation) : nat := leading (reverse l).

Lemma trailing_snoc l o : trailing (l ++ [o]) = if failedNow o then S (trailing l) else 0%nat.
Proof. unfold trailing. by rewrite reverse_snoc. Qed.

(** What one transition rests on. *)
Definition wellFounded (t : AlertTransition) : Prop :=
  let o := lt_Observation t in
  if lt_Transition t == "opened" then
    on_State o = "failed" /\ (on_Severity o = "critical" \/ exists p, last (lt_Before t) = Some p /\ on_State p = "failed")
  else
    on_State o = "healthy" /\ on_Verified o = true /\ ns (on_SampleAt o) <= ns (on_ObservedAt o)
    /\ forall p, p ∈ lt_Before t -> on_State p = "failed" -> ns (on_ObservedAt p) < ns (on_SampleAt o).

Definition expected (i : nat) (t : AlertTransition) : Prop :=
  lt_Transition t = (if Nat.even i then "opened" else "closed") /\ lt_Generation t = int64 (Z.of_nat (i / 2) + 1).

(** The alert of a history *)
Record describesHistory (h : AlertHistory) : Prop := {
  dh_key : al_Key (hy_Alert h) = "" -> h = mkAlertHistory noAlert [] [];
  dh_observed : forall p, p ∈ hy_Accepted h -> ns (on_ObservedAt p) <= ns (al_ObservedAt (hy_Alert h)) /\ IsZero (al_ObservedAt (hy_Alert h)) = false;
  dh_failed : forall p, p ∈ hy_Accepted h -> on_State p = "failed" -> exists last, al_LastFailure (hy_Alert h) = Some last /\ ns (on_ObservedAt p) <= ns last;
  dh_consecutive : al_Consecutive (hy_Alert h) = int64 (Z.of_nat (trailing (hy_Accepted h)));
  dh_generation : al_Generation (hy_Alert h) = int64 (Z.of_nat ((length (hy_Transitions h) + 1) / 2));
  dh_status : al_Status (hy_Alert h) = "open" <-> Nat.odd (length (hy_Transitions h)) = true;
  dh_transitions : forall i t, hy_Transitions h !! i = Some t -> expected i t /\ wellFounded t
}.

Lemma int64_step z : int64 (int64 z + 1) = int64 (z + 1).
Proof. unfold int64. f_equal. replace ((z + 2 ^ 63) mod 2 ^ 64 - 2 ^ 63 + 1 + 2 ^ 63) with ((z + 2 ^ 63) mod 2 ^ 64 + 1) by lia.
  rewrite Zplus_mod_idemp_l. f_equal. lia. Qed.

Lemma alertKey_nonempty o : alertKey o <> "".
Proof. unfold alertKey, hashString. discriminate. Qed.

(** The outcomes of an evaluation, by the state of the source. *)
Lemma Evaluate_Ok a o a' transition : Evaluate a o = Ok (a', transition) ->
  ValidObservation o = true /\ (IsZero (al_ObservedAt a) = true \/ ns (al_ObservedAt a) < ns (on_ObservedAt o))
  /\ al_Key a' <> "" /\ al_ObservedAt a' = on_ObservedAt o
  /\ let b := if al_Key a == "" then firstAlert o else a in
     (on_State o = "failed" /\ al_LastFailure a' = Some (on_ObservedAt o) /\ al_Consecutive a' = int64 (al_Consecutive b + 1)
        /\ (transition = "" /\ al_Generation a' = al_Generation b /\ (al_Status a' = "open" <-> al_Status b = "open")
            \/ transition = "opened" /\ al_Status b <> "open" /\ al_Status a' = "open" /\ al_Generation a' = int64 (al_Generation b + 1)
               /\ (on_Severity o = "critical" \/ 2 <= al_Consecutive a')))
     \/ on_State o <> "failed" /\ al_LastFailure a' = al_LastFailure b /\ al_Consecutive a' = 0 /\ al_Generation a' = al_Generation b
        /\ (transition = "" /\ (al_Status a' = "open" <-> al_Status b = "open")
            \/ transition = "closed" /\ on_State o = "healthy" /\ al_Status b = "open" /\ al_Status a' = "closed"
               /\ forall last, al_LastFailure b = Some last -> ns last < ns (on_SampleAt o)).
Proof.
  unfold Evaluate. intros E. apply bind_Ok in E as (u1 & E1 & E). apply bind_Ok in E as (u2 & E2 & E).
  apply require_Ok in E1, E2. apply andb_true_iff in E1 as [Hv Hobs]. split; [exact Hv|]. split.
  { apply orb_true_iff in Hobs as [Hz|Ha]; [by left|right]. by apply Z.ltb_lt in Ha. }
  cbv zeta in E |- *. set (b := if al_Key a == "" then firstAlert o else a) in *.
  assert (Hk : al_Key b <> "").
  { unfold b. destruct (al_Key a == "") eqn:Hkey; [apply alertKey_nonempty|by bool_hyps]. }
  destruct (on_State o == "failed") eqn:Hf; [apply bool_decide_eq_true_1 in Hf|apply bool_decide_eq_false_1 in Hf].
  - cbn [countFailure observedAs al_Status al_Consecutive al_Generation] in E. destruct (al_Status b == "open") eqn:Hs.
    + apply bool_decide_eq_true_1 in Hs. injection E as <- <-. cbn. split_and!; [exact Hk|done|left]. split_and!; [done..|left].
      by split_and!.
    + apply bool_decide_eq_false_1 in Hs. case_match eqn:Hc; injection E as <- <-; cbn; (split_and!; [exact Hk|done|left]); split_and!; try done.
      * right. split_and!; try done. apply orb_true_iff in Hc as [Hc|Hc]; bool_hyps; auto.
      * left. split_and!; [done..|]. split; [discriminate|done].
  - destruct (on_State o == "healthy") eqn:Hh.
    + apply bool_decide_eq_true_1 in Hh. cbn [endFailures observedAs al_Status al_LastFailure] in E.
      destruct (al_Status b == "open") eqn:Hs; cbn [andb] in E.
      * apply bool_decide_eq_true_1 in Hs. case_match eqn:Hl.
        -- injection E as <- <-. cbn. split_and!; [exact Hk|done|right]. split_and!; [done..|right]. split_and!; [done..|].
           intros l Hlast. rewrite Hlast in Hl. by apply Z.ltb_lt in Hl.
        -- cbn [negb andb] in E. injection E as <- <-. cbn. split_and!; [exact Hk|done|right].
           split_and!; [done..|left]. by split.
      * apply bool_decide_eq_false_1 in Hs. cbn [negb andb] in E. case_match; injection E as <- <-; cbn;
          (split_and!; [exact Hk|done|right]); (split_and!; [done..|left]); split; try done; (split; [discriminate|done]).
    + injection E as <- <-. cbn. split_and!; [exact Hk|done|right]. split_and!; [done..|left]. by split.
Qed.

Lemma valid_observed o : ValidObservation o = true -> IsZero (on_ObservedAt o) = false
  /\ (on_State o = "healthy" -> on_Verified o = true /\ ns (on_SampleAt o) <= ns (on_ObservedAt o)).
Proof.
  unfold ValidObservation. intros Hv. apply andb_true_iff in Hv as [Hv Hh]. bool_hyps. split; [done|]. intros Hs.
  rewrite Hs, bool_decide_refl in Hh. cbn [negb orb] in Hh. unfold After in Hh. bool_hyps. by split.
Qed.

(** The state before the first observation and a later one agree on what counts. *)
Lemma start_facts h o : describesHistory h -> let a := hy_Alert h in let b := if al_Key a == "" then firstAlert o else a in
  al_Consecutive b = al_Consecutive a /\ al_Generation b = al_Generation a /\ al_LastFailure b = al_LastFailure a
  /\ (al_Status b = "open" <-> al_Status a = "open").
Proof.
  intros D. cbv zeta. destruct (al_Key (hy_Alert h) == "") eqn:Hk; [|by split_and!]. apply bool_decide_eq_true_1 in Hk.
  rewrite (dh_key _ D Hk). cbn. split_and!; try done.
Qed.

Lemma trailing_last l : (2 <= trailing l)%nat -> exists l' p o, l = l' ++ [p; o] /\ on_State p = "failed".
Proof.
  destruct l as [|o l _] using rev_ind; [unfold trailing; cbn; lia|]. rewrite trailing_snoc. destruct (failedNow o); [|lia].
  destruct l as [|p l _] using rev_ind; [unfold trailing; cbn; lia|]. rewrite trailing_snoc. unfold failedNow.
  case_bool_decide; [|lia]. intros _. exists l, p, o. by rewrite <- app_assoc.
Qed.

Lemma int64_small n : (n < 2)%nat -> int64 (Z.of_nat n) < 2.
Proof. intros Hn. rewrite int64_id; [lia|]. unfold in_int64, min_int64, max_int64. lia. Qed.

Lemma expected_snoc n transition generation before o :
  transition = (if Nat.even n then "opened" else "closed") ->
  generation = (if Nat.even n then int64 (Z.of_nat ((n + 1) / 2) + 1) else int64 (Z.of_nat ((n + 1) / 2))) ->
  expected n (mkAlertTransition transition generation before o).
Proof.
  intros -> ->. split; [done|]. cbn [lt_Generation]. destruct (Nat.even n) eqn:He.
  - apply Nat.even_spec in He as [k ->]. f_equal. f_equal. f_equal. replace (2 * k + 1)%nat with (1 + k * 2)%nat by lia.
    rewrite Nat.div_add by lia. replace (2 * k)%nat with (k * 2)%nat by lia. by rewrite Nat.div_mul.
  - assert (Ho : Nat.odd n = true) by (by rewrite <- Nat.negb_even, He). apply Nat.odd_spec in Ho as [k ->]. f_equal.
    replace (2 * k + 1 + 1)%nat with ((k + 1) * 2)%nat by lia. rewrite Nat.div_mul by lia.
    replace (2 * k + 1)%nat with (1 + k * 2)%nat by lia. rewrite Nat.div_add by lia. cbn. lia.
Qed.

(** Everything but the transitions *)
Lemma accepted_grows h o a' : describesHistory h -> ValidObservation o = true ->
  IsZero (al_ObservedAt (hy_Alert h)) = true \/ ns (al_ObservedAt (hy_Alert h)) < ns (on_ObservedAt o) ->
  al_ObservedAt a' = on_ObservedAt o ->
  (forall p, p ∈ hy_Accepted h ++ [o] -> ns (on_ObservedAt p) <= ns (al_ObservedAt a') /\ IsZero (al_ObservedAt a') = false)
  /\ forall p, p ∈ hy_Accepted h -> ns (on_ObservedAt p) <= ns (on_ObservedAt o).
Proof.
  intros D Hv Hobs ->. apply valid_observed in Hv as [Hz _].
  assert (Hold : forall p, p ∈ hy_Accepted h -> ns (on_ObservedAt p) <= ns (on_ObservedAt o)).
  { intros p Hp. destruct (dh_observed _ D p Hp) as [Hle Hnz]. destruct Hobs as [Hobs|Hobs]; [congruence|lia]. }
  split; [|exact Hold]. intros p [Hp| ->%list_elem_of_singleton]%elem_of_app; split; try done. by apply Hold.
Qed.

Lemma transitions_snoc h t : describesHistory h -> expected (length (hy_Transitions h)) t -> wellFounded t ->
  forall i t', (hy_Transitions h ++ [t]) !! i = Some t' -> expected i t' /\ wellFounded t'.
Proof.
  intros D He Hw i t' Hi. apply lookup_app_Some in Hi as [Hi|[Hge Hi]]; [by apply (dh_transitions _ D)|].
  apply list_lookup_singleton_Some in Hi as [Hz <-]. by replace i with (length (hy_Transitions h)) by lia.
Qed.

Lemma odd_snoc {A} (l : list A) x : Nat.odd (length (l ++ [x])) = negb (Nat.odd (length l)).
Proof. rewrite length_app, Nat.add_1_r, Nat.odd_succ. symmetry. apply Nat.negb_odd. Qed.

Lemma half_snoc {A} (l : list A) x : Nat.odd (length l) = true ->
  ((length (l ++ [x]) + 1) / 2 = (length l + 1) / 2)%nat.
Proof.
  intros Ho. apply Nat.odd_spec in Ho as [k Hk]. rewrite length_app, Hk. cbn [length].
  replace (2 * k + 1 + 1 + 1)%nat with (1 + (k + 1) * 2)%nat by lia. replace (2 * k + 1 + 1)%nat with ((k + 1) * 2)%nat by lia.
  by rewrite Nat.div_add, Nat.div_mul by lia.
Qed.

Lemma half_snoc_even {A} (l : list A) x : Nat.odd (length l) = false ->
  ((length (l ++ [x]) + 1) / 2 = S ((length l + 1) / 2))%nat.
Proof.
  intros Ho. assert (He : Nat.even (length l) = true) by (by rewrite <- Nat.negb_odd, Ho). apply Nat.even_spec in He as [k Hk].
  rewrite length_app, Hk. cbn [length]. replace (2 * k + 1 + 1)%nat with ((k + 1) * 2)%nat by lia.
  replace (2 * k + 1)%nat with (1 + k * 2)%nat by lia. rewrite Nat.div_add, Nat.div_mul by lia. cbn. lia.
Qed.

Lemma observe_describes h o : describesHistory h -> describesHistory (observe h o).
Proof.
  intros D. unfold observe. destruct (Evaluate (hy_Alert h) o) as [[a' transition]|e] eqn:E; [|done].
  apply Evaluate_Ok in E as (Hv & Hobs & Hk & Hat & Hcase). cbv zeta in Hcase.
  destruct (start_facts h o D) as (Hc & Hg & Hl & Hs). cbv zeta in Hc, Hg, Hl, Hs. rewrite Hc, Hg, Hl, Hs in Hcase. clear Hc Hg Hl Hs.
  destruct (accepted_grows _ _ _ D Hv Hobs Hat) as [Hacc Hold].
  pose proof (dh_status _ D) as Hst. pose proof (dh_generation _ D) as Hgen. pose proof (dh_consecutive _ D) as Hcon.
  destruct Hcase as [(Hf & Hlast & Hcons & Hcase)|(Hf & Hlast & Hcons & Hg & Hcase)].
  - assert (Hfail : forall p, p ∈ hy_Accepted h ++ [o] -> on_State p = "failed" -> exists last, al_LastFailure a' = Some last /\ ns (on_ObservedAt p) <= ns last).
    { intros p Hp _. exists (on_ObservedAt o). split; [done|]. rewrite <- Hat. by apply Hacc. }
    assert (Hcon' : al_Consecutive a' = int64 (Z.of_nat (trailing (hy_Accepted h ++ [o])))).
    { rewrite Hcons, Hcon, int64_step, trailing_snoc. unfold failedNow. rewrite Hf, bool_decide_refl. f_equal. lia. }
    destruct Hcase as [(-> & Hg & Hs)|(-> & Hns & Hs & Hg & Hwhy)]; [rewrite bool_decide_refl|].
    + constructor; cbn [hy_Alert hy_Accepted hy_Transitions]; try done; [congruence|by rewrite Hs|apply D].
    + change ("opened" == "") with false. assert (Hodd : Nat.odd (length (hy_Transitions h)) = false) by (apply not_true_is_false; by rewrite <- Hst).
      constructor; cbn [hy_Alert hy_Accepted hy_Transitions]; try done.
      * rewrite half_snoc_even, Hg, Hgen, int64_step by done. f_equal. lia.
      * rewrite odd_snoc, Hodd. done.
      * apply transitions_snoc; [done|apply expected_snoc|].
        -- by rewrite <- Nat.negb_odd, Hodd.
        -- rewrite <- Nat.negb_odd, Hodd. cbn [negb]. by rewrite Hg, Hgen, int64_step.
        -- unfold wellFounded. cbn [lt_Transition lt_Observation lt_Before]. rewrite bool_decide_refl. split; [done|].
           destruct Hwhy as [Hw|Hw]; [by left|right]. rewrite Hcon' in Hw.
           destruct (trailing_last (hy_Accepted h ++ [o])) as (l' & p & o' & Heq & Hp).
           { destruct (decide (trailing (hy_Accepted h ++ [o]) < 2)%nat) as [Hlt|]; [|lia]. apply int64_small in Hlt. lia. }
           exists p. split; [|done]. replace (l' ++ [p; o']) with ((l' ++ [p]) ++ [o']) in Heq by (by rewrite <- app_assoc).
           apply app_inj_tail in Heq as [-> _]. apply last_snoc.
  - assert (Hfail : forall p, p ∈ hy_Accepted h ++ [o] -> on_State p = "failed" -> exists last, al_LastFailure a' = Some last /\ ns (on_ObservedAt p) <= ns last).
    { intros p [Hp| ->%list_elem_of_singleton]%elem_of_app Hpf; [|done]. rewrite Hlast. by apply (dh_failed _ D). }
    assert (Hcon' : al_Consecutive a' = int64 (Z.of_nat (trailing (hy_Accepted h ++ [o])))).
    { rewrite Hcons, trailing_snoc. unfold failedNow. by rewrite bool_decide_eq_false_2. }
    destruct Hcase as [(-> & Hs)|(-> & Hh & Hopen & Hs & Hsample)]; [rewrite bool_decide_refl|].
    + constructor; cbn [hy_Alert hy_Accepted hy_Transitions]; try done; [congruence|by rewrite Hs|apply D].
    + change ("closed" == "") with false. assert (Hodd : Nat.odd (length (hy_Transitions h)) = true) by (by apply Hst).
      constructor; cbn [hy_Alert hy_Accepted hy_Transitions]; try done.
      * by rewrite half_snoc, Hg, Hgen.
      * rewrite odd_snoc, Hodd, Hs. done.
      * apply transitions_snoc; [done|apply expected_snoc|].
        -- by rewrite <- Nat.negb_odd, Hodd.
        -- rewrite <- Nat.negb_odd, Hodd. cbn [negb]. by rewrite Hg, Hgen.
        -- unfold wellFounded. cbn [lt_Transition lt_Observation lt_Before]. change ("closed" == "opened") with false.
           split; [done|]. destruct (valid_observed _ Hv) as [_ Hver]. destruct (Hver Hh) as [-> Hle]. split_and!; [done..|].
           intros p Hp Hpf. destruct (dh_failed _ D p Hp Hpf) as (last & Hlf & Hle'). specialize (Hsample _ Hlf). lia.
Qed.

(** C15: over every sequence of observations of a target, refused ones included,
    the recorded transitions of its alert alternate between opened and closed,
    numbered by the openings; the alert is open exactly between an opening and the
    next closing; it opens only on a failure that is critical or follows a failure,
    and closes only on a verified healthy sample taken after every failure before
    it, never on silence or stale data. *)
Theorem alert_transitions_alternate os : let h := alertHistory os in
  (forall i t, hy_Transitions h !! i = Some t -> expected i t /\ wellFounded t)
  /\ (al_Status (hy_Alert h) = "open" <-> Nat.odd (length (hy_Transitions h)) = true).
Proof.
  cbv zeta. assert (D : describesHistory (alertHistory os)).
  { unfold alertHistory. assert (D0 : describesHistory (mkAlertHistory noAlert [] [])).
    { constructor; cbn; try done; set_solver. }
    revert D0. generalize (mkAlertHistory noAlert [] []). induction os as [|o os IH]; intros h D; [done|]. cbn [fold_left].
    by apply IH, observe_describes. }
  split; apply D.
Qed.

End Life.

(** ** Recorded observations *)

Section Recorded.
Context `{Hasher}.

Notation store := (Store OperationsTables).
Notation database := (Db OperationsTables).

Lemma Evaluate_key a o a' transition : Evaluate a o = Ok (a', transition) -> al_Key a' = alertKey o.
Proof.
  unfold Evaluate. intros E. apply bind_Ok in E as (u1 & _ & E). apply bind_Ok in E as (u2 & E2 & E). apply require_Ok in E2.
  cbv zeta in E. set (b := if al_Key a == "" then firstAlert o else a) in *.
  assert (Hk : al_Key b = alertKey o).
  { unfold b. destruct (al_Key a == "") eqn:Hkey; [done|]. cbn [orb] in E2. by bool_hyps. }
  repeat (split_match_in E); injection E as <- <-; exact Hk.
Qed.

(** What an evaluation leaves in the tables. *)
Record evaluated (expected : RevisionToken) (o : Observation) (destination : string) (db : database) (alert : Alert)
    (transition : string) (db' : database) : Prop := {
  ev_evaluated : Evaluate (default noAlert (operations_alerts (tables db) !! (rt_RecoveryEpoch expected, alertKey o))) o = Ok (alert, transition);
  ev_alerts : operations_alerts (tables db') = <[(rt_RecoveryEpoch expected, alertKey o) := alert]> (operations_alerts (tables db));
  ev_notified : exists event payload digest, audit_events db' = audit_events db ++ [mkEventRow event payload digest]
    /\ operations_transitions (tables db') = operations_transitions (tables db) ++
         (if transition == "" then []
          else [mkTransitionRow (audit_sequence db + 1) (rt_RecoveryEpoch expected) (alertKey o) (al_Generation alert) transition])
    /\ e_EventID event = audit_sequence db + 1
    /\ outbox db' = outbox db ++ (if transition == "" then [] else outboxRows event payload digest (destinations destination))
}.

(** The alert an observation repeats *)
Definition repeats (o : Observation) (alert : Alert) : Prop :=
  ns (on_ObservedAt o) = ns (al_ObservedAt alert) /\ on_State o = al_State alert /\ on_Severity o = al_Severity alert.

Lemma previousAlert_cases env epoch o (s : store) previous repeated s' : previousAlert env epoch o s = (Ok (previous, repeated), s') ->
  s' = s /\ previous = default noAlert (operations_alerts (tables (st_db s)) !! (epoch, alertKey o))
  /\ (repeated = true -> operations_alerts (tables (st_db s)) !! (epoch, alertKey o) = Some previous /\ repeats o previous).
Proof.
  unfold previousAlert. intros E. apply action_bind_Ok in E as (row & s1 & E1 & E). apply rawQuery_Ok in E1 as [-> ->].
  destruct (operations_alerts _ !! _) as [p|]; [|by injection E as <- <- <-]. destruct (Equal _ _) eqn:Ht; [|by injection E as <- <- <-].
  apply action_bind_Ok in E as (u & s2 & E1 & E). apply check_Ok in E1 as [Hc ->]. injection E as <- <- <-.
  apply Z.eqb_eq in Ht. bool_hyps. done.
Qed.

(** The key of the intent of an observation *)
Definition observationKey (o : Observation) : string * string :=
  ("operations-observation", hashString (alertKey o +:+ FormatRFC3339Nano (on_ObservedAt o))).

Lemma recordEvaluation_evaluated env expected o actor destination alert transition (s : store) u s' :
  intent_keys (st_db s) !! observationKey o = None ->
  Evaluate (default noAlert (operations_alerts (tables (st_db s)) !! (rt_RecoveryEpoch expected, alertKey o))) o = Ok (alert, transition) ->
  recordEvaluation env expected o actor destination alert transition s = (Ok u, s') ->
  evaluated expected o destination (st_db s) alert transition (st_db s').
Proof.
  intros Hk He E. unfold recordEvaluation in E. destruct (alertJSON alert) as [raw|]; [|discriminate E].
  apply action_bind_Ok in E as (res & s1 & E1 & E). apply action_bind_Ok in E as (v & s2 & E2 & E).
  apply keeps_checkIdentity in E. rewrite E. clear E.
  apply appendAuditInTx_Ok in E1 as [(row & Hrow & _)|(event & p & d & l & A & _)].
  { unfold observationKey in Hk. cbn [observationIntent iq_Idempotency ik_Scope ik_KeyDigest] in Hrow. congruence. }
  pose proof (ap_tables _ _ _ _ _ _ _ _ _ _ _ A) as Hb. injection Hb as Hb. rewrite (Evaluate_key _ _ _ _ He) in Hb.
  destruct (append_event _ _ _ _ _ _ _ _ _ _ _ A) as [Hid Hres].
  pose proof (ap_outbox _ _ _ _ _ _ _ _ _ _ _ A) as Ho. cbn [observationIntent iq_Destinations] in Ho.
  pose proof (ap_events _ _ _ _ _ _ _ _ _ _ _ A) as Hev.
  destruct (transition == "") eqn:Ht.
  - injection E2 as _ <-. constructor; [done|by rewrite <- Hb|]. exists event, p, d. rewrite <- Hb, Ht. cbn [operations_transitions].
    rewrite app_nil_r. by split_and!.
  - apply rawSql_Ok in E2 as (db2 & E2 & ->). cbn [st_db withDb]. apply insertTransition_Ok in E2 as [_ ->].
    constructor; cbn [setTables tables operations_alerts operations_transitions audit_events outbox]; [done|by rewrite <- Hb|].
    exists event, p, d. rewrite <- Hb, Ht. cbn [operations_transitions]. rewrite Hres. by split_and!.
Qed.

(** C16: an observation under an intent of its own either leaves the tables as they
    are - and then a success repeats the alert of the same time and state - or
    records, all together, the evaluated alert, one audit event, and, if the alert
    opened or closed, its transition and its notification; a complete record that is
    not reported as a success has put the store in safe mode. *)
Theorem observation_recorded_at_once env expected o actor destination (s : store) r s' :
  intent_keys (st_db s) !! observationKey o = None ->
  RecordOperationsObservation env expected o actor destination s = (r, s') ->
  (st_db s' = st_db s /\ forall alert, r = Ok alert ->
     operations_alerts (tables (st_db s)) !! (rt_RecoveryEpoch expected, alertKey o) = Some alert /\ repeats o alert)
  \/ exists alert transition, evaluated expected o destination (st_db s) alert transition (st_db s')
       /\ (r = Ok alert \/ (exists e, r = Err e) /\ h_MutationEnabled (st_health s') = false).
Proof.
  intros Hk E. unfold RecordOperationsObservation in E. unfold mbind at 1, action_bind in E.
  destruct (check _ _ s) as [[u|e] s1] eqn:Ev; [|injection E as <- <-; left; by rewrite (keeps_check _ _ _ _ _ Ev)].
  apply check_Ok in Ev as [_ ->]. unfold mbind at 1, action_bind in E.
  destruct (readyForTransaction env s) as [[v|e] s1] eqn:Er; pose proof (keeps_readyForTransaction _ _ _ _ Er) as Hs1;
    [|injection E as <- <-; by left].
  apply transact_outcome in E as [[Hs2 [e ->]]|E]; [left; by rewrite Hs2, Hs1|]. rewrite Hs1 in E.
  unfold mbind at 1, action_bind in E. destruct (rollback _ _ s1) as [[[alert changed]|e] s3] eqn:Et.
  2: { injection E as <- <-. left. by rewrite (rollback_Err _ _ _ _ _ Et). }
  apply rollback_Ok in Et. unfold observeInTx in Et. apply action_bind_Ok in Et as (meta & s4 & E1 & Et). apply rawQuery_Ok in E1 as [_ ->].
  apply action_bind_Ok in Et as (u1 & s4 & E1 & Et). apply check_Ok in E1 as [_ ->].
  apply action_bind_Ok in Et as (u2 & s4 & E1 & Et). apply check_Ok in E1 as [_ ->].
  apply action_bind_Ok in Et as ([previous repeated] & s4 & E1 & Et). apply previousAlert_cases in E1 as (-> & Hprev & Hrep). rewrite Hs1 in Hprev, Hrep.
  destruct repeated.
  { injection Et as <- <- <-. cbn in E. injection E as <- <-. left. split; [done|]. intros alert [= <-]. by apply Hrep. }
  destruct (Evaluate previous o) as [[next transition]|] eqn:Hev; [|discriminate Et]. rewrite Hprev in Hev.
  apply action_bind_Ok in Et as (u3 & s4 & E1 & Et). injection Et as <- <- <-. rewrite <- Hs1 in Hev, Hk.
  apply recordEvaluation_evaluated in E1; [|done..]. rewrite Hs1 in E1.
  unfold mbind, action_bind in E. destruct (commitOr _ _ _ s4) as [[c|e] s5] eqn:Ec;
    apply commitOr_outcome in Ec as [[Hc ->]|([Hd|Hd] & [e' He] & Hm)]; simplify_eq.
  - unfold signal, modify in E. injection E as <- <-. right. exists next, transition. split; [exact E1|by left].
  - right. exists next, transition. rewrite Hd. split; [exact E1|right]. eauto.
  - left. by rewrite Hd.
Qed.

End Recorded.
