(* ===== verification/DispatchSafety.v ===== *)
(** The order of notifications: whatever fails and whatever others do, the
    dispatcher sends a notification only when it is open and every earlier one of
    its alert was delivered. *)

From S2P Require Import Prelude GoTime Hash GoJson Contracts AuditLog AuditStore Outbox Operations Dispatch OperationsSafety.

(** ** Due notifications *)

Section Due.
Context `{Hasher}.

Notation store := (Store OperationsTables).
Notation database := (Db OperationsTables).
Implicit Types db : database.

(** Every earlier notification of the same alert to the same destination was
    delivered. *)
Definition afterEarlier (db : database) (id : Z) (row : OutboxRow) (t : TransitionRow) : Prop :=
  forall id2 row2 t2, id2 < id -> outboxAt id2 db = Some row2 -> transitionOf db row2 = Some t2 ->
    tr_RecoveryEpoch t2 = tr_RecoveryEpoch t -> tr_AlertKey t2 = tr_AlertKey t -> ox_Destination row2 = ox_Destination row ->
    ox_Status row2 = "delivered".

(** A notification of a committed event that is the next one of its alert. *)
Definition queued (db : database) (d : OperationsDelivery) : Prop :=
  exists row t event, outboxAt (or_OutboxID (dl_Record d)) db = Some row
    /\ eventOf row db = Some event /\ dl_Event d = ev_Event event /\ ox_Destination row = operationsDestination
    /\ transitionOf db row = Some t /\ afterEarlier db (or_OutboxID (dl_Record d)) row t.

(** It may leave the process: it is open, and an attempt is left. *)
Definition mayBeSent (db : database) (d : OperationsDelivery) : Prop :=
  queued db d /\ exists row, outboxAt (or_OutboxID (dl_Record d)) db = Some row
    /\ openStatus (ox_Status row) = true /\ 0 <= ox_AttemptCount row < MaxDeliveryAttempts.

Lemma open_attempts db id row : ops_wf db -> outboxAt id db = Some row -> openStatus (ox_Status row) = true ->
  0 <= ox_AttemptCount row < MaxDeliveryAttempts.
Proof.
  intros W Hrow Ho. destruct (ow_scan _ (oz_outbox _ W) _ _ Hrow) as [record E].
  pose proof (scan_columns _ _ _ E) as (_ & _ & Hs & Hn & _ & _ & _ & _ & Hv). rewrite <- Hs in Ho. rewrite <- Hn.
  unfold validOutboxState, openStatus, MaxDeliveryAttempts in *. apply orb_true_iff in Ho as [Ho|Ho]; bool_hyps; rewrite Ho in Hv;
    cbn [orb] in Hv; repeat (split_match_in Hv; bool_hyps; try done); rewrite ?Z.eqb_eq in *; try lia; done.
Qed.

Lemma queued_continues db db' d : continues db db' -> queued db d -> queued db' d.
Proof.
  intros [R [l Hev] T] (row & t & event & Hrow & He & Hd & Hdest & Ht & Hearly).
  destruct (R _ _ Hrow) as (row' & Hrow' & [S _]). exists row', t, event. split_and!.
  - done.
  - apply (eventOf_app row event db db' l) in He; [|done]. unfold eventOf in *. by rewrite (sn_event _ _ S).
  - done.
  - by rewrite (sn_destination _ _ S).
  - rewrite (transitionOf_event db' row row') by apply S. by rewrite (T _ _ Hrow).
  - intros id2 row2' t2 Hlt Hrow2' Ht2 Hep Hkey Hdest2.
    assert (exists row2, outboxAt id2 db = Some row2) as [row2 Hrow2].
    { apply outboxAt_lookup in Hrow as [_ Hrow], Hrow2' as [Hpos _]. apply lookup_lt_Some in Hrow.
      destruct (lookup_lt_is_Some_2 (outbox db) (Z.to_nat (id2 - 1))) as [r Hr]; [lia|]. exists r. by apply outboxAt_lookup. }
    destruct (R _ _ Hrow2) as (row2'' & Hrow2'' & L). assert (row2'' = row2') as -> by congruence.
    eapply delivered_stays; [exact L|]. destruct L as [S2 _].
    rewrite (transitionOf_event db' row2 row2') in Ht2 by apply S2. rewrite (T _ _ Hrow2) in Ht2.
    rewrite (sn_destination _ _ S2), (sn_destination _ _ S) in Hdest2. by eapply Hearly.
Qed.

Lemma mayBeSent_kept db db' d : continues db db' -> kept db db' -> mayBeSent db d -> mayBeSent db' d.
Proof.
  intros F K [Q (row & Hrow & Ho & Hn)]. split; [by eapply queued_continues|]. exists row. split; [by apply K|done].
Qed.

Lemma numbered_rows db entry : entry ∈ numbered (outbox db) <-> outboxAt entry.1 db = Some entry.2.
Proof.
  unfold numbered. rewrite elem_of_lookup_imap. destruct entry as [id row]. split.
  - intros (i & x & [= -> ->] & Hx). apply outboxAt_lookup. cbn [fst snd]. split; [lia|].
    by replace (Z.to_nat (Z.of_nat i + 1 - 1)) with i by lia.
  - cbn [fst snd]. intros E. apply outboxAt_lookup in E as [Hid E]. exists (Z.to_nat (id - 1)), row. split; [|done]. f_equal. lia.
Qed.

Lemma dueIDs_spec destination epoch now db id : id ∈ dueIDs destination epoch now db ->
  exists row, outboxAt id db = Some row /\ dueRow db destination epoch now (id, row) = true.
Proof.
  unfold dueIDs. intros E. apply list_elem_of_In in E. assert (Hin : In id (map fst (List.filter (dueRow db destination epoch now) (numbered (outbox db))))).
  { rewrite <- (take_drop 20 (map fst _)). apply in_app_iff. by left. }
  apply in_map_iff in Hin as ([id' row] & Hid & Hf). cbn in Hid. subst id'. apply filter_In in Hf as [Hn Hd]. exists row. split; [|done].
  by apply list_elem_of_In, numbered_rows in Hn.
Qed.

Lemma dueRow_afterEarlier destination epoch now db id row : ops_wf db -> dueRow db destination epoch now (id, row) = true ->
  ox_Destination row = destination /\ openStatus (ox_Status row) = true
  /\ exists t, transitionOf db row = Some t /\ tr_RecoveryEpoch t = epoch /\ afterEarlier db id row t.
Proof.
  intros W Hd. unfold dueRow in Hd. cbn [fst snd] in Hd. destruct (transitionOf db row) as [t|] eqn:Ht; [|done]. bool_hyps.
  split_and!; [done..|]. exists t. split_and!; [done|by apply Z.eqb_eq|]. intros id2 row2 t2 Hlt Hrow2 Ht2 Hep Hkey Hdest.
  destruct (ow_scan _ (oz_outbox _ W) _ _ Hrow2) as [record E]. apply scan_status in E as [Hs _].
  destruct (decide (ox_Status row2 = "delivered")) as [|Hne]; [done|]. exfalso.
  match goal with Hn : existsb _ _ = false |- _ => enough (Hb : existsb (blocks db id row t) (numbered (outbox db)) = true); [by rewrite Hn in Hb|] end.
  apply existsb_exists. exists (id2, row2). split; [by apply list_elem_of_In, numbered_rows|]. unfold blocks. cbn [fst snd].
  rewrite Ht2, Hep, Hkey, Hdest, Z.eqb_refl, !bool_decide_refl. rewrite (proj2 (Z.ltb_lt _ _) Hlt).
  rewrite bool_decide_eq_true_2; [done|]. set_solver.
Qed.

Lemma readDelivery_Ok env id (s : store) d s' : readDelivery env id s = (Ok d, s') ->
  s' = s /\ or_OutboxID (dl_Record d) = id /\ exists row event, outboxAt id (st_db s) = Some row
    /\ scanOutboxRecord id row = Some (dl_Record d) /\ eventOf row (st_db s) = Some event /\ dl_Event d = ev_Event event.
Proof.
  unfold readDelivery. destruct (te_sql env _); [done|]. intros E. apply action_bind_Ok in E as (found & s1 & E1 & E).
  unfold gets in E1. injection E1 as <- <-. destruct (outboxAt id (st_db s)) as [row|]; [|discriminate E]. cbn [mbind option_bind] in E.
  destruct (scanOutboxRecord id row) as [record|] eqn:Es; [|discriminate E]. cbn [mbind option_bind] in E.
  apply action_bind_Ok in E as (found & s1 & E1 & E). apply rawQuery_Ok in E1 as [-> ->].
  destruct (eventOf row (st_db s)) as [event|] eqn:He; [|discriminate E]. destruct (CanonicalEvent _) as [[canonical digest]|]; [|discriminate E].
  apply action_bind_Ok in E as (u & s1 & E1 & E). apply check_Ok in E1 as [_ ->]. injection E as <- <-. cbn [dl_Record dl_Event].
  split; [done|]. split; [by apply scan_columns in Es as (_ & -> & _)|]. exists row, event. by split_and!.
Qed.

Lemma readDeliveries_Ok env ids (s : store) ds s' : readDeliveries env ids s = (Ok ds, s') ->
  s' = s /\ Forall2 (fun id d => exists s0, readDelivery env id s = (Ok d, s0)) ids ds.
Proof.
  revert ds s'. induction ids as [|id ids IH]; intros ds s' E; cbn [readDeliveries] in E.
  { injection E as <- <-. by split. }
  apply action_bind_Ok in E as (d & s1 & E1 & E). apply readDelivery_Ok in E1 as Hd. destruct Hd as [-> _].
  apply action_bind_Ok in E as (rest & s2 & E2 & E). apply IH in E2 as [-> F]. injection E as <- <-. eauto.
Qed.

Lemma due_queued env epoch now (s : store) due s' : ops_wf (st_db s) ->
  DueOperationsDeliveries env operationsDestination epoch now s = (Ok due, s') -> Forall (queued (st_db s)) due.
Proof.
  intros W E. unfold DueOperationsDeliveries in E. apply action_bind_Ok in E as (u & s1 & E1 & E).
  apply keeps_readyForRead in E1 as Hs1. apply action_bind_Ok in E as (h & s2 & E2 & E). unfold gets in E2. injection E2 as <- <-.
  apply action_bind_Ok in E as (u2 & s2 & E2 & E). apply check_Ok in E2 as [_ ->].
  apply action_bind_Ok in E as (ids & s2 & E2 & E). apply rawQuery_Ok in E2 as [Hids ->].
  apply readDeliveries_Ok in E as [_ F]. apply Forall_forall. intros d Hd.
  apply list_elem_of_lookup in Hd as [i Hi]. destruct (Forall2_lookup_r _ _ _ _ _ F Hi) as (id & Hid & s0 & E).
  apply list_elem_of_lookup_2 in Hid. apply readDelivery_Ok in E as (_ & Hd & row & event & Hrow & _ & He & Hde).
  rewrite Hids in Hid. apply dueIDs_spec in Hid as (row' & Hrow' & Hdue). rewrite Hs1 in *. assert (row' = row) as -> by congruence.
  apply dueRow_afterEarlier in Hdue as (Hdest & _ & t & Ht & _ & Hearly); [|done]. exists row, t, event. rewrite Hd. by split_and!.
Qed.

End Due.

(** ** The dispatcher *)

Section Dispatching.
Context `{Hasher} `{DispatchSurroundings}.

Notation store := (Store OperationsTables).

(** The store a trace leads to from [s0]. *)
Definition opsAfter (s0 : store) (tr : list DispatchEvent) : store :=
  performOperations (omap (fun event => match event with Performed call => Some call | Sent _ _ => None end) tr) s0.

Lemma performOperations_app l1 l2 (s : store) : performOperations (l1 ++ l2) s = performOperations l2 (performOperations l1 s).
Proof. apply fold_left_app. Qed.

Lemma opsAfter_app s0 tr1 tr2 : opsAfter s0 (tr1 ++ tr2) = opsAfter (opsAfter s0 tr1) tr2.
Proof. unfold opsAfter. by rewrite omap_app, performOperations_app. Qed.

Lemma opsAfter_performed s0 calls : opsAfter s0 (map Performed calls) = performOperations calls s0.
Proof. unfold opsAfter. f_equal. induction calls as [|call calls IH]; cbn; [done|]. by rewrite IH. Qed.

Section From.
Variable s0 : store.

(** Every notification was sent in a state in which it may be sent. *)
Definition inOrder (tr : list DispatchEvent) : Prop :=
  forall pre d accepted post, tr = pre ++ Sent d accepted :: post -> mayBeSent (st_db (opsAfter s0 pre)) d.

Lemma inOrder_snoc tr event : inOrder tr ->
  (forall d accepted, event = Sent d accepted -> mayBeSent (st_db (opsAfter s0 tr)) d) -> inOrder (tr ++ [event]).
Proof.
  intros Hin He pre d accepted post Htr. destruct post as [|x post _] using rev_ind.
  - apply app_inj_tail in Htr as [<- ->]. by eapply He.
  - rewrite app_comm_cons, app_assoc in Htr. apply app_inj_tail in Htr as [-> _]. by eapply Hin.
Qed.

Lemma inOrder_performed tr calls : inOrder tr -> inOrder (tr ++ map Performed calls).
Proof.
  revert tr. induction calls as [|call calls IH]; intros tr Hin; cbn [map]; [by rewrite app_nil_r|].
  change (Performed call :: map Performed calls) with ([Performed call] ++ map Performed calls). rewrite app_assoc.
  apply IH, inOrder_snoc; [done|]. discriminate.
Qed.

(** The invariant of the dispatcher *)
Record orderly (w : DispatchWorld) : Prop := {
  od_faithful : dw_store w = opsAfter s0 (dw_trace w);
  od_wf : ops_wf (st_db (dw_store w));
  od_order : inOrder (dw_trace w)
}.

Notation db w := (st_db (dw_store w)).

Lemma interrupted_orderly w : orderly w -> orderly (interrupted w) /\ continues (db w) (db (interrupted w)) /\ kept (db w) (db (interrupted w)).
Proof.
  intros [F W O]. destruct (performs_foreign (ds_others (dw_tick w)) (dw_store w) W (ds_foreign (dw_tick w))) as (W' & Fo & K).
  split; [|by split]. constructor; [|exact W'|by apply inOrder_performed]. cbn [interrupted dw_store dw_trace].
  by rewrite opsAfter_app, opsAfter_performed, <- F.
Qed.

Lemma ask_orderly {A} (oracle : nat -> A) w x w' : orderly w -> askSurroundings oracle w = (x, w') ->
  orderly w' /\ continues (db w) (db w') /\ kept (db w) (db w').
Proof. intros O [= _ <-]. by apply interrupted_orderly. Qed.

(** A call of the store, in the state [s1] it meets. *)
Lemma call_orderly {A} (call : TxEnv -> OperationsCall) (method : TxEnv -> action store A) w x w' :
  (forall env, proper (call env) = true) -> (forall env s, performOperation (call env) s = (method env s).2) ->
  orderly w -> callStore call method w = (x, w') ->
  orderly w' /\ continues (db w) (db w')
  /\ exists env s1, ops_wf (st_db s1) /\ continues (db w) (st_db s1) /\ method env s1 = (x, dw_store w').
Proof.
  intros Hp Hm O [= <- <-]. destruct (interrupted_orderly w O) as (O1 & F1 & _).
  set (env := ds_store (dw_tick w)) in *. cbn [dw_store]. rewrite <- Hm.
  destruct (perform_proper (call env) (dw_store (interrupted w)) (od_wf _ O1) (Hp env)) as [W2 F2]. split; [|split].
  - constructor; cbn [dw_store dw_trace]; [|exact W2|].
    + rewrite opsAfter_app. by rewrite <- (od_faithful _ O1 : _ = opsAfter s0 (dw_trace w ++ map Performed (ds_others (dw_tick w)))).
    + apply inOrder_snoc; [apply O1|]. discriminate.
  - by etransitivity.
  - exists env, (dw_store (interrupted w)). split; [apply O1|]. split; [done|]. rewrite Hm. by destruct (method env _).
Qed.

Lemma send_orderly d w x w' : orderly w -> mayBeSent (db w) d -> send d w = (x, w') -> orderly w' /\ continues (db w) (db w').
Proof.
  intros O M [= _ <-]. destruct (interrupted_orderly w O) as (O1 & F1 & K1). split; [|exact F1].
  constructor; cbn [dw_store dw_trace]; [|apply O1|].
  - rewrite opsAfter_app. by rewrite <- (od_faithful _ O1 : _ = opsAfter s0 (dw_trace w ++ map Performed (ds_others (dw_tick w)))).
  - apply inOrder_snoc; [apply O1|]. intros d' a [= <- _]. rewrite <- (od_faithful _ O1 : _ = opsAfter s0 (dw_trace w ++ map Performed (ds_others (dw_tick w)))). by eapply mayBeSent_kept.
Qed.

Lemma queued_all db db' due : continues db db' -> Forall (queued db) due -> Forall (queued db') due.
Proof. intros F Q. eapply Forall_impl; [exact Q|]. intros d. by apply queued_continues. Qed.

Lemma prepared_mayBeSent env d now s s' u : ops_wf (st_db s) -> queued (st_db s) d ->
  PrepareOperationsDelivery env d now s = (Ok u, s') -> mayBeSent (st_db s') d.
Proof.
  intros W Q E. apply prepare_outcome in E as [-> Hp]; [|done]. destruct (Hp eq_refl) as (row & event & Hrow & _ & Ho & _).
  split; [done|]. exists row. split_and!; [done..| |]; by eapply open_attempts.
Qed.

Lemma deliverDue_orderly now due : forall w r w', orderly w -> Forall (queued (db w)) due -> deliverDue now due w = (r, w') -> orderly w'.
Proof.
  induction due as [|d due IH]; intros w r w' O Q E; cbn [deliverDue] in E; [by injection E as _ <-|].
  unfold mbind, action_bind in E. destruct (askSurroundings ds_allowed w) as [ra w1] eqn:E1.
  destruct (ask_orderly _ _ _ _ O E1) as (O1 & F1 & _). apply (queued_all _ _ _ F1) in Q.
  destruct ra as [allowed|]; [|by injection E as _ <-]. destruct allowed; cbn [negb] in E; [|by injection E as _ <-].
  destruct (callStore _ _ w1) as [rp w2] eqn:E2. apply call_orderly in E2 as (O2 & F2 & env & s1 & W1 & Fs & E2); [|done..].
  destruct rp as [u|]; [|by injection E as _ <-].
  assert (M : mayBeSent (db w2) d).
  { eapply prepared_mayBeSent; [exact W1| |exact E2]. eapply queued_continues; [exact Fs|by inversion Q]. }
  apply (queued_all _ _ _ F2) in Q. destruct (send d w2) as [rs w3] eqn:E3. destruct (send_orderly _ _ _ _ O2 M E3) as (O3 & F3).
  apply (queued_all _ _ _ F3) in Q. destruct rs as [accepted|]; [|by injection E as _ <-].
  destruct (askSurroundings ds_clock w3) as [rc w4] eqn:E4. destruct (ask_orderly _ _ _ _ O3 E4) as (O4 & F4 & _).
  apply (queued_all _ _ _ F4) in Q. destruct rc as [at_|]; [|by injection E as _ <-].
  destruct (callStore _ _ w4) as [rr w5] eqn:E5. apply call_orderly in E5 as (O5 & F5 & _); [|done..].
  apply (queued_all _ _ _ F5) in Q. destruct rr as [v|]; [|by injection E as _ <-]. eapply IH; [exact O5|by inversion Q|exact E].
Qed.

Lemma dispatch_orderly w r w' : orderly w -> dispatch w = (r, w') -> orderly w'.
Proof.
  intros O E. unfold dispatch, mbind, action_bind in E. destruct (askSurroundings ds_allowed w) as [ra w1] eqn:E1.
  destruct (ask_orderly _ _ _ _ O E1) as (O1 & _ & _). destruct ra as [allowed|]; [|by injection E as _ <-].
  destruct allowed; cbn [negb] in E; [|by injection E as _ <-].
  destruct (callStore CallHealth _ w1) as [rh w2] eqn:E2. apply call_orderly in E2 as (O2 & _ & _); [|done..].
  destruct rh as [health|]; [|by injection E as _ <-].
  destruct (askSurroundings ds_clock w2) as [rc w3] eqn:E3. destruct (ask_orderly _ _ _ _ O2 E3) as (O3 & _ & _).
  destruct rc as [now|]; [|by injection E as _ <-].
  destruct (callStore _ _ w3) as [rd w4] eqn:E4. apply call_orderly in E4 as (O4 & F4 & env & s1 & W1 & _ & E4); [|done..].
  destruct rd as [due|]; [|by injection E as _ <-]. eapply deliverDue_orderly; [exact O4| |exact E].
  apply due_keeps in E4 as Hs. rewrite Hs. by eapply due_queued.
Qed.

Lemma dispatches_orderly n w : orderly w -> orderly (dispatches n w).
Proof.
  revert w. induction n as [|n IH]; intros w O; [done|]. cbn [dispatches]. apply IH.
  destruct (dispatch w) as [r w'] eqn:E. by eapply dispatch_orderly.
Qed.

End From.

(** C12: in every execution of the dispatcher, under every clock, failure of the
    store, interleaved observation or other intent, gate and answer of the
    destination, a notification leaves the process only while its row is open with
    an attempt left, with the committed audit event of a recorded transition, and
    after every earlier notification of the same alert, recovery epoch and
    destination was recorded as delivered. *)
Theorem notifications_in_order n s0 : ops_wf (st_db s0) ->
  forall pre d accepted post, dw_trace (dispatches n (dispatcherFrom s0)) = pre ++ Sent d accepted :: post ->
  mayBeSent (st_db (opsAfter s0 pre)) d.
Proof.
  intros W. apply (od_order s0), dispatches_orderly. constructor; [done|exact W|]. intros [|? ?] ? ? ? E; discriminate E.
Qed.

(** C14: in every sequence of calls, of the dispatcher and of others, every row of
    the outbox stays, with its event, destination, payload and digests; the
    attempts only grow and never exceed the bound; a row that is delivered, dead or
    paused never changes again; and every row carries the canonical payload of a
    committed event. *)
Theorem notifications_life_cycle calls s : ops_wf (st_db s) -> Forall (fun call => proper call = true) calls ->
  let db := st_db s in let db' := st_db (performOperations calls s) in
  (forall id row, outboxAt id db = Some row -> exists row', outboxAt id db' = Some row' /\ sameNotification row row'
     /\ 0 <= ox_AttemptCount row <= ox_AttemptCount row' /\ ox_AttemptCount row' <= MaxDeliveryAttempts
     /\ (openStatus (ox_Status row) = false -> row' = row))
  /\ (forall id row, outboxAt id db' = Some row -> exists event, eventOf row db' = Some event /\ payloadExact row event = true).
Proof.
  intros W Hc. destruct (performs_proper calls s W Hc) as [W' F]. cbv zeta. split; [|apply W'].
  intros id row Hrow. destruct (fo_rows _ _ F _ _ Hrow) as (row' & Hrow' & S & L). exists row'.
  destruct (ow_scan _ (oz_outbox _ W) _ _ Hrow) as [r Er]. destruct (ow_scan _ (oz_outbox _ W') _ _ Hrow') as [r' Er'].
  apply scan_status in Er as [_ Hn], Er' as [_ Hn']. split_and!; try done; try lia.
  - destruct L as [->|(_ & ? & _)]; lia.
  - intros Ho. destruct L as [->|(Ho' & _)]; [done|]. congruence.
Qed.

End Dispatching.
