(* ===== verification/DispatchProgress.v ===== *)
(** The progress of notifications: while nothing fails and the destination accepts,
    every dispatch delivers what is due, until everything is delivered. *)

From S2P Require Import Prelude GoTime Hash GoJson Contracts AuditLog AuditStore Outbox Operations Dispatch OperationsSafety DispatchSafety.

(** ** The columns of an attempt *)

Lemma fracDigits_length k n : (String.length (fracDigits k n) <= k)%nat.
Proof. revert n. induction k as [|k IH]; intros n; cbn [fracDigits]; [done|]. case_match; cbn; [lia|]. specialize (IH (n mod 10 ^ Z.of_nat k)). lia. Qed.

Lemma formatAuditTime_column t : fourDigitYear (UTC t) = true -> columnTime (formatAuditTime t) = true.
Proof.
  intros Hy. unfold columnTime, formatAuditTime, FormatRFC3339Nano, formatWith. unfold fourDigitYear in Hy.
  change (zone (UTC t)) with (@None Z) in *. cbn [from_option] in *. rewrite Z.mul_0_l, Z.add_0_r in *.
  destruct (civilFromDays _) as [[year month] day]. unfold formatYear. rewrite Hy. unfold pad4, pad2, formatZone.
  rewrite !length_app_string. cbn [String.length].
  match goal with |- context [if ?b then "" else _] => destruct b end; cbn [String.length]; [done|].
  change (String.length ("." +:+ ?x)) with (S (String.length x)).
  pose proof (fracDigits_length 9 (ns (UTC t) mod Second)) as Hl. apply andb_true_iff. split; apply Nat.leb_le; lia.
Qed.

Section Quiet.
Context `{Hasher} {T : Type}.
Implicit Types db : Db T.

(** A row whose attempt is due at a time, in either order of times. *)
Definition dueAt (now : Time) (id : Z) (row : OutboxRow) : Prop :=
  openStatus (ox_Status row) = true
  /\ (exists record, scanOutboxRecord id row = Some record /\ notDue record now = false)
  /\ match ox_NextAttemptAt row with Some next => String.leb next (formatAuditTime now) = true | None => True end.

(** A time a row can be stamped with *)
Definition stamps (now : Time) : Prop := validAt now = true /\ fourDigitYear now = true.

Definition deliveredRow (now : Time) (row : OutboxRow) : OutboxRow :=
  attempted "delivered" (ox_AttemptCount row + 1) None None (formatAuditTime now) (Some (formatAuditTime now)) row.

Lemma stamps_UTC now : stamps now -> UTC now = now.
Proof. intros [Hv _]. unfold validAt, isUTC in Hv. bool_hyps. destruct now as [n z]. cbn in *. by subst. Qed.

Lemma stamps_parse now : stamps now -> parseAuditTime (formatAuditTime now) = Some now.
Proof. intros S. rewrite parseAuditTime_format; rewrite stamps_UTC by done; [done|apply S]. Qed.

Lemma scan_delivered id row record now : stamps now -> scanOutboxRecord id row = Some record -> notDue record now = false ->
  0 <= ox_AttemptCount row < MaxDeliveryAttempts -> is_Some (scanOutboxRecord id (deliveredRow now row)).
Proof.
  intros S E Hd Hn. unfold scanOutboxRecord in E. case_match eqn:Hg; [done|].
  apply bind_Some in E as (created & Ec & E). apply bind_Some in E as (updated & Eu & E).
  apply bind_Some in E as (next & En & E). apply bind_Some in E as (code & Eo & E).
  apply bind_Some in E as (delivered & Ed & E). cbv zeta in E. case_match eqn:Hs; [done|]. injection E as <-.
  unfold notDue in Hd. cbn [or_UpdatedAt] in Hd. unfold Before in *. bool_hyps.
  unfold scanOutboxRecord, deliveredRow, attempted.
  cbn [ox_EventID ox_Destination ox_PayloadSHA256 ox_DedupeSHA256 ox_Status ox_AttemptCount ox_NextAttemptAt ox_LastErrorCode
       ox_CreatedAt ox_UpdatedAt ox_DeliveredAt scanTime].
  repeat match goal with Hx : ?b = _ |- context [negb ?b] => rewrite Hx end. unfold MaxDeliveryAttempts in *.
  rewrite Ec, !stamps_parse by done. rewrite !(proj2 (Z.leb_gt _ _)) by done. rewrite !(proj2 (Z.ltb_ge _ _)) by lia.
  cbn [orb negb mbind option_bind fmap option_fmap option_map]. unfold Before. rewrite (proj2 (Z.ltb_ge _ _)) by lia.
  unfold validOutboxState. cbn [or_AttemptCount or_NextAttemptAt or_LastErrorCode or_DeliveredAt or_Status isNil].
  rewrite (proj2 (Z.ltb_lt _ _)) by lia. by eexists.
Qed.

Lemma delivered_checks now row : stamps now -> 0 <= ox_AttemptCount row < MaxDeliveryAttempts -> outboxChecks (deliveredRow now row) = true.
Proof.
  intros S Hn. assert (Hc : columnTime (formatAuditTime now) = true) by (apply formatAuditTime_column; rewrite stamps_UTC by done; apply S).
  unfold outboxChecks, deliveredRow, attempted, MaxDeliveryAttempts in *.
  cbn [ox_Status ox_AttemptCount ox_NextAttemptAt ox_LastErrorCode ox_UpdatedAt ox_DeliveredAt nullOr isNil]. rewrite Hc.
  rewrite !(proj2 (Z.leb_le _ _)) by lia. done.
Qed.

(** A store that accepts mutations *)
Definition usable (store : Store T) : Prop :=
  st_closed store = false /\ h_Ready (st_health store) = true /\ h_MutationEnabled (st_health store) = true.

Lemma ready_quiet clock (store : Store T) : usable store -> readyForTransaction (quietEnv clock) store = (Ok tt, store).
Proof. intros (Hc & Hr & Hm). by apply readyForTransaction_quiet. Qed.

Lemma read_quiet clock (store : Store T) : usable store -> readyForRead (quietEnv clock) store = (Ok tt, store).
Proof. intros (Hc & _). unfold readyForRead, mbind, action_bind, gets, check, lift. rewrite Hc. reflexivity. Qed.

(** One step of an action, and a check that holds *)
Lemma bind_step {S A B} (m : action S A) (f : A -> action S B) (s s' : S) x : m s = (Ok x, s') -> (m ≫= f) s = f x s'.
Proof. unfold mbind, action_bind. by intros ->. Qed.

Lemma check_step {S} (b : bool) e (s : S) : b = true -> check b e s = (Ok tt, s).
Proof. by intros ->. Qed.

Lemma sql_step {A} clock st (run : Db T -> SqlError + (A * Db T)) (store : Store T) x db :
  run (st_db store) = inr (x, db) -> sql (quietEnv clock) st run store = (Ok x, withDb db store).
Proof. unfold sql. cbn [te_sql quietEnv]. by intros ->. Qed.

Lemma query_step clock id row record missing (store : Store T) : outboxAt id (st_db store) = Some row ->
  scanOutboxRecord id row = Some record -> queryRecord (quietEnv clock) id missing store = (Ok record, store).
Proof. unfold queryRecord. cbn [te_sql quietEnv]. unfold mbind, action_bind, gets. by intros -> ->. Qed.

Lemma rollback_step {A} db (m : action (Store T) A) store x store' : m store = (Ok x, store') -> rollback db m store = (Ok x, store').
Proof. unfold rollback. by intros ->. Qed.

(** An accepted attempt that is due *)
Lemma attempt_quiet clock id row record now (store : Store T) : usable store -> stamps now ->
  outboxAt id (st_db store) = Some row -> scanOutboxRecord id row = Some record -> openStatus (ox_Status row) = true ->
  notDue record now = false -> 0 <= ox_AttemptCount row < MaxDeliveryAttempts ->
  exists updated, RecordOutboxAttempt (quietEnv clock) (mkOutboxAttempt id (ox_AttemptCount row) true false "" now) store
    = (Ok updated, withDb (withRow id (deliveredRow now row) (st_db store)) store).
Proof.
  intros U S Hrow Hscan Ho Hdue Hn. destruct (scan_delivered _ _ _ _ S Hscan Hdue Hn) as [updated Hup]. exists updated.
  pose proof (scan_columns _ _ _ Hscan) as (Hid & _ & Hst & Hcount & _).
  assert (Ha : afterAttempt record (mkOutboxAttempt id (ox_AttemptCount row) true false "" now) row = deliveredRow now row)
    by (unfold afterAttempt, deliveredRow; by rewrite Hcount).
  unfold RecordOutboxAttempt. erewrite bind_step.
  2: { apply check_step. unfold validateOutboxAttempt. cbn [oa_OutboxID oa_ExpectedAttempt oa_Delivered oa_Retryable oa_ErrorCode oa_AttemptedAt].
       destruct S as [-> _]. unfold MaxDeliveryAttempts in *. rewrite !(proj2 (Z.ltb_lt _ _)), (proj2 (Z.leb_le _ _)) by lia. done. }
  erewrite bind_step by by apply ready_quiet. unfold transact. cbn [te_sql quietEnv].
  erewrite bind_step; [reflexivity|]. apply rollback_step. unfold attemptInTx. cbn [oa_OutboxID oa_ExpectedAttempt oa_AttemptedAt].
  erewrite bind_step by by eapply query_step.
  erewrite bind_step by (apply check_step; by rewrite Hst, Hcount, bool_decide_refl).
  erewrite bind_step by (apply check_step; by rewrite Hdue).
  erewrite bind_step.
  2: { apply sql_step. unfold updateOutbox. rewrite Hrow, Hst, Hcount, !bool_decide_refl. cbn [andb].
       rewrite Ha, delivered_checks by done. reflexivity. }
  erewrite bind_step by (apply check_step; apply bool_decide_refl).
  erewrite bind_step; [reflexivity|]. eapply query_step; [|exact Hup]. cbn [st_db withDb].
  change (setOutbox _ (st_db store)) with (withRow id (deliveredRow now row) (st_db store)).
  by rewrite (outboxAt_withRow _ _ _ _ _ Hrow), decide_True.
Qed.

(** An exact payload that is due *)
Lemma payload_quiet clock id row record event now (store : Store T) : usable store -> stamps now ->
  outboxAt id (st_db store) = Some row -> scanOutboxRecord id row = Some record -> eventOf row (st_db store) = Some event ->
  payloadExact row event = true -> openStatus (ox_Status row) = true -> notDue record now = false ->
  payloadForAttempt (quietEnv clock) id now store = (Ok (ox_PayloadBytes row), store).
Proof.
  intros U [Sv Sy] Hrow Hscan He Hx Ho Hdue. pose proof (scan_columns _ _ _ Hscan) as (Hid & _ & _ & _ & _ & _ & Hnext & _).
  unfold payloadForAttempt. erewrite bind_step by (apply check_step; by rewrite Sv, (proj2 (Z.ltb_lt _ _) Hid)).
  erewrite bind_step by by apply ready_quiet. unfold transact. cbn [te_sql quietEnv].
  erewrite (bind_step _ _ _ store (inr (ox_PayloadBytes row))); [reflexivity|]. apply rollback_step. unfold payloadInTx.
  erewrite bind_step by by apply sql_step. rewrite withDb_same, Hrow. cbn [mbind option_bind]. rewrite He. cbn [mbind option_bind].
  erewrite bind_step by by apply check_step. rewrite Hx. erewrite bind_step; [reflexivity|].
  unfold notDue in Hdue. destruct (ox_NextAttemptAt row) as [next|]; [|done].
  cbn [scanTime] in Hnext. destruct (parseAuditTime next) as [due|]; [|done]. cbn in Hnext. injection Hnext as Hnext. rewrite <- Hnext in Hdue.
  apply orb_false_iff in Hdue as [_ Hdue]. by apply check_step; rewrite Hdue.
Qed.

End Quiet.

(** ** One round of deliveries *)

Section Progress.
Context `{Hasher} `{DispatchSurroundings}.

Notation store := (Store OperationsTables).
Notation database := (Db OperationsTables).

(** A reading of the clock *)
Definition reading (n : nat) : Time := UTC (ds_clock n).

(** Nothing fails, no other client calls the store, notifications are allowed, the
    destination accepts, and the readings of the clock can be stored. *)
Record calm : Prop := {
  qt_clock : forall n, stamps (reading n);
  qt_store : forall n, exists clock, ds_store n = quietEnv clock;
  qt_others : forall n, ds_others n = [];
  qt_allowed : forall n, ds_allowed n = true;
  qt_accepts : forall n event, ds_deliver n event = true
}.

Variable epoch : Z.
Hypothesis Hcalm : calm.

(** The notifications of an epoch to the destination of the dispatcher *)
Definition notification (db : database) (row : OutboxRow) : bool :=
  match transitionOf db row with
  | Some t => (tr_RecoveryEpoch t =? epoch) && (ox_Destination row == operationsDestination)
  | None => false
  end.

Definition openNotification (db : database) (row : OutboxRow) : bool := notification db row && openStatus (ox_Status row).

Definition openNotifications (db : database) : nat := length (List.filter (openNotification db) (outbox db)).

(** The tables of a usable store in which every notification of the epoch is
    delivered or due whenever the clock is read. *)
Record deliverable (s : store) : Prop := {
  dv_wf : ops_wf (st_db s);
  dv_usable : usable s;
  dv_epoch : rt_RecoveryEpoch (h_Revision (st_health s)) = epoch;
  dv_rows : forall id row, outboxAt id (st_db s) = Some row -> notification (st_db s) row = true ->
    ox_Status row = "delivered" \/ forall n, dueAt (reading n) id row
}.

(** A delivery as it was read from the store *)
Definition fresh (db : database) (d : OperationsDelivery) : Prop :=
  exists row event, outboxAt (or_OutboxID (dl_Record d)) db = Some row /\ scanOutboxRecord (or_OutboxID (dl_Record d)) row = Some (dl_Record d)
    /\ eventOf row db = Some event /\ dl_Event d = ev_Event event /\ openNotification db row = true.

Lemma filter_replaced {A} (f : A -> bool) (l : list A) i x y : l !! i = Some x -> f x = true -> f y = false ->
  S (length (List.filter f (<[i := y]> l))) = length (List.filter f l).
Proof.
  intros Hx Hfx Hfy. revert i Hx. induction l as [|z l IH]; intros [|i] Hx; [done|done|..]; cbn in Hx.
  - injection Hx as ->. cbn. by rewrite Hfx, Hfy.
  - change (<[S i := y]> (z :: l)) with (z :: <[i := y]> l). cbn [List.filter]. specialize (IH _ Hx). destruct (f z); cbn [length]; lia.
Qed.

(** The store after an accepted notification *)
Definition delivered (n : nat) (id : Z) (row : OutboxRow) (s : store) : store :=
  withDb (withRow id (deliveredRow (reading n) row) (st_db s)) s.

Lemma delivered_progress clock n id row record s : deliverable s -> outboxAt id (st_db s) = Some row -> scanOutboxRecord id row = Some record ->
  openNotification (st_db s) row = true ->
  (exists updated, RecordOutboxAttempt (quietEnv clock) (mkOutboxAttempt id (or_AttemptCount record) true false "" (reading n)) s = (Ok updated, delivered n id row s))
  /\ deliverable (delivered n id row s) /\ continues (st_db s) (st_db (delivered n id row s))
  /\ S (openNotifications (st_db (delivered n id row s))) = openNotifications (st_db s).
Proof.
  intros D Hrow Hscan Ho. apply andb_true_iff in Ho as [Hn Ho].
  pose proof (scan_columns _ _ _ Hscan) as (_ & _ & _ & -> & _).
  destruct (dv_rows _ D _ _ Hrow Hn) as [Hs|Hdues]; [by rewrite Hs in Ho|].
  destruct (Hdues n) as (_ & (record' & Hscan' & Hdue) & _). assert (record' = record) as -> by congruence.
  destruct (attempt_quiet clock id row record (reading n) s) as [updated E];
    try done; [apply D|apply (qt_clock Hcalm)|by eapply open_attempts; [apply D|..]|].
  destruct (attempt_effect _ _ _ _ _ (dv_wf _ D) E) as [W F]. split; [by exists updated|]. split; [|split; [exact F|]].
  - constructor; [exact W|apply D|apply D|]. unfold delivered. cbn [st_db withDb]. intros i r Hr Hnr.
    rewrite (outboxAt_withRow _ _ _ _ _ Hrow) in Hr. case_decide; [|by apply (dv_rows _ D)]. injection Hr as <-. by left.
  - apply outboxAt_lookup in Hrow as [_ Hrow]. unfold openNotifications. cbn [st_db delivered withDb withRow setOutbox outbox].
    apply (filter_replaced (openNotification (st_db s)) _ _ row); [done|unfold openNotification; by rewrite Hn, Ho|].
    unfold openNotification. apply andb_false_iff. by right.
Qed.

Lemma prepare_quiet clock n d s : deliverable s -> fresh (st_db s) d ->
  PrepareOperationsDelivery (quietEnv clock) d (reading n) s = (Ok tt, s).
Proof.
  intros D (row & event & Hrow & Hscan & He & Hde & Ho). apply andb_true_iff in Ho as [Hn Ho].
  destruct (dv_rows _ D _ _ Hrow Hn) as [Hs|Hdues]; [by rewrite Hs in Ho|].
  destruct (Hdues n) as (_ & (record & Hscan' & Hdue) & _). assert (record = dl_Record d) as -> by congruence.
  pose proof (exact_rows _ (dv_wf _ D) _ _ _ Hrow He) as Hx. unfold PrepareOperationsDelivery.
  erewrite bind_step by (eapply payload_quiet; try done; [apply D|apply (qt_clock Hcalm)]). rewrite Hde. unfold payloadExact in Hx. apply andb_true_iff in Hx as [Hx Hc].
  destruct (CanonicalEvent (ev_Event event)) as [[canonical digest]|]; [|done].
  pose proof (scan_columns _ _ _ Hscan) as (_ & _ & _ & _ & Hsha & _). bool_hyps. apply check_step.
  rewrite Hsha. apply andb_true_iff; split; apply bool_decide_eq_true_2; congruence.
Qed.

(** ** The dispatcher *)

Notation db w := (st_db (dw_store w)).

Lemma calm_interrupted w : dw_store (interrupted w) = dw_store w.
Proof. unfold interrupted. cbn [dw_store]. by rewrite (qt_others Hcalm). Qed.

Lemma calm_ask {A} (oracle : nat -> A) w : exists n w', askSurroundings oracle w = (Ok (oracle n), w') /\ dw_store w' = dw_store w.
Proof. exists (dw_tick w), (interrupted w). split; [done|apply calm_interrupted]. Qed.

Lemma calm_call {A} call (method : TxEnv -> action store A) w x s :
  (forall clock, exists y, method (quietEnv clock) (dw_store w) = (y, s) /\ (forall z, y = Ok z -> x z) /\ is_ok y = true) ->
  exists z w', callStore call method w = (Ok z, w') /\ x z /\ dw_store w' = s.
Proof.
  intros Hm. destruct (qt_store Hcalm (dw_tick w)) as [clock Hc]. destruct (Hm clock) as (y & E & Hy & Hok).
  unfold callStore. rewrite Hc, calm_interrupted, E. destruct y as [z|]; [|done]. cbn [fst snd].
  eexists z, _. split; [reflexivity|]. cbn [dw_store]. auto.
Qed.

Lemma calm_send d w : exists w', send d w = (Ok true, w') /\ dw_store w' = dw_store w.
Proof.
  unfold send. rewrite (qt_accepts Hcalm). eexists. split; [reflexivity|]. apply calm_interrupted.
Qed.

Lemma deliverDue_progress n due : forall w, deliverable (dw_store w) -> NoDup (map (fun d => or_OutboxID (dl_Record d)) due) ->
  Forall (fresh (db w)) due ->
  exists w', deliverDue (reading n) due w = (Ok tt, w') /\ deliverable (dw_store w') /\ continues (db w) (db w')
    /\ (openNotifications (db w') + length due = openNotifications (db w))%nat.
Proof.
  induction due as [|d due IH]; intros w D Hnd Hf; cbn [deliverDue].
  { exists w. split_and!; [done..|cbn; lia]. }
  apply Forall_cons in Hf as [Hd Hf]. cbn [map] in Hnd. apply NoDup_cons in Hnd as [Hnew Hnd].
  destruct (calm_ask ds_allowed w) as (n1 & w1 & E1 & S1). erewrite bind_step by exact E1. rewrite (qt_allowed Hcalm). cbn [negb].
  destruct (calm_call (fun env => CallPrepare env d (reading n)) (fun env => PrepareOperationsDelivery env d (reading n)) w1 (fun _ => True) (dw_store w)) as (u & w2 & E2 & _ & S2).
  { intros clock. exists (Ok tt). rewrite S1. split; [by apply prepare_quiet|done]. }
  erewrite bind_step by exact E2. destruct (calm_send d w2) as (w3 & E3 & S3). erewrite bind_step by exact E3.
  destruct (calm_ask ds_clock w3) as (n4 & w4 & E4 & S4). erewrite bind_step by exact E4.
  destruct Hd as (row & event & Hrow & Hscan & He & Hde & Ho). set (id := or_OutboxID (dl_Record d)) in *.
  destruct (calm_call (fun env => CallAttempt env (attemptOf d true (ds_clock n4))) (fun env => RecordOutboxAttempt env (attemptOf d true (ds_clock n4)))
    w4 (fun _ => True) (delivered n4 id row (dw_store w))) as (v & w5 & E5 & _ & S5).
  { intros clock. destruct (delivered_progress clock n4 id row _ _ D Hrow Hscan Ho) as ([updated E] & _). exists (Ok updated).
    rewrite S4, S3, S2. done. }
  erewrite bind_step by exact E5. destruct (delivered_progress (reading 0) n4 id row _ _ D Hrow Hscan Ho) as (_ & D5 & F5 & N5). rewrite <- S5 in D5, F5, N5.
  destruct (IH w5 D5 Hnd) as (w' & E & D' & F' & N').
  - apply Forall_forall. intros d' Hin. destruct (proj1 (Forall_forall _ _) Hf d' Hin) as (row' & event' & Hrow' & Hscan' & He' & Hde' & Ho').
    exists row', event'.
    rewrite S5. split_and!; try done. unfold delivered. cbn [st_db withDb]. rewrite (outboxAt_withRow _ _ _ _ _ Hrow), decide_False; [done|].
    intros Heq. apply Hnew. rewrite <- Heq. by apply list_elem_of_In, (in_map (fun d => or_OutboxID (dl_Record d))), list_elem_of_In.
  - exists w'. split_and!; [exact E|exact D'|by etransitivity|cbn [length]; lia].
Qed.

(** ** What is due *)

Lemma numbered_rows_NoDup (rows : list OutboxRow) : NoDup (map fst (numbered rows)).
Proof.
  assert (E : map fst (numbered rows) = map (fun i => Z.of_nat i + 1) (seq 0 (length rows))).
  { unfold numbered. apply list_eq. intros i. rewrite !list_lookup_fmap, list_lookup_imap.
    destruct (rows !! i) as [row|] eqn:Hr; cbn.
    - apply lookup_lt_Some in Hr. by rewrite lookup_seq_lt.
    - apply lookup_ge_None in Hr. by rewrite lookup_seq_ge. }
  rewrite E. assert (Hinj : Inj (=) (=) (fun i => Z.of_nat i + 1)) by (intros i j; lia). apply (NoDup_fmap_2 _), NoDup_seq.
Qed.

Lemma map_filter_NoDup {A B} (f : A -> B) (p : A -> bool) l : NoDup (map f l) -> NoDup (map f (List.filter p l)).
Proof.
  induction l as [|x l IH]; cbn; [done|]. intros [Hx Hl]%NoDup_cons. destruct (p x); cbn; [|by apply IH].
  apply NoDup_cons. split; [|by apply IH]. intros Hin. apply Hx. apply list_elem_of_In, in_map_iff in Hin as (y & Hy & Hin).
  apply filter_In in Hin as [Hin _]. apply list_elem_of_In, in_map_iff. by exists y.
Qed.

Lemma dueIDs_NoDup destination e at_ (d : database) : NoDup (dueIDs destination e at_ d).
Proof.
  unfold dueIDs. eapply sublist_NoDup; [|apply sublist_take]. apply map_filter_NoDup, numbered_rows_NoDup.
Qed.

(** The oldest open notification is not blocked. *)
Lemma oldest_due n s : deliverable s -> (0 < openNotifications (st_db s))%nat ->
  exists id row, outboxAt id (st_db s) = Some row /\ dueRow (st_db s) operationsDestination epoch (formatAuditTime (reading n)) (id, row) = true.
Proof.
  intros D Hpos. unfold openNotifications in Hpos.
  destruct (list_find (fun row => openNotification (st_db s) row = true) (outbox (st_db s))) as [[i row]|] eqn:E.
  2: { exfalso. apply list_find_None in E. destruct (List.filter _ _) as [|row l] eqn:Hf; [cbn in Hpos; lia|].
       assert (Hin : In row (List.filter (openNotification (st_db s)) (outbox (st_db s)))) by (rewrite Hf; by left).
       apply filter_In in Hin as [Hin Ho]. rewrite Forall_forall in E. by eapply E; [apply list_elem_of_In|]. }
  apply list_find_Some in E as (Hi & Ho & Hmin). exists (Z.of_nat i + 1), row.
  assert (Hrow : outboxAt (Z.of_nat i + 1) (st_db s) = Some row).
  { apply outboxAt_lookup. split; [lia|]. by replace (Z.to_nat (Z.of_nat i + 1 - 1)) with i by lia. }
  split; [exact Hrow|]. unfold dueRow. cbn [fst snd]. unfold openNotification, notification in Ho.
  destruct (transitionOf (st_db s) row) as [t|] eqn:Ht; [|done]. apply andb_true_iff in Ho as [Hn Ho]. rewrite Hn, Ho.
  assert (Hnot : notification (st_db s) row = true) by (unfold notification; by rewrite Ht).
  destruct (dv_rows _ D _ _ Hrow Hnot) as [Hs|Hdues]; [by rewrite Hs in Ho|].
  destruct (Hdues n) as (_ & _ & Hnext). cbn [andb].
  assert (Hx : existsb (blocks (st_db s) (Z.of_nat i + 1) row t) (numbered (outbox (st_db s))) = false).
  { apply not_true_is_false. intros Hb. apply existsb_exists in Hb as ([id2 row2] & Hin & Hb). apply list_elem_of_In, numbered_rows in Hin.
    cbn [fst snd] in Hin. unfold blocks in Hb. cbn [fst snd] in Hb. destruct (transitionOf (st_db s) row2) as [t2|] eqn:Ht2; [|done].
    apply andb_true_iff in Hb as [Hb Hblock]. bool_hyps. assert (Hn2 : notification (st_db s) row2 = true).
    { unfold notification. rewrite Ht2. apply andb_true_iff. split; [lia|]. apply bool_decide_eq_true_2. congruence. }
    destruct (dv_rows _ D _ _ Hin Hn2) as [Hs|Hdues2].
    { rewrite Hs in Hblock. revert Hblock. refine (bool_decide_eq_false_1 _ _). vm_compute. reflexivity. }
    destruct (Hdues2 n) as [Ho2 _]. pose proof (proj1 (outboxAt_lookup _ _ _) Hin) as [Hp Hl].
    apply (Hmin _ _ Hl); [lia|]. unfold openNotification. by rewrite Hn2, Ho2. }
  rewrite Hx, andb_true_r. destruct (ox_NextAttemptAt row); [exact Hnext|done].
Qed.

Lemma readDelivery_quiet clock id row s : deliverable s -> outboxAt id (st_db s) = Some row -> openNotification (st_db s) row = true ->
  exists d, readDelivery (quietEnv clock) id s = (Ok d, s) /\ or_OutboxID (dl_Record d) = id /\ fresh (st_db s) d.
Proof.
  intros D Hrow Ho. destruct (ow_scan _ (oz_outbox _ (dv_wf _ D)) _ _ Hrow) as [record Hscan].
  destruct (ow_exact _ (oz_outbox _ (dv_wf _ D)) _ _ Hrow) as (event & He & Hx).
  pose proof (scan_columns _ _ _ Hscan) as (_ & Hid & _ & _ & Hsha & _).
  exists (mkOperationsDelivery record (ev_Event event)). cbn [dl_Record]. split; [|split; [done|]].
  - unfold readDelivery. cbn [te_sql quietEnv]. erewrite bind_step by reflexivity. rewrite Hrow. cbn [mbind option_bind]. rewrite Hscan.
    cbn [mbind option_bind]. erewrite bind_step by (unfold rawQuery, rawSql; cbn [te_sql quietEnv]; by rewrite withDb_same). rewrite He.
    unfold payloadExact in Hx. apply andb_true_iff in Hx as [Hx Hc]. destruct (CanonicalEvent (ev_Event event)) as [[canonical digest]|]; [|done].
    bool_hyps. erewrite bind_step; [reflexivity|]. apply check_step, andb_true_iff. split; apply bool_decide_eq_true_2; congruence.
  - exists row, event. cbn [dl_Record dl_Event]. by rewrite Hid.
Qed.

Lemma readDeliveries_quiet clock s ids : deliverable s ->
  Forall (fun id => exists row, outboxAt id (st_db s) = Some row /\ openNotification (st_db s) row = true) ids ->
  exists due, readDeliveries (quietEnv clock) ids s = (Ok due, s) /\ map (fun d => or_OutboxID (dl_Record d)) due = ids /\ Forall (fresh (st_db s)) due.
Proof.
  intros D. induction 1 as [|id ids (row & Hrow & Ho) _ (due & E & Hids & F)]; cbn [readDeliveries]; [by exists []|].
  destruct (readDelivery_quiet clock id row s D Hrow Ho) as (d & Ed & Hid & Fd). exists (d :: due).
  erewrite bind_step by exact Ed. erewrite bind_step by exact E. split; [reflexivity|]. cbn [map]. rewrite Hid, Hids. auto.
Qed.

Lemma due_quiet n s : deliverable s -> exists due, (forall clock,
    exists y, DueOperationsDeliveries (quietEnv clock) operationsDestination epoch (reading n) s = (y, s) /\ (forall z, y = Ok z -> z = due) /\ is_ok y = true)
  /\ NoDup (map (fun d => or_OutboxID (dl_Record d)) due) /\ Forall (fresh (st_db s)) due
  /\ ((0 < openNotifications (st_db s))%nat -> (0 < length due)%nat).
Proof.
  intros D. set (ids := dueIDs operationsDestination epoch (formatAuditTime (reading n)) (st_db s)).
  assert (Hids : Forall (fun id => exists row, outboxAt id (st_db s) = Some row /\ openNotification (st_db s) row = true) ids).
  { apply Forall_forall. intros id Hid. apply dueIDs_spec in Hid as (row & Hrow & Hdue). exists row. split; [done|].
    apply dueRow_afterEarlier in Hdue as (Hdest & Ho & t & Ht & Hep & _); [|apply D]. unfold openNotification, notification.
    rewrite Ht, Ho, Hep, Hdest, Z.eqb_refl, bool_decide_refl. done. }
  destruct (readDeliveries_quiet (reading n) s ids D Hids) as (due & _ & Hmap & F). exists due. split_and!; [|by rewrite Hmap; apply dueIDs_NoDup|done|].
  - intros clock. destruct (readDeliveries_quiet clock s ids D Hids) as (due' & E & Hmap' & F').
    assert (due' = due) as ->.
    { clear E. apply list_eq_Forall2. rewrite <- Hmap in Hmap'. clear -F F' Hmap'. revert due F Hmap'. induction F' as [|d' due' (row' & event' & Hr' & Hs' & He' & Hd' & _) _ IH];
        intros [|d due] F Hmap; try done. cbn [map] in Hmap. injection Hmap as Hid Hmap. apply Forall_cons in F as [(row & event & Hr & Hs & He & Hd & _) F].
      constructor; [|by apply IH]. rewrite Hid in Hr', Hs'. assert (row' = row) as -> by congruence. destruct d as [r v], d' as [r' v']. cbn in *. congruence. }
    exists (Ok due). split; [|naive_solver]. unfold DueOperationsDeliveries. erewrite bind_step by (apply read_quiet, D).
    erewrite bind_step by reflexivity. erewrite bind_step by (apply check_step; rewrite (dv_epoch _ D); apply Z.eqb_refl).
    erewrite bind_step by (unfold rawQuery, rawSql; cbn [te_sql quietEnv]; by rewrite withDb_same). exact E.
  - intros Hpos. destruct (oldest_due n s D Hpos) as (id & row & Hrow & Hdue).
    assert (Hin : In id (map fst (List.filter (dueRow (st_db s) operationsDestination epoch (formatAuditTime (reading n))) (numbered (outbox (st_db s)))))).
    { apply in_map_iff. exists (id, row). split; [done|]. apply filter_In. split; [|done]. by apply list_elem_of_In, numbered_rows. }
    rewrite <- (length_map (fun d => or_OutboxID (dl_Record d))), Hmap. unfold ids, dueIDs. destruct (map fst _); [done|cbn; lia].
Qed.

Lemma dispatch_progress w : deliverable (dw_store w) -> exists w', dispatch w = (Ok tt, w') /\ deliverable (dw_store w') /\ continues (db w) (db w')
  /\ (openNotifications (db w') <= openNotifications (db w) - 1)%nat.
Proof.
  intros D. unfold dispatch. destruct (calm_ask ds_allowed w) as (n1 & w1 & E1 & S1). erewrite bind_step by exact E1.
  rewrite (qt_allowed Hcalm). cbn [negb].
  destruct (calm_call CallHealth readHealth w1 (fun h => h = st_health (dw_store w)) (dw_store w)) as (health & w2 & E2 & Hh & S2).
  { intros clock. exists (Ok (st_health (dw_store w))). rewrite S1. split; [|naive_solver]. unfold readHealth.
    erewrite bind_step by reflexivity. destruct (dv_usable _ D) as [-> _]. done. }
  erewrite bind_step by exact E2. destruct (calm_ask ds_clock w2) as (n3 & w3 & E3 & S3). erewrite bind_step by exact E3.
  rewrite Hh, (dv_epoch _ D). fold (reading n3). destruct (due_quiet n3 _ D) as (due & Hdue & Hnd & F & Hpos).
  destruct (calm_call (fun env => CallDue env operationsDestination epoch (reading n3)) (fun env => DueOperationsDeliveries env operationsDestination epoch (reading n3))
    w3 (fun z => z = due) (dw_store w)) as (due' & w4 & E4 & -> & S4).
  { intros clock. rewrite S3, S2. apply Hdue. }
  erewrite bind_step by exact E4. destruct (deliverDue_progress n3 due w4) as (w' & E & D' & F' & N); [by rewrite S4|done|by rewrite S4|].
  rewrite S4 in F', N. exists w'. split_and!; [exact E|exact D'|exact F'|]. destruct (openNotifications (db w)) eqn:Hn; [lia|].
  specialize (Hpos ltac:(lia)). lia.
Qed.

Lemma dispatches_progress n : forall w, deliverable (dw_store w) -> deliverable (dw_store (dispatches n w)) /\ continues (db w) (db (dispatches n w))
  /\ (openNotifications (db (dispatches n w)) <= openNotifications (db w) - n)%nat.
Proof.
  induction n as [|n IH]; intros w D; cbn [dispatches]; [split_and!; [done..|lia]|].
  destruct (dispatch_progress w D) as (w' & E & D' & F & N). rewrite E. cbn [snd]. destruct (IH w' D') as (D2 & F2 & N2).
  split_and!; [exact D2|by etransitivity|lia].
Qed.

End Progress.

(** C13: all notifications get delivered once they are all due. Start from a
    well-formed, usable store in which every notification of the current epoch to
    the dispatcher's destination is delivered or due at every reading of the clock
    (the clock need not stand still, nor even go forward). While no call fails, no
    other client calls the store, notifications are allowed and the destination
    accepts each of them, each of these notifications is recorded as delivered after as
    many rounds as there are open ones, although a round sends at most one
    notification of an alert and twenty in all. That all have to be due is needed:
    one that is not yet due can end a round before others are sent
    ([undue_retry_ends_round]). *)
Theorem notifications_get_delivered `{Hasher} `{DispatchSurroundings} epoch s0 n :
  calm -> deliverable epoch s0 -> (openNotifications epoch (st_db s0) <= n)%nat ->
  forall id row, outboxAt id (st_db s0) = Some row -> notification epoch (st_db s0) row = true ->
  exists row', outboxAt id (st_db (dw_store (dispatches n (dispatcherFrom s0)))) = Some row' /\ ox_Status row' = "delivered".
Proof.
  intros Hc D Hn id row Hrow Hnot. destruct (dispatches_progress epoch Hc n (dispatcherFrom s0) D) as (D' & F & N).
  cbn [dispatcherFrom dw_store] in F, N. set (s := dw_store (dispatches n (dispatcherFrom s0))) in *.
  destruct (fo_rows _ _ F _ _ Hrow) as (row' & Hrow' & [S _]). exists row'. split; [done|].
  assert (Hn' : notification epoch (st_db s) row' = true).
  { unfold notification in *. rewrite (transitionOf_event _ row row') by apply S. rewrite (fo_transitions _ _ F _ _ Hrow).
    by rewrite (sn_destination _ _ S). }
  destruct (dv_rows _ _ D' _ _ Hrow' Hn') as [|Hdues]; [done|]. destruct (Hdues 0%nat) as [Ho _]. exfalso.
  assert (Hin : In row' (List.filter (openNotification epoch (st_db s)) (outbox (st_db s)))).
  { apply filter_In. split; [|unfold openNotification; by rewrite Hn', Ho]. apply outboxAt_lookup in Hrow' as [_ Hl].
    by eapply list_elem_of_In, list_elem_of_lookup_2. }
  unfold openNotifications in N. destruct (List.filter _ (outbox (st_db s))); [done|]. cbn [length] in N. unfold openNotifications in Hn. lia.
Qed.
