(* ===== verification/OperationsWitnesses.v ===== *)
(** An alert that opens and closes, and its two notifications, to which the
    theorems about alerts and notifications are applied. *)

From S2P Require Import Prelude GoTime Hash GoJson Contracts AuditLog AuditStore Outbox Operations Dispatch.
From S2P Require Import OperationsSafety AlertLife DispatchSafety DispatchProgress.

#[local] Existing Instance Checksum.

Definition laterBy (n : Z) : Time := mkTime (ns demoTime + n * Second) None.

Definition alertActor : Attribution := mkAttribution "operator-1" "local-peer" (Some "operator-1") None.

Definition sampleObservation (state : string) (n : Z) (target : string) : Observation :=
  mkObservation (hashString target) "source-health" state "critical" (laterBy n) (laterBy n) (state == "healthy").

Definition sampleObserve (state : string) (n : Z) (target : string) : OperationsCall :=
  CallObserve (quietEnv (laterBy n)) (mkRevisionToken 0 0) (sampleObservation state n target) alertActor operationsDestination.

Definition noOperations : Store OperationsTables := readyStore (emptyDb (mkOperationsTables ∅ [])).

(** Two sources fail, and one of them recovers. *)
Definition sampleObservations : list OperationsCall :=
  [sampleObserve "failed" 1 "source-1"; sampleObserve "failed" 2 "source-2"; sampleObserve "healthy" 3 "source-1"].

Notation alerted := (performOperations sampleObservations noOperations).

Lemma noOperations_wf : ops_wf (st_db noOperations).
Proof.
  constructor; [constructor; cbn; try done; constructor|constructor|].
  - intros id row E. apply outboxAt_lookup in E as [_ E]. cbn in E. by rewrite lookup_nil in E.
  - intros id row E. apply outboxAt_lookup in E as [_ E]. cbn in E. by rewrite lookup_nil in E.
  - intros digest row E. cbn in E. by rewrite lookup_empty in E.
Qed.

Lemma alerted_wf : ops_wf (st_db alerted).
Proof. apply performs_proper; [apply noOperations_wf|]. repeat constructor. Qed.

(** Three notifications are pending; the last waits for the first. *)
Lemma alerted_rows : map (fun row => (ox_EventID row, ox_Status row)) (outbox (st_db alerted)) = [(1, "pending"); (2, "pending"); (3, "pending")].
Proof. vm_compute. reflexivity. Qed.

(** A world in which nothing fails, and whose clock goes forth and back *)
Definition calmClock (n : nat) : Time := if Nat.even n then laterBy 61 else laterBy 60.

Definition calmWorld : DispatchSurroundings :=
  {| ds_clock := calmClock; ds_store _ := quietEnv (laterBy 60); ds_others _ := []; ds_allowed _ := true; ds_deliver _ _ := true;
     ds_foreign _ := List.Forall_nil _ |}.

#[local] Existing Instance calmWorld.

Lemma calm_readings (P : Time -> Prop) : P (laterBy 60) -> P (laterBy 61) -> forall n, P (reading n).
Proof.
  intros H0 H1 n. unfold reading. cbn [ds_clock calmWorld]. unfold calmClock.
  destruct (Nat.even n); [exact H1|exact H0].
Qed.

Lemma minute_stamps : stamps (laterBy 60) /\ stamps (laterBy 61).
Proof. unfold stamps. vm_compute. by split_and!. Qed.

Lemma calmWorld_calm : calm.
Proof.
  constructor; [|intros n; by eexists|done..]. exact (calm_readings stamps (proj1 minute_stamps) (proj2 minute_stamps)).
Qed.

(** A world whose destination refuses at first, while another observation comes
    in between *)
Definition roughWorld : DispatchSurroundings.
Proof.
  refine {| ds_clock n := laterBy (60 * (1 + Z.of_nat n)); ds_store n := quietEnv (laterBy (60 * (1 + Z.of_nat n)));
     ds_others n := if (n =? 3)%nat then [sampleObserve "failed" 50 "source-1"] else []; ds_allowed _ := true;
     ds_deliver n _ := (8 <? n)%nat |}.
  intros n. destruct (n =? 3)%nat; repeat constructor.
Defined.

Notation roughTrace := (dw_trace (dispatches (H0 := roughWorld) 3 (dispatcherFrom alerted))).

(** The second notification of the first alert was sent after the first one. *)
Definition sentClosing (event : DispatchEvent) : bool :=
  match event with Sent d accepted => (or_OutboxID (dl_Record d) =? 3) && accepted | Performed _ => false end.

Lemma roughTrace_closing : existsb sentClosing roughTrace = true.
Proof. vm_compute. reflexivity. Qed.

Lemma notifications_in_order_witness : ops_wf (st_db alerted) /\ exists pre d post, roughTrace = pre ++ Sent d true :: post
  /\ or_OutboxID (dl_Record d) = 3 /\ mayBeSent (st_db (opsAfter alerted pre)) d.
Proof.
  split; [exact alerted_wf|]. pose proof (notifications_in_order (H0 := roughWorld) 3 alerted alerted_wf) as T.
  pose proof roughTrace_closing as Hc. apply existsb_exists in Hc as (event & Hin & Hs). apply in_split in Hin as (pre & post & E).
  destruct event as [call|d accepted]; [discriminate Hs|]. cbn [sentClosing] in Hs. apply andb_true_iff in Hs as [Hid Ha]. subst accepted.
  exists pre, d, post. split; [exact E|]. split; [by apply Z.eqb_eq|]. exact (T pre d true post E).
Defined.

Lemma sampleObservations_proper : Forall (fun call => proper call = true) sampleObservations.
Proof. repeat constructor. Qed.

Lemma notifications_life_cycle_witness : ops_wf (st_db noOperations) /\ Forall (fun call => proper call = true) sampleObservations
  /\ forall id row, outboxAt id (st_db alerted) = Some row -> exists event, eventOf row (st_db alerted) = Some event /\ payloadExact row event = true.
Proof.
  split; [exact noOperations_wf|]. split; [exact sampleObservations_proper|].
  exact (proj2 (notifications_life_cycle sampleObservations noOperations noOperations_wf sampleObservations_proper)).
Defined.

(** Every row is due. *)
Definition isDue (now : Time) (entry : Z * OutboxRow) : bool :=
  openStatus (ox_Status entry.2)
  && match scanOutboxRecord entry.1 entry.2 with Some record => negb (notDue record now) | None => false end
  && isNil (ox_NextAttemptAt entry.2).

Lemma isDue_dueAt now id row : isDue now (id, row) = true -> dueAt now id row.
Proof.
  unfold isDue. cbn [fst snd]. intros Hd. apply andb_true_iff in Hd as [Hd Hn]. apply andb_true_iff in Hd as [Ho Hd]. split; [exact Ho|]. split.
  - destruct (scanOutboxRecord id row) as [record|]; [|done]. exists record. split; [done|]. by apply negb_true_iff.
  - apply isNil_None in Hn. by rewrite Hn.
Qed.

Definition acceptsMutations (epoch : Z) (s : Store OperationsTables) : bool :=
  negb (st_closed s) && h_Ready (st_health s) && h_MutationEnabled (st_health s) && (rt_RecoveryEpoch (h_Revision (st_health s)) =? epoch).

Lemma all_due_deliverable epoch s : ops_wf (st_db s) -> acceptsMutations epoch s = true ->
  forallb (isDue (laterBy 60)) (numbered (outbox (st_db s))) = true ->
  forallb (isDue (laterBy 61)) (numbered (outbox (st_db s))) = true -> deliverable epoch s.
Proof.
  intros W Hu H0 H1. unfold acceptsMutations in Hu. bool_hyps. constructor; [exact W|by split_and!|by apply Z.eqb_eq|].
  intros id row Hrow _. right. assert (Hin : In (id, row) (numbered (outbox (st_db s)))) by (by apply list_elem_of_In, numbered_rows).
  rewrite forallb_forall in H0, H1. exact (calm_readings (fun t => dueAt t id row)
    (isDue_dueAt _ _ _ (H0 _ Hin)) (isDue_dueAt _ _ _ (H1 _ Hin))).
Qed.

(** The row with a key, which is a notification. *)
Definition notifies (epoch : Z) (id : Z) (db : Db OperationsTables) : bool :=
  match outboxAt id db with Some row => notification epoch db row | None => false end.

Lemma notifies_spec epoch id db : notifies epoch id db = true -> exists row, outboxAt id db = Some row /\ notification epoch db row = true.
Proof. unfold notifies. destruct (outboxAt id db) as [row|]; [by exists row|done]. Qed.

Lemma alerted_isDue : forallb (isDue (laterBy 60)) (numbered (outbox (st_db alerted))) = true
  /\ forallb (isDue (laterBy 61)) (numbered (outbox (st_db alerted))) = true.
Proof. vm_compute. by split. Qed.

Lemma alerted_accepts : acceptsMutations 0 alerted = true.
Proof. vm_compute. reflexivity. Qed.

Lemma alerted_deliverable : deliverable 0 alerted.
Proof. exact (all_due_deliverable 0 alerted alerted_wf alerted_accepts (proj1 alerted_isDue) (proj2 alerted_isDue)). Qed.

Lemma alerted_open : openNotifications 0 (st_db alerted) = 3%nat.
Proof. vm_compute. reflexivity. Qed.

Lemma alerted_third : notifies 0 3 (st_db alerted) = true.
Proof. vm_compute. reflexivity. Qed.

Lemma notifications_get_delivered_witness : calm /\ deliverable 0 alerted
  /\ openNotifications 0 (st_db alerted) = 3%nat
  /\ exists row', outboxAt 3 (st_db (dw_store (dispatches 3 (dispatcherFrom alerted)))) = Some row' /\ ox_Status row' = "delivered".
Proof.
  split; [exact calmWorld_calm|]. split; [exact alerted_deliverable|]. split; [exact alerted_open|].
  destruct (notifies_spec 0 3 (st_db alerted) alerted_third) as (row & Hrow & Hnot).
  refine (notifications_get_delivered 0 alerted 3 calmWorld_calm alerted_deliverable _ 3 row Hrow Hnot).
  rewrite alerted_open. apply Nat.le_refl.
Defined.

(** The first observation of a source *)
Definition firstObservation : result Alert * Store OperationsTables :=
  RecordOperationsObservation (quietEnv (laterBy 1)) (mkRevisionToken 0 0) (sampleObservation "failed" 1 "source-1") alertActor
    operationsDestination noOperations.

Lemma firstObservation_recorded : length (outbox (st_db firstObservation.2)) = 1%nat.
Proof. vm_compute. reflexivity. Qed.

Lemma observation_recorded_at_once_witness :
  intent_keys (st_db noOperations) !! observationKey (sampleObservation "failed" 1 "source-1") = None
  /\ exists alert transition, evaluated (mkRevisionToken 0 0) (sampleObservation "failed" 1 "source-1") operationsDestination
       (st_db noOperations) alert transition (st_db firstObservation.2).
Proof.
  assert (Hk : intent_keys (st_db noOperations) !! observationKey (sampleObservation "failed" 1 "source-1") = None) by apply lookup_empty.
  split; [exact Hk|].
  destruct (observation_recorded_at_once (quietEnv (laterBy 1)) (mkRevisionToken 0 0) (sampleObservation "failed" 1 "source-1") alertActor
    operationsDestination noOperations firstObservation.1 firstObservation.2 Hk (surjective_pairing firstObservation))
    as [[E _]|(alert & transition & Ev & _)].
  - exfalso. pose proof firstObservation_recorded as Hl. rewrite E in Hl. discriminate Hl.
  - exists alert, transition. exact Ev.
Defined.

(** ** A retry that is not due ends the round *)

(** The first notification was refused at half a second past: its retry is due half
    a second after the dispatch. Its column sorts before the whole second, so that
    it is selected, is then refused as not due, and the second notification, which
    is due, is not sent. *)
Definition halfPast (n : Z) : Time := mkTime (ns (laterBy n) + 500000000) None.

Notation refused := (performOperation (CallAttempt (quietEnv (halfPast 10))
  (mkOutboxAttempt 1 0 false true "DESTINATION_UNAVAILABLE" (halfPast 10))) alerted).

Definition roundWorld (n : Z) : DispatchSurroundings :=
  {| ds_clock _ := laterBy n; ds_store _ := quietEnv (laterBy n); ds_others _ := []; ds_allowed _ := true; ds_deliver _ _ := true;
     ds_foreign _ := List.Forall_nil _ |}.

Definition sentIDs (tr : list DispatchEvent) : list Z :=
  omap (fun event => match event with Sent d _ => Some (or_OutboxID (dl_Record d)) | Performed _ => None end) tr.

Definition roundOf (n : Z) : result unit * list Z :=
  let (answer, w) := dispatch (H0 := roundWorld n) (dispatcherFrom refused) in (answer, sentIDs (dw_trace w)).

Lemma undue_retry_ends_round :
  roundOf 40 = (Err (Coded StateConflict "outbox-not-due"), []) /\ roundOf 39 = (Ok tt, [2]).
Proof. vm_compute. split_and!; reflexivity. Qed.
